(** * DSView backend: execution tracing and step synthesis

  A shallow embedding of the Python sources under [src/fastapi/app] that
  the properties below are about:

  - [utils/execution_helpers.py] and [api/controllers/playground.py]
    (module [Controller]);
  - [services/simulators/operations/behavior_analyzer.py]
    (module [BehaviorAnalyzer]);
  - [services/simulators/operations/complexity_analyzer.py]
    (module [ComplexityAnalyzer]);
  - the trace wrapper of [services/simulators/interactive_python_executor.py]
    (modules [Serializer] and [Wrapper]);
  - [services/simulators/direct_code_executor.py] (module [Executor]).

  Python values are modelled as the code handles them: strings as [string],
  integers as [Z], dictionaries with string keys as association lists kept
  with unique keys, exceptions as an explicit [Raise] outcome. *)

From Stdlib Require Import ZArith Lia Bool.
From Stdlib Require Import Ascii String.
From stdpp Require Import base option list gmap strings pretty.

Set Warnings "-register-all".
Open Scope string_scope.
Open Scope Z_scope.
Open Scope list_scope.

(** ** Python strings *)

Module Py.

Definition nl : ascii := ascii_of_nat 10.
Definition NL : string := String nl "".

(** [str.lower()] on ASCII text. *)
Definition lower_ascii (c : ascii) : ascii :=
  let n := nat_of_ascii c in
  if (65 <=? n)%nat && (n <=? 90)%nat then ascii_of_nat (n + 32) else c.

Fixpoint lower (s : string) : string :=
  match s with
  | EmptyString => EmptyString
  | String c s' => String (lower_ascii c) (lower s')
  end.

Definition startswith (p s : string) : bool := String.prefix p s.

(** [sub in s] *)
Fixpoint contains (sub s : string) : bool :=
  if String.prefix sub s then true
  else match s with
       | EmptyString => false
       | String _ s' => contains sub s'
       end.

(** [str.isspace] on ASCII: tab .. carriage return, the four separators
    0x1c .. 0x1f, and the blank. *)
Definition is_space (c : ascii) : bool :=
  let n := nat_of_ascii c in
  ((9 <=? n)%nat && (n <=? 13)%nat) || ((28 <=? n)%nat && (n <=? 32)%nat).

Fixpoint lstrip (s : string) : string :=
  match s with
  | EmptyString => EmptyString
  | String c s' => if is_space c then lstrip s' else s
  end.

Definition is_empty (s : string) : bool :=
  match s with EmptyString => true | _ => false end.

Fixpoint rstrip (s : string) : string :=
  match s with
  | EmptyString => EmptyString
  | String c s' =>
      let r := rstrip s' in
      if is_empty r && is_space c then EmptyString else String c r
  end.

Definition strip (s : string) : string := rstrip (lstrip s).

(** [s.rstrip('\n')] *)
Fixpoint rstrip_nl (s : string) : string :=
  match s with
  | EmptyString => EmptyString
  | String c s' =>
      let r := rstrip_nl s' in
      if is_empty r && Ascii.eqb c nl then EmptyString else String c r
  end.

Fixpoint endswith_nl (s : string) : bool :=
  match s with
  | EmptyString => false
  | String c EmptyString => Ascii.eqb c nl
  | String _ s' => endswith_nl s'
  end.

(** [s.split(sep)] for a non-empty separator: [skip] counts the characters
    of a separator occurrence that are still to be dropped. *)
Fixpoint split_go (sep : string) (skip : nat) (acc s : string) : list string :=
  match s with
  | EmptyString => [acc]
  | String c s' =>
      match skip with
      | S n => split_go sep n acc s'
      | O =>
          if String.prefix sep s
          then acc :: split_go sep (String.length sep - 1) "" s'
          else split_go sep 0 (acc +:+ String c "") s'
      end
  end.

Definition split (sep s : string) : list string := split_go sep 0 "" s.

Definition split_lines (s : string) : list string := split NL s.

(** [sep.join(l)] *)
Fixpoint join (sep : string) (l : list string) : string :=
  match l with
  | [] => ""
  | [x] => x
  | x :: l' => x +:+ sep +:+ join sep l'
  end.

(** [str(n)] for an [int]. *)
Definition str_int (n : Z) : string := pretty n.

End Py.

(** ** JSON-like values

  What crosses the process boundary and what a step's [state] dictionary
  holds. A float is kept as its [repr]. *)

Inductive jval : Type :=
| JNone
| JBool (b : bool)
| JInt (n : Z)
| JFloat (repr : string)
| JStr (s : string)
| JList (l : list jval)
| JDict (d : list (string * jval)).

Abbreviation dict := (list (string * jval)).

Module Dict.

(** [d.get(k)] *)
Fixpoint get {A} (k : string) (d : list (string * A)) : option A :=
  match d with
  | [] => None
  | (k', v) :: d' => if String.eqb k k' then Some v else get k d'
  end.

(** [d[k] = v]: overwrite in place or append. *)
Fixpoint set {A} (k : string) (v : A) (d : list (string * A)) : list (string * A) :=
  match d with
  | [] => [(k, v)]
  | (k', v') :: d' =>
      if String.eqb k k' then (k, v) :: d' else (k', v') :: set k v d'
  end.

Definition has {A} (k : string) (d : list (string * A)) : bool :=
  match get k d with Some _ => true | None => false end.

End Dict.

(** Python truthiness of a JSON-like value. *)
Definition truthy (v : jval) : bool :=
match v with
| JNone => false
| JBool b => b
| JInt n => negb (n =? 0)
| JFloat r => negb (String.eqb r "0.0" || String.eqb r "-0.0")
| JStr s => negb (Py.is_empty s)
| JList l => match l with [] => false | _ => true end
| JDict d => match d with [] => false | _ => true end
end.

(** ** Exceptions and outcomes *)

Inductive exn_class :=
| AttributeError | ValueError | NotImplementedError | TimeoutError
| TypeError | IndexError | OtherException (name : string).

Record exn := Exn { exn_cls : exn_class; exn_msg : string }.

Inductive outcome (A : Type) : Type :=
| Return (a : A)
| Raise (e : exn).
Arguments Return {A} a.
Arguments Raise {A} e.

Definition bind {A B} (x : outcome A) (f : A -> outcome B) : outcome B :=
  match x with Return a => f a | Raise e => Raise e end.

Definition is_timeout_error (e : exn) : bool :=
match exn_cls e with TimeoutError => true | _ => false end.

(** ** [schemas/playground.py] *)

Module Schemas.

(** [StepStatus = Literal["success", "error", "timeout", "waiting"]] *)
Inductive StepStatus := success | error | timeout | waiting.

Definition StepStatus_str (s : StepStatus) : string :=
  match s with
  | success => "success" | error => "error"
  | timeout => "timeout" | waiting => "waiting"
  end.

Record ExecutionStepSchema := {
  stepNumber : Z;
  line : Z;
  code : string;
  state : dict
}.

Record ExecutionCreateRequest := {
  req_code : string;
  req_dataType : option string;
  req_inputValues : option (list string);
  req_autoDetect : option bool
}.

(** [DataType] literal of the request schema. *)
Definition DataType : list string :=
  ["stack"; "singlylinkedlist"; "doublylinkedlist"; "binarysearchtree";
   "undirectedgraph"; "directedgraph"; "queue"; "auto"].

Record FunctionComplexity := {
  functionName : string;
  timeComplexity : string;
  spaceComplexity : string;
  lineStart : Z;
  lineEnd : Z;
  timeComplexityRank : Z
}.

Record ComplexityAnalysis := {
  ca_timeComplexity : string;
  ca_spaceComplexity : string;
  ca_functionComplexities : option (list FunctionComplexity)
}.

Record ExecutionResponse := {
  executionId : string;
  resp_code : string;
  resp_dataType : option string;
  steps : list ExecutionStepSchema;
  totalSteps : Z;
  status : StepStatus;
  errorMessage : option string;
  executedAt : Z;
  createdAt : Z;
  output : option string;
  complexity : option ComplexityAnalysis
}.

End Schemas.
Import Schemas.

(** Python's [len] of a list, as an [int]. *)
Definition len {A} (l : list A) : Z := Z.of_nat (length l).

(** ** [utils/execution_helpers.py] *)

Module ExecutionHelper.

Definition create_success_response (exec_id code : string) (data_type : option string)
    (steps : list ExecutionStepSchema) (created_at : Z) (output : option string)
  : ExecutionResponse :=
  {| executionId := exec_id; resp_code := code; resp_dataType := data_type;
     steps := steps; totalSteps := len steps; status := success;
     errorMessage := None; executedAt := created_at; createdAt := created_at;
     output := output; complexity := None |}.

(** [steps=None] is the Python default; it is replaced by the empty list. *)
Definition create_error_response (exec_id code : string) (data_type : option string)
    (error_message : string) (created_at : Z)
    (steps : option (list ExecutionStepSchema)) : ExecutionResponse :=
  let steps := match steps with None => [] | Some l => l end in
  {| executionId := exec_id; resp_code := code; resp_dataType := data_type;
     steps := steps; totalSteps := len steps; status := error;
     errorMessage := Some error_message;
     executedAt := created_at; createdAt := created_at;
     output := None; complexity := None |}.

End ExecutionHelper.

(** ** [api/controllers/playground.py] *)

Module Controller.

(** What an instance attribute of the controller may hold. *)
Inductive attribute :=
| SimulatorFactory
| Detector (detect_from_code : string -> option string).

(** The controller object: its instance dictionary. *)
Record ExecuteController := { instance_dict : list (string * attribute) }.

(** [ExecuteController.__init__]: the only attribute it sets is
    [simulator_factory]. *)
Definition __init__ : ExecuteController :=
  {| instance_dict := [("simulator_factory", SimulatorFactory)] |}.

Definition getattr (self : ExecuteController) (name : string) : outcome attribute :=
  match Dict.get name (instance_dict self) with
  | Some a => Return a
  | None =>
      Raise (Exn AttributeError
               ("'ExecuteController' object has no attribute '" +:+ name +:+ "'"))
  end.

(** [SimulatorFactory._simulators], keys only. *)
Definition _simulators : list string :=
  ["stack"; "singlylinkedlist"; "doublylinkedlist"; "binarysearchtree";
   "graph"; "undirectedgraph"; "directedgraph"; "queue"].

Definition supported_types_repr : string :=
  "['stack', 'singlylinkedlist', 'doublylinkedlist', 'binarysearchtree', " +:+
  "'graph', 'undirectedgraph', 'directedgraph', 'queue']".

(** [SimulatorFactory.is_supported]; [None.lower()] raises. *)
Definition is_supported (data_type : option string) : outcome bool :=
  match data_type with
  | None => Raise (Exn AttributeError "'NoneType' object has no attribute 'lower'")
  | Some dt => Return (bool_decide (Py.lower dt ∈ _simulators))
  end.

(** [self.simulator_factory.is_supported(data_type)] *)
Definition factory_is_supported (self : ExecuteController) (data_type : option string)
  : outcome bool :=
  match getattr self "simulator_factory" with
  | Raise e => Raise e
  | Return SimulatorFactory => is_supported data_type
  | Return (Detector _) =>
      Raise (Exn AttributeError
               "'DataStructureDetector' object has no attribute 'is_supported'")
  end.

(** What the controller observes of the world around it. *)
Inductive event :=
| GeneratedExecutionId
| CreatedSimulator (data_type : string)
| Executed (data_type code : string) (input_values : list string).

(** The collaborators of one request: the identifier and clock readings,
    the simulator run under [asyncio.wait_for] (which either returns the
    step list or raises, [TimeoutError] when the budget is exceeded), the
    complexity analysis ([None] when it raised) and Python's [str]. *)
Record Env := {
  exec_id : string;
  now : Z;
  execute_with_timeout : string -> string -> list string -> outcome (list ExecutionStepSchema);
  analyze_complexity : string -> option ComplexityAnalysis;
  py_str : jval -> string
}.

(** Lines 72-74: the error a step reports, when its state is a non-empty
    dictionary whose ["error"] entry is a non-blank string. *)
Definition step_error (step : ExecutionStepSchema) : option string :=
  match state step with
  | [] => None
  | st =>
      match Dict.get "error" st with
      | Some (JStr e) => if negb (Py.is_empty (Py.strip e)) then Some e else None
      | _ => None
      end
  end.

(** Lines 70-76: the error of the first step that reports one. *)
Fixpoint find_error (steps : list ExecutionStepSchema) : option string :=
  match steps with
  | [] => None
  | step :: rest =>
      match step_error step with
      | Some e => Some e
      | None => find_error rest
      end
  end.

(** Lines 85-96: the last step with a truthy [stdout]. *)
Fixpoint find_output (env : Env) (rev_steps : list ExecutionStepSchema) : option string :=
  match rev_steps with
  | [] => None
  | step :: rest =>
      match Dict.get "stdout" (state step) with
      | Some v =>
          if truthy v then
            match v with
            | JList l =>
                Some (Py.join Py.NL (map (fun s => match s with JStr x => x | _ => py_str env s end) l))
            | JStr x => Some x
            | _ => Some (py_str env v)
            end
          else find_output env rest
      | None => find_output env rest
      end
  end.

(** Lines 99-101. *)
Definition is_waiting (steps : list ExecutionStepSchema) : bool :=
  match last steps with
  | Some s => match Dict.get "waiting_for_input" (state s) with
              | Some v => truthy v
              | None => false
              end
  | None => false
  end.

Definition default_list (o : option (list string)) : list string :=
  match o with Some l => l | None => [] end.

(** [run_code_guest]: the events observed so far and the outcome. *)
Definition run_code_guest (env : Env) (self : ExecuteController)
    (request : ExecutionCreateRequest) : list event * outcome ExecutionResponse :=
  let code := Py.strip (req_code request) in
  let data_type := req_dataType request in
  let input_values := default_list (req_inputValues request) in
  let unset := match data_type with
               | None => true
               | Some dt => Py.is_empty dt || String.eqb dt "auto"
               end in
  let auto := unset || match req_autoDetect request with Some b => b | None => false end in
  (* lines 36-48 *)
  let detected : outcome (option string) :=
    if auto then
      match getattr self "detector" with
      | Raise e => Raise e
      | Return (Detector detect_from_code) =>
          match detect_from_code code with
          | Some dt => Return (Some dt)
          | None =>
              if unset then
                Raise (Exn ValueError
                  ("Could not auto-detect data structure type. " +:+
                   "Please specify dataType explicitly. " +:+
                   "Supported types: " +:+ supported_types_repr))
              else Return data_type
          end
      | Return SimulatorFactory =>
          Raise (Exn AttributeError
                   "'SimulatorFactory' object has no attribute 'detect_from_code'")
      end
    else Return data_type in
  match detected with
  | Raise e => ([], Raise e)
  | Return data_type =>
      (* lines 50-55 *)
      match factory_is_supported self data_type with
      | Raise e => ([], Raise e)
      | Return false =>
          ([], Raise (Exn NotImplementedError
                 ("DataType '" +:+ default "None" data_type +:+ "' not supported yet. " +:+
                  "Supported types: " +:+ supported_types_repr)))
      | Return true =>
          let dt := default "" data_type in
          let created_at := now env in
          let evs := [GeneratedExecutionId; CreatedSimulator dt;
                      Executed dt code input_values] in
          (* lines 60-153 *)
          match execute_with_timeout env dt code input_values with
          | Return steps =>
              match find_error steps with
              | Some error_message =>
                  (evs, Return (ExecutionHelper.create_error_response
                                  (exec_id env) code data_type error_message
                                  created_at (Some steps)))
              | None =>
                  let output := find_output env (rev steps) in
                  let status := if is_waiting steps then waiting else success in
                  (evs, Return
                     {| executionId := exec_id env; resp_code := code;
                        resp_dataType := data_type; steps := steps;
                        totalSteps := len steps; status := status;
                        errorMessage := None;
                        executedAt := created_at; createdAt := created_at;
                        output := output;
                        complexity := analyze_complexity env code |})
              end
          | Raise e =>
              if is_timeout_error e then
                (evs, Return (ExecutionHelper.create_error_response
                                (exec_id env) code data_type
                                "Execution timeout - code took too long to execute"
                                created_at (Some [])))
              else
                (evs, Return (ExecutionHelper.create_error_response
                                (exec_id env) code data_type (exn_msg e)
                                created_at (Some [])))
          end
      end
  end.

(** The condition of line 37. *)
Definition wants_auto_detection (request : ExecutionCreateRequest) : Prop :=
  req_dataType request = None \/ req_dataType request = Some "auto"
  \/ req_autoDetect request = Some true.

(** Collaborators for examples: an executor that returns no step. *)
Definition sample_env : Env :=
  {| exec_id := "exec_0123456789ab"; now := 0;
     execute_with_timeout := fun _ _ _ => Return [];
     analyze_complexity := fun _ => None;
     py_str := fun _ => "" |}.

End Controller.

(** ** Python syntax trees

    A node of Python's [ast] module as the analyzers see it through
    [isinstance], [hasattr], attribute access and [ast.iter_child_nodes]:
    its class name, its scalar fields ([name], [id], [attr], [arg], the
    [value] of a [Constant], ...), and its child nodes in field order, each
    tagged with the field it sits in (the statements of a [body] are so many
    children tagged ["body"]). An optional field holding [None] has no
    child. *)

Module Ast.

Inductive constant :=
| CNone | CBool (b : bool) | CInt (n : Z) | CFloat (repr : string)
| CStr (s : string) | CBytes (s : string) | CEllipsis.

Inductive node : Type :=
| Node (cls : string) (attrs : list (string * constant))
       (children : list (string * node)).

Definition cls (n : node) : string := match n with Node c _ _ => c end.
Definition attrs (n : node) := match n with Node _ a _ => a end.
Definition children (n : node) := match n with Node _ _ k => k end.

(** [isinstance(n, ast.C)] *)
Definition isinstance (n : node) (c : string) : bool := String.eqb (cls n) c.

Definition isinstance_opt (n : option node) (c : string) : bool :=
  match n with Some n => isinstance n c | None => false end.

(** A string-valued scalar field such as [n.attr], [n.id], [n.name]. *)
Definition str_field (n : node) (f : string) : option string :=
  match Dict.get f (attrs n) with Some (CStr s) => Some s | _ => None end.

(** [n.f] for a field holding one node. *)
Definition child (n : node) (f : string) : option node := Dict.get f (children n).

(** [n.f] for a field holding a list of nodes. *)
Definition child_list (n : node) (f : string) : list node :=
  map snd (filter (fun p => String.eqb (fst p) f = true) (children n)).

(** [ast.iter_child_nodes(n)] *)
Definition iter_child_nodes (n : node) : list node := map snd (children n).

(** [hasattr(n, f)] for the fields the analyzers probe. *)
Definition hasattr (n : node) (f : string) : bool :=
  Dict.has f (attrs n) || Dict.has f (children n).

(** [c == k] for an integer [k], with Python's numeric equality. *)
Definition const_eq_int (c : constant) (k : Z) : bool :=
  match c with
  | CInt n => n =? k
  | CBool b => (if b then 1 else 0) =? k
  | CFloat r => String.eqb r (Py.str_int k +:+ ".0")
                || ((k =? 0) && String.eqb r "-0.0")
  | _ => false
  end.

Definition const_is_none (c : constant) : bool :=
  match c with CNone => true | _ => false end.

(** [isinstance(n, ast.Constant) and n.value == k] *)
Definition is_constant_eq (n : node) (k : Z) : bool :=
  isinstance n "Constant" &&
  match Dict.get "value" (attrs n) with Some c => const_eq_int c k | None => false end.

(** [isinstance(n, ast.Constant) and n.value is None] *)
Definition is_constant_none (n : node) : bool :=
  isinstance n "Constant" &&
  match Dict.get "value" (attrs n) with Some c => const_is_none c | None => false end.

(** Builders for the node classes used in examples. *)
Definition Name (id : string) : node := Node "Name" [("id", CStr id)] [].
Definition Constant (c : constant) : node := Node "Constant" [("value", c)] [].
Definition Attribute (value : node) (attr : string) : node :=
  Node "Attribute" [("attr", CStr attr)] [("value", value)].
Definition Call (func : node) (args : list node) : node :=
  Node "Call" [] (("func", func) :: map (pair "args") args).
Definition Expr (value : node) : node := Node "Expr" [] [("value", value)].
Definition Assign (targets : list node) (value : node) : node :=
  Node "Assign" [] (map (pair "targets") targets ++ [("value", value)]).
Definition Compare (lhs : node) (op : string) (rhs : node) : node :=
  Node "Compare" [] [("left", lhs); ("ops", Node op [] []); ("comparators", rhs)].
Definition While (test : node) (body : list node) : node :=
  Node "While" [] (("test", test) :: map (pair "body") body).
Definition For (target iter : node) (body : list node) : node :=
  Node "For" [] (("target", target) :: ("iter", iter) :: map (pair "body") body).
Definition If (test : node) (body orelse : list node) : node :=
  Node "If" [] (("test", test) :: map (pair "body") body ++ map (pair "orelse") orelse).
Definition ReturnStmt (value : option node) : node :=
  Node "Return" [] (match value with Some v => [("value", v)] | None => [] end).
Definition Pass : node := Node "Pass" [] [].
Definition arg (name : string) : node := Node "arg" [("arg", CStr name)] [].
Definition arguments (args : list node) : node :=
  Node "arguments" [] (map (pair "args") args).
Definition FunctionDef (name : string) (params : list string) (body : list node) : node :=
  Node "FunctionDef" [("name", CStr name)]
       (("args", arguments (map arg params)) :: map (pair "body") body).
Definition Module_ (body : list node) : node :=
  Node "Module" [] (map (pair "body") body).

End Ast.

(** ** [services/simulators/operations/behavior_analyzer.py] *)

Module BehaviorAnalyzer.
Import Ast.

(** The boolean entries of the [behavior] dictionary. *)
Inductive flag :=
| has_loop | has_print | creates_new_node | modifies_head | modifies_count
| modifies_next_pointers | checks_empty_list | traverses_list | finds_target
| deletes_node | traverses_to_end
| uses_append | uses_pop | uses_peek | returns_size | checks_empty
| uses_peek_back | uses_peek_front | uses_pop_0 | uses_popleft
| is_bst_insert | is_bst_search | is_bst_delete
| is_graph_add_vertex | is_graph_add_edge | is_graph_bfs | is_graph_dfs.

#[global] Instance flag_eq_dec : EqDecision flag.
Proof. solve_decision. Defined.

Record hints := {
  is_insert : bool;
  is_delete : bool;
  is_traverse : bool;
  is_front : bool;
  is_last : bool;
  is_getter : bool;
  is_init : bool
}.

(** The [behavior] dictionary: [raised] lists the flags set to [True]; every
    other flag is [False] (or absent, which [behavior.get] reads alike). *)
Record behavior := {
  name : string;
  params : list string;
  behavior_type : string;
  method_name_hints : hints;
  raised : list flag
}.

(** [behavior[f]] *)
Definition get (b : behavior) (f : flag) : bool := bool_decide (f ∈ raised b).

(** [behavior[f] = True] *)
Definition set (f : flag) (b : behavior) : behavior :=
  {| name := name b; params := params b; behavior_type := behavior_type b;
     method_name_hints := method_name_hints b; raised := f :: raised b |}.

Definition set_if (c : bool) (f : flag) (b : behavior) : behavior :=
  if c then set f b else b.

Definition any_in (words : list string) (s : string) : bool :=
  existsb (fun w => Py.contains w s) words.

Definition str_in (s : string) (l : list string) : bool :=
  existsb (String.eqb s) l.

(** [_get_method_name_hints] *)
Definition _get_method_name_hints (method_name : string) : hints :=
  let name_lower := Py.lower method_name in
  {| is_insert := any_in ["insert"; "add"; "push"; "append"] name_lower;
     is_delete := any_in ["delete"; "remove"; "pop"; "del"] name_lower;
     is_traverse := any_in ["traverse"; "print"; "display"; "show"; "list"] name_lower;
     is_front := any_in ["front"; "first"; "head"; "begin"] name_lower;
     is_last := any_in ["last"; "end"; "tail"; "back"] name_lower;
     is_getter := Py.startswith "get" name_lower
                  || str_in name_lower ["size"; "length"; "count"; "empty"];
     is_init := String.eqb method_name "__init__" |}.

Definition attr_is (n : option node) (a : string) : bool :=
  match n with
  | Some n => isinstance n "Attribute" &&
              match str_field n "attr" with Some x => String.eqb x a | None => false end
  | None => false
  end.

(** [_is_empty_list_check] *)
Definition _is_empty_list_check (if_stmt : node) : bool :=
  match child if_stmt "test" with
  | Some test =>
      isinstance test "Compare" && attr_is (child test "left") "head" &&
      match child_list test "comparators" with
      | c :: _ => is_constant_none c
      | [] => false
      end
  | None => false
  end.

(** [_is_target_finding] *)
Definition _is_target_finding (if_stmt : node) : bool :=
  match child if_stmt "test" with
  | Some test =>
      isinstance test "Compare" &&
      match child test "left" with
      | Some lhs =>
          isinstance lhs "Attribute" &&
          match str_field lhs "attr" with
          | Some a => str_in a ["name"; "data"; "value"]
          | None => false
          end
      | None => false
      end
  | None => false
  end.

(** [_is_tail_finding_loop]; [test.ops[0]] raises on an empty list. *)
Definition _is_tail_finding_loop (while_stmt : node) : outcome bool :=
  match child while_stmt "test" with
  | Some test =>
      if isinstance test "Compare" && attr_is (child test "left") "next" then
        match child_list test "comparators" with
        | comparator :: _ =>
            if is_constant_none comparator then
              match child_list test "ops" with
              | op :: _ => Return (isinstance op "NotEq" || isinstance op "IsNot")
              | [] => Raise (Exn IndexError "list index out of range")
              end
            else Return false
        | [] => Return false
        end
      else Return false
  | None => Return false
  end.

(** [_analyze_assignment] *)
Definition _analyze_assignment (stmt : node) (b : behavior) : behavior :=
  fold_left
    (fun b target =>
       if isinstance target "Attribute" then
         match str_field target "attr" with
         | Some "head" => set modifies_head b
         | Some "count" => set modifies_count b
         | Some "next" => set modifies_next_pointers b
         | _ => b
         end
       else if isinstance target "Name" then
         match child stmt "value" with
         | Some value =>
             if isinstance value "Call" then
               match child value "func" with
               | Some func =>
                   match str_field func "id" with
                   | Some id =>
                       if str_in id ["DataNode"; "Node"] then set creates_new_node b
                       else if Dict.has "attr" (attrs func)
                                 && match str_field target "id" with
                                    | Some t => str_in t ["new_node"; "node"]
                                    | None => false
                                    end
                       then set creates_new_node b else b
                   | None =>
                       if Dict.has "attr" (attrs func)
                          && match str_field target "id" with
                             | Some t => str_in t ["new_node"; "node"]
                             | None => false
                             end
                       then set creates_new_node b else b
                   end
               | None => b
               end
             else b
         | None => b
         end
       else b)
    (child_list stmt "targets") b.

(** The method-call part of the [ast.Expr] case, lines 158-178. *)
Definition analyze_call (call : node) (b : behavior) : behavior :=
  match child call "func" with
  | Some func =>
      let b :=
        if isinstance func "Attribute" then
          match str_field func "attr" with
          | Some "append" => set uses_append b
          | Some "pop" =>
              let b := set uses_pop b in
              match child_list call "args" with
              | a :: _ => set_if (is_constant_eq a 0) uses_pop_0 b
              | [] => b
              end
          | Some "popleft" => set uses_popleft b
          | Some "add_vertex" => set is_graph_add_vertex b
          | Some "add_edge" => set is_graph_add_edge b
          | _ => b
          end
        else b in
      match str_field func "id" with
      | Some "print" => set has_print b
      | _ => b
      end
  | None => b
  end.

(** [x.value == 1] where [x] is an [ast] node: a [Constant] compares its
    value, another node with a [value] child compares that node (never equal
    to 1), a node without [value] raises. *)
Definition operand_value_is_1 (operand : node) : outcome bool :=
  match Dict.get "value" (attrs operand) with
  | Some c => Return (const_eq_int c 1)
  | None =>
      if Dict.has "value" (children operand) then Return false
      else Raise (Exn AttributeError
                    ("'" +:+ cls operand +:+ "' object has no attribute 'value'"))
  end.

(** The [ast.Return] case, lines 180-207. *)
Definition analyze_return (stmt : node) (b : behavior) : outcome behavior :=
  match child stmt "value" with
  | None => Return b
  | Some value =>
      let b := set_if (attr_is (Some value) "size") returns_size b in
      let b := set_if (isinstance value "Call" &&
                       match child value "func" with
                       | Some f => match str_field f "id" with
                                   | Some "len" => true | _ => false end
                       | None => false
                       end) returns_size b in
      if isinstance value "Subscript" then
        match child value "slice" with
        | None => Raise (Exn AttributeError "'Subscript' object has no attribute 'slice'")
        | Some sl =>
            let b := set_if (isinstance sl "UnaryOp" &&
                             isinstance_opt (child sl "op") "USub" &&
                             match child sl "operand" with
                             | Some o => is_constant_eq o 1 | None => false end)
                            uses_peek_back b in
            let b := set_if (is_constant_eq sl 0) uses_peek_front b in
            match child sl "value" with
            | Some v =>
                if isinstance v "UnaryOp" then
                  if isinstance_opt (child v "op") "USub" then
                    match child v "operand" with
                    | Some o =>
                        match operand_value_is_1 o with
                        | Return c => Return (set_if c uses_peek_back b)
                        | Raise e => Raise e
                        end
                    | None =>
                        Raise (Exn AttributeError "'UnaryOp' object has no attribute 'operand'")
                    end
                  else Return b
                else Return (set_if (is_constant_eq v 0) uses_peek_front b)
            | None => Return b
            end
        end
      else Return b
  end.

(** [self._analyze_statements(stmt.f, behavior)] for the field [tag] of a
    statement whose children are [l]: the statements of the field, in
    order. *)
Definition walk_field (analyze : node -> behavior -> outcome behavior) (tag : string)
  : list (string * node) -> behavior -> outcome behavior :=
  fix go (l : list (string * node)) (b : behavior) {struct l} : outcome behavior :=
    match l with
    | [] => Return b
    | (t, s) :: l' =>
        if String.eqb t tag then bind (analyze s b) (go l') else go l' b
    end.

(** The body of the loop of [_analyze_statements], for one statement. *)
Fixpoint analyze_statement (stmt : node) (b : behavior) {struct stmt} : outcome behavior :=
  match stmt with
  | Node c _ kids =>
      if String.eqb c "While" || String.eqb c "For" then
        let b := set traverses_list (set has_loop b) in
        bind (if String.eqb c "While"
              then bind (_is_tail_finding_loop stmt)
                        (fun t => Return (set_if t traverses_to_end b))
              else Return b)
             (walk_field analyze_statement "body" kids)
      else if String.eqb c "If" then
        let b := set_if (_is_empty_list_check stmt) checks_empty_list b in
        let b := set_if (_is_target_finding stmt) finds_target b in
        bind (walk_field analyze_statement "body" kids b)
             (walk_field analyze_statement "orelse" kids)
      else if String.eqb c "Assign" then
        Return (_analyze_assignment stmt b)
      else if String.eqb c "Expr" && isinstance_opt (child stmt "value") "Call" then
        match child stmt "value" with
        | Some call => Return (analyze_call call b)
        | None => Return b
        end
      else if String.eqb c "Return" then analyze_return stmt b
      else Return b
  end.

(** [_analyze_statements] *)
Fixpoint _analyze_statements (statements : list node) (b : behavior) : outcome behavior :=
  match statements with
  | [] => Return b
  | stmt :: rest => bind (analyze_statement stmt b) (_analyze_statements rest)
  end.

Definition name_has (w : string) (b : behavior) : bool :=
  Py.contains w (Py.lower (name b)).

(** [_classify_behavior_by_logic] as it stands at lines 271-340. The class
    body defines the method a second time (below); the later definition
    replaces this one, which is never called. *)
Definition _classify_behavior_by_logic_first (b : behavior) : string :=
  let h := method_name_hints b in
  if is_init h then "constructor"
  else if ((get b has_print && get b traverses_list) || is_traverse h)
          && negb (get b modifies_head) && negb (get b creates_new_node)
  then "traverse"
  else
    let rest :=
      if (get b finds_target && negb (get b creates_new_node)
          && (get b modifies_head || get b modifies_next_pointers)) || is_delete h
      then "delete"
      else if is_getter h || (negb (get b creates_new_node) && negb (get b modifies_head)
                              && negb (get b modifies_count) && negb (get b has_loop))
      then "getter"
      else if is_traverse h then "traverse"
      else if is_insert h then
        if is_front h then "insert_front"
        else if is_last h then "insert_last" else "insert_positional"
      else if is_delete h then "delete"
      else "unknown" in
    if get b creates_new_node then
      if get b has_loop && negb (get b modifies_head) && get b modifies_next_pointers
      then "insert_last"
      else if get b modifies_head && negb (get b has_loop) then "insert_front"
      else if get b has_loop && get b finds_target && get b modifies_next_pointers
      then "insert_before"
      else if is_insert h then
        if is_front h then "insert_front"
        else if is_last h then "insert_last"
        else if (2 <=? len (params b)) then "insert_before"
        else "insert_front"
      else rest
    else rest.

(** [_classify_behavior_by_logic], the definition in force (lines 342-457). *)
Definition _classify_behavior_by_logic (b : behavior) : string :=
  let h := method_name_hints b in
  if is_init h then "constructor"
  (* stack *)
  else if get b uses_append then "push"
  else if get b uses_pop then "pop"
  else if get b uses_peek then "stackTop"
  else if is_getter h && (get b returns_size || name_has "size" b) then "size"
  else if is_getter h && (get b checks_empty || name_has "empty" b) then "is_empty"
  else if get b has_print && negb (get b creates_new_node) then "printStack"
  (* queue *)
  else if get b uses_pop_0 || get b uses_popleft then "dequeue"
  else if get b uses_peek_front then "front"
  else if get b uses_peek_back then "back"
  (* binary search tree *)
  else if is_insert h then "insert"
  else if is_delete h then "delete"
  else if is_traverse h then
    if name_has "pre" b then "preorder"
    else if name_has "post" b then "postorder"
    else "inorder"
  else if name_has "min" b then "findMin"
  else if name_has "max" b then "findMax"
  (* graph *)
  else if get b is_graph_add_vertex || name_has "add_vertex" b then "add_vertex"
  else if get b is_graph_add_edge || name_has "add_edge" b then "add_edge"
  else if name_has "bfs" b then "bfs"
  else if name_has "dfs" b then "dfs"
  (* linked list *)
  else if ((get b has_print && get b traverses_list) || is_traverse h)
          && negb (get b modifies_head) && negb (get b creates_new_node)
  then "traverse"
  else
    let rest :=
      if (get b finds_target && negb (get b creates_new_node)
          && (get b modifies_head || get b modifies_next_pointers)) || is_delete h
      then "delete"
      else if is_getter h || (negb (get b creates_new_node) && negb (get b modifies_head)
                              && negb (get b modifies_count) && negb (get b has_loop))
      then "getter"
      else "unknown" in
    if get b creates_new_node then
      if get b has_loop && negb (get b modifies_head) && get b modifies_next_pointers
      then "insert_last"
      else if get b modifies_head && negb (get b has_loop) then "insert_front"
      else if get b has_loop && get b finds_target && get b modifies_next_pointers
      then "insert_before"
      else if is_insert h then
        if is_front h then "insert_front"
        else if is_last h then "insert_last"
        else "insert_front"
      else rest
    else rest.

(** Two dictionaries of the same method: the analysis sets flags only. *)
Definition same_method (b b' : behavior) : Prop :=
  name b' = name b /\ params b' = params b
  /\ method_name_hints b' = method_name_hints b.

(** The dictionary [_analyze_method_behavior_from_ast] starts from. *)
Definition initial_behavior (method_name : string) (params : list string) : behavior :=
  {| name := method_name; params := params; behavior_type := "unknown";
     method_name_hints := _get_method_name_hints method_name; raised := [] |}.

Definition with_behavior_type (t : string) (b : behavior) : behavior :=
  {| name := name b; params := params b; behavior_type := t;
     method_name_hints := method_name_hints b; raised := raised b |}.

(** [[arg.arg for arg in method_node.args.args[1:]]] *)
Definition method_params (method_node : node) : list string :=
  match child method_node "args" with
  | Some a => omap (fun x => str_field x "arg") (tail (child_list a "args"))
  | None => []
  end.

(** [_analyze_method_behavior_from_ast] *)
Definition _analyze_method_behavior_from_ast (method_node : node) : outcome behavior :=
  let method_name := default "" (str_field method_node "name") in
  bind (_analyze_statements (child_list method_node "body")
          (initial_behavior method_name (method_params method_node)))
       (fun b => Return (with_behavior_type (_classify_behavior_by_logic b) b)).

End BehaviorAnalyzer.

(** ** [services/simulators/operations/complexity_analyzer.py] *)

Module ComplexityAnalyzer.
Import Ast.

Record FunctionComplexity := {
  function_name : string;
  time_complexity : string;
  space_complexity : string;
  line_start : Z;
  line_end : Z;
  time_complexity_rank : Z;
  fc_loop_count : Z;
  fc_max_nesting : Z;
  fc_has_recursion : bool
}.

(** [COMPLEXITY_RANK] *)
Definition COMPLEXITY_RANK : list (string * Z) :=
  [("O(1)", 1); ("O(log n)", 2); ("O(n)", 3); ("O(n log n)", 4);
   ("O(n²)", 5); ("O(n³)", 6); ("O(2^n)", 7); ("O(n!)", 8)].

(** [COMPLEXITY_RANK.get(c, 3)] *)
Definition rank_of (c : string) : Z := default 3 (Dict.get c COMPLEXITY_RANK).

Definition is_loop (n : node) : bool := isinstance n "For" || isinstance n "While".

Definition is_function_def (n : node) : bool :=
  isinstance n "FunctionDef" || isinstance n "AsyncFunctionDef".

Definition node_name (n : node) : string := default "" (str_field n "name").

Definition int_field (n : node) (f : string) : option Z :=
  match Dict.get f (attrs n) with Some (CInt z) => Some z | _ => None end.

(** The [nonlocal] counters of [count_loops]. *)
Record counters := {
  loop_count : Z;
  max_nesting : Z;
  current_nesting : Z;
  has_recursion : bool;
  has_growing : bool
}.

Definition counters0 : counters :=
  {| loop_count := 0; max_nesting := 0; current_nesting := 0;
     has_recursion := false; has_growing := false |}.

Definition calls_name (n : node) (f : string) : bool :=
  match child n "func" with
  | Some fn => isinstance fn "Name" &&
               match str_field fn "id" with Some x => String.eqb x f | None => false end
  | None => false
  end.

Definition calls_method_in (n : node) (l : list string) : bool :=
  match child n "func" with
  | Some fn => isinstance fn "Attribute" &&
               match str_field fn "attr" with
               | Some a => existsb (String.eqb a) l | None => false end
  | None => false
  end.

(** [count_loops], the local function of [_analyze_function] (lines 144-168). *)
Fixpoint count_loops (func_name : string) (n : node) (depth : Z) (st : counters)
    {struct n} : counters :=
  match n with
  | Node _ _ kids =>
      let each (d : Z) :=
        fix go (l : list (string * node)) (st : counters) {struct l} : counters :=
          match l with
          | [] => st
          | (_, c) :: l' => go l' (count_loops func_name c d st)
          end in
      if is_loop n then
        let st := {| loop_count := loop_count st + 1;
                     max_nesting := Z.max (max_nesting st) (depth + 1);
                     current_nesting := depth + 1;
                     has_recursion := has_recursion st;
                     has_growing := has_growing st |} in
        each (depth + 1) kids st
      else
        let st :=
          if isinstance n "Call" then
            {| loop_count := loop_count st; max_nesting := max_nesting st;
               current_nesting := current_nesting st;
               has_recursion := has_recursion st || calls_name n func_name;
               has_growing := has_growing st
                              || calls_method_in n ["append"; "extend"; "insert"; "add"] |}
          else st in
        each depth kids st
  end.

(** Lines 172-188. *)
Definition function_time_complexity (st : counters) : string :=
  if has_recursion st then
    if 2 <=? max_nesting st then "O(2^n)"
    else if max_nesting st =? 1 then "O(n²)"
    else "O(n)"
  else if 3 <=? max_nesting st then "O(n³)"
  else if max_nesting st =? 2 then "O(n²)"
  else if (max_nesting st =? 1) || (0 <? loop_count st) then "O(n)"
  else "O(1)".

(** Lines 190-196. *)
Definition function_space_complexity (st : counters) : string :=
  if has_recursion st then "O(n)"
  else if has_growing st then "O(n)"
  else "O(1)".

(** [_analyze_function] *)
Definition _analyze_function (fn : node) : FunctionComplexity :=
  let func_name := node_name fn in
  let lineno := default 0 (int_field fn "lineno") in
  let st := count_loops func_name fn 0 counters0 in
  let tc := function_time_complexity st in
  {| function_name := func_name;
     time_complexity := tc;
     space_complexity := function_space_complexity st;
     line_start := lineno;
     line_end := match int_field fn "end_lineno" with
                 | Some e => if e =? 0 then lineno else e
                 | None => lineno
                 end;
     time_complexity_rank := rank_of tc;
     fc_loop_count := loop_count st;
     fc_max_nesting := max_nesting st;
     fc_has_recursion := has_recursion st |}.

(** [_is_constant_loop] *)
Definition _is_constant_loop (n : node) : bool :=
  isinstance n "For" &&
  match child n "iter" with
  | Some it =>
      isinstance it "Call" && calls_name it "range" &&
      forallb (fun a => isinstance a "Constant") (child_list it "args")
  | None => false
  end.

(** The analyzer object's fields. *)
Record analyzer := {
  a_loop_count : Z;
  a_max_nesting : Z;
  a_current_nesting : Z;
  a_has_recursion : bool;
  a_recursion_type : option string;
  a_function_names : list string;
  a_function_calls : list string;
  a_space_allocations : list string;
  a_has_growing_structures : bool
}.

(** [_reset] *)
Definition _reset : analyzer :=
  {| a_loop_count := 0; a_max_nesting := 0; a_current_nesting := 0;
     a_has_recursion := false; a_recursion_type := None;
     a_function_names := []; a_function_calls := [];
     a_space_allocations := []; a_has_growing_structures := false |}.

Definition on_loop (self : analyzer) (n : node) (nesting : Z) : analyzer :=
  let is_constant := _is_constant_loop n in
  {| a_loop_count := a_loop_count self + 1;
     a_max_nesting := if is_constant then a_max_nesting self
                      else Z.max (a_max_nesting self) (nesting + 1);
     a_current_nesting := if is_constant then a_current_nesting self else nesting + 1;
     a_has_recursion := a_has_recursion self;
     a_recursion_type := a_recursion_type self;
     a_function_names := a_function_names self;
     a_function_calls := a_function_calls self;
     a_space_allocations := a_space_allocations self;
     a_has_growing_structures := a_has_growing_structures self |}.

Definition add_name (x : string) (l : list string) : list string :=
  if existsb (String.eqb x) l then l else l ++ [x].

Definition on_call (self : analyzer) (n : node) : analyzer :=
  match child n "func" with
  | None => self
  | Some fn =>
      let called := if isinstance fn "Name" then str_field fn "id" else None in
      let recursive := match called with
                       | Some f => existsb (String.eqb f) (a_function_names self)
                       | None => false
                       end in
      let grows := if isinstance fn "Attribute" then
                     match str_field fn "attr" with
                     | Some a => if existsb (String.eqb a)
                                      ["append"; "extend"; "insert"; "add"; "update"]
                                 then Some a else None
                     | None => None
                     end
                   else None in
      {| a_loop_count := a_loop_count self;
         a_max_nesting := a_max_nesting self;
         a_current_nesting := a_current_nesting self;
         a_has_recursion := a_has_recursion self || recursive;
         a_recursion_type := if recursive then Some "simple" else a_recursion_type self;
         a_function_names := a_function_names self;
         a_function_calls := match called with
                             | Some f => add_name f (a_function_calls self)
                             | None => a_function_calls self
                             end;
         a_space_allocations := match grows with
                                | Some a => a_space_allocations self ++ [a]
                                | None => a_space_allocations self
                                end;
         a_has_growing_structures := a_has_growing_structures self || (match grows with Some _ => true | None => false end) |}
  end.

Definition on_list_comp (self : analyzer) : analyzer :=
  {| a_loop_count := a_loop_count self + 1;
     a_max_nesting := Z.max (a_max_nesting self) 1;
     a_current_nesting := a_current_nesting self;
     a_has_recursion := a_has_recursion self;
     a_recursion_type := a_recursion_type self;
     a_function_names := a_function_names self;
     a_function_calls := a_function_calls self;
     a_space_allocations := a_space_allocations self;
     a_has_growing_structures := true |}.

Definition on_literal (self : analyzer) (n : node) : analyzer :=
  {| a_loop_count := a_loop_count self;
     a_max_nesting := a_max_nesting self;
     a_current_nesting := a_current_nesting self;
     a_has_recursion := a_has_recursion self;
     a_recursion_type := a_recursion_type self;
     a_function_names := a_function_names self;
     a_function_calls := a_function_calls self;
     a_space_allocations := a_space_allocations self ++ [cls n];
     a_has_growing_structures := a_has_growing_structures self |}.

(** [_analyze_node] *)
Fixpoint _analyze_node (n : node) (nesting : Z) (self : analyzer) {struct n} : analyzer :=
  match n with
  | Node _ _ kids =>
      let each (d : Z) :=
        fix go (l : list (string * node)) (self : analyzer) {struct l} : analyzer :=
          match l with
          | [] => self
          | (_, c) :: l' => go l' (_analyze_node c d self)
          end in
      if is_function_def n && String.eqb (node_name n) "__init__" then self
      else if is_loop n then
        each (if _is_constant_loop n then nesting else nesting + 1) kids
             (on_loop self n nesting)
      else
        let self := if isinstance n "Call" then on_call self n else self in
        let self := if isinstance n "ListComp" then on_list_comp self else self in
        let self := if isinstance n "List" || isinstance n "Dict" || isinstance n "Set"
                    then on_literal self n else self in
        each nesting kids self
  end.

(** [_determine_time_complexity] *)
Definition _determine_time_complexity (self : analyzer) : string :=
  if 3 <=? a_max_nesting self then "O(n³)"
  else if a_max_nesting self =? 2 then "O(n²)"
  else if (a_max_nesting self =? 1) || (0 <? a_loop_count self) || a_has_recursion self
  then "O(n)"
  else "O(1)".

(** [_determine_space_complexity] *)
Definition _determine_space_complexity (self : analyzer) : string :=
  if a_has_recursion self then "O(n)"
  else if a_has_growing_structures self then "O(n)"
  else if 10 <? len (a_space_allocations self) then "O(n)"
  else "O(1)".

(** Pointwise concatenation of two lists of levels. *)
Fixpoint merge_levels (a b : list (list node)) : list (list node) :=
  match a, b with
  | [], _ => b
  | _, [] => a
  | x :: a', y :: b' => (x ++ y)%list :: merge_levels a' b'
  end.

(** The nodes of a tree level by level. *)
Fixpoint levels (n : node) : list (list node) :=
  match n with
  | Node _ _ kids =>
      [n] :: (fix go (l : list (string * node)) : list (list node) :=
                match l with
                | [] => []
                | (_, c) :: l' => merge_levels (levels c) (go l')
                end) kids
  end.

(** [ast.walk(tree)]: breadth first. *)
Definition walk (tree : node) : list node := concat (levels tree).

Record ComplexityResult := {
  r_time_complexity : string;
  r_space_complexity : string;
  r_analysis : option analyzer;
  function_complexities : list FunctionComplexity
}.

(** [analyze], given the outcome of [ast.parse] ([None] for a syntax error). *)
Definition analyze (tree : option node) : ComplexityResult :=
  match tree with
  | None =>
      {| r_time_complexity := "Unknown"; r_space_complexity := "Unknown";
         r_analysis := None; function_complexities := [] |}
  | Some tree =>
      let defs := filter (fun n => is_function_def n = true) (walk tree) in
      let self :=
        {| a_loop_count := 0; a_max_nesting := 0; a_current_nesting := 0;
           a_has_recursion := false; a_recursion_type := None;
           a_function_names := fold_left (fun l n => add_name (node_name n) l) defs [];
           a_function_calls := []; a_space_allocations := [];
           a_has_growing_structures := false |} in
      let fcs := map _analyze_function
                     (filter (fun n => String.eqb (node_name n) "__init__" = false) defs) in
      let self := _analyze_node tree 0 self in
      {| r_time_complexity := _determine_time_complexity self;
         r_space_complexity := _determine_space_complexity self;
         r_analysis := Some self;
         function_complexities := fcs |}
  end.

End ComplexityAnalyzer.

(** ** The trace wrapper: safe state serialization

    [safe_serialize] of [interactive_python_executor.py] (lines 89-212 of the
    wrapper template). Live interpreter values are a snapshot of the heap:
    scalars are immediate, every other value is a reference [VRef i] where
    [i] is what [id(obj)] returns. *)

Module Serializer.

Inductive prim :=
| PBool (b : bool) | PInt (n : Z) | PFloat (repr : string) | PStr (s : string).

#[global] Instance prim_eq_dec : EqDecision prim.
Proof. solve_decision. Defined.

Inductive pyval :=
| VNone
| VPrim (p : prim)
| VRef (i : N).

(** An object of the heap. An instance carries its type name, its
    [__dict__] when it has one (the identity of that dictionary and its
    entries in order) and what [str(obj)] returns. *)
Inductive pyobj :=
| OList (items : list pyval)
| OTuple (items : list pyval)
| ODict (items : list (pyval * pyval))
| OSet (items : list pyval)
| OInstance (type_name : string) (__dict__ : option (N * list (string * pyval)))
            (str : string).

Definition heap := N -> pyobj.

(** Serialized values; markers are strings. *)
Inductive sval :=
| SNone
| SPrim (p : prim)
| SList (l : list sval)
| SDict (d : list (prim * sval)).

Definition SStr (s : string) : sval := SPrim (PStr s).
Definition SInt (n : Z) : sval := SPrim (PInt n).

(** [type(obj).__name__] *)
Definition type_name_of (o : pyobj) : string :=
  match o with
  | OList _ => "list" | OTuple _ => "tuple" | ODict _ => "dict" | OSet _ => "set"
  | OInstance t _ _ => t
  end.

(** [f"{val}"] for a scalar. *)
Definition format_prim (p : prim) : string :=
  match p with
  | PBool true => "True" | PBool false => "False"
  | PInt n => Py.str_int n
  | PFloat r => r
  | PStr s => s
  end.

(** The attribute names tried, in order, for the marker of a seen object. *)
Definition key_attributes : list string := ["data"; "val"; "value"; "id"; "name"; "key"].

(** The loop of lines 117-124: the first key attribute present in
    [obj.__dict__] whose value is a scalar. *)
Fixpoint first_scalar (keys : list string) (obj_dict : list (string * pyval))
  : option prim :=
  match keys with
  | [] => None
  | key :: keys' =>
      match Dict.get key obj_dict with
      | Some (VPrim p) => Some p
      | _ => first_scalar keys' obj_dict
      end
  end.

(** Lines 113-125: how an object already in [_seen_ids] is rendered. *)
Definition seen_marker (o : pyobj) : string :=
  match o with
  | OInstance t (Some (_, obj_dict)) _ =>
      match first_scalar key_attributes obj_dict with
      | Some p => t +:+ "(" +:+ format_prim p +:+ ")"
      | None => t
      end
  | _ => type_name_of o
  end.

(** [ds_keys] *)
Definition ds_keys : list string :=
  ["head"; "next"; "prev"; "data"; "val"; "value"; "count"; "root"; "nodes";
   "edges"; "left"; "right"; "adjacency_list"; "graph"; "adj_list"].

Definition is_relevant_obj (obj_dict : list (string * pyval)) : bool :=
  existsb (fun k => Dict.has k obj_dict) ds_keys.

Definition as_int (v : sval) : Z :=
  match v with SPrim (PInt n) => n | _ => 0 end.

(** [d[k] = v] on a serialized dictionary, for a string key. *)
Fixpoint sdict_set (k : string) (v : sval) (d : list (prim * sval)) : list (prim * sval) :=
  match d with
  | [] => [(PStr k, v)]
  | (PStr k', v') :: d' =>
      if String.eqb k k' then (PStr k, v) :: d' else (PStr k', v') :: sdict_set k v d'
  | e :: d' => e :: sdict_set k v d'
  end.

Section WithHeap.

Variable getsizeof : pyval -> Z.   (* [sys.getsizeof] *)
Variable h : heap.

(** One recursive call of [safe_serialize] on every element, left to right,
    threading [_seen_ids]. *)
Definition each (A : Type) := A -> gset N -> sval * gset N.

Fixpoint serialize_items (f : each pyval) (items : list pyval) (seen : gset N)
  : list sval * gset N :=
  match items with
  | [] => ([], seen)
  | x :: rest =>
      let '(v, seen) := f x seen in
      let '(vs, seen) := serialize_items f rest seen in
      (v :: vs, seen)
  end.

Fixpoint sum_sizes (f : each pyval) (items : list pyval) (acc : Z) (seen : gset N)
  : Z * gset N :=
  match items with
  | [] => (acc, seen)
  | x :: rest =>
      let '(v, seen) := f x seen in
      sum_sizes f rest (acc + as_int v) seen
  end.

(** Lines 161: the comprehension over the entries with a scalar key. *)
Fixpoint serialize_entries (f : each pyval) (items : list (pyval * pyval))
    (seen : gset N) : list (prim * sval) * gset N :=
  match items with
  | [] => ([], seen)
  | (VPrim k, v) :: rest =>
      let '(sv, seen) := f v seen in
      let '(d, seen) := serialize_entries f rest seen in
      ((k, sv) :: d, seen)
  | _ :: rest => serialize_entries f rest seen
  end.

(** Lines 150-160: a dictionary of more than 50 entries; [count] entries are
    already in [serialized]. *)
Fixpoint serialize_large (f : each pyval) (items : list (pyval * pyval))
    (serialized : list (prim * sval)) (count : nat) (seen : gset N)
  : list (prim * sval) * gset N :=
  match items with
  | [] => (serialized, seen)
  | (VPrim k, v) :: rest =>
      let '(sv, seen) := f v seen in
      let serialized := (serialized ++ [(k, sv)])%list in
      if (50 <=? S count)%nat
      then (sdict_set "<truncated>" (SStr "...") serialized, seen)
      else serialize_large f rest serialized (S count) seen
  | _ :: rest => serialize_large f rest serialized count seen
  end.

(** Lines 144-147. *)
Fixpoint sum_entry_sizes (f : each pyval) (items : list (pyval * pyval)) (acc : Z)
    (seen : gset N) : Z * gset N :=
  match items with
  | [] => (acc, seen)
  | (k, v) :: rest =>
      let '(sk, seen) := f k seen in
      let '(sv, seen) := f v seen in
      sum_entry_sizes f rest (acc + as_int sk + as_int sv) seen
  end.

(** Lines 201-206: the public attributes of a relevant instance. *)
Fixpoint serialize_attrs (f : each pyval) (obj_dict : list (string * pyval))
    (result : list (prim * sval)) (seen : gset N) : list (prim * sval) * gset N :=
  match obj_dict with
  | [] => (result, seen)
  | (k, v) :: rest =>
      if Py.startswith "_" k then serialize_attrs f rest result seen
      else
        let '(sv, seen) := f v seen in
        serialize_attrs f rest (sdict_set k sv result) seen
  end.

(** Lines 138-141 and 169-172: at most 50 elements, then the marker. *)
Definition serialize_sequence (f : each pyval) (items : list pyval) (seen : gset N)
  : sval * gset N :=
  if (50 <? length items)%nat then
    let '(vs, seen) := serialize_items f (take 50 items) seen in
    (SList (vs ++ [SStr "<truncated>"]), seen)
  else
    let '(vs, seen) := serialize_items f items seen in
    (SList vs, seen).

(** Lines 127-210: an object not seen before, its identity already
    recorded; [f] is [safe_serialize] at [depth + 1]. *)
Definition serialize_object (f : bool -> each pyval) (i : N) (o : pyobj)
    (return_size : bool) (seen : gset N) : sval * gset N :=
  let current_size := if return_size then getsizeof (VRef i) else 0 in
  match o with
  | OList items | OTuple items =>
      if return_size then
        let '(n, seen) := sum_sizes (f true) items current_size seen in (SInt n, seen)
      else serialize_sequence (f false) items seen
  | ODict items =>
      if return_size then
        let '(n, seen) := sum_entry_sizes (f true) items current_size seen in (SInt n, seen)
      else if (50 <? length items)%nat then
        let '(d, seen) := serialize_large (f false) items [] 0 seen in (SDict d, seen)
      else
        let '(d, seen) := serialize_entries (f false) items seen in (SDict d, seen)
  | OSet items =>
      if return_size then
        let '(n, seen) := sum_sizes (f true) items current_size seen in (SInt n, seen)
      else serialize_sequence (f false) items seen
  | OInstance t (Some (dict_id, obj_dict)) str =>
      if return_size then
        let '(v, seen) := f true (VRef dict_id) seen in
        (SInt (current_size + as_int v), seen)
      else if is_relevant_obj obj_dict then
        let '(d, seen) := serialize_attrs (f false) obj_dict [(PStr "type", SStr t)] seen in
        (SDict d, seen)
      else (SStr str, seen)
  | OInstance t None str =>
      if return_size then (SInt (getsizeof (VRef i)), seen) else (SStr str, seen)
  end.

(** [safe_serialize] with [levels = max_depth + 1 - depth] levels left:
    [depth > max_depth] exactly when none is. *)
Fixpoint serialize (levels : nat) (return_size : bool) (obj : pyval) (seen : gset N)
  : sval * gset N :=
  match levels with
  | O => (if return_size then SInt 0 else SStr "<max depth exceeded>", seen)
  | S levels' =>
      match obj with
      | VNone => (if return_size then SInt 0 else SNone, seen)
      | VPrim p => (if return_size then SInt (getsizeof obj) else SPrim p, seen)
      | VRef i =>
          if bool_decide (i ∈ seen) then
            (if return_size then SInt 0 else SStr (seen_marker (h i)), seen)
          else
            serialize_object (serialize levels') i (h i) return_size ({[i]} ∪ seen)
      end
  end.

(** [safe_serialize(obj, depth, max_depth, return_size)]: the value returned
    and the global [_seen_ids] afterwards. *)
Definition safe_serialize (obj : pyval) (depth max_depth : nat) (return_size : bool)
    (_seen_ids : gset N) : sval * gset N :=
  serialize (S max_depth - depth) return_size obj _seen_ids.

(** Lines 268-280 of [trace_lines]: one round over the frame's variables,
    [local_vars] growing from left to right. [skipped] tells callables
    without a [data] attribute and modules. *)
Fixpoint serialize_variables (skipped : pyval -> bool) (vars : list (string * pyval))
    (local_vars : list (string * sval)) (_seen_ids : gset N)
  : list (string * sval) * gset N :=
  match vars with
  | [] => (local_vars, _seen_ids)
  | (key, value) :: rest =>
      if Py.startswith "_" key || skipped value
      then serialize_variables skipped rest local_vars _seen_ids
      else
        let '(v, seen) := safe_serialize value 0 10 false _seen_ids in
        serialize_variables skipped rest (Dict.set key v local_vars) seen
  end.

(** [_seen_ids] is emptied once, before the first variable of the round. *)
Definition capture_locals (skipped : pyval -> bool) (f_locals : list (string * pyval))
  : list (string * sval) :=
  fst (serialize_variables skipped f_locals [] ∅).

(** A recursive call never forgets an identity. *)
Definition grows {A} (f : each A) : Prop :=
  forall x seen v seen', f x seen = (v, seen') -> seen ⊆ seen'.

End WithHeap.

(** A ring of [n] nodes: node [i] holds [data = i] and [next] refers to
    node [i + 1], the last one back to node 0; the identity [1000 + i] is
    that of the node's [__dict__]. *)
Definition ring_entries (n i : N) : list (string * pyval) :=
  [("data", VPrim (PInt (Z.of_N i)));
   ("next", VRef (if (i + 1 =? n)%N then 0 else i + 1)%N)].

Definition ring (n : N) : heap :=
  fun i =>
    if (i <? 1000)%N
    then OInstance "Node" (Some ((1000 + i)%N, ring_entries n i)) "<Node object>"
    else ODict (map (fun e => (VPrim (PStr e.1), e.2)) (ring_entries n (i - 1000))).

(** [v["next"]["next"]...], [n] times. *)
Fixpoint follow_next (n : nat) (v : sval) : option sval :=
  match n with
  | O => Some v
  | S n' =>
      match v with
      | SDict d =>
          match list_find (fun e => e.1 = PStr "next") d with
          | Some (_, (_, w)) => follow_next n' w
          | None => None
          end
      | _ => None
      end
  end.

(** One list shared by two variables. *)
Definition shared_list : heap := fun _ => OList [VPrim (PInt 1); VPrim (PInt 2)].

Definition sizeof_sample : pyval -> Z := fun _ => 56.

End Serializer.

(** ** Trace entries and execution results *)

Module Trace.

(** One entry of the [trace] list of the result payload. *)
Record TraceEntry := {
  t_line : option Z;
  t_caller_line : option Z;
  t_event : option string;
  t_func : option string;
  t_output : option string;
  t_variables : dict;
  t_memory_usage : Z;
  t_memory_delta : Z;
  t_execution_time : jval;
  t_error : option string;
  t_traceback : option string
}.

(** [ExecutionResult]; [interactive] holds [trace] and [input_history] when
    the object is an [InteractiveExecutionResult]. *)
Record ExecutionResult := {
  stdout : string;
  stderr : string;
  exit_code : Z;
  timed_out : bool;
  output : option jval;
  interactive : option (list TraceEntry * list string)
}.

Definition trace (r : ExecutionResult) : list TraceEntry :=
  match interactive r with Some (t, _) => t | None => [] end.

Definition input_history (r : ExecutionResult) : list string :=
  match interactive r with Some (_, i) => i | None => [] end.

Definition is_interactive (r : ExecutionResult) : bool :=
  match interactive r with Some _ => true | None => false end.

End Trace.

(** ** The trace wrapper: input shim, line hook and result payload *)

Module Wrapper.
Import Trace.

(** The wrapper's globals. *)
Record globals := {
  trace_data : list TraceEntry;
  input_values : list string;
  input_index : nat;
  captured_stdout : string;
  last_stdout_len : nat
}.

Definition initial (input_values : list string) : globals :=
  {| trace_data := []; input_values := input_values; input_index := 0;
     captured_stdout := ""; last_stdout_len := 0 |}.

(** [print(text, end='')] while [sys.stdout] is redirected. *)
Definition write (text : string) (g : globals) : globals :=
  {| trace_data := trace_data g; input_values := input_values g;
     input_index := input_index g;
     captured_stdout := captured_stdout g +:+ text;
     last_stdout_len := last_stdout_len g |}.

Definition no_more_input : string := "No more input provided".

(** [custom_input]: the prompt is echoed; the next pre-supplied value is
    consumed and echoed, or the shim raises. It never reads from a stream. *)
Definition custom_input (prompt : string) (g : globals) : globals * outcome string :=
  let g := write prompt g in
  match input_values g !! input_index g with
  | Some value =>
      let g := write (value +:+ Py.NL) g in
      ({| trace_data := trace_data g; input_values := input_values g;
          input_index := S (input_index g);
          captured_stdout := captured_stdout g;
          last_stdout_len := last_stdout_len g |}, Return value)
  | None => (g, Raise (Exn (OtherException "Exception") no_more_input))
  end.

(** What the line hook is told about the frame. *)
Record line_event := {
  ev_line : Z;
  ev_caller_line : option Z;
  ev_func : string;
  ev_locals : dict;          (* the frame's variables, serialized *)
  ev_elapsed : jval;         (* time since the previous hook *)
  ev_memory : Z
}.

(** [current_stdout_val[last_stdout_len:]] *)
Definition diff (g : globals) : string :=
  String.substring (last_stdout_len g)
                   (String.length (captured_stdout g) - last_stdout_len g)
                   (captured_stdout g).

(** An update of [last_trace_entry], which is the last entry of
    [trace_data]. *)
Definition update_last (f : TraceEntry -> TraceEntry) (l : list TraceEntry)
  : list TraceEntry :=
  match rev l with
  | [] => []
  | e :: r => rev (f e :: r)
  end.

Definition with_output (o : string) (e : TraceEntry) : TraceEntry :=
  {| t_line := t_line e; t_caller_line := t_caller_line e; t_event := t_event e;
     t_func := t_func e; t_output := Some o; t_variables := t_variables e;
     t_memory_usage := t_memory_usage e; t_memory_delta := t_memory_delta e;
     t_execution_time := t_execution_time e;
     t_error := t_error e; t_traceback := t_traceback e |}.

Definition with_variables (v : dict) (time : option jval) (e : TraceEntry) : TraceEntry :=
  {| t_line := t_line e; t_caller_line := t_caller_line e; t_event := t_event e;
     t_func := t_func e; t_output := t_output e; t_variables := v;
     t_memory_usage := t_memory_usage e; t_memory_delta := t_memory_delta e;
     t_execution_time := default (t_execution_time e) time;
     t_error := t_error e; t_traceback := t_traceback e |}.

(** The output produced since the last hook goes to the last entry. *)
Definition claim_output (g : globals) : list TraceEntry :=
  if Py.is_empty (diff g) then trace_data g
  else update_last (with_output (diff g)) (trace_data g).

(** [trace_lines] on a ['line'] event of the guest's code. *)
Definition trace_lines (ev : line_event) (g : globals) : globals :=
  let entries := claim_output g in
  let entries := update_last (with_variables (ev_locals ev) (Some (ev_elapsed ev))) entries in
  let entry :=
    {| t_line := Some (ev_line ev); t_caller_line := ev_caller_line ev;
       t_event := Some "line"; t_func := Some (ev_func ev); t_output := None;
       t_variables := []; t_memory_usage := ev_memory ev; t_memory_delta := 0;
       t_execution_time := JInt 0; t_error := None; t_traceback := None |} in
  {| trace_data := (entries ++ [entry])%list; input_values := input_values g;
     input_index := input_index g; captured_stdout := captured_stdout g;
     last_stdout_len := String.length (captured_stdout g) |}.

(** How a guest program exchanges with the wrapper while [exec] runs it:
    the interpreter announces a line, the program prints, asks for input, or
    stops. [GInput] continues with [k value] when the shim returns; when the
    shim raises, the exception propagates to the wrapper unless the call
    sits in a [try] whose handler catches it, in which case the program
    continues as [handler]. *)
Inductive guest : Type :=
| GEnd (final_vars : dict)
| GRaise (msg : string)
| GExit (code : Z)
| GLine (ev : line_event) (k : guest)
| GPrint (text : string) (k : guest)
| GInput (prompt : string) (k : string -> guest) (handler : option guest).

Inductive finish :=
| Completed              (* [exec] returned *)
| Caught (msg : string)  (* [except Exception as e] *)
| Exited (code : Z).     (* [SystemExit] passes through *)

Definition exception_entry (format_exc : string -> string) (msg : string) : TraceEntry :=
  {| t_line := None; t_caller_line := None; t_event := Some "exception";
     t_func := None; t_output := None; t_variables := [];
     t_memory_usage := 0; t_memory_delta := 0; t_execution_time := JInt 0;
     t_error := Some msg; t_traceback := Some (format_exc msg) |}.

Definition with_trace (t : list TraceEntry) (g : globals) : globals :=
  {| trace_data := t; input_values := input_values g; input_index := input_index g;
     captured_stdout := captured_stdout g; last_stdout_len := last_stdout_len g |}.

(** The [try] / [except Exception] of lines 339-400 around [exec]. *)
Fixpoint run (format_exc : string -> string) (p : guest) (g : globals)
  : globals * finish :=
  match p with
  | GEnd final_vars =>
      let entries := claim_output g in
      let entries := match final_vars with
                     | [] => entries
                     | _ => update_last (with_variables final_vars None) entries
                     end in
      (with_trace entries g, Completed)
  | GRaise msg =>
      (with_trace (trace_data g ++ [exception_entry format_exc msg])%list g, Caught msg)
  | GExit code => (g, Exited code)
  | GLine ev k => run format_exc k (trace_lines ev g)
  | GPrint text k => run format_exc k (write text g)
  | GInput prompt k handler =>
      match custom_input prompt g with
      | (g, Return value) => run format_exc (k value) g
      | (g, Raise e) =>
          match handler with
          | Some p' => run format_exc p' g
          | None =>
              (with_trace (trace_data g ++ [exception_entry format_exc (exn_msg e)])%list g,
               Caught (exn_msg e))
          end
      end
  end.

(** The process exit status: 0 unless [SystemExit] carried another code. *)
Definition returncode (f : finish) : Z :=
  match f with Exited code => code `mod` 256 | _ => 0 end.

(** [_parse_interactive_output], lines 482-491. *)
Fixpoint memory_deltas (previous_memory : Z) (t : list TraceEntry) : list TraceEntry :=
  match t with
  | [] => []
  | e :: rest =>
      {| t_line := t_line e; t_caller_line := t_caller_line e; t_event := t_event e;
         t_func := t_func e; t_output := t_output e; t_variables := t_variables e;
         t_memory_usage := if t_memory_usage e <? 0 then 0 else t_memory_usage e;
         t_memory_delta := t_memory_usage e - previous_memory;
         t_execution_time := t_execution_time e;
         t_error := t_error e; t_traceback := t_traceback e |}
      :: memory_deltas (t_memory_usage e) rest
  end.

(** [execute_interactive] for a guest that ends: the payload printed in the
    [finally] block, read back by [_parse_interactive_output]. The child's
    own standard error is [stderr]. *)
Definition execute_interactive (format_exc : string -> string) (stderr : string)
    (p : guest) (input_values : list string) (payload : jval) : ExecutionResult :=
  let '(g, f) := run format_exc p (initial input_values) in
  {| stdout := captured_stdout g;
     Trace.stderr := stderr;
     exit_code := returncode f;
     timed_out := false;
     output := Some payload;
     interactive := Some (memory_deltas 0 (trace_data g),
                          take (input_index g) (Wrapper.input_values g)) |}.

(** The result built when the child exceeds its time budget and is killed
    ([execute_with_subprocess] lines 130-135): nothing was printed. *)
Definition timed_out_result : ExecutionResult :=
  {| stdout := ""; Trace.stderr := "Code execution timed out"; exit_code := -1;
     timed_out := true; output := None; interactive := Some ([], []) |}.

(** The input requests a run makes: how many, and whether each found a
    value. [requests_beyond p vs] holds when the run of [p] on the values
    [vs] reaches a request with no value left. *)
Fixpoint exhausts (p : guest) (g : globals) : bool :=
  match p with
  | GEnd _ | GRaise _ | GExit _ => false
  | GLine ev k => exhausts k (trace_lines ev g)
  | GPrint text k => exhausts k (write text g)
  | GInput prompt k handler =>
      match custom_input prompt g with
      | (g, Return value) => exhausts (k value) g
      | (_, Raise _) => true
      end
  end.

(** No input call of the program sits in a handler that catches the shim's
    exception. *)
Fixpoint never_handles (p : guest) (g : globals) : bool :=
  match p with
  | GEnd _ | GRaise _ | GExit _ => true
  | GLine ev k => never_handles k (trace_lines ev g)
  | GPrint text k => never_handles k (write text g)
  | GInput prompt k handler =>
      match handler with
      | Some _ => false
      | None =>
          match custom_input prompt g with
          | (g, Return value) => never_handles (k value) g
          | (_, Raise _) => true
          end
      end
  end.

(** Traces made of line entries only. *)
Definition line_entries (t : list TraceEntry) : Prop :=
  Forall (fun e => t_event e = Some "line") t.

End Wrapper.

(** ** [services/simulators/direct_code_executor.py] *)

Module Executor.
Import Trace.

(** What lines 324-1024 contribute to the state of a step: they assign
    [state["instances"]], [state["active"]], [state["explanation"]],
    entries of [state["step_detail"]] and, in one branch,
    [state["message"]]; they add no other key. *)
Record Annotation := {
  an_instances : jval;
  an_active : jval;
  an_step_detail : dict;
  an_message : option string;
  an_explanation : jval
}.

(** The collaborators of the executor: [json.loads] ([None] when it raises
    [JSONDecodeError]), [str], [_extract_class_metadata], the text of
    [traceback.format_exc()], and the annotation of one traced line, which
    may raise. *)
Record Env := {
  json_loads : string -> option jval;
  py_str : jval -> string;
  extract_class_metadata : string -> dict;
  format_exc : exn -> string;
  annotate : option string -> string -> TraceEntry -> string -> list string ->
             list ExecutionStepSchema -> outcome Annotation
}.

Definition jstrs (l : list string) : jval := JList (map JStr l).

Definition opt_jstr (o : option string) : jval :=
  match o with Some s => JStr s | None => JNone end.

(** [code.split('\n')[0] if code.split('\n') else code] *)
Definition first_line (code : string) : string :=
  match Py.split_lines code with x :: _ => x | [] => code end.

(** [l[i]] with Python's negative indices. *)
Definition py_index {A} (l : list A) (i : Z) : outcome A :=
  let j := if i <? 0 then len l + i else i in
  if (0 <=? j) && (j <? len l) then
    match l !! Z.to_nat j with
    | Some x => Return x
    | None => Raise (Exn IndexError "list index out of range")
    end
  else Raise (Exn IndexError "list index out of range").

(** [_create_error_step] *)
Definition _create_error_step (code : string) (result : ExecutionResult)
    (step_number : Z) : list ExecutionStepSchema :=
  [ {| stepNumber := step_number;
       line := 1;
       Schemas.code := first_line code;
       state :=
         [("error", JStr (if Py.is_empty (stderr result) then "Execution failed"
                          else stderr result));
          ("exit_code", JInt (exit_code result));
          ("timed_out", JBool (timed_out result));
          ("message", JStr (if Py.is_empty (stderr result) then "Execution failed"
                            else "เกิดข้อผิดพลาด: " +:+ stderr result))] |} ].

(** The loop variables of [_create_steps_from_result]. *)
Record loop := {
  steps : list ExecutionStepSchema;
  step_number : Z;
  accumulated_stdout : list string;
  current_line_buffer : string
}.

(** Lines 261-275: the step for an ["exception"] entry. *)
Definition exception_step (st : loop) (ts : TraceEntry) : ExecutionStepSchema :=
  let error_msg := default "Unknown Error" (t_error ts) in
  {| stepNumber := step_number st;
     line := match last (steps st) with Some s => line s | None => 1 end;
     Schemas.code := match last (steps st) with Some s => Schemas.code s | None => "" end;
     state := [("error", JStr error_msg);
               ("message", JStr ("Execution Error: " +:+ error_msg));
               ("traceback", JStr (default "" (t_traceback ts)));
               ("stdout", jstrs (accumulated_stdout st))] |}.

(** Lines 294-304. *)
Definition accumulate (step_output : option string) (acc : list string) (buffer : string)
  : list string * string :=
  match step_output with
  | Some o =>
      if Py.is_empty o then (acc, buffer)
      else if Py.endswith_nl o then
        let full_line := buffer +:+ Py.rstrip_nl o in
        ((if Py.is_empty full_line then acc else acc ++ [full_line])%list, "")
      else (acc, buffer +:+ o)
  | None => (acc, buffer)
  end.

Definition has_output (step_output : option string) : bool :=
  match step_output with Some o => negb (Py.is_empty o) | None => false end.

(** Lines 259-1032: the body of the loop over [result.trace]. *)
Definition trace_step_body (env : Env) (code : string) (data_structure_type : option string)
    (class_metadata : dict) (code_lines : list string) (st : loop) (ts : TraceEntry)
  : outcome loop :=
  if bool_decide (t_event ts = Some "exception") then
    Return {| steps := (steps st ++ [exception_step st ts])%list;
              step_number := step_number st + 1;
              accumulated_stdout := accumulated_stdout st;
              current_line_buffer := current_line_buffer st |}
  else
    match t_line ts with
    | None =>
        Raise (Exn TypeError
                 "'<=' not supported between instances of 'int' and 'NoneType'")
    | Some line_no =>
        let current_code :=
          if (1 <=? line_no) && (line_no <=? len code_lines)
          then Py.strip (default "" (code_lines !! Z.to_nat (line_no - 1)))
          else "" in
        if Py.is_empty current_code || Py.startswith "#" current_code then Return st
        else
          let step_output := t_output ts in
          let '(acc, buffer) :=
            accumulate step_output (accumulated_stdout st) (current_line_buffer st) in
          bind (annotate env data_structure_type code ts current_code acc (steps st))
            (fun an =>
               let message :=
                 match an_message an with
                 | Some m => m
                 | None =>
                     if has_output step_output
                     then "Print: " +:+ default "" step_output
                     else "Executed line " +:+ Py.str_int line_no
                 end in
               let state :=
                 [("variables", JDict (t_variables ts));
                  ("stdout", jstrs acc);
                  ("message", JStr message);
                  ("active", an_active an);
                  ("instances", an_instances an);
                  ("memory", JInt (t_memory_usage ts));
                  ("memory_delta", JInt (t_memory_delta ts));
                  ("execution_time", t_execution_time ts);
                  ("step_detail", JDict (an_step_detail an));
                  ("explanation", an_explanation an)]
                 ++ match class_metadata with
                    | [] => []
                    | _ => [("class_metadata", JDict class_metadata)]
                    end in
               Return {| steps := (steps st ++
                                   [ {| stepNumber := step_number st; line := line_no;
                                        Schemas.code := current_code; state := state |} ])%list;
                         step_number := step_number st + 1;
                         accumulated_stdout := acc;
                         current_line_buffer := buffer |})
    end.

Fixpoint trace_loop (env : Env) (code : string) (data_structure_type : option string)
    (class_metadata : dict) (code_lines : list string) (t : list TraceEntry) (st : loop)
  : outcome loop :=
  match t with
  | [] => Return st
  | ts :: rest =>
      bind (trace_step_body env code data_structure_type class_metadata code_lines st ts)
           (trace_loop env code data_structure_type class_metadata code_lines rest)
  end.

Definition with_state (s : ExecutionStepSchema) (st : dict) : ExecutionStepSchema :=
  {| stepNumber := stepNumber s; line := line s; Schemas.code := Schemas.code s;
     state := st |}.

(** Lines 1034-1039: the unfinished output line goes to the last step. *)
Definition flush (st : loop) : list ExecutionStepSchema :=
  if Py.is_empty (current_line_buffer st) then steps st
  else
    let acc := (accumulated_stdout st ++ [current_line_buffer st])%list in
    match rev (steps st) with
    | [] => []
    | s :: r => rev (with_state s (Dict.set "stdout" (jstrs acc) (state s)) :: r)
    end.

(** Lines 1065-1079 and 1094-1107: the value under ["output"]. *)
Definition outputs_of (env : Env) (output_value : jval) : list string * string :=
  match output_value with
  | JStr s => ([s], s)
  | JList l =>
      let print_outputs :=
        map (fun v => match v with JStr s => s | _ => py_str env v end) l in
      (print_outputs, Py.join Py.NL print_outputs)
  | v => ([py_str env v], py_str env v)
  end.

Definition simple_error_step (env : Env) (code : string) (step_number : Z)
    (error_msg : jval) : ExecutionStepSchema :=
  {| stepNumber := step_number; line := 1; Schemas.code := first_line code;
     state := [("error", error_msg);
               ("message",
                JStr ("เกิดข้อผิดพลาด: " +:+
                      match error_msg with JStr s => s | v => py_str env v end))] |}.

(** Lines 1154-1197: one step per line of the source that holds a print
    call; [line_num] numbers the lines from 1. *)
Fixpoint print_steps (result : ExecutionResult) (print_outputs : list string)
    (actual_stdout : string) (lines : list string) (line_num : Z) (step_number : Z)
    (print_statement_count : nat) : list ExecutionStepSchema :=
  match lines with
  | [] => []
  | l :: rest =>
      let stripped_line := Py.strip l in
      if Py.startswith "#" stripped_line then
        print_steps result print_outputs actual_stdout rest (line_num + 1)
                    step_number print_statement_count
      else if Py.contains "print(" stripped_line then
        let output_value := default "" (print_outputs !! print_statement_count) in
        {| stepNumber := step_number; line := line_num; Schemas.code := stripped_line;
           state :=
             [("message", JStr (if Py.is_empty output_value then "Print statement executed"
                                else "Print: " +:+ output_value));
              ("stdout", JStr actual_stdout);
              ("step_detail", JDict [("operation", JStr "print");
                                     ("content", JStr stripped_line);
                                     ("output", JStr output_value)]);
              ("stderr", JStr (stderr result))] |}
        :: print_steps result print_outputs actual_stdout rest (line_num + 1)
                       (step_number + 1) (S print_statement_count)
      else
        print_steps result print_outputs actual_stdout rest (line_num + 1)
                    step_number print_statement_count
  end.

Definition is_dict_with (k : string) (v : jval) : option jval :=
  match v with JDict d => Dict.get k d | _ => None end.

(** Lines 1063-1133: the printed outputs found in [result.output] or, failing
    that, in [result.stdout]; or the error step of lines 1108-1120. *)
Definition parsed_outputs (env : Env) (code : string) (result : ExecutionResult)
    (step_number : Z) : option (list string * string) + ExecutionStepSchema :=
  if match output result with Some o => truthy o | None => false end then
    match output result with
    | Some o =>
        match is_dict_with "output" o with
        | Some output_value => inl (Some (outputs_of env output_value))
        | None =>
            if is_interactive result
               && match is_dict_with "trace" o with Some _ => true | None => false end
            then inl None
            else inl (Some ([py_str env o], py_str env o))
        end
    | None => inl None
    end
  else if negb (Py.is_empty (stdout result)) then
    match json_loads env (Py.strip (stdout result)) with
    | Some v =>
        match is_dict_with "output" v with
        | Some output_value => inl (Some (outputs_of env output_value))
        | None =>
            match is_dict_with "error" v with
            | Some error_msg => inr (simple_error_step env code step_number error_msg)
            | None =>
                inl (Some (if Py.is_empty (Py.strip (stdout result)) then []
                           else [stdout result], stdout result))
            end
        end
    | None =>
        if Py.is_empty (Py.strip (stdout result)) then inl (Some ([], ""))
        else inl (Some ([Py.strip (stdout result)], Py.strip (stdout result)))
    end
  else inl None.

(** Lines 1135-1152: an error reported as JSON on the standard error. *)
Definition stderr_error (env : Env) (result : ExecutionResult)
    (print_outputs : list string) : option jval :=
  match print_outputs with
  | [] =>
      if Py.is_empty (stderr result) then None
      else
        match json_loads env (Py.strip (stderr result)) with
        | Some v => is_dict_with "error" v
        | None => None
        end
  | _ => None
  end.

(** Lines 1199-1213. *)
Definition general_step (code : string) (result : ExecutionResult) (step_number : Z)
    (print_outputs : list string) : ExecutionStepSchema :=
  {| stepNumber := step_number; line := 1; Schemas.code := first_line code;
     state :=
       [("message", JStr "Code executed successfully");
        ("execution_result",
         match output result with
         | Some o => if truthy o then o else JDict []
         | None => JDict []
         end);
        ("stdout", jstrs print_outputs);
        ("stderr", JStr (stderr result))] |}.

(** Lines 1044-1215: the steps built when the trace gave none. *)
Definition fallback_steps (env : Env) (code : string) (result : ExecutionResult)
    (step_number : Z) : list ExecutionStepSchema :=
  match parsed_outputs env code result step_number with
  | inr error_step => [error_step]
  | inl p =>
      let print_outputs := fst (default ([], "") p) in
      let actual_stdout := snd (default ([], "") p) in
      match stderr_error env result print_outputs with
      | Some e => [simple_error_step env code step_number e]
      | None =>
          match print_steps result print_outputs actual_stdout (Py.split_lines code)
                            1 step_number 0 with
          | [] => [general_step code result step_number print_outputs]
          | l => l
          end
      end
  end.

(** [_create_steps_from_result] *)
Definition _create_steps_from_result (env : Env) (code : string) (result : ExecutionResult)
    (step_number : Z) (data_structure_type : option string)
  : outcome (list ExecutionStepSchema) :=
  let class_metadata := extract_class_metadata env code in
  let start := {| steps := []; step_number := step_number;
                  accumulated_stdout := []; current_line_buffer := "" |} in
  match trace result with
  | [] => Return (fallback_steps env code result step_number)
  | t =>
      bind (trace_loop env code data_structure_type class_metadata
                       (Py.split_lines code) t start)
        (fun st =>
           match flush st with
           | [] => Return (fallback_steps env code result step_number)
           | l => Return l
           end)
  end.

(** Lines 1229-1232: [step.state["step_detail"]["input_history"] = ...] *)
Definition add_input_history (history : list string) (s : ExecutionStepSchema)
  : outcome ExecutionStepSchema :=
  match Dict.get "step_detail" (state s) with
  | None => Return s
  | Some (JDict d) =>
      Return (with_state s (Dict.set "step_detail"
                              (JDict (Dict.set "input_history" (jstrs history) d))
                              (state s)))
  | Some _ =>
      Raise (Exn TypeError "object does not support item assignment")
  end.

Fixpoint mapM {A B} (f : A -> outcome B) (l : list A) : outcome (list B) :=
  match l with
  | [] => Return []
  | x :: rest => bind (f x) (fun y => bind (mapM f rest) (fun ys => Return (y :: ys)))
  end.

(** [_create_steps_from_interactive_result] *)
Definition _create_steps_from_interactive_result (env : Env) (code : string)
    (result : ExecutionResult) (step_number : Z) (data_structure_type : option string)
  : outcome (list ExecutionStepSchema) :=
  bind (_create_steps_from_result env code result step_number data_structure_type)
    (fun steps =>
       match input_history result with
       | [] => Return steps
       | history => mapM (add_input_history history) steps
       end).

Definition waiting_marker : string := "__WAITING_FOR_INPUT__:".

(** Lines 89-98: the signal a program may have left in its output. *)
Definition waiting_signal_of (env : Env) (result : ExecutionResult)
  : option jval * ExecutionResult :=
  if Py.contains waiting_marker (stdout result) then
    let parts := Py.split waiting_marker (stdout result) in
    (json_loads env (Py.strip (default "" (parts !! 1%nat))),
     {| stdout := default "" (parts !! 0%nat); stderr := stderr result;
        exit_code := exit_code result; timed_out := timed_out result;
        output := output result; interactive := interactive result |})
  else (None, result).

(** An [int] read from a JSON value, as Python arithmetic and the step
    schema take it. *)
Definition as_line (v : jval) : outcome Z :=
  match v with
  | JInt n => Return n
  | JBool b => Return (if b then 1 else 0)
  | _ => Raise (Exn TypeError "unsupported operand type(s) for -")
  end.

(** Lines 126-139. *)
Definition waiting_step (env : Env) (code : string) (waiting_signal : jval)
    (steps : list ExecutionStepSchema) : outcome ExecutionStepSchema :=
  match waiting_signal with
  | JDict w =>
      let code_lines := Py.split_lines code in
      bind (as_line (default (JInt (len code_lines)) (Dict.get "line" w))) (fun line =>
      bind (as_line (default (JInt 1) (Dict.get "line" w))) (fun l1 =>
      bind (py_index code_lines (l1 - 1)) (fun text =>
        let prompt := default (JStr "") (Dict.get "prompt" w) in
        Return
          {| stepNumber := len steps + 1;
             line := line;
             Schemas.code := Py.strip text;
             state :=
               [("message", JStr ("Waiting for input: " +:+
                                  match prompt with JStr s => s | v => py_str env v end));
                ("waiting_for_input", JBool true);
                ("input_prompt", prompt);
                ("stdout", match last steps with
                           | Some s => default (JList []) (Dict.get "stdout" (state s))
                           | None => JList []
                           end)] |})))
  | _ => Raise (Exn AttributeError "object has no attribute 'get'")
  end.

(** The [try] block of [execute] from line 89 on, given the result of the
    child process. *)
Definition execute_body (env : Env) (code : string) (result : ExecutionResult)
    (data_structure_type : option string) : outcome (list ExecutionStepSchema) :=
  let step_number := 1 in
  let '(waiting_signal, result) := waiting_signal_of env result in
  bind (if is_interactive result then
          bind (_create_steps_from_interactive_result env code result step_number
                                                      data_structure_type)
            (fun steps =>
               if negb (exit_code result =? 0) then
                 let next_step_num := step_number + len steps in
                 Return (steps ++ _create_error_step code result next_step_num)%list
               else Return steps)
        else if exit_code result =? 0 then
          _create_steps_from_result env code result step_number data_structure_type
        else Return (_create_error_step code result step_number))
    (fun steps =>
       match waiting_signal with
       | Some w =>
           if truthy w then
             bind (waiting_step env code w steps) (fun s => Return (steps ++ [s])%list)
           else Return steps
       | None => Return steps
       end).

(** Lines 145-159. *)
Definition unexpected_error_step (env : Env) (code : string) (e : exn)
  : ExecutionStepSchema :=
  {| stepNumber := 1; line := 1; Schemas.code := first_line code;
     state := [("error", JStr ("Unexpected error: " +:+ exn_msg e));
               ("error_type", JStr "EXECUTION_ERROR");
               ("message", JStr ("เกิดข้อผิดพลาดในการรันโค้ด: " +:+ exn_msg e));
               ("traceback", JStr (format_exc env e))] |}.

(** [execute], from the result the child process produced. *)
Definition execute (env : Env) (code : string) (result : ExecutionResult)
    (data_structure_type : option string) : list ExecutionStepSchema :=
  match execute_body env code result data_structure_type with
  | Return steps => steps
  | Raise e => [unexpected_error_step env code e]
  end.

(** The step numbers of a list are [first], [first + 1], ... in order. *)
Definition numbered_from (first : Z) (l : list ExecutionStepSchema) : Prop :=
  map stepNumber l = seqZ first (len l).

(** A trace entry that yields a step: an exception entry, or a line whose
    source text is neither blank nor a comment. *)
Definition visible (code_lines : list string) (ts : TraceEntry) : bool :=
  bool_decide (t_event ts = Some "exception")
  || match t_line ts with
     | Some line_no =>
         let current_code :=
           if (1 <=? line_no) && (line_no <=? len code_lines)
           then Py.strip (default "" (code_lines !! Z.to_nat (line_no - 1)))
           else "" in
         negb (Py.is_empty current_code || Py.startswith "#" current_code)
     | None => false
     end.

Definition visible_count (code : string) (t : list TraceEntry) : Z :=
  len (filter (fun ts => visible (Py.split_lines code) ts = true) t).

(** The error that [result.stdout] reports as JSON, if any. *)
Definition stdout_error (env : Env) (result : ExecutionResult) : option jval :=
  match json_loads env (Py.strip (stdout result)) with
  | Some v => is_dict_with "error" v
  | None => None
  end.

(** The loop of [_create_steps_from_result] keeps [step_number] one past the
    steps it has appended. *)
Definition in_step (first : Z) (st : loop) : Prop :=
  numbered_from first (steps st) /\ step_number st = first + len (steps st).

End Executor.

(** ** From the controller to the child process *)

Module Pipeline.

(** [execute_code] of the simulators where it hands the program to
    [DirectCodeExecutor.execute] and returns its list:
    [DoublyLinkedListSimulator], [BinarySearchTreeSimulator] and
    [UndirectedGraphSimulator] for every program; [StackSimulator],
    [QueueSimulator], [GraphSimulator] and [SinglyLinkedListSimulator] for a
    program that calls [input(], holds an f-string or defines no class of
    theirs. [child] is the result of the child process for a program and its
    input values. *)
Definition execute_code (eenv : Executor.Env)
    (child : string -> list string -> Trace.ExecutionResult)
    (data_type code : string) (input_values : list string)
  : outcome (list ExecutionStepSchema) :=
  Return (Executor.execute eenv code (child code input_values) (Some data_type)).

(** The controller's collaborators when the simulator is one of these. *)
Definition controller_env (exec_id : string) (now : Z) (eenv : Executor.Env)
    (child : string -> list string -> Trace.ExecutionResult)
    (analyze_complexity : string -> option ComplexityAnalysis) : Controller.Env :=
  {| Controller.exec_id := exec_id;
     Controller.now := now;
     Controller.execute_with_timeout := execute_code eenv child;
     Controller.analyze_complexity := analyze_complexity;
     Controller.py_str := Executor.py_str eenv |}.

(** The value of an outcome, when there is one. *)
Definition returned {A} (x : outcome A) : option A :=
  match x with Return a => Some a | Raise _ => None end.

(** The response of a call, when it returned one. *)
Definition response (r : list Controller.event * outcome ExecutionResponse)
  : option ExecutionResponse :=
  match snd r with Return resp => Some resp | Raise _ => None end.

(** A request naming its data-structure type, without auto-detection. *)
Definition plain_request (code data_type : string) (input_values : list string)
  : ExecutionCreateRequest :=
  {| req_code := code; req_dataType := Some data_type;
     req_inputValues := Some input_values; req_autoDetect := Some false |}.

End Pipeline.

(** ** Sample programs and collaborators *)

Module Samples.
Import Trace.

(** An annotation that leaves the state as lines 307-322 build it. *)
Definition plain_annotation (ts : TraceEntry) (current_code : string) : Executor.Annotation :=
  {| Executor.an_instances := JDict [];
     Executor.an_active := JNone;
     Executor.an_step_detail :=
       [("operation", JStr "execution"); ("content", JStr current_code);
        ("output", Executor.opt_jstr (t_output ts))];
     Executor.an_message := None;
     Executor.an_explanation := JNone |}.

(** Collaborators: [json_loads] decodes the one text ["[1]"] (as
    [json.loads] does, to the list [[1]]) and rejects plain words; the
    annotation never raises. *)
Definition exec_env : Executor.Env :=
  {| Executor.json_loads :=
       fun s => if String.eqb s "[1]" then Some (JList [JInt 1]) else None;
     Executor.py_str := fun _ => "";
     Executor.extract_class_metadata := fun _ => [];
     Executor.format_exc := fun e => "Traceback (most recent call last): " +:+ exn_msg e;
     Executor.annotate := fun _ _ ts current_code _ _ => Return (plain_annotation ts current_code) |}.

Definition at_line (n : Z) (locals : dict) : Wrapper.line_event :=
  {| Wrapper.ev_line := n; Wrapper.ev_caller_line := Some n;
     Wrapper.ev_func := "<module>"; Wrapper.ev_locals := locals;
     Wrapper.ev_elapsed := JInt 0; Wrapper.ev_memory := 0 |}.

Definition format_exc (msg : string) : string := "Exception: " +:+ msg.

Definition child (p : Wrapper.guest) : string -> list string -> ExecutionResult :=
  fun _ input_values => Wrapper.execute_interactive format_exc "" p input_values (JDict [("trace", JList [])]).

Definition controller_env (p : Wrapper.guest) : Controller.Env :=
  Pipeline.controller_env "exec_0123456789ab" 0 exec_env (child p) (fun _ => None).

(** [name = input("Name: ")] then [print(name)]; the value is not caught. *)
Definition ask_code : string :=
  "name = input('Name: ')" +:+ Py.NL +:+ "print(name)".

Definition ask : Wrapper.guest :=
  Wrapper.GLine (at_line 1 [])
    (Wrapper.GInput "Name: "
       (fun name =>
          Wrapper.GLine (at_line 2 [("name", JStr name)])
            (Wrapper.GPrint (name +:+ Py.NL)
               (Wrapper.GEnd [("name", JStr name)])))
       None).

(** The same request inside [try: ... except Exception: name = 'nobody']. *)
Definition ask_guarded_code : string :=
  "try:" +:+ Py.NL +:+
  "    name = input('Name: ')" +:+ Py.NL +:+
  "except Exception:" +:+ Py.NL +:+
  "    name = 'nobody'".

Definition ask_guarded : Wrapper.guest :=
  Wrapper.GLine (at_line 1 [])
    (Wrapper.GLine (at_line 2 [])
       (Wrapper.GInput "Name: "
          (fun name => Wrapper.GEnd [("name", JStr name)])
          (Some (Wrapper.GLine (at_line 3 [])
                   (Wrapper.GLine (at_line 4 [])
                      (Wrapper.GEnd [("name", JStr "nobody")])))))).

(** [x = 1] then [raise SystemExit(1)]. *)
Definition exit_code_1_code : string := "x = 1" +:+ Py.NL +:+ "raise SystemExit(1)".

Definition exit_code_1 : Wrapper.guest :=
  Wrapper.GLine (at_line 1 [])
    (Wrapper.GLine (at_line 2 [("x", JInt 1)]) (Wrapper.GExit 1)).

(** [print('__WAITING_FOR_INPUT__:[1]')] then [raise SystemExit(1)]. *)
Definition marker_code : string :=
  "print('__WAITING_FOR_INPUT__:[1]')" +:+ Py.NL +:+ "raise SystemExit(1)".

Definition marker : Wrapper.guest :=
  Wrapper.GLine (at_line 1 [])
    (Wrapper.GPrint ("__WAITING_FOR_INPUT__:[1]" +:+ Py.NL)
       (Wrapper.GLine (at_line 2 []) (Wrapper.GExit 1))).

(** A method that walks to the last node and links a new node after it:
    [[
      new_node = Node(data)
      cur = self.head
      while cur.next != None:
          cur = cur.next
      cur.next = new_node
    ]] *)
Definition insert_at_end_body : list Ast.node :=
  [ Ast.Assign [Ast.Name "new_node"] (Ast.Call (Ast.Name "Node") [Ast.Name "data"]);
    Ast.Assign [Ast.Name "cur"] (Ast.Attribute (Ast.Name "self") "head");
    Ast.While (Ast.Compare (Ast.Attribute (Ast.Name "cur") "next") "NotEq"
                 (Ast.Constant Ast.CNone))
      [Ast.Assign [Ast.Name "cur"] (Ast.Attribute (Ast.Name "cur") "next")];
    Ast.Assign [Ast.Attribute (Ast.Name "cur") "next"] (Ast.Name "new_node") ].

(** [self.items.append(data)] *)
Definition append_call : Ast.node :=
  Ast.Expr (Ast.Call (Ast.Attribute (Ast.Attribute (Ast.Name "self") "items") "append")
              [Ast.Name "data"]).

(** [[
      def f():
          for i in range(5):
              pass
    ]] *)
Definition range_5_loop : Ast.node :=
  Ast.For (Ast.Name "i") (Ast.Call (Ast.Name "range") [Ast.Constant (Ast.CInt 5)])
    [Ast.Pass].

Definition constant_loop_function : Ast.node := Ast.FunctionDef "f" [] [range_5_loop].

(** [[
      def with_constant_inner(n):
          for i in range(n):
              for j in range(100):
                  print(i, j)
    ]] *)
Definition with_constant_inner : Ast.node :=
  Ast.FunctionDef "with_constant_inner" ["n"]
    [ Ast.For (Ast.Name "i") (Ast.Call (Ast.Name "range") [Ast.Name "n"])
        [ Ast.For (Ast.Name "j")
            (Ast.Call (Ast.Name "range") [Ast.Constant (Ast.CInt 100)])
            [ Ast.Expr (Ast.Call (Ast.Name "print") [Ast.Name "i"; Ast.Name "j"]) ] ] ].

(** The response to [exit_code_1]. *)
Definition exit_1_response : ExecutionResponse :=
  Eval vm_compute in
    match snd (Controller.run_code_guest (controller_env exit_code_1) Controller.__init__
                 (Pipeline.plain_request exit_code_1_code "stack" [])) with
    | Return r => r
    | Raise _ => ExecutionHelper.create_error_response "" "" None "" 0 None
    end.

(** The steps synthesized from the trace of [exit_code_1]. *)
Definition exit_1_synthesized : list ExecutionStepSchema :=
  Eval vm_compute in
    match Executor._create_steps_from_interactive_result exec_env exit_code_1_code
            (child exit_code_1 "" []) 1 (Some "stack") with
    | Return l => l
    | Raise _ => []
    end.

(** A controller whose time budget always expires. *)
Definition always_timeout : Controller.Env :=
  {| Controller.exec_id := "exec_0123456789ab"; Controller.now := 0;
     Controller.execute_with_timeout :=
       fun _ _ _ => Raise (Exn TimeoutError "Code execution exceeded 30 seconds");
     Controller.analyze_complexity := fun _ => None;
     Controller.py_str := fun _ => "" |}.

End Samples.

(** * Further modules

  Code that the modules above call, or that calls them:

  - [utils/messages_th.py] (module [MessagesTh]);
  - the node managers of the array stack, the array queue and the binary
    search tree (modules [StackNodeManager], [QueueNodeManager] and
    [BSTNodeManager]);
  - [services/simulators/data_structure_detector.py]
    (module [DataStructureDetector]);
  - the handler of [POST /run] in [api/routes/playground.py]
    (module [Routes]);
  - the manager of linked lists, [services/simulators/operations/node_manager.py]
    (module [NodeManager]), and the execution of a method by its behaviour
    in [services/simulators/operations/behavior_analyzer.py]
    (module [MethodExecution]);
  - the manager of graphs, [services/simulators/graph/graph_node_manager.py]
    (module [GraphNodeManager]). *)

From stdpp Require Import sorting.

Open Scope string_scope.
Open Scope Z_scope.
Open Scope list_scope.

(** ** [utils/messages_th.py] *)

Module MessagesTh.

Definition MESSAGES : list (string * string) :=
  [
   ("class_defined",
    "คลาส {class_name} ถูกกำหนด");
   ("instance_created_singly",
    "สร้าง singly linked list '{var_name}' (ว่างเปล่า)");
   ("instance_created_doubly",
    "สร้าง doubly linked list '{var_name}' (ว่างเปล่า)");
   ("instance_created_generic",
    "สร้าง {class_name} '{var_name}'");
   ("node_created",
    "สร้างโหนด '{var_name}' ด้วยข้อมูล '{node_name}'");
   ("attribute_set_first",
    "ตั้งค่า {instance_name}.{attribute} เป็น {value_var} (โหนดแรก)");
   ("attribute_set",
    "อัปเดต {instance_name}.{attribute} เป็น {value_var}");
   ("attribute_set_generic",
    "ตั้งค่า {instance_name}.{attribute} เป็น {value_var}");
   ("chained_attribute_set",
    "เชื่อมต่อ {instance_name}.head.next เป็น {value_var}");
   ("prev_attribute_set",
    "เชื่อมต่อ {node_var}.prev เป็น {instance_name}.head");
   ("chained_attribute_failed",
    "ไม่สามารถเชื่อมต่อ {instance_name}.head.next เป็น {value_var}");
   ("prev_attribute_failed",
    "ไม่สามารถเชื่อมต่อ {node_var}.prev เป็น {instance_name}.head");
   ("insert_first_node",
    "เพิ่มข้อมูล '{data}' ที่ตำแหน่งเริ่มต้นของ linked list");
   ("insert_front",
    "เพิ่มข้อมูล '{data}' ที่ตำแหน่งเริ่มต้นของ linked list");
   ("insert_last",
    "เพิ่มข้อมูล '{data}' ที่ตำแหน่งท้ายของ linked list");
   ("insert_before",
    "เพิ่มข้อมูล '{new_data}' ก่อน '{target_name}' ใน linked list");
   ("insert_before_head",
    "เพิ่มข้อมูล '{new_data}' ก่อน '{target_name}' ใน linked list");
   ("target_not_found",
    "ไม่พบข้อมูล '{target_name}' ใน linked list");
   ("delete_from_head",
    "ลบข้อมูลที่ตำแหน่งเริ่มต้นของ linked list");
   ("delete_node",
    "ลบข้อมูล '{target_name}' ออกจาก linked list");
   ("delete_empty_list",
    "ไม่สามารถลบข้อมูล: linked list ว่างเปล่า");
   ("delete_target_not_found",
    "ไม่พบข้อมูล '{target_name}' ใน linked list");
   ("traverse_empty",
    "linked list ว่างเปล่า");
   ("traverse_output",
    "-> {output}");
   ("traverse_method",
    "เดินทางผ่าน linked list ทั้งหมด: {output}");
   ("traverse_method_empty",
    "เดินทางผ่าน linked list ทั้งหมด: linked list ว่างเปล่า");
   ("using_method",
    "โดยใช้ {method_name}()");
   ("insert_front_using",
    "เพิ่มข้อมูล '{data}' ที่ตำแหน่งเริ่มต้นของ linked list โดยใช้ {method_name}()");
   ("insert_last_using",
    "เพิ่มข้อมูล '{data}' ที่ตำแหน่งท้ายของ linked list โดยใช้ {method_name}()");
   ("insert_before_using",
    "เพิ่มข้อมูล '{new_data}' ก่อน '{target_name}' ใน linked list โดยใช้ {method_name}()");
   ("delete_using",
    "ลบข้อมูล '{target_name}' ออกจาก linked list โดยใช้ {method_name}()");
   ("instance_not_found",
    "ไม่พบ linked list '{instance_name}'");
   ("variable_not_found",
    "ไม่พบตัวแปร '{var_name}'");
   ("nodes_corrupted",
    "ข้อมูลโหนดเสียหาย");
   ("invalid_instance",
    "linked list ไม่ถูกต้อง");
   ("method_not_found",
    "ไม่พบเมธอด {method_name} ใน {class_type}");
   ("method_requires_data",
    "{method_name} ต้องการข้อมูล");
   ("method_requires_target",
    "{method_name} ต้องการข้อมูลเป้าหมาย");
   ("method_requires_params",
    "{method_name} ต้องการพารามิเตอร์");
   ("constructor_called",
    "เรียกคอนสตรักเตอร์ {method_name} สำหรับ {instance_name}");
   ("getter_returned",
    "{instance_name}.{method_name}(): คืนค่า");
   ("executed_unknown",
    "ดำเนินการ {method_name} บน {instance_name} (พฤติกรรม: {behavior_type})");
   ("syntax_error",
    "เกิดข้อผิดพลาดทางไวยากรณ์ที่บรรทัด {line}: {message}");
   ("name_error",
    "ไม่พบตัวแปร '{name}' ที่บรรทัด {line}");
   ("attribute_error",
    "ไม่มี attribute '{attr}' ใน '{obj}' ที่บรรทัด {line}");
   ("type_error",
    "ประเภทข้อมูลไม่ถูกต้องที่บรรทัด {line}: {message}");
   ("value_error",
    "ค่าข้อมูลไม่ถูกต้องที่บรรทัด {line}: {message}");
   ("index_error",
    "index เกินขอบเขตที่บรรทัด {line}");
   ("runtime_error",
    "เกิดข้อผิดพลาดขณะรันโค้ดที่บรรทัด {line}: {message}");
   ("stack_push",
    "นำข้อมูล '{data}' วางซ้อนทับลงไปบน Stack ข้อมูลใหม่นี้จะกลายเป็น **Top** (ข้อมูลบนสุด) ทันที ส่วนข้อมูลเดิมจะถูกดันลงไปด้านล่าง ส่งผลให้จำนวนข้อมูล (Size) เพิ่มขึ้นเป็น {size} ตามหลักการ **LIFO (Last In, First Out)** หรือ 'เข้าทีหลัง ออกก่อน'");
   ("stack_pop",
    "ดึงข้อมูล '{data}' ที่อยู่ตำแหน่งบนสุด (Top) ออกจาก Stack ซึ่งข้อมูลนี้คือตัวล่าสุดที่ถูกใส่เข้ามา เมื่อนำออกไปแล้ว ข้อมูลที่อยู่ถัดลงไปจะกลายเป็น Top ตัวใหม่แทน จำนวนข้อมูลลดลงเหลือ {size}");
   ("stack_peek",
    "ดูข้อมูลที่ตำแหน่งบนสุด (Top) ของ Stack โดยไม่มีการนำข้อมูลออก เพื่อตรวจสอบค่าล่าสุดที่ถูกเพิ่มเข้ามา ค่าปัจจุบันคือ '{data}'");
   ("stack_is_empty",
    "ตรวจสอบสถานะของ Stack ว่าว่างเปล่าไม่มีข้อมูลอยู่หรือไม่ ผลลัพธ์คือ `{result}`");
   ("stack_size",
    "นับจำนวนข้อมูลทั้งหมดที่เก็บอยู่ใน Stack ปัจจุบัน ได้ผลลัพธ์คือ {size} ตัว");
   ("bst_insert",
    "เพิ่มข้อมูล '{data}' เข้าไปใน binary search tree");
   ("bst_delete",
    "ลบข้อมูล '{data}' ออกจาก binary search tree");
   ("bst_search",
    "ค้นหาข้อมูล '{data}' ใน binary search tree");
   ("bst_traverse_inorder",
    "เดินทางผ่าน binary search tree แบบ inorder");
   ("bst_traverse_preorder",
    "เดินทางผ่าน binary search tree แบบ preorder");
   ("bst_traverse_postorder",
    "เดินทางผ่าน binary search tree แบบ postorder");
   ("graph_add_vertex",
    "เพิ่ม vertex '{data}' เข้าไปในกราฟ");
   ("graph_add_edge",
    "เพิ่ม edge จาก '{from_vertex}' ไป '{to_vertex}'");
   ("graph_remove_vertex",
    "ลบ vertex '{data}' และ edge ที่เชื่อมกับมัน");
   ("graph_remove_edge",
    "ลบ edge จาก '{from_vertex}' ไป '{to_vertex}'");
   ("graph_traversal_dfs",
    "เดินทางผ่านกราฟด้วย DFS เริ่มจาก '{start_vertex}'");
   ("graph_traversal_bfs",
    "เดินทางผ่านกราฟด้วย BFS เริ่มจาก '{start_vertex}'");
   ("graph_shortest_path",
    "หาเส้นทางที่สั้นที่สุดจาก '{start_vertex}' ไป '{end_vertex}'");
   ("linkedlist_initialized",
    "เริ่มต้น linked list ว่างเปล่า");
   ("executed_line",
    "ดำเนินการ: {line}")
  ].

(** What a keyword argument holds at the call sites: [None], a [str], an
    [int] or a [bool]. *)
Inductive argument :=
| ANone | AStr (s : string) | AInt (n : Z) | ABool (b : bool).

(** [format(value, "")] *)
Definition format_arg (a : argument) : string :=
  match a with
  | ANone => "None"
  | AStr s => s
  | AInt n => Py.str_int n
  | ABool true => "True"
  | ABool false => "False"
  end.

Definition KeyError : exn_class := OtherException "KeyError".

(** A [KeyError] keeps the missing key as its message. *)
Definition kwarg (kwargs : list (string * argument)) (name : string) : outcome string :=
  match Dict.get name kwargs with
  | Some a => Return (format_arg a)
  | None => Raise (Exn KeyError name)
  end.

Definition is_open (c : ascii) : bool := Ascii.eqb c "{".
Definition is_close (c : ascii) : bool := Ascii.eqb c "}".

(** [template.format] with keyword arguments for a template whose replacement fields are
    plain names: text is copied, a doubled brace stands for one brace, a
    field [{name}] is replaced by the argument of that name, fields being
    looked up from left to right. [field] holds the characters of the field
    being read. *)
Fixpoint format_go (kwargs : list (string * argument)) (field : option string)
    (template : string) : outcome string :=
  match template with
  | EmptyString =>
      match field with
      | None => Return ""
      | Some _ => Raise (Exn ValueError "expected '}' before end of string")
      end
  | String c rest =>
      match field with
      | Some name =>
          if is_close c then
            bind (kwarg kwargs name)
              (fun v => bind (format_go kwargs None rest) (fun r => Return (v +:+ r)))
          else format_go kwargs (Some (name +:+ String c "")) rest
      | None =>
          if is_open c then
            match rest with
            | String c' rest' =>
                if is_open c'
                then bind (format_go kwargs None rest') (fun r => Return (String c r))
                else format_go kwargs (Some "") rest
            | EmptyString => Raise (Exn ValueError "Single '{' encountered in format string")
            end
          else if is_close c then
            match rest with
            | String c' rest' =>
                if is_close c'
                then bind (format_go kwargs None rest') (fun r => Return (String c r))
                else Raise (Exn ValueError "Single '}' encountered in format string")
            | EmptyString => Raise (Exn ValueError "Single '}' encountered in format string")
            end
          else bind (format_go kwargs None rest) (fun r => Return (String c r))
      end
  end.

Definition format (template : string) (kwargs : list (string * argument)) : outcome string :=
  format_go kwargs None template.

(** The names of the replacement fields of a template, in order. *)
Fixpoint fields_go (field : option string) (template : string) : list string :=
  match template with
  | EmptyString => []
  | String c rest =>
      match field with
      | Some name =>
          if is_close c then name :: fields_go None rest
          else fields_go (Some (name +:+ String c "")) rest
      | None =>
          if is_open c then
            match rest with
            | String c' rest' =>
                if is_open c' then fields_go None rest' else fields_go (Some "") rest
            | EmptyString => []
            end
          else if is_close c then
            match rest with
            | String _ rest' => fields_go None rest'
            | EmptyString => []
            end
          else fields_go None rest
      end
  end.

Definition fields (template : string) : list string := fields_go None template.

Definition is_name_start (c : ascii) : bool :=
  let n := nat_of_ascii c in
  ((65 <=? n)%nat && (n <=? 90)%nat) || ((97 <=? n)%nat && (n <=? 122)%nat)
  || (n =? 95)%nat.

Definition is_name_char (c : ascii) : bool :=
  let n := nat_of_ascii c in
  is_name_start c || ((48 <=? n)%nat && (n <=? 57)%nat).

(** A field that names a keyword argument and nothing more: no index, no
    attribute, no conversion, no format specification. *)
Definition plain_field (name : string) : bool :=
  match name with
  | EmptyString => false
  | String c rest => is_name_start c && forallb is_name_char (list_ascii_of_string rest)
  end.

Definition plain_template (template : string) : bool :=
  forallb plain_field (fields template).

(** [get_message] *)
Definition get_message (key : string) (kwargs : list (string * argument)) : outcome string :=
  match Dict.get key MESSAGES with
  | None =>
      Raise (Exn KeyError ("Message key '" +:+ key +:+ "' not found in MESSAGES dictionary"))
  | Some template => format template kwargs
  end.

Definition get_class_defined_message (class_name : string) : outcome string :=
  get_message "class_defined" [("class_name", AStr class_name)].

Definition get_instance_created_message (class_name var_name : string) (is_doubly : bool)
  : outcome string :=
  if is_doubly
  then get_message "instance_created_doubly"
         [("class_name", AStr class_name); ("var_name", AStr var_name)]
  else get_message "instance_created_singly"
         [("class_name", AStr class_name); ("var_name", AStr var_name)].

Definition get_node_created_message (var_name node_name : string) : outcome string :=
  get_message "node_created" [("var_name", AStr var_name); ("node_name", AStr node_name)].

Definition opt_int (o : option Z) : argument :=
  match o with Some n => AInt n | None => ANone end.

Definition opt_str (o : option string) : argument :=
  match o with Some s => AStr s | None => ANone end.

(** [if s:] for an optional [str]. *)
Definition given (o : option string) : bool :=
  match o with Some s => negb (Py.is_empty s) | None => false end.

(** [get_insert_message] *)
Definition get_insert_message (operation_type data : string) (count : option Z)
    (target_name method_name : option string) : outcome string :=
  if String.eqb operation_type "first" then
    get_message "insert_first_node" [("data", AStr data)]
  else if String.eqb operation_type "front" then
    if given method_name then
      get_message "insert_front_using"
        [("data", AStr data); ("count", opt_int count); ("method_name", opt_str method_name)]
    else get_message "insert_front" [("data", AStr data); ("count", opt_int count)]
  else if String.eqb operation_type "last" then
    if given method_name then
      get_message "insert_last_using"
        [("data", AStr data); ("count", opt_int count); ("method_name", opt_str method_name)]
    else get_message "insert_last" [("data", AStr data); ("count", opt_int count)]
  else if String.eqb operation_type "before" then
    if given method_name then
      get_message "insert_before_using"
        [("new_data", AStr data); ("target_name", opt_str target_name);
         ("count", opt_int count); ("method_name", opt_str method_name)]
    else
      get_message "insert_before"
        [("new_data", AStr data); ("target_name", opt_str target_name);
         ("count", opt_int count)]
  else get_message "insert_front" [("data", AStr data); ("count", opt_int count)].

(** [get_delete_message] *)
Definition get_delete_message (target_name : string) (count : Z) (from_head : bool)
    (method_name : option string) : outcome string :=
  if given method_name then
    get_message "delete_using"
      [("target_name", AStr target_name); ("count", AInt count);
       ("method_name", opt_str method_name)]
  else if from_head then
    get_message "delete_from_head" [("target_name", AStr target_name); ("count", AInt count)]
  else
    get_message "delete_node" [("target_name", AStr target_name); ("count", AInt count)].

(** [get_traverse_message] *)
Definition get_traverse_message (instance_name method_name : string) (output : option string)
  : outcome string :=
  if given output then
    get_message "traverse_method"
      [("instance_name", AStr instance_name); ("method_name", AStr method_name);
       ("output", opt_str output)]
  else
    get_message "traverse_method_empty"
      [("instance_name", AStr instance_name); ("method_name", AStr method_name)].

(** [get_error_message] *)
Definition get_error_message (error_type : string) (kwargs : list (string * argument))
  : outcome string :=
  get_message error_type kwargs.

Definition executed_unknown (operation_type family : string) : outcome string :=
  get_message "executed_unknown"
    [("method_name", AStr operation_type); ("instance_name", AStr family);
     ("behavior_type", AStr family)].

(** [get_stack_message]; further keyword arguments are accepted and dropped. *)
Definition get_stack_message (operation_type : string) (data : option string)
  : outcome string :=
  if String.eqb operation_type "push" then get_message "stack_push" [("data", opt_str data)]
  else if String.eqb operation_type "pop" then get_message "stack_pop" []
  else if String.eqb operation_type "peek" then get_message "stack_peek" []
  else if String.eqb operation_type "is_empty" then get_message "stack_is_empty" []
  else if String.eqb operation_type "size" then get_message "stack_size" []
  else executed_unknown operation_type "stack".

(** [get_bst_message] *)
Definition get_bst_message (operation_type : string) (data : option string)
  : outcome string :=
  if String.eqb operation_type "insert" then get_message "bst_insert" [("data", opt_str data)]
  else if String.eqb operation_type "delete" then get_message "bst_delete" [("data", opt_str data)]
  else if String.eqb operation_type "search" then get_message "bst_search" [("data", opt_str data)]
  else if String.eqb operation_type "traverse_inorder" then get_message "bst_traverse_inorder" []
  else if String.eqb operation_type "traverse_preorder" then get_message "bst_traverse_preorder" []
  else if String.eqb operation_type "traverse_postorder" then get_message "bst_traverse_postorder" []
  else executed_unknown operation_type "bst".

(** [get_graph_message] *)
Definition get_graph_message (operation_type : string)
    (data from_vertex to_vertex start_vertex end_vertex : option string) : outcome string :=
  if String.eqb operation_type "add_vertex" then
    get_message "graph_add_vertex" [("data", opt_str data)]
  else if String.eqb operation_type "add_edge" then
    get_message "graph_add_edge"
      [("from_vertex", opt_str from_vertex); ("to_vertex", opt_str to_vertex)]
  else if String.eqb operation_type "remove_vertex" then
    get_message "graph_remove_vertex" [("data", opt_str data)]
  else if String.eqb operation_type "remove_edge" then
    get_message "graph_remove_edge"
      [("from_vertex", opt_str from_vertex); ("to_vertex", opt_str to_vertex)]
  else if String.eqb operation_type "traversal_dfs" then
    get_message "graph_traversal_dfs" [("start_vertex", opt_str start_vertex)]
  else if String.eqb operation_type "traversal_bfs" then
    get_message "graph_traversal_bfs" [("start_vertex", opt_str start_vertex)]
  else if String.eqb operation_type "shortest_path" then
    get_message "graph_shortest_path"
      [("start_vertex", opt_str start_vertex); ("end_vertex", opt_str end_vertex)]
  else executed_unknown operation_type "graph".

End MessagesTh.

(** ** [services/simulators/stack/stack_node_manager.py] and
       [services/simulators/queue/queue_node_manager.py]

    An instance is the dictionary [create_instance_data] builds for
    [ArrayStack] and [ArrayQueue]: the keys [data], [class_type],
    [attributes] and [history]. An operation returns the instance as it
    leaves it and the dictionary it returns, or the exception it raises. *)

Module ArrayInstance.

Record instance := {
  data : list jval;
  class_type : string;
  attributes : dict;
  history : list jval
}.

(** [create_instance_data(class_name)] for the manager's own class. *)
Definition create_instance_data (class_name : string) : instance :=
  {| data := []; class_type := class_name; attributes := []; history := [] |}.

Definition with_data (d : list jval) (entry : jval) (i : instance) : instance :=
  {| data := d; class_type := class_type i; attributes := attributes i;
     history := history i ++ [entry] |}.

(** The entry appended to [instance["history"]]. *)
Definition history_entry (operation : string) (value : jval) (before after : list jval)
  : jval :=
  JDict [("operation", JStr operation); ("value", value);
         ("before", JList before); ("after", JList after)].

(** [instance.get("attributes", {}).get("max_size")] *)
Definition max_size (i : instance) : jval :=
  default JNone (Dict.get "max_size" (attributes i)).

(** [list.pop()]: the list without its last element, and that element. *)
Definition pop_last {A} (l : list A) : option (list A * A) :=
  match rev l with
  | [] => None
  | x :: r => Some (rev r, x)
  end.

Definition bool_str (b : bool) : string := if b then "True" else "False".

Section WithPython.

(** Python's [str] and its comparison of an [int] with a [float] given by
    its [repr]. *)
Variable py_str : jval -> string.
Variable int_ge_float : Z -> string -> bool.

(** [n >= max_size] for an [int] [n]. *)
Definition int_ge (n : Z) (max_size : jval) : outcome bool :=
  match max_size with
  | JInt m => Return (m <=? n)
  | JBool b => Return ((if b then 1 else 0) <=? n)
  | JFloat r => Return (int_ge_float n r)
  | JNone =>
      Raise (Exn TypeError "'>=' not supported between instances of 'int' and 'NoneType'")
  | JStr _ =>
      Raise (Exn TypeError "'>=' not supported between instances of 'int' and 'str'")
  | JList _ =>
      Raise (Exn TypeError "'>=' not supported between instances of 'int' and 'list'")
  | JDict _ =>
      Raise (Exn TypeError "'>=' not supported between instances of 'int' and 'dict'")
  end.

(** [max_size is not None and len(instance["data"]) >= max_size] *)
Definition is_full (i : instance) : outcome bool :=
  match max_size i with
  | JNone => Return false
  | m => int_ge (len (data i)) m
  end.

End WithPython.

(** [str] on the scalars used in examples. *)
Definition sample_str (v : jval) : string :=
  match v with
  | JInt n => Py.str_int n
  | JStr s => s
  | JBool b => bool_str b
  | JNone => "None"
  | _ => ""
  end.

Definition sample_int_ge_float (n : Z) (r : string) : bool := false.

(** An instance holding [d], with [max_size] set when given. *)
Definition sample_instance (class_name : string) (d : list jval) (max_size : option Z)
  : instance :=
  {| data := d; class_type := class_name;
     attributes := match max_size with Some m => [("max_size", JInt m)] | None => [] end;
     history := [] |}.

(** Room for [n] more elements: no [max_size], or an [int] not yet
    reached after [n] insertions. *)
Definition has_room (i : instance) (n : Z) : Prop :=
  max_size i = JNone \/ exists m, max_size i = JInt m /\ len (data i) + n <= m.

End ArrayInstance.

Module StackNodeManager.
Import ArrayInstance.

Section WithPython.

Variable py_str : jval -> string.
Variable int_ge_float : Z -> string -> bool.

(** [stack_push] *)
Definition stack_push (i : instance) (value : jval) (instance_name : string)
  : instance * outcome dict :=
  match is_full int_ge_float i with
  | Raise e => (i, Raise e)
  | Return true =>
      (i, bind (MessagesTh.get_stack_message "push" (Some (py_str value)))
            (fun m =>
               Return [("message", JStr (m +:+ " - Stack is full (overflow)"));
                       ("operation", JStr "push");
                       ("value", value);
                       ("error", JStr "overflow");
                       ("instance_name", JStr instance_name);
                       ("explanation",
                        JStr ("Cannot push value " +:+ py_str value +:+
                              " onto the stack: Stack is full (overflow)"))]))
  | Return false =>
      let old_data := data i in
      let new_data := data i ++ [value] in
      (with_data new_data (history_entry "push" value old_data new_data) i,
       Return [("message",
                JStr ("เพิ่มข้อมูล '" +:+ py_str value +:+
                      "' ลงใน stack (LIFO - Last In First Out)"));
               ("operation", JStr "push");
               ("value", value);
               ("before_data", JList old_data);
               ("after_data", JList new_data);
               ("instance_name", JStr instance_name);
               ("explanation",
                JStr ("Push value " +:+ py_str value +:+ " onto the top of the stack"))])
  end.

(** [stack_pop] *)
Definition stack_pop (i : instance) (instance_name : string) : instance * outcome dict :=
  match pop_last (data i) with
  | None =>
      (i, bind (MessagesTh.get_message "traverse_empty" [])
            (fun m =>
               Return [("message",
                        JStr ("ลบข้อมูลออกจาก stack ที่ตำแหน่งบนสุด" +:+ " - " +:+ m));
                       ("operation", JStr "pop");
                       ("value", JNone);
                       ("error", JStr "underflow");
                       ("instance_name", JStr instance_name);
                       ("explanation", JStr "Cannot pop from an empty stack")]))
  | Some (new_data, value) =>
      let old_data := data i in
      (with_data new_data (history_entry "pop" value old_data new_data) i,
       Return [("message",
                JStr ("ลบข้อมูลออกจาก stack ที่ตำแหน่งบนสุด → คืนค่า " +:+ py_str value));
               ("operation", JStr "pop");
               ("value", value);
               ("before_data", JList old_data);
               ("after_data", JList new_data);
               ("instance_name", JStr instance_name);
               ("explanation",
                JStr ("Pop value " +:+ py_str value +:+ " from the top of the stack"))])
  end.

(** [stack_top] *)
Definition stack_top (i : instance) (instance_name : string) : outcome dict :=
  match last (data i) with
  | None =>
      bind (MessagesTh.get_message "traverse_empty" [])
        (fun m =>
           Return [("message",
                    JStr ("ดูข้อมูลที่ตำแหน่งบนสุดของ stack โดยไม่ลบออก" +:+ " - " +:+ m));
                   ("operation", JStr "stackTop");
                   ("value", JNone);
                   ("error", JStr "empty_stack");
                   ("instance_name", JStr instance_name);
                   ("explanation", JStr "Cannot peek at an empty stack")])
  | Some top_value =>
      Return [("message",
               JStr ("ดูข้อมูลที่ตำแหน่งบนสุดของ stack โดยไม่ลบออก → คืนค่า " +:+
                     py_str top_value));
              ("operation", JStr "stackTop");
              ("value", top_value);
              ("instance_name", JStr instance_name);
              ("explanation",
               JStr ("Peek at value " +:+ py_str top_value +:+ " from the top of the stack"))]
  end.

(** [stack_size] *)
Definition stack_size (i : instance) (instance_name : string) : dict :=
  let size := len (data i) in
  [("message", JStr ("นับจำนวนข้อมูลใน stack → คืนค่า " +:+ Py.str_int size));
   ("operation", JStr "size");
   ("value", JInt size);
   ("instance_name", JStr instance_name);
   ("explanation", JStr ("Get stack size (Size: " +:+ Py.str_int size +:+ ")"))].

(** [stack_is_empty] *)
Definition stack_is_empty (i : instance) (instance_name : string) : dict :=
  let is_empty := len (data i) =? 0 in
  [("message",
    JStr ("ตรวจสอบว่า stack ว่างเปล่าหรือไม่ → คืนค่า " +:+ bool_str is_empty));
   ("operation", JStr "is_empty");
   ("value", JBool is_empty);
   ("instance_name", JStr instance_name);
   ("explanation",
    JStr ("Check if stack is empty (Result: " +:+ bool_str is_empty +:+ ")"))].

(** [stack_print]: the text also goes to [context["stdout"]]. *)
Definition stack_print (stdout : list string) (i : instance) (instance_name : string)
  : list string * dict :=
  let stack_data := JList (data i) in
  let print_output := py_str stack_data in
  (stdout ++ [print_output],
   [("message", JStr ("แสดงข้อมูล " +:+ instance_name +:+ ": " +:+ py_str stack_data));
    ("operation", JStr "printStack");
    ("value", stack_data);
    ("instance_name", JStr instance_name);
    ("stdout", JStr print_output);
    ("explanation", JStr ("Print stack contents: " +:+ py_str stack_data))]).

(** The value a call returned, [None] when it raised or reported an error. *)
Definition returned_value (r : outcome dict) : option jval :=
  match r with
  | Return d => if Dict.has "error" d then None else Dict.get "value" d
  | Raise _ => None
  end.

(** [stack_push] of each value in turn; the first call that fails stops the
    run. *)
Fixpoint push_all (i : instance) (values : list jval) (instance_name : string)
  : option instance :=
  match values with
  | [] => Some i
  | v :: rest =>
      match stack_push i v instance_name with
      | (i', r) =>
          match returned_value r with
          | Some _ => push_all i' rest instance_name
          | None => None
          end
      end
  end.

(** [n] calls of [stack_pop]: the instance left and the values returned, in
    the order of the calls. *)
Fixpoint pop_n (i : instance) (n : nat) (instance_name : string)
  : option (instance * list jval) :=
  match n with
  | O => Some (i, [])
  | S n' =>
      match stack_pop i instance_name with
      | (i', r) =>
          match returned_value r with
          | Some v =>
              match pop_n i' n' instance_name with
              | Some (i'', vs) => Some (i'', v :: vs)
              | None => None
              end
          | None => None
          end
      end
  end.

End WithPython.

End StackNodeManager.

Module QueueNodeManager.
Import ArrayInstance.

Section WithPython.

Variable py_str : jval -> string.
Variable int_ge_float : Z -> string -> bool.

(** [queue_enqueue] *)
Definition queue_enqueue (i : instance) (value : jval) (instance_name : string)
  : instance * outcome dict :=
  match is_full int_ge_float i with
  | Raise e => (i, Raise e)
  | Return true =>
      (i, Return [("message",
                   JStr ("เพิ่มข้อมูล '" +:+ py_str value +:+ "' ลงใน queue" +:+
                         " - Queue is full (overflow)"));
                  ("operation", JStr "enqueue");
                  ("value", value);
                  ("error", JStr "overflow");
                  ("instance_name", JStr instance_name)])
  | Return false =>
      let old_data := data i in
      let new_data := data i ++ [value] in
      (with_data new_data (history_entry "enqueue" value old_data new_data) i,
       Return [("message",
                JStr ("เพิ่มข้อมูล '" +:+ py_str value +:+
                      "' ลงใน queue (FIFO - First In First Out)"));
               ("operation", JStr "enqueue");
               ("value", value);
               ("before_data", JList old_data);
               ("after_data", JList new_data);
               ("instance_name", JStr instance_name)])
  end.

(** [queue_dequeue] *)
Definition queue_dequeue (i : instance) (instance_name : string) : instance * outcome dict :=
  match data i with
  | [] =>
      (i, bind (MessagesTh.get_message "traverse_empty" [])
            (fun m =>
               Return [("message",
                        JStr ("ลบข้อมูลออกจาก queue ที่ตำแหน่งหน้า" +:+ " - " +:+ m));
                       ("operation", JStr "dequeue");
                       ("value", JNone);
                       ("error", JStr "underflow");
                       ("instance_name", JStr instance_name)]))
  | value :: new_data =>
      let old_data := data i in
      (with_data new_data (history_entry "dequeue" value old_data new_data) i,
       Return [("message",
                JStr ("ลบข้อมูลออกจาก queue ที่ตำแหน่งหน้า → คืนค่า " +:+ py_str value));
               ("operation", JStr "dequeue");
               ("value", value);
               ("before_data", JList old_data);
               ("after_data", JList new_data);
               ("instance_name", JStr instance_name)])
  end.

(** [queue_front] *)
Definition queue_front (i : instance) (instance_name : string) : outcome dict :=
  match data i with
  | [] =>
      bind (MessagesTh.get_message "traverse_empty" [])
        (fun m =>
           Return [("message",
                    JStr ("ดูข้อมูลที่ตำแหน่งหน้าของ queue โดยไม่ลบออก" +:+ " - " +:+ m));
                   ("operation", JStr "front");
                   ("value", JNone);
                   ("error", JStr "empty_queue");
                   ("instance_name", JStr instance_name)])
  | front_value :: _ =>
      Return [("message",
               JStr ("ดูข้อมูลที่ตำแหน่งหน้าของ queue โดยไม่ลบออก → คืนค่า " +:+
                     py_str front_value));
              ("operation", JStr "front");
              ("value", front_value);
              ("instance_name", JStr instance_name)]
  end.

(** [queue_back] *)
Definition queue_back (i : instance) (instance_name : string) : outcome dict :=
  match last (data i) with
  | None =>
      bind (MessagesTh.get_message "traverse_empty" [])
        (fun m =>
           Return [("message",
                    JStr ("ดูข้อมูลที่ตำแหน่งท้ายของ queue โดยไม่ลบออก" +:+ " - " +:+ m));
                   ("operation", JStr "back");
                   ("value", JNone);
                   ("error", JStr "empty_queue");
                   ("instance_name", JStr instance_name)])
  | Some back_value =>
      Return [("message",
               JStr ("ดูข้อมูลที่ตำแหน่งท้ายของ queue โดยไม่ลบออก → คืนค่า " +:+
                     py_str back_value));
              ("operation", JStr "back");
              ("value", back_value);
              ("instance_name", JStr instance_name)]
  end.

(** [queue_size] *)
Definition queue_size (i : instance) (instance_name : string) : dict :=
  let size := len (data i) in
  [("message", JStr ("นับจำนวนข้อมูลใน queue → คืนค่า " +:+ Py.str_int size));
   ("operation", JStr "size");
   ("value", JInt size);
   ("instance_name", JStr instance_name)].

(** [queue_is_empty] *)
Definition queue_is_empty (i : instance) (instance_name : string) : dict :=
  let is_empty := len (data i) =? 0 in
  [("message",
    JStr ("ตรวจสอบว่า queue ว่างเปล่าหรือไม่ → คืนค่า " +:+ bool_str is_empty));
   ("operation", JStr "is_empty");
   ("value", JBool is_empty);
   ("instance_name", JStr instance_name)].

(** [queue_print] *)
Definition queue_print (stdout : list string) (i : instance) (instance_name : string)
  : list string * dict :=
  let queue_data := JList (data i) in
  let print_output := py_str queue_data in
  (stdout ++ [print_output],
   [("message", JStr ("แสดงข้อมูล " +:+ instance_name +:+ ": " +:+ py_str queue_data));
    ("operation", JStr "printQueue");
    ("value", queue_data);
    ("instance_name", JStr instance_name);
    ("stdout", JStr print_output)]).

(** One call of the queue's interface. *)
Inductive call := Enqueue (value : jval) | Dequeue.

(** The values a sequence of calls enqueues, in order. *)
Definition enqueued (calls : list call) : list jval :=
  omap (fun c => match c with Enqueue v => Some v | Dequeue => None end) calls.

Definition perform (i : instance) (c : call) (instance_name : string)
  : instance * outcome dict :=
  match c with
  | Enqueue v => queue_enqueue i v instance_name
  | Dequeue => queue_dequeue i instance_name
  end.

(** A sequence of calls, one after the other; the values that [queue_dequeue]
    returned, in order. An exception ends the run. *)
Fixpoint perform_all (i : instance) (calls : list call) (instance_name : string)
  : option (instance * list jval) :=
  match calls with
  | [] => Some (i, [])
  | c :: rest =>
      match perform i c instance_name with
      | (_, Raise _) => None
      | (i', Return d) =>
          match perform_all i' rest instance_name with
          | None => None
          | Some (i'', vs) =>
              Some (i'',
                    match c with
                    | Dequeue =>
                        if Dict.has "error" d then vs
                        else default JNone (Dict.get "value" d) :: vs
                    | Enqueue _ => vs
                    end)
          end
      end
  end.

End WithPython.

End QueueNodeManager.

(** ** [services/simulators/binarysearchtree/bst_node_manager.py]

    A tree is the nest of dictionaries the manager builds: [None], or a
    node with the keys [data], [left], [right] and [class_type]. Nodes are
    created by [bst_insert] and never shared. The keys are Python [int]s,
    what [_parse_parameter] makes of a decimal literal. *)

Module BSTNodeManager.

Inductive tree :=
| TNone
| TNode (data : Z) (left right : tree) (class_type : string).

(** The dictionary [create_instance_data("BST")] builds. *)
Record bst_instance := {
  root : tree;
  class_type : string;
  attributes : dict;
  history : list jval
}.

Definition create_instance_data : bst_instance :=
  {| root := TNone; class_type := "BST"; attributes := []; history := [] |}.

(** A tree as a JSON-like value. *)
Fixpoint tree_jval (t : tree) : jval :=
  match t with
  | TNone => JNone
  | TNode d l r c =>
      JDict [("data", JInt d); ("left", tree_jval l); ("right", tree_jval r);
             ("class_type", JStr c)]
  end.

(** [_deep_copy_tree] *)
Fixpoint _deep_copy_tree (node : tree) : tree :=
  match node with
  | TNone => TNone
  | TNode d l r c => TNode d (_deep_copy_tree l) (_deep_copy_tree r) c
  end.

Definition not_subscriptable {A} : outcome A :=
  Raise (Exn TypeError "'NoneType' object is not subscriptable").

(** The loop of [_find_insertion_path], [path] holding the directions taken
    so far. *)
Fixpoint find_insertion_loop (current : tree) (value : Z) (path : list string)
  : outcome (list string) :=
  match current with
  | TNone => not_subscriptable
  | TNode d l r _ =>
      if value <? d then
        let path := path ++ ["left"] in
        match l with
        | TNone => Return path
        | TNode _ _ _ _ => find_insertion_loop l value path
        end
      else
        let path := path ++ ["right"] in
        match r with
        | TNone => Return path
        | TNode _ _ _ _ => find_insertion_loop r value path
        end
  end.

(** [_find_insertion_path] *)
Definition _find_insertion_path (root : tree) (value : Z) : outcome (list string) :=
  find_insertion_loop root value ["root"].

(** Lines 71-83 of [bst_insert]: [current] follows [directions], then its
    [left] or [right] entry is assigned [new_node]. *)
Fixpoint assign_child (current : tree) (directions : list string)
    (final_direction : string) (new_node : tree) : outcome tree :=
  match current, directions with
  | TNone, [] =>
      Raise (Exn TypeError "'NoneType' object does not support item assignment")
  | TNone, _ :: _ => not_subscriptable
  | TNode d l r c, [] =>
      if String.eqb final_direction "left"
      then Return (TNode d new_node r c)
      else Return (TNode d l new_node c)
  | TNode d l r c, direction :: rest =>
      if String.eqb direction "left"
      then bind (assign_child l rest final_direction new_node)
                (fun l' => Return (TNode d l' r c))
      else bind (assign_child r rest final_direction new_node)
                (fun r' => Return (TNode d l r' c))
  end.

Definition with_root (t : tree) (entries : list jval) (i : bst_instance) : bst_instance :=
  {| root := t; class_type := class_type i; attributes := attributes i;
     history := history i ++ entries |}.

Definition arrow : string := " → ".

Definition jints (l : list Z) : jval := JList (map JInt l).

(** [str(l)] for a list of [int]s. *)
Definition str_ints (l : list Z) : string :=
  "[" +:+ Py.join ", " (map Py.str_int l) +:+ "]".

(** [bst_insert] *)
Definition bst_insert (i : bst_instance) (value : Z) (instance_name : string)
  : bst_instance * outcome dict :=
  let old_root := _deep_copy_tree (root i) in
  let new_node := TNode value TNone TNone "BSTNode" in
  let inserted : outcome (tree * list string) :=
    match root i with
    | TNone => Return (new_node, ["root"])
    | TNode _ _ _ _ =>
        bind (_find_insertion_path (root i) value) (fun path =>
        bind (Executor.py_index path (-1)) (fun final_direction =>
        bind (assign_child (root i) (removelast (tail path)) final_direction new_node)
             (fun t => Return (t, path))))
    end in
  match inserted with
  | Raise e => (i, Raise e)
  | Return (t, path) =>
      let new_root := _deep_copy_tree t in
      (with_root t [JDict [("operation", JStr "insert"); ("value", JInt value);
                           ("before", tree_jval old_root); ("after", tree_jval new_root);
                           ("path", Executor.jstrs path)]] i,
       bind (MessagesTh.get_bst_message "insert" (Some (Py.str_int value))) (fun m =>
         Return [("message", JStr (m +:+ " → เส้นทาง: " +:+ Py.join arrow path));
                 ("operation", JStr "insert");
                 ("value", JInt value);
                 ("inserted_node", JStr (Py.str_int value));
                 ("current_node", JStr (Py.str_int value));
                 ("path", Executor.jstrs path);
                 ("before_tree", tree_jval old_root);
                 ("after_tree", tree_jval new_root);
                 ("instance_name", JStr instance_name)]))
  end.

(** [_find_min_node] *)
Fixpoint _find_min_node (node : tree) : outcome tree :=
  match node with
  | TNone => not_subscriptable
  | TNode _ l _ _ =>
      match l with
      | TNone => Return node
      | TNode _ _ _ _ => _find_min_node l
      end
  end.

(** [node["data"]] *)
Definition data_of (node : tree) : outcome Z :=
  match node with
  | TNone => not_subscriptable
  | TNode d _ _ _ => Return d
  end.

(** [_delete_recursive]: the deleted value ([None] when the key was not
    found) and the new root. *)
Fixpoint _delete_recursive (root : tree) (key : Z) : outcome (option Z * tree) :=
  match root with
  | TNone => Return (None, TNone)
  | TNode d l r c =>
      if key <? d then
        bind (_delete_recursive l key)
             (fun '(deleted_value, new_left) => Return (deleted_value, TNode d new_left r c))
      else if d <? key then
        bind (_delete_recursive r key)
             (fun '(deleted_value, new_right) => Return (deleted_value, TNode d l new_right c))
      else
        match l, r with
        | TNone, _ => Return (Some d, r)
        | _, TNone => Return (Some d, l)
        | _, _ =>
            bind (_find_min_node r) (fun successor =>
            bind (data_of successor) (fun successor_data =>
            bind (_delete_recursive r successor_data)
                 (fun '(_, new_right) =>
                    Return (Some d, TNode successor_data l new_right c))))
        end
  end.

(** [bst_delete] *)
Definition bst_delete (i : bst_instance) (value : Z) (instance_name : string)
  : bst_instance * outcome dict :=
  let old_root := _deep_copy_tree (root i) in
  match root i with
  | TNone =>
      (i, bind (MessagesTh.get_bst_message "delete" (Some (Py.str_int value))) (fun m =>
          bind (MessagesTh.get_message "traverse_empty" []) (fun e =>
            Return [("message", JStr (m +:+ " - " +:+ e));
                    ("operation", JStr "delete");
                    ("value", JNone);
                    ("error", JStr "empty_tree");
                    ("instance_name", JStr instance_name)])))
  | TNode _ _ _ _ =>
      match _delete_recursive (root i) value with
      | Raise e => (i, Raise e)
      | Return (None, new_root) =>
          (with_root new_root [] i,
           bind (MessagesTh.get_bst_message "delete" (Some (Py.str_int value))) (fun m =>
           bind (MessagesTh.get_message "target_not_found"
                   [("target_name", MessagesTh.AStr (Py.str_int value))]) (fun e =>
             Return [("message", JStr (m +:+ " - " +:+ e));
                     ("operation", JStr "delete");
                     ("value", JNone);
                     ("error", JStr "value_not_found");
                     ("instance_name", JStr instance_name)])))
      | Return (Some deleted_value, new_root) =>
          let new_root_copy := _deep_copy_tree new_root in
          (with_root new_root
             [JDict [("operation", JStr "delete"); ("value", JInt deleted_value);
                     ("before", tree_jval old_root); ("after", tree_jval new_root_copy)]] i,
           bind (MessagesTh.get_bst_message "delete" (Some (Py.str_int value))) (fun m =>
             Return [("message",
                      JStr (m +:+ " → ลบ " +:+ Py.str_int deleted_value +:+ " สำเร็จ"));
                     ("operation", JStr "delete");
                     ("value", JInt deleted_value);
                     ("current_node", JStr (Py.str_int deleted_value));
                     ("deleted_node", JStr (Py.str_int deleted_value));
                     ("before_tree", tree_jval old_root);
                     ("after_tree", tree_jval new_root_copy);
                     ("instance_name", JStr instance_name)]))
      end
  end.

(** [bst_is_empty] *)
Definition bst_is_empty (i : bst_instance) (instance_name : string) : outcome dict :=
  let is_empty := match root i with TNone => true | _ => false end in
  bind (MessagesTh.get_bst_message "search" (Some "")) (fun m =>
    Return [("message", JStr (m +:+ " → คืนค่า " +:+ ArrayInstance.bool_str is_empty));
            ("operation", JStr "is_empty");
            ("value", JBool is_empty);
            ("instance_name", JStr instance_name)]).

(** The loop of [bst_find_min]. *)
Fixpoint leftmost (current : tree) (path : list string) : outcome (Z * list string) :=
  match current with
  | TNone => not_subscriptable
  | TNode d l _ _ =>
      match l with
      | TNone => Return (d, path)
      | TNode _ _ _ _ => leftmost l (path ++ ["left"])
      end
  end.

(** The loop of [bst_find_max]. *)
Fixpoint rightmost (current : tree) (path : list string) : outcome (Z * list string) :=
  match current with
  | TNone => not_subscriptable
  | TNode d _ r _ =>
      match r with
      | TNone => Return (d, path)
      | TNode _ _ _ _ => rightmost r (path ++ ["right"])
      end
  end.

Definition empty_tree_report (operation instance_name : string) : outcome dict :=
  bind (MessagesTh.get_bst_message "search" (Some "")) (fun m =>
  bind (MessagesTh.get_message "traverse_empty" []) (fun e =>
    Return [("message", JStr (m +:+ " - " +:+ e));
            ("operation", JStr operation);
            ("value", JNone);
            ("error", JStr "empty_tree");
            ("instance_name", JStr instance_name)])).

Definition found_report (operation instance_name : string) (value : Z) (path : list string)
  : outcome dict :=
  bind (MessagesTh.get_bst_message "search" (Some (Py.str_int value))) (fun m =>
    Return [("message",
             JStr (m +:+ " → คืนค่า " +:+ Py.str_int value +:+ " (เส้นทาง: " +:+
                   Py.join arrow path +:+ ")"));
            ("operation", JStr operation);
            ("value", JInt value);
            ("current_node", JStr (Py.str_int value));
            ("path", Executor.jstrs path);
            ("instance_name", JStr instance_name)]).

(** [bst_find_min] *)
Definition bst_find_min (i : bst_instance) (instance_name : string) : outcome dict :=
  match root i with
  | TNone => empty_tree_report "findMin" instance_name
  | TNode _ _ _ _ =>
      bind (leftmost (root i) ["root"])
           (fun '(min_value, path) => found_report "findMin" instance_name min_value path)
  end.

(** [bst_find_max] *)
Definition bst_find_max (i : bst_instance) (instance_name : string) : outcome dict :=
  match root i with
  | TNone => empty_tree_report "findMax" instance_name
  | TNode _ _ _ _ =>
      bind (rightmost (root i) ["root"])
           (fun '(max_value, path) => found_report "findMax" instance_name max_value path)
  end.

(** [_preorder_traversal]: the list [result] after the call. *)
Fixpoint _preorder_traversal (node : tree) (result : list Z) : list Z :=
  match node with
  | TNone => result
  | TNode d l r _ => _preorder_traversal r (_preorder_traversal l (result ++ [d]))
  end.

(** [_inorder_traversal] *)
Fixpoint _inorder_traversal (node : tree) (result : list Z) : list Z :=
  match node with
  | TNone => result
  | TNode d l r _ => _inorder_traversal r (_inorder_traversal l result ++ [d])
  end.

(** [_postorder_traversal] *)
Fixpoint _postorder_traversal (node : tree) (result : list Z) : list Z :=
  match node with
  | TNone => result
  | TNode d l r _ => _postorder_traversal r (_postorder_traversal l result) ++ [d]
  end.

Definition traversals (preorder inorder postorder : list Z) : jval :=
  JDict [("preorder", jints preorder); ("inorder", jints inorder);
         ("postorder", jints postorder)].

(** [bst_traverse]: the lines added to [context["stdout"]] and the
    dictionary returned. *)
Definition bst_traverse (stdout : list string) (i : bst_instance) (instance_name : string)
  : list string * outcome dict :=
  match root i with
  | TNone =>
      (stdout ++ ["The tree is empty."],
       bind (MessagesTh.get_bst_message "traverse_inorder" None) (fun m =>
       bind (MessagesTh.get_message "traverse_empty" []) (fun e =>
         Return [("message", JStr (m +:+ " - " +:+ e));
                 ("operation", JStr "traverse");
                 ("value", traversals [] [] []);
                 ("instance_name", JStr instance_name)])))
  | TNode _ _ _ _ =>
      let preorder_result := _preorder_traversal (root i) [] in
      let inorder_result := _inorder_traversal (root i) [] in
      let postorder_result := _postorder_traversal (root i) [] in
      (stdout ++
       ["• Preorder: -> " +:+ Py.join " " (map Py.str_int preorder_result);
        "• Inorder: -> " +:+ Py.join " " (map Py.str_int inorder_result);
        "• Postorder: -> " +:+ Py.join " " (map Py.str_int postorder_result)],
       bind (MessagesTh.get_bst_message "traverse_inorder" None) (fun m =>
         Return [("message", JStr (m +:+ " → ดำเนินการทั้ง 3 แบบ"));
                 ("operation", JStr "traverse");
                 ("value", traversals preorder_result inorder_result postorder_result);
                 ("instance_name", JStr instance_name)]))
  end.

Definition traversal_report (kind operation instance_name : string) (result : list Z)
  : outcome dict :=
  bind (MessagesTh.get_bst_message kind None) (fun m =>
    Return [("message", JStr (m +:+ arrow +:+ str_ints result));
            ("operation", JStr operation);
            ("value", jints result);
            ("instance_name", JStr instance_name)]).

(** [bst_preorder] *)
Definition bst_preorder (i : bst_instance) (root_node : tree) (instance_name : string)
  : outcome dict :=
  traversal_report "traverse_preorder" "preorder" instance_name
    (_preorder_traversal root_node []).

(** [bst_inorder] *)
Definition bst_inorder (i : bst_instance) (root_node : tree) (instance_name : string)
  : outcome dict :=
  traversal_report "traverse_inorder" "inorder" instance_name
    (_inorder_traversal root_node []).

(** [bst_postorder] *)
Definition bst_postorder (i : bst_instance) (root_node : tree) (instance_name : string)
  : outcome dict :=
  traversal_report "traverse_postorder" "postorder" instance_name
    (_postorder_traversal root_node []).

(** The keys of a tree, from left to right. *)
Definition keys (t : tree) : list Z := _inorder_traversal t [].

(** The order of a search tree as [_find_insertion_path] lays it out:
    smaller keys to the left, the others to the right. *)
Fixpoint ordered (t : tree) : Prop :=
  match t with
  | TNone => True
  | TNode d l r _ =>
      Forall (fun x => x < d) (keys l) /\ Forall (fun x => d <= x) (keys r)
      /\ ordered l /\ ordered r
  end.

Definition leaf (d : Z) : tree := TNode d TNone TNone "BSTNode".

(** The tree [bst_insert] leaves, by recursion on the tree it found. *)
Fixpoint inserted (t : tree) (value : Z) : tree :=
  match t with
  | TNone => leaf value
  | TNode d l r c =>
      if value <? d then TNode d (inserted l value) r c
      else TNode d l (inserted r value) c
  end.

(** The tree with 5 at the root, 3 and 8 below it, and 4 under 3. *)
Definition sample_tree : tree :=
  TNode 5 (TNode 3 TNone (leaf 4) "BSTNode") (leaf 8) "BSTNode".

Definition sample_bst : bst_instance :=
  {| root := sample_tree; class_type := "BST"; attributes := []; history := [] |}.

End BSTNodeManager.

(** ** [services/simulators/data_structure_detector.py] *)

Module DataStructureDetector.
Import Ast.

(** [CLASS_NAME_PATTERNS], in the order of the dictionary. *)
Definition CLASS_NAME_PATTERNS : list (string * list string) :=
  [("binarysearchtree", ["BST"; "BinarySearchTree"; "BinaryTree"]);
   ("singlylinkedlist", ["SinglyLinkedList"; "LinkedList"]);
   ("doublylinkedlist", ["DoublyLinkedList"]);
   ("stack", ["Stack"; "ArrayStack"]);
   ("queue", ["Queue"]);
   ("undirectedgraph", ["Graph"; "UndirectedGraph"]);
   ("directedgraph", ["DirectedGraph"])].

(** [METHOD_PATTERNS]: for each type its [methods] and [min_matches]. *)
Definition METHOD_PATTERNS : list (string * (list string * Z)) :=
  [("stack", (["push"; "pop"; "stackTop"; "stack_top"; "peek"], 2));
   ("singlylinkedlist",
    (["insertFront"; "insertEnd"; "insert_front"; "insert_end";
      "traverse"; "delete"; "search"], 2));
   ("doublylinkedlist",
    (["insertFront"; "insertEnd"; "insert_front"; "insert_end";
      "traverse"; "traverseReverse"; "traverse_reverse"], 2));
   ("binarysearchtree",
    (["insert"; "delete"; "search"; "inorder"; "preorder";
      "postorder"; "findMin"; "findMax"; "find_min"; "find_max"], 2));
   ("undirectedgraph",
    (["addEdge"; "add_edge"; "addVertex"; "add_vertex";
      "dfs"; "bfs"; "isConnected"; "is_connected"], 2));
   ("directedgraph",
    (["addEdge"; "add_edge"; "addVertex"; "add_vertex";
      "topologicalSort"; "topological_sort"; "hasCycle"; "has_cycle"], 2));
   ("queue", (["enqueue"; "dequeue"; "front"; "rear"; "isEmpty"; "is_empty"], 2))].

(** [list(ASTParser.extract_classes(tree).keys())]: the names of the class
    definitions met by [ast.walk], each once, in the order they are first
    met. *)
Definition class_names (tree : node) : list string :=
  fold_left (fun l n => ComplexityAnalyzer.add_name (ComplexityAnalyzer.node_name n) l)
            (filter (fun n => isinstance n "ClassDef" = true) (ComplexityAnalyzer.walk tree))
            [].

(** [pattern.lower() in class_name.lower()] for one of the patterns. *)
Definition matches_class (patterns : list string) (class_name : string) : bool :=
  existsb (fun pattern => Py.contains (Py.lower pattern) (Py.lower class_name)) patterns.

(** The loops of [_detect_from_class_names] over the rest of the table. *)
Fixpoint first_match (table : list (string * list string)) (class_names : list string)
  : option string :=
  match table with
  | [] => None
  | (ds_type, patterns) :: rest =>
      if existsb (matches_class patterns) class_names then Some ds_type
      else first_match rest class_names
  end.

(** [_detect_from_class_names] *)
Definition _detect_from_class_names (tree : node) : option string :=
  first_match CLASS_NAME_PATTERNS (class_names tree).

(** The method a call node calls, when its function is an attribute. *)
Definition called_method (n : node) : option string :=
  if isinstance n "Call" then
    match child n "func" with
    | Some func => if isinstance func "Attribute" then str_field func "attr" else None
    | None => None
    end
  else None.

Definition defined_method (n : node) : option string :=
  if isinstance n "FunctionDef" then str_field n "name" else None.

(** [method_calls.union(method_definitions)]: a set, its members each
    once. *)
Definition all_methods (tree : node) : list string :=
  remove_dups (omap called_method (ComplexityAnalyzer.walk tree)
               ++ omap defined_method (ComplexityAnalyzer.walk tree)).

(** The number of members of [all_methods] that a pattern lists, letter
    case apart. *)
Definition matches (pattern_methods all_methods : list string) : Z :=
  len (filter (fun method => Py.lower method ∈ map Py.lower pattern_methods) all_methods).

(** The loop of [_detect_from_methods] over the rest of the table. *)
Fixpoint best (table : list (string * (list string * Z))) (all_methods : list string)
    (best_match : option string) (best_score : Z) : option string :=
  match table with
  | [] => best_match
  | (ds_type, (pattern_methods, min_matches)) :: rest =>
      let n := matches pattern_methods all_methods in
      if (min_matches <=? n) && (best_score <? n)
      then best rest all_methods (Some ds_type) n
      else best rest all_methods best_match best_score
  end.

(** [_detect_from_methods] *)
Definition _detect_from_methods (tree : node) : option string :=
  best METHOD_PATTERNS (all_methods tree) None 0.

(** [detect_from_code], given what [parse_code] made of the code: [None]
    when it raised. No other call of the body raises. *)
Definition detect_from_code (tree : option node) : option string :=
  match tree with
  | None => None
  | Some tree =>
      match _detect_from_class_names tree with
      | Some detected_type => Some detected_type
      | None => _detect_from_methods tree
      end
  end.

(** [get_detection_confidence]; [message] is [str(e)] of the exception
    [parse_code] raised. *)
Definition get_detection_confidence (tree : node + string) : dict :=
  match tree with
  | inr message =>
      [("detected_type", JNone); ("confidence", JStr "none");
       ("method", JNone); ("alternative", JStr message)]
  | inl tree =>
      match _detect_from_class_names tree with
      | Some class_type =>
          [("detected_type", JStr class_type); ("confidence", JStr "high");
           ("method", JStr "class_name"); ("alternative", JNone)]
      | None =>
          match _detect_from_methods tree with
          | Some method_type =>
              [("detected_type", JStr method_type); ("confidence", JStr "medium");
               ("method", JStr "method_signature"); ("alternative", JNone)]
          | None =>
              [("detected_type", JNone); ("confidence", JStr "none");
               ("method", JNone); ("alternative", JNone)]
          end
      end
  end.

(** [class name: body] *)
Definition ClassDef (name : string) (body : list node) : node :=
  Node "ClassDef" [("name", CStr name)] (map (pair "body") body).

(** A module that defines the class [MyDoublyLinkedList] and
    [DirectedGraph], both empty. *)
Definition sample_module : node :=
  Module_ [ClassDef "MyDoublyLinkedList" [Pass]; ClassDef "DirectedGraph" [Pass]].

End DataStructureDetector.

(** ** Bounds on the loop counters of the complexity analyzer *)

Module ComplexityBounds.
Import ComplexityAnalyzer.

(** What a visit at nesting depth [depth] may do to the counters of
    [count_loops]: loops are only added, the deepest nesting only grows,
    and it grows by no more than the loops added below [depth]. *)
Definition within (depth : Z) (st st' : counters) : Prop :=
  loop_count st <= loop_count st'
  /\ max_nesting st <= max_nesting st'
  /\ max_nesting st' <= Z.max (max_nesting st) (depth + (loop_count st' - loop_count st))
  /\ (has_recursion st = true -> has_recursion st' = true).

(** The same for the fields of the analyzer that [_analyze_node] updates. *)
Definition within_overall (nesting : Z) (a a' : analyzer) : Prop :=
  a_loop_count a <= a_loop_count a'
  /\ a_max_nesting a <= a_max_nesting a'
  /\ a_max_nesting a' <= Z.max (a_max_nesting a) (nesting + (a_loop_count a' - a_loop_count a))
  /\ (a_has_recursion a = true -> a_has_recursion a' = true).

End ComplexityBounds.

(** ** [api/routes/playground.py] *)

Module Routes.

(** [fastapi.HTTPException] *)
Record HTTPException := { status_code : Z; detail : string }.

(** The [except] clauses of the route, in order, for an exception that is
    not an [HTTPException]. A class named by [OtherException] is taken to
    derive from none of [ValueError], [NotImplementedError] and
    [TimeoutError]. *)
Definition http_error (e : exn) : HTTPException :=
  match exn_cls e with
  | ValueError => {| status_code := 400; detail := "Invalid input provided" |}
  | NotImplementedError => {| status_code := 501; detail := "Feature not implemented" |}
  | TimeoutError => {| status_code := 408; detail := "Request timeout" |}
  | _ => {| status_code := 500; detail := "Internal server error occurred" |}
  end.

(** [run_code_guest], the handler of [POST /run]: the response, or the
    [HTTPException] it raises. The controller is built anew for the
    request. *)
Definition run_code_guest (env : Controller.Env) (request_body : ExecutionCreateRequest)
  : ExecutionResponse + HTTPException :=
  if Py.is_empty (req_code request_body) || Py.is_empty (Py.strip (req_code request_body))
  then inr {| status_code := 400; detail := "Code cannot be empty" |}
  else if negb (MessagesTh.given (req_dataType request_body))
  then inr {| status_code := 400; detail := "DataType is required" |}
  else
    match snd (Controller.run_code_guest env Controller.__init__ request_body) with
    | Return result => inl result
    | Raise e => inr (http_error e)
    end.

End Routes.

(** ** Observations of a run of the trace wrapper *)

Module WrapperRuns.
Import Wrapper.

(** The values [custom_input] returned to the program during a run, in the
    order of the calls. *)
Fixpoint answers (p : guest) (g : globals) : list string :=
  match p with
  | GEnd _ | GRaise _ | GExit _ => []
  | GLine ev k => answers k (trace_lines ev g)
  | GPrint text k => answers k (write text g)
  | GInput prompt k handler =>
      match custom_input prompt g with
      | (g', Return value) => value :: answers (k value) g'
      | (g', Raise _) =>
          match handler with
          | Some p' => answers p' g'
          | None => []
          end
      end
  end.

End WrapperRuns.

(** ** Observations of a serialized value *)

Module SerializedShape.
Import Serializer.

(** The string keys of a serialized dictionary. *)
Definition names (d : list (prim * sval)) : list string :=
  omap (fun e => match e.1 with PStr k => Some k | _ => None end) d.

(** The attributes of an instance that [safe_serialize] shows: those whose
    name does not start with an underscore. *)
Definition public (obj_dict : list (string * pyval)) : list string :=
  filter (fun k => Py.startswith "_" k = false) (map fst obj_dict).

End SerializedShape.

(** ** [services/simulators/operations/node_manager.py]

  The manager of linked lists. [context["nodes"]] maps a node id to the
  dictionary of the node, [context["variables"]] a variable bound to a node
  to its id, [context["instances"]] a variable bound to a list to the
  dictionary of the list; the context is the record of these keys, as
  [BehaviorAnalyzer._ensure_context_structure] leaves it. The source passes
  an instance by reference and changes it in place: an operation here
  returns the node store and the instance as the call leaves them.

  Three loops of the source follow [next] links without a bound. They take
  [fuel], the number of times the loop may go round: the answer [None] is a
  loop still running when the fuel is spent. *)

Module NodeManager.
Import MessagesTh.

Record node_data := {
  node_class_type : string;
  name : string;
  next : option string;
  node_attributes : list (string * string);
  created_at : jval;
  prev : option (option string)      (* the key exists for [DataNode] only *)
}.

Record list_instance := {
  data : list string;
  head : option string;
  count : Z;
  class_type : string;
  attributes : dict;
  initialized : bool;
  tail : option (option string)      (* the key exists for [DoublyLinkedList] only *)
}.

Record context := {
  instances : list (string * list_instance);
  variables : list (string * string);
  nodes : list (string * node_data);
  active_instance : option string;
  stdout : list string
}.

Abbreviation node_store := (list (string * node_data)).

(** [create_instance_data] *)
Definition create_instance_data (class_name : string) : list_instance :=
  {| data := []; head := None; count := 0; class_type := class_name;
     attributes := []; initialized := true; tail := None |}.

(** [create_node_data] *)
Definition create_node_data (class_name name : string) : node_data :=
  {| node_class_type := class_name; name := name; next := None;
     node_attributes := [("name", name)]; created_at := JNone;
     prev := if String.eqb class_name "DataNode" then Some None else None |}.

(** [f"node_{len(self.context['nodes'])}"] *)
Definition new_node_id (nodes : node_store) : string :=
  "node_" +:+ Py.str_int (len nodes).

Definition with_instances (instances : list (string * list_instance)) (c : context) : context :=
  {| instances := instances; variables := variables c; nodes := nodes c;
     active_instance := active_instance c; stdout := stdout c |}.

Definition with_variables (variables : list (string * string)) (c : context) : context :=
  {| instances := instances c; variables := variables; nodes := nodes c;
     active_instance := active_instance c; stdout := stdout c |}.

Definition with_nodes (nodes : node_store) (c : context) : context :=
  {| instances := instances c; variables := variables c; nodes := nodes;
     active_instance := active_instance c; stdout := stdout c |}.

Definition with_active_instance (name : string) (c : context) : context :=
  {| instances := instances c; variables := variables c; nodes := nodes c;
     active_instance := Some name; stdout := stdout c |}.

Definition with_stdout (stdout : list string) (c : context) : context :=
  {| instances := instances c; variables := variables c; nodes := nodes c;
     active_instance := active_instance c; stdout := stdout |}.

Definition with_head (head : option string) (count : Z) (i : list_instance) : list_instance :=
  {| data := data i; head := head; count := count; class_type := class_type i;
     attributes := attributes i; initialized := initialized i; tail := tail i |}.

Definition with_tail (i : list_instance) : list_instance :=
  {| data := data i; head := head i; count := count i; class_type := class_type i;
     attributes := attributes i; initialized := initialized i; tail := Some None |}.

(** [node["next"] = next] *)
Definition with_next (next : option string) (n : node_data) : node_data :=
  {| node_class_type := node_class_type n; name := name n; next := next;
     node_attributes := node_attributes n; created_at := created_at n; prev := prev n |}.

(** [node["prev"] = prev] *)
Definition with_prev (prev : option string) (n : node_data) : node_data :=
  {| node_class_type := node_class_type n; name := name n; next := next n;
     node_attributes := node_attributes n; created_at := created_at n;
     prev := Some prev |}.

(** [nodes[node_id]["next"] = next], for a node id of the store. *)
Definition set_next (node_id : string) (next : option string) (nodes : node_store)
  : node_store :=
  match Dict.get node_id nodes with
  | Some n => Dict.set node_id (with_next next n) nodes
  | None => nodes
  end.

(** [create_instance] *)
Definition create_instance (var_name class_name : string) (c : context)
  : context * outcome string :=
  if String.eqb class_name "SinglyLinkedList" || String.eqb class_name "DoublyLinkedList" then
    let instance_data := create_instance_data class_name in
    let is_doubly := String.eqb class_name "DoublyLinkedList" in
    let instance_data := if is_doubly then with_tail instance_data else instance_data in
    (with_active_instance var_name
       (with_instances (Dict.set var_name instance_data (instances c)) c),
     get_instance_created_message class_name var_name is_doubly)
  else if String.eqb class_name "DataNode" then
    let node_id := new_node_id (nodes c) in
    (with_variables (Dict.set var_name node_id (variables c))
       (with_nodes (Dict.set node_id (create_node_data class_name "") (nodes c)) c),
     get_instance_created_message class_name var_name false)
  else (c, Raise (Exn ValueError ("Unknown class: " +:+ class_name))).

(** [create_node] *)
Definition create_node (var_name node_name : string) (c : context)
  : context * outcome string :=
  let node_id := new_node_id (nodes c) in
  (with_variables (Dict.set var_name node_id (variables c))
     (with_nodes (Dict.set node_id (create_node_data "DataNode" node_name) (nodes c)) c),
   get_node_created_message var_name node_name).

(** [raise ValueError(get_error_message(...))] *)
Definition raise_ValueError {A} (message : outcome string) : outcome A :=
  match message with
  | Return m => Raise (Exn ValueError m)
  | Raise e => Raise e
  end.

(** The two look-ups that open the [set_..._attribute] methods. *)
Definition bound {A} (instance_name value_var : string) (c : context)
    (k : list_instance -> string -> context * outcome A) : context * outcome A :=
  match Dict.get instance_name (instances c) with
  | None =>
      (c, raise_ValueError
            (get_error_message "instance_not_found" [("instance_name", AStr instance_name)]))
  | Some instance =>
      match Dict.get value_var (variables c) with
      | None =>
          (c, raise_ValueError
                (get_error_message "variable_not_found" [("var_name", AStr value_var)]))
      | Some node_id => k instance node_id
      end
  end.

(** [set_attribute] *)
Definition set_attribute (instance_name attribute value_var : string) (c : context)
  : context * outcome string :=
  bound instance_name value_var c (fun instance node_id =>
    let kwargs := [("instance_name", AStr instance_name); ("attribute", AStr attribute);
                   ("value_var", AStr value_var)] in
    if String.eqb attribute "head" then
      let old_head := head instance in
      let instance := with_head (Some node_id) (count instance) instance in
      (with_active_instance instance_name
         (with_instances (Dict.set instance_name instance (instances c)) c),
       match old_head with
       | None => get_message "attribute_set_first" kwargs
       | Some _ => get_message "attribute_set" kwargs
       end)
    else (c, get_message "attribute_set_generic" kwargs)).

(** [set_chained_attribute] *)
Definition set_chained_attribute (instance_name value_var : string) (c : context)
  : context * outcome string :=
  bound instance_name value_var c (fun instance node_id =>
    let kwargs := [("instance_name", AStr instance_name); ("value_var", AStr value_var)] in
    match head instance with
    | Some head_id =>
        if given (head instance) && Dict.has head_id (nodes c) then
          (with_nodes (set_next head_id (Some node_id) (nodes c)) c,
           get_message "chained_attribute_set" kwargs)
        else (c, get_message "chained_attribute_failed" kwargs)
    | None => (c, get_message "chained_attribute_failed" kwargs)
    end).

(** [set_prev_attribute] *)
Definition set_prev_attribute (node_var instance_name : string) (c : context)
  : context * outcome string :=
  bound instance_name node_var c (fun instance node_id =>
    let kwargs := [("node_var", AStr node_var); ("instance_name", AStr instance_name)] in
    match Dict.get node_id (nodes c) with
    | Some n =>
        (with_nodes (Dict.set node_id (with_prev (head instance) n) (nodes c)) c,
         get_message "prev_attribute_set" kwargs)
    | None => (c, get_message "prev_attribute_failed" kwargs)
    end).

(** [insert_front] *)
Definition insert_front (nodes : node_store) (instance : list_instance) (data : string)
  : node_store * list_instance * outcome string :=
  let node_id := new_node_id nodes in
  let nodes := Dict.set node_id (create_node_data "DataNode" data) nodes in
  match head instance with
  | None =>
      (nodes, with_head (Some node_id) 1 instance,
       get_insert_message "first" data None None None)
  | Some old_head =>
      let nodes := set_next node_id (Some old_head) nodes in
      let instance := with_head (Some node_id) (count instance + 1) instance in
      (nodes, instance, get_insert_message "front" data (Some (count instance)) None None)
  end.

(** The loop of [insert_last]:
    [while current and isinstance(nodes.get(current), dict) and nodes[current]["next"]]. *)
Fixpoint find_last (fuel : nat) (nodes : node_store) (current : option string)
  : option (option string) :=
  let following :=
    match current with
    | Some node_id =>
        if given current then
          match Dict.get node_id nodes with
          | Some n => if given (next n) then Some (next n) else None
          | None => None
          end
        else None
    | None => None
    end in
  match following with
  | Some next_id =>
      match fuel with
      | O => None
      | S fuel => find_last fuel nodes next_id
      end
  | None => Some current
  end.

(** [insert_last] *)
Definition insert_last (fuel : nat) (nodes : node_store) (instance : list_instance)
    (data : string) : option (node_store * list_instance * outcome string) :=
  let node_id := new_node_id nodes in
  let nodes := Dict.set node_id (create_node_data "DataNode" data) nodes in
  match head instance with
  | None =>
      Some (nodes, with_head (Some node_id) 1 instance,
            get_insert_message "first" data None None None)
  | Some _ =>
      match find_last fuel nodes (head instance) with
      | None => None
      | Some current =>
          let nodes :=
            match current with
            | Some current_id =>
                if given current then set_next current_id (Some node_id) nodes else nodes
            | None => nodes
            end in
          let instance := with_head (head instance) (count instance + 1) instance in
          Some (nodes, instance,
                get_insert_message "last" data (Some (count instance)) None None)
      end
  end.

(** [node_id and node_id in nodes and isinstance(nodes[node_id], dict) and
    nodes[node_id]["name"] == target_name] *)
Definition is_named (nodes : node_store) (node_id : option string) (target_name : string)
  : bool :=
  match node_id with
  | Some id =>
      given node_id &&
      match Dict.get id nodes with
      | Some n => String.eqb (name n) target_name
      | None => false
      end
  | None => false
  end.

(** The loop of [insert_before] and of [delete_node]: the first node on the
    way whose [next] is named [target_name], with that [next]. *)
Fixpoint find_before (fuel : nat) (nodes : node_store) (current : option string)
    (target_name : string) : option (option (string * string)) :=
  match current with
  | Some current_id =>
      if given current then
        match Dict.get current_id nodes with
        | Some n =>
            match next n with
            | Some next_node_id =>
                if is_named nodes (next n) target_name
                then Some (Some (current_id, next_node_id))
                else match fuel with
                     | O => None
                     | S fuel => find_before fuel nodes (next n) target_name
                     end
            | None => Some None
            end
        | None => Some None
        end
      else Some None
  | None => Some None
  end.

(** [insert_before] *)
Definition insert_before (fuel : nat) (nodes : node_store) (instance : list_instance)
    (target_name new_data : string) : option (node_store * list_instance * outcome string) :=
  let node_id := new_node_id nodes in
  let nodes := Dict.set node_id (create_node_data "DataNode" new_data) nodes in
  if is_named nodes (head instance) target_name then
    let nodes := set_next node_id (head instance) nodes in
    let instance := with_head (Some node_id) (count instance + 1) instance in
    Some (nodes, instance,
          get_insert_message "before" new_data (Some (count instance)) (Some target_name) None)
  else
    match find_before fuel nodes (head instance) target_name with
    | None => None
    | Some (Some (current, next_node_id)) =>
        let nodes := set_next node_id (Some next_node_id) nodes in
        let nodes := set_next current (Some node_id) nodes in
        let instance := with_head (head instance) (count instance + 1) instance in
        Some (nodes, instance,
              get_insert_message "before" new_data (Some (count instance)) (Some target_name)
                None)
    | Some None =>
        Some (nodes, instance, get_message "target_not_found" [("target_name", AStr target_name)])
    end.

(** [delete_node] *)
Definition delete_node (fuel : nat) (nodes : node_store) (instance : list_instance)
    (target_name : string) : option (node_store * list_instance * outcome string) :=
  if negb (given (head instance)) then
    Some (nodes, instance, get_message "delete_empty_list" [("target_name", AStr target_name)])
  else if is_named nodes (head instance) target_name then
    let old_head := head instance in
    let following :=
      match old_head with
      | Some id => match Dict.get id nodes with Some n => next n | None => None end
      | None => None
      end in
    let instance := with_head following (Z.max 0 (count instance - 1)) instance in
    Some (nodes, instance, get_delete_message target_name (count instance) true None)
  else
    match find_before fuel nodes (head instance) target_name with
    | None => None
    | Some (Some (current, next_node_id)) =>
        let following :=
          match Dict.get next_node_id nodes with Some n => next n | None => None end in
        let nodes := set_next current following nodes in
        let instance := with_head (head instance) (Z.max 0 (count instance - 1)) instance in
        Some (nodes, instance, get_delete_message target_name (count instance) false None)
    | Some None =>
        Some (nodes, instance,
              get_message "delete_target_not_found" [("target_name", AStr target_name)])
    end.

(** *** The vocabulary of the statements *)

(** The nodes [cells] (id and name) follow each other by their [next] links
    from [current] on, and the last one links to [stop]. *)
Fixpoint segment (nodes : node_store) (current : option string)
    (cells : list (string * string)) (stop : option string) : Prop :=
  match cells with
  | [] => current = stop
  | (node_id, node_name) :: cells =>
      current = Some node_id
      /\ exists n, Dict.get node_id nodes = Some n /\ name n = node_name
                   /\ segment nodes (next n) cells stop
  end.

(** The node ids of a store that only this manager has written to:
    [node_0], [node_1], ... in the order of creation. *)
Definition well_numbered (nodes : node_store) : Prop :=
  map fst nodes = map (fun k => "node_" +:+ Py.str_int (Z.of_nat k)) (seq 0 (length nodes)).

(** The instance is a list that holds [items]: its nodes follow each other
    from the head to a node without successor, no node twice, and [count]
    is their number. *)
Definition holds (nodes : node_store) (i : list_instance) (items : list string) : Prop :=
  well_numbered nodes
  /\ count i = len items
  /\ exists cells, map snd cells = items /\ NoDup (map fst cells)
                   /\ segment nodes (head i) cells None.

(** [items] without the first item equal to [target]. *)
Fixpoint without_first (target : string) (items : list string) : list string :=
  match items with
  | [] => []
  | item :: items =>
      if String.eqb item target then items else item :: without_first target items
  end.

(** [items] with [new] before the first item equal to [target]. *)
Fixpoint with_before_first (target new : string) (items : list string) : list string :=
  match items with
  | [] => []
  | item :: items =>
      if String.eqb item target then new :: item :: items
      else item :: with_before_first target new items
  end.

End NodeManager.

(** ** [services/simulators/operations/behavior_analyzer.py]: execution

  [execute_method_by_behavior] and the methods it calls. The analyzer's
  [method_definitions] are the behaviours [parse_class_methods] stored, by
  [f"{class_name}.{method_name}"]. *)

Module MethodExecution.
Import MessagesTh NodeManager.

(** The loop of [_traverse_linked_list]; [visited] stops it at a node met
    before. *)
Fixpoint traverse_loop (fuel : nat) (nodes : node_store) (current_node_id : option string)
    (visited : gset string) : option (list string) :=
  match current_node_id with
  | None => Some []
  | Some node_id =>
      if bool_decide (node_id ∈ visited) then Some []
      else
        match Dict.get node_id nodes with
        | Some node =>
            match fuel with
            | O => None
            | S fuel =>
                match traverse_loop fuel nodes (next node) ({[ node_id ]} ∪ visited) with
                | Some result => Some (name node :: result)
                | None => None
                end
            end
        | None => Some []
        end
  end.

(** [_traverse_linked_list]; the loop is given as many rounds as the store
    has nodes. *)
Definition _traverse_linked_list (nodes : node_store) (instance : list_instance)
  : option (list string) :=
  traverse_loop (length nodes) nodes (head instance) ∅.

(** [_get_instance_display] *)
Definition _get_instance_display (nodes : node_store) (instance : list_instance)
  : option (list string) :=
  if String.eqb (class_type instance) "SinglyLinkedList"
     || String.eqb (class_type instance) "DoublyLinkedList"
  then _traverse_linked_list nodes instance
  else Some (data instance).

(** [_execute_traverse_behavior] *)
Definition _execute_traverse_behavior (c : context) (instance : list_instance)
    (instance_name method_name : string) : option (context * outcome string) :=
  match _get_instance_display (nodes c) instance with
  | None => None
  | Some [] =>
      Some
        match get_message "traverse_empty" [] with
        | Return line =>
            (with_stdout (stdout c ++ [line]) c,
             get_traverse_message instance_name method_name None)
        | Raise e => (c, Raise e)
        end
  | Some display_data =>
      let traverse_output := "-> " +:+ Py.join " -> " display_data in
      Some (with_stdout (stdout c ++ [traverse_output]) c,
            get_traverse_message instance_name method_name (Some traverse_output))
  end.

(** [f"{message} {get_message('using_method', method_name=method_name)}"] *)
Definition using_method (message : outcome string) (method_name : string) : outcome string :=
  bind message (fun message =>
  bind (get_message "using_method" [("method_name", AStr method_name)]) (fun suffix =>
  Return (message +:+ " " +:+ suffix))).

(** The instance is the object [instances[instance_name]]: what the node
    manager did to it is seen there. *)
Definition store (c : context) (instance_name : string)
    (r : node_store * list_instance * outcome string) (method_name : string)
  : context * outcome string :=
  let '(nodes, instance, message) := r in
  (with_nodes nodes (with_instances (Dict.set instance_name instance (instances c)) c),
   using_method message method_name).

(** [_execute_insert_front_behavior] *)
Definition _execute_insert_front_behavior (c : context) (instance : list_instance)
    (instance_name method_name data : string) : context * outcome string :=
  store c instance_name (insert_front (nodes c) instance data) method_name.

(** [_execute_insert_last_behavior] *)
Definition _execute_insert_last_behavior (fuel : nat) (c : context) (instance : list_instance)
    (instance_name method_name data : string) : option (context * outcome string) :=
  r ← insert_last fuel (nodes c) instance data;
  Some (store c instance_name r method_name).

(** [_execute_insert_before_behavior] *)
Definition _execute_insert_before_behavior (fuel : nat) (c : context) (instance : list_instance)
    (instance_name method_name target data : string) : option (context * outcome string) :=
  r ← insert_before fuel (nodes c) instance target data;
  Some (store c instance_name r method_name).

(** [_execute_delete_behavior] *)
Definition _execute_delete_behavior (fuel : nat) (c : context) (instance : list_instance)
    (instance_name method_name target : string) : option (context * outcome string) :=
  r ← delete_node fuel (nodes c) instance target;
  Some (store c instance_name r method_name).

(** The double quote and the single quote. *)
Definition is_quote (c : ascii) : bool :=
  Ascii.eqb c (ascii_of_nat 34) || Ascii.eqb c (ascii_of_nat 39).

(** [s.strip(chars)] for the two quote characters. *)
Fixpoint lstrip_quotes (s : string) : string :=
  match s with
  | EmptyString => EmptyString
  | String c s' => if is_quote c then lstrip_quotes s' else s
  end.

Fixpoint rstrip_quotes (s : string) : string :=
  match s with
  | EmptyString => EmptyString
  | String c s' =>
      let r := rstrip_quotes s' in
      if Py.is_empty r && is_quote c then EmptyString else String c r
  end.

Definition strip_quotes (s : string) : string := rstrip_quotes (lstrip_quotes s).

(** [execute_method_by_behavior] *)
Definition execute_method_by_behavior (fuel : nat)
    (method_definitions : list (string * BehaviorAnalyzer.behavior)) (c : context)
    (instance_name method_name params : string) : option (context * outcome string) :=
  match Dict.get instance_name (instances c) with
  | None => Some (c, Return ("Instance '" +:+ instance_name +:+ "' not found"))
  | Some instance =>
      let class_type := class_type instance in
      let method_key := class_type +:+ "." +:+ method_name in
      match Dict.get method_key method_definitions with
      | None => Some (c, Return ("Method " +:+ method_name +:+ " not found in " +:+ class_type))
      | Some method_info =>
          let behavior_type := BehaviorAnalyzer.behavior_type method_info in
          let behaves t := String.eqb behavior_type t in
          let has_params := negb (Py.is_empty params) in
          if behaves "constructor" then
            Some (c, get_message "constructor_called"
                       [("method_name", AStr method_name); ("instance_name", AStr instance_name)])
          else if behaves "traverse" then
            _execute_traverse_behavior c instance instance_name method_name
          else if behaves "insert_front" then
            if has_params then
              Some (_execute_insert_front_behavior c instance instance_name method_name
                      (strip_quotes params))
            else Some (c, get_error_message "method_requires_data"
                            [("method_name", AStr method_name)])
          else if behaves "insert_last" then
            if has_params then
              _execute_insert_last_behavior fuel c instance instance_name method_name
                (strip_quotes params)
            else Some (c, get_error_message "method_requires_data"
                            [("method_name", AStr method_name)])
          else if behaves "insert_before" || behaves "insert_positional" then
            match map (fun p => strip_quotes (Py.strip p)) (Py.split "," params) with
            | [target; data] =>
                _execute_insert_before_behavior fuel c instance instance_name method_name
                  target data
            | [data] =>
                if has_params then
                  _execute_insert_last_behavior fuel c instance instance_name method_name data
                else Some (c, get_error_message "method_requires_params"
                                [("method_name", AStr method_name)])
            | _ => Some (c, get_error_message "method_requires_params"
                              [("method_name", AStr method_name)])
            end
          else if behaves "delete" then
            if has_params then
              _execute_delete_behavior fuel c instance instance_name method_name
                (strip_quotes params)
            else Some (c, get_error_message "method_requires_target"
                            [("method_name", AStr method_name)])
          else if behaves "getter" then
            Some (c, get_message "getter_returned"
                       [("instance_name", AStr instance_name); ("method_name", AStr method_name)])
          else if has_params
                  && BehaviorAnalyzer.get method_info BehaviorAnalyzer.creates_new_node then
            if BehaviorAnalyzer.get method_info BehaviorAnalyzer.has_loop
               || BehaviorAnalyzer.any_in ["last"; "end"] (Py.lower method_name)
            then _execute_insert_last_behavior fuel c instance instance_name method_name
                   (strip_quotes params)
            else Some (_execute_insert_front_behavior c instance instance_name method_name
                         (strip_quotes params))
          else if behaves "enqueue" || behaves "dequeue" then
            Some (c, get_message "using_method" [("method_name", AStr method_name)])
          else
            Some (c, get_message "executed_unknown"
                       [("method_name", AStr method_name); ("instance_name", AStr instance_name);
                        ("behavior_type", AStr behavior_type)])
      end
  end.

(** The call did not raise: it returned a message, or a loop of the node
    manager was still running when the fuel was spent. *)
Definition no_exception (r : option (context * outcome string)) : Prop :=
  match r with
  | Some (_, Raise _) => False
  | _ => True
  end.

(** A list built by the manager: an empty store, a new instance, and the
    items ["b"], ["a"], ["c"] inserted at the front, at the front and at the
    end. *)
Definition sample_list : node_store * list_instance :=
  let i := create_instance_data "SinglyLinkedList" in
  let '(nodes, i, _) := insert_front [] i "b" in
  let '(nodes, i, _) := insert_front nodes i "a" in
  match insert_last 2 nodes i "c" with
  | Some (nodes, i, _) => (nodes, i)
  | None => (nodes, i)
  end.

(** A list whose head is the node bound to [n], as
    [l = SinglyLinkedList(); n = DataNode("A"); l.head = n] leaves it, and the
    same list after [l.head.next = n]. *)
Definition headed_context : context :=
  let c := {| instances := []; variables := []; nodes := []; active_instance := None;
              stdout := [] |} in
  let c := (create_instance "l" "SinglyLinkedList" c).1 in
  let c := (create_node "n" "A" c).1 in
  (set_attribute "l" "head" "n" c).1.

Definition looping_context : context :=
  (set_chained_attribute "l" "n" headed_context).1.

End MethodExecution.

(** ** [services/simulators/graph/graph_node_manager.py]

  The manager of graphs: the four methods that change a graph. A vertex is
  a [str]. The adjacency list maps a vertex to a list object; the list
  objects live in a store and are named by their index there, because the
  source shares them: [add_vertex] records and returns [adjacency_list.copy()],
  a dictionary of the same list objects, where the other methods copy the
  lists too. The context is the record of the keys [create_instance]
  leaves in it. [repr_strs] writes a list of [str] as [str()] does. *)

Module GraphNodeManager.

Abbreviation store := (list (list string)).

(** A copy of the adjacency list. *)
Inductive snapshot :=
| Shallow (d : list (string * nat))          (* [adjacency_list.copy()] *)
| Deep (d : list (string * list string)).    (* [{k: v.copy() for k, v in adjacency_list.items()}] *)

(** The values of a history entry and of a result. *)
Inductive gval :=
| GStr (s : string)
| GStrs (l : list string)
| GEdges (l : list (string * string))
| GGraph (g : snapshot).

Record graph_instance := {
  adjacency_list : list (string * nat);
  class_type : string;
  attributes : dict;
  history : list (list (string * gval))
}.

Record graph_context := {
  vertices : list string;
  edges : list (string * string);
  stdout : list string
}.

(** [create_instance_data] for one of the three graph classes. *)
Definition create_instance_data (class_name : string) : graph_instance :=
  {| adjacency_list := []; class_type := class_name; attributes := []; history := [] |}.

Definition with_adjacency_list (adjacency_list : list (string * nat))
    (entry : list (string * gval)) (i : graph_instance) : graph_instance :=
  {| adjacency_list := adjacency_list; class_type := class_type i;
     attributes := attributes i; history := history i ++ [entry] |}.

Definition with_vertices (vertices : list string) (c : graph_context) : graph_context :=
  {| vertices := vertices; edges := edges c; stdout := stdout c |}.

Definition with_edges (edges : list (string * string)) (c : graph_context) : graph_context :=
  {| vertices := vertices c; edges := edges; stdout := stdout c |}.

(** [x in l] *)
Definition mem (x : string) (l : list string) : bool := existsb (String.eqb x) l.

(** [edge in edges] *)
Definition edge_eqb (e e' : string * string) : bool :=
  String.eqb e.1 e'.1 && String.eqb e.2 e'.2.

Definition has_edge (e : string * string) (l : list (string * string)) : bool :=
  existsb (edge_eqb e) l.

(** [l.remove(x)] for an [x] of the list: the first one goes. *)
Fixpoint remove (x : string) (l : list string) : list string :=
  match l with
  | [] => []
  | y :: l => if String.eqb y x then l else y :: remove x l
  end.

Fixpoint remove_edge_from (e : string * string) (l : list (string * string))
  : list (string * string) :=
  match l with
  | [] => []
  | e' :: l => if edge_eqb e' e then l else e' :: remove_edge_from e l
  end.

(** [if x not in l: l.append(x)] *)
Definition append_new (x : string) (l : list string) : list string :=
  if mem x l then l else l ++ [x].

(** [if x in l: l.remove(x)] *)
Definition remove_present (x : string) (l : list string) : list string :=
  if mem x l then remove x l else l.

(** [adjacency_list[vertex]] for a vertex of the graph. *)
Definition neighbors_of (heap : store) (adjacency_list : list (string * nat))
    (vertex : string) : list string :=
  match Dict.get vertex adjacency_list with
  | Some r => default [] (heap !! r)
  | None => []
  end.

(** A change made in place to the list [adjacency_list[vertex]]. *)
Definition update_list (heap : store) (adjacency_list : list (string * nat))
    (vertex : string) (f : list string -> list string) : store :=
  match Dict.get vertex adjacency_list with
  | Some r =>
      match heap !! r with
      | Some l => <[r := f l]> heap
      | None => heap
      end
  | None => heap
  end.

(** [{k: v.copy() for k, v in adjacency_list.items()}] *)
Definition deep_copy (heap : store) (adjacency_list : list (string * nat)) : snapshot :=
  Deep (map (fun e => (e.1, default [] (heap !! e.2))) adjacency_list).

(** [del adjacency_list[vertex]] *)
Definition del (vertex : string) (adjacency_list : list (string * nat))
  : list (string * nat) :=
  filter (fun e => String.eqb e.1 vertex = false) adjacency_list.

(** [class_type in ["Graph", "UndirectedGraph"]] *)
Definition undirected (class_type : string) : bool :=
  String.eqb class_type "Graph" || String.eqb class_type "UndirectedGraph".

(** The edge as the context keeps it. *)
Definition context_edge (class_type vertex1 vertex2 : string) : string * string :=
  if String.eqb class_type "DirectedGraph" then (vertex1, vertex2)
  else if String.ltb vertex1 vertex2 then (vertex1, vertex2) else (vertex2, vertex1).

Definition quoted (s : string) : string := "'" +:+ s +:+ "'".

Section WithPython.

Variable repr_strs : list string -> string.

(** [add_vertex] *)
Definition add_vertex (heap : store) (i : graph_instance) (c : graph_context)
    (vertex instance_name : string)
  : store * graph_instance * graph_context * list (string * gval) :=
  let old_adjacency_list := adjacency_list i in
  if negb (Dict.has vertex old_adjacency_list) then
    let adjacency_list := Dict.set vertex (length heap) old_adjacency_list in
    let heap := heap ++ [[]] in
    let c := if mem vertex (vertices c) then c else with_vertices (vertices c ++ [vertex]) c in
    let entry := [("operation", GStr "add_vertex"); ("vertex", GStr vertex);
                  ("before", GGraph (Shallow old_adjacency_list));
                  ("after", GGraph (Shallow adjacency_list))] in
    (heap, with_adjacency_list adjacency_list entry i, c,
     [("message", GStr ("add_vertex(" +:+ quoted vertex +:+ ") → vertex " +:+ quoted vertex
                        +:+ " added"));
      ("operation", GStr "add_vertex"); ("vertex", GStr vertex);
      ("before_graph", GGraph (Shallow old_adjacency_list));
      ("after_graph", GGraph (Shallow adjacency_list));
      ("vertices", GStrs (vertices c)); ("edges", GEdges (edges c));
      ("instance_name", GStr instance_name)])
  else
    (heap, i, c,
     [("message", GStr ("add_vertex(" +:+ quoted vertex +:+ ") → vertex " +:+ quoted vertex
                        +:+ " already exists"));
      ("operation", GStr "add_vertex"); ("vertex", GStr vertex);
      ("warning", GStr "vertex_exists");
      ("vertices", GStrs (vertices c)); ("edges", GEdges (edges c));
      ("instance_name", GStr instance_name)]).

Definition edge_type (class_type : string) : string :=
  if undirected class_type then "undirected edge" else "directed edge".

(** [add_edge] *)
Definition add_edge (heap : store) (i : graph_instance) (c : graph_context)
    (vertex1 vertex2 instance_name : string)
  : store * graph_instance * graph_context * list (string * gval) :=
  let adjacency_list := adjacency_list i in
  let old_adjacency_list := deep_copy heap adjacency_list in
  let class_type := class_type i in
  let call := "add_edge(" +:+ quoted vertex1 +:+ ", " +:+ quoted vertex2 +:+ ")" in
  if Dict.has vertex1 adjacency_list && Dict.has vertex2 adjacency_list then
    let heap := update_list heap adjacency_list vertex1 (append_new vertex2) in
    let heap :=
      if undirected class_type
      then update_list heap adjacency_list vertex2 (append_new vertex1)
      else heap in
    let edge := context_edge class_type vertex1 vertex2 in
    let c := if has_edge edge (edges c) then c else with_edges (edges c ++ [edge]) c in
    let entry := [("operation", GStr "add_edge"); ("vertex1", GStr vertex1);
                  ("vertex2", GStr vertex2); ("before", GGraph old_adjacency_list);
                  ("after", GGraph (deep_copy heap adjacency_list))] in
    (heap, with_adjacency_list adjacency_list entry i, c,
     [("message", GStr (call +:+ " → " +:+ edge_type class_type +:+ " added between "
                        +:+ quoted vertex1 +:+ " and " +:+ quoted vertex2));
      ("operation", GStr "add_edge"); ("vertex1", GStr vertex1); ("vertex2", GStr vertex2);
      ("before_graph", GGraph old_adjacency_list);
      ("after_graph", GGraph (deep_copy heap adjacency_list));
      ("edges", GEdges (edges c)); ("vertices", GStrs (vertices c));
      ("instance_name", GStr instance_name)])
  else
    let missing_vertices :=
      (if Dict.has vertex1 adjacency_list then [] else [vertex1])
      ++ (if Dict.has vertex2 adjacency_list then [] else [vertex2]) in
    (heap, i, c,
     [("message", GStr (call +:+ " failed → vertices not found: "
                        +:+ repr_strs missing_vertices));
      ("operation", GStr "add_edge"); ("vertex1", GStr vertex1); ("vertex2", GStr vertex2);
      ("error", GStr "vertices_not_found"); ("missing_vertices", GStrs missing_vertices);
      ("edges", GEdges (edges c)); ("vertices", GStrs (vertices c));
      ("instance_name", GStr instance_name)]).

(** [remove_edge]; the guarded calls of [list.remove] raise no [ValueError]. *)
Definition remove_edge (heap : store) (i : graph_instance) (c : graph_context)
    (vertex1 vertex2 instance_name : string)
  : store * graph_instance * graph_context * list (string * gval) :=
  let adjacency_list := adjacency_list i in
  let old_adjacency_list := deep_copy heap adjacency_list in
  let class_type := class_type i in
  let call := "remove_edge(" +:+ quoted vertex1 +:+ ", " +:+ quoted vertex2 +:+ ")" in
  if Dict.has vertex1 adjacency_list && Dict.has vertex2 adjacency_list then
    let heap := update_list heap adjacency_list vertex1 (remove_present vertex2) in
    let heap :=
      if undirected class_type
      then update_list heap adjacency_list vertex2 (remove_present vertex1)
      else heap in
    let edge := context_edge class_type vertex1 vertex2 in
    let c := if has_edge edge (edges c)
             then with_edges (remove_edge_from edge (edges c)) c else c in
    let entry := [("operation", GStr "remove_edge"); ("vertex1", GStr vertex1);
                  ("vertex2", GStr vertex2); ("before", GGraph old_adjacency_list);
                  ("after", GGraph (deep_copy heap adjacency_list))] in
    (heap, with_adjacency_list adjacency_list entry i, c,
     [("message", GStr (call +:+ " → " +:+ edge_type class_type +:+ " removed between "
                        +:+ quoted vertex1 +:+ " and " +:+ quoted vertex2));
      ("operation", GStr "remove_edge"); ("vertex1", GStr vertex1);
      ("vertex2", GStr vertex2);
      ("before_graph", GGraph old_adjacency_list);
      ("after_graph", GGraph (deep_copy heap adjacency_list));
      ("edges", GEdges (edges c)); ("vertices", GStrs (vertices c));
      ("instance_name", GStr instance_name)])
  else
    (heap, i, c,
     [("message", GStr (call +:+ " failed → one or both vertices not found"));
      ("operation", GStr "remove_edge"); ("vertex1", GStr vertex1);
      ("vertex2", GStr vertex2);
      ("error", GStr "vertices_not_found");
      ("edges", GEdges (edges c)); ("vertices", GStrs (vertices c));
      ("instance_name", GStr instance_name)]).

(** [remove_vertex] *)
Definition remove_vertex (heap : store) (i : graph_instance) (c : graph_context)
    (vertex_to_remove instance_name : string)
  : store * graph_instance * graph_context * list (string * gval) :=
  let old_list := adjacency_list i in
  let old_adjacency_list := deep_copy heap old_list in
  let call := "remove_vertex(" +:+ quoted vertex_to_remove +:+ ")" in
  if Dict.has vertex_to_remove old_list then
    let neighbors := neighbors_of heap old_list vertex_to_remove in
    let heap :=
      fold_left (fun heap vertex =>
                   update_list heap old_list vertex (remove_present vertex_to_remove))
                (map fst old_list) heap in
    let adjacency_list := del vertex_to_remove old_list in
    let c := if mem vertex_to_remove (vertices c)
             then with_vertices (remove vertex_to_remove (vertices c)) c else c in
    let c := with_edges
               (filter (fun e => negb (String.eqb vertex_to_remove e.1
                                       || String.eqb vertex_to_remove e.2) = true)
                       (edges c)) c in
    let entry := [("operation", GStr "remove_vertex"); ("vertex", GStr vertex_to_remove);
                  ("neighbors", GStrs neighbors); ("before", GGraph old_adjacency_list);
                  ("after", GGraph (deep_copy heap adjacency_list))] in
    (heap, with_adjacency_list adjacency_list entry i, c,
     [("message", GStr (call +:+ " → vertex " +:+ quoted vertex_to_remove
                        +:+ " and its edges removed"));
      ("operation", GStr "remove_vertex"); ("vertex", GStr vertex_to_remove);
      ("removed_neighbors", GStrs neighbors);
      ("before_graph", GGraph old_adjacency_list);
      ("after_graph", GGraph (deep_copy heap adjacency_list));
      ("edges", GEdges (edges c)); ("vertices", GStrs (vertices c));
      ("instance_name", GStr instance_name)])
  else
    (heap, i, c,
     [("message", GStr (call +:+ " failed → vertex " +:+ quoted vertex_to_remove
                        +:+ " not found"));
      ("operation", GStr "remove_vertex"); ("vertex", GStr vertex_to_remove);
      ("error", GStr "vertex_not_found");
      ("edges", GEdges (edges c)); ("vertices", GStrs (vertices c));
      ("instance_name", GStr instance_name)]).

End WithPython.

(** *** The vocabulary of the statements *)

(** The neighbours of a vertex of the graph; [None] for any other [str]. *)
Definition lookup_neighbors (heap : store) (adjacency_list : list (string * nat))
    (vertex : string) : option (list string) :=
  match Dict.get vertex adjacency_list with
  | Some r => heap !! r
  | None => None
  end.

Definition neighbors (heap : store) (i : graph_instance) (vertex : string)
  : option (list string) :=
  lookup_neighbors heap (adjacency_list i) vertex.

(** Every vertex has a list of its own; no list names a vertex twice or
    names a [str] that is no vertex; and, when [symmetric] is asked, two
    vertices name each other or neither does. *)
Definition sound (heap : store) (adjacency_list : list (string * nat)) (symmetric : bool)
  : Prop :=
  NoDup (map fst adjacency_list)
  /\ NoDup (map snd adjacency_list)
  /\ (forall e, e ∈ adjacency_list -> (e.2 < length heap)%nat)
  /\ (forall v ns, lookup_neighbors heap adjacency_list v = Some ns ->
        NoDup ns /\ forall u, u ∈ ns -> is_Some (lookup_neighbors heap adjacency_list u))
  /\ (symmetric = true ->
      forall v ns u, lookup_neighbors heap adjacency_list v = Some ns -> u ∈ ns ->
        exists ms, lookup_neighbors heap adjacency_list u = Some ms /\ v ∈ ms).

(** The graph is sound, and symmetric when its class is undirected. *)
Definition well_formed (heap : store) (i : graph_instance) : Prop :=
  sound heap (adjacency_list i) (undirected (class_type i)).

(** One call of a method that changes the graph. *)
Inductive change :=
| AddVertex (vertex : string)
| AddEdge (vertex1 vertex2 : string)
| RemoveEdge (vertex1 vertex2 : string)
| RemoveVertex (vertex : string).

Definition perform (repr_strs : list string -> string) (call : change)
    (state : store * graph_instance * graph_context) (instance_name : string)
  : store * graph_instance * graph_context * list (string * gval) :=
  let '(heap, i, c) := state in
  match call with
  | AddVertex vertex => add_vertex heap i c vertex instance_name
  | AddEdge vertex1 vertex2 => add_edge repr_strs heap i c vertex1 vertex2 instance_name
  | RemoveEdge vertex1 vertex2 => remove_edge heap i c vertex1 vertex2 instance_name
  | RemoveVertex vertex => remove_vertex heap i c vertex instance_name
  end.

(** What a snapshot shows once the lists are as [heap] has them. *)
Definition shown (heap : store) (g : snapshot) : list (string * list string) :=
  match g with
  | Shallow d => map (fun e => (e.1, default [] (heap !! e.2))) d
  | Deep d => d
  end.

Definition new_context : graph_context := {| vertices := []; edges := []; stdout := [] |}.

(** [str()] of a list of [str] that need no escape. *)
Definition sample_repr_strs (l : list string) : string :=
  "[" +:+ Py.join ", " (map quoted l) +:+ "]".

(** A [Graph] after [add_vertex("a")], [add_vertex("b")] and [add_edge("a", "b")]. *)
Definition sample_graph : store * graph_instance * graph_context :=
  let step call state := (perform sample_repr_strs call state "g").1 in
  step (AddEdge "a" "b")
    (step (AddVertex "b")
       (step (AddVertex "a") ([], create_instance_data "Graph", new_context))).

End GraphNodeManager.

(** * Properties *)

(** ** The controller *)

Module ControllerFacts.
Import Controller.

Lemma getattr_detector_init :
  getattr __init__ "detector"
  = Raise (Exn AttributeError "'ExecuteController' object has no attribute 'detector'").
Proof. reflexivity. Qed.

(** C10. For every request whose data-structure type is absent or ["auto"],
    or whose [autoDetect] flag is set, [run_code_guest] on a controller built
    by [__init__] raises [AttributeError] on [self.detector]; nothing has been
    executed by then (no identifier generated, no simulator created or run),
    and no response is returned. *)
Theorem auto_detection_raises_AttributeError (env : Env) (request : ExecutionCreateRequest) :
  wants_auto_detection request ->
  run_code_guest env __init__ request
  = ([], Raise (Exn AttributeError
                  "'ExecuteController' object has no attribute 'detector'")).
Proof.
  intros Hw. unfold run_code_guest.
  assert (Hauto :
    (match req_dataType request with
     | None => true
     | Some dt => Py.is_empty dt || String.eqb dt "auto"
     end || match req_autoDetect request with Some b => b | None => false end) = true).
  { destruct Hw as [H | [H | H]]; rewrite H.
    - reflexivity.
    - reflexivity.
    - apply orb_true_r. }
  rewrite Hauto. rewrite getattr_detector_init. reflexivity.
Qed.

Lemma auto_detection_raises_AttributeError_witness :
  run_code_guest sample_env __init__
    {| req_code := "s = []"; req_dataType := Some "auto";
       req_inputValues := None; req_autoDetect := None |}
  = ([], Raise (Exn AttributeError
                  "'ExecuteController' object has no attribute 'detector'")).
Proof.
  apply auto_detection_raises_AttributeError.
  right; left; reflexivity.
Defined.

(** No response of [run_code_guest] carries the status ["timeout"]. *)
Lemma status_never_timeout env self request evs resp :
  run_code_guest env self request = (evs, Return resp) -> status resp <> timeout.
Proof.
  unfold run_code_guest.
  repeat (match goal with
          | |- context [match ?x with _ => _ end] => destruct x eqn:?
          end; try discriminate);
    intros [= <- <-]; simpl; try discriminate.
Qed.

Ltac each_simulator H :=
  unfold _simulators in H;
  repeat (apply elem_of_cons in H as [-> | H]);
  [ .. | apply elem_of_nil in H; destruct H ].

(** A request that names a supported type reaches the simulator. *)
Lemma run_code_guest_plain env code dt inputs :
  dt ∈ _simulators ->
  run_code_guest env __init__ (Pipeline.plain_request code dt inputs)
  = ([GeneratedExecutionId; CreatedSimulator dt; Executed dt (Py.strip code) inputs],
     match execute_with_timeout env dt (Py.strip code) inputs with
     | Return steps =>
         match find_error steps with
         | Some error_message =>
             Return (ExecutionHelper.create_error_response
                       (exec_id env) (Py.strip code) (Some dt) error_message
                       (now env) (Some steps))
         | None =>
             Return
               {| executionId := exec_id env; resp_code := Py.strip code;
                  resp_dataType := Some dt; steps := steps;
                  totalSteps := len steps;
                  status := if is_waiting steps then waiting else success;
                  errorMessage := None;
                  executedAt := now env; createdAt := now env;
                  output := find_output env (rev steps);
                  complexity := analyze_complexity env (Py.strip code) |}
         end
     | Raise e =>
         if is_timeout_error e then
           Return (ExecutionHelper.create_error_response
                     (exec_id env) (Py.strip code) (Some dt)
                     "Execution timeout - code took too long to execute"
                     (now env) (Some []))
         else
           Return (ExecutionHelper.create_error_response
                     (exec_id env) (Py.strip code) (Some dt) (exn_msg e)
                     (now env) (Some []))
     end).
Proof.
  intros Hdt.
  assert (Hsup : factory_is_supported __init__ (Some dt) = Return true)
    by (each_simulator Hdt; vm_compute; reflexivity).
  assert (Hset : Py.is_empty dt || String.eqb dt "auto" = false)
    by (each_simulator Hdt; reflexivity).
  unfold run_code_guest, Pipeline.plain_request.
  cbv zeta.
  cbn [req_code req_dataType req_inputValues req_autoDetect default_list].
  rewrite Hset. cbn [orb]. cbv iota. rewrite Hsup. change (default "" (Some dt)) with dt.
  destruct (execute_with_timeout env dt (Py.strip code) inputs) as [steps | e];
    [ destruct (find_error steps); reflexivity
    | destruct (is_timeout_error e); reflexivity ].
Qed.

Lemma find_error_app l l' :
  find_error l = None -> find_error (l ++ l') = find_error l'.
Proof.
  induction l as [| s l IH]; [reflexivity |].
  simpl. destruct (step_error s); [discriminate | exact IH].
Qed.

Lemma find_error_all_none l :
  Forall (fun s => step_error s = None) l -> find_error l = None.
Proof.
  induction 1 as [| s l Hs _ IH]; [reflexivity |].
  simpl. rewrite Hs. exact IH.
Qed.

End ControllerFacts.

(** ** The executor: step numbering *)

Module ExecutorFacts.
Import Trace Executor.

Lemma len_app {A} (l l' : list A) : len (l ++ l') = len l + len l'.
Proof. unfold len. rewrite length_app. lia. Qed.

Lemma len_nonneg {A} (l : list A) : 0 <= len l.
Proof. unfold len. lia. Qed.

Lemma numbered_nil first : numbered_from first [].
Proof. reflexivity. Qed.

Lemma numbered_app first l l' :
  numbered_from first l -> numbered_from (first + len l) l' ->
  numbered_from first (l ++ l').
Proof.
  unfold numbered_from. intros H H'.
  rewrite map_app, len_app, seqZ_app by apply len_nonneg.
  by rewrite H, H'.
Qed.

Lemma numbered_singleton first s : stepNumber s = first -> numbered_from first [s].
Proof. intros <-. reflexivity. Qed.

Lemma numbered_same_numbers first l l' :
  map stepNumber l' = map stepNumber l -> numbered_from first l -> numbered_from first l'.
Proof.
  unfold numbered_from, len. intros E H.
  rewrite E, H. f_equal.
  rewrite <- (length_map stepNumber l'), E, length_map. reflexivity.
Qed.

Lemma numbered_lookup first l i s :
  numbered_from first l -> l !! i = Some s -> stepNumber s = first + Z.of_nat i.
Proof.
  unfold numbered_from. intros H Hi.
  assert (Hm : map stepNumber l !! i = Some (stepNumber s))
    by (rewrite list_lookup_fmap, Hi; reflexivity).
  rewrite H in Hm. apply lookup_seqZ in Hm. lia.
Qed.

Lemma trace_step_body_in_step env code dst cm lines first st ts st' :
  in_step first st ->
  trace_step_body env code dst cm lines st ts = Return st' ->
  in_step first st'.
Proof.
  intros [Hn Hs]. unfold trace_step_body.
  case_bool_decide.
  - intros [= <-]. split; simpl.
    + apply numbered_app; [exact Hn | apply numbered_singleton; simpl; lia].
    + rewrite len_app. unfold len at 2. simpl. lia.
  - destruct (t_line ts) as [line_no |]; [| discriminate].
    destruct (_ || _); [intros [= <-]; by split |].
    destruct (accumulate _ _ _) as [acc buffer].
    destruct (annotate _ _ _ _ _ _ _) as [an | e]; [| discriminate].
    simpl. intros [= <-]. split; simpl.
    + apply numbered_app; [exact Hn | apply numbered_singleton; simpl; lia].
    + rewrite len_app. unfold len at 2. simpl. lia.
Qed.

Lemma trace_loop_in_step env code dst cm lines first t : forall st st',
  in_step first st ->
  trace_loop env code dst cm lines t st = Return st' ->
  in_step first st'.
Proof.
  induction t as [| ts t IH]; intros st st' Hst; simpl.
  - by intros [= <-].
  - destruct (trace_step_body _ _ _ _ _ st ts) as [st1 |] eqn:E; [| discriminate].
    simpl. apply IH. eapply trace_step_body_in_step; eauto.
Qed.

Lemma flush_numbers st : map stepNumber (flush st) = map stepNumber (steps st).
Proof.
  unfold flush. destruct (Py.is_empty _); [reflexivity |].
  rewrite <- (rev_involutive (steps st)) at 2.
  destruct (rev (steps st)) as [| s r]; [reflexivity |].
  simpl. by rewrite !map_app.
Qed.

Lemma print_steps_numbered result outs actual lines : forall line_num first count,
  numbered_from first (print_steps result outs actual lines line_num first count).
Proof.
  induction lines as [| l lines IH]; intros; simpl; [apply numbered_nil |].
  destruct (Py.startswith _ _); [apply IH |].
  destruct (Py.contains _ _); [| apply IH].
  apply (numbered_app first [_]); [by apply numbered_singleton | apply IH].
Qed.

Lemma parsed_outputs_error_step env code result first s :
  parsed_outputs env code result first = inr s ->
  s = simple_error_step env code first
        (default JNone (stdout_error env result)).
Proof.
  unfold parsed_outputs, stdout_error.
  destruct (match output result with Some o => truthy o | None => false end).
  - destruct (output result) as [o |]; [| discriminate].
    destruct (is_dict_with "output" o); [discriminate |].
    destruct (_ && _); discriminate.
  - destruct (negb _); [| discriminate].
    destruct (json_loads env _) as [v |].
    + destruct (is_dict_with "output" v); [discriminate |].
      destruct (is_dict_with "error" v); [by intros [= <-] | discriminate].
    + destruct (Py.is_empty _); discriminate.
Qed.

Lemma fallback_steps_numbered env code result first :
  numbered_from first (fallback_steps env code result first).
Proof.
  unfold fallback_steps.
  destruct (parsed_outputs env code result first) as [p | s] eqn:E.
  - destruct (stderr_error _ _ _); [by apply numbered_singleton |].
    match goal with |- context [print_steps ?r ?o ?a ?l ?n ?f ?c] =>
      pose proof (print_steps_numbered r o a l n f c) as H;
      destruct (print_steps r o a l n f c) end;
      [by apply numbered_singleton | exact H].
  - apply parsed_outputs_error_step in E as ->. by apply numbered_singleton.
Qed.

Lemma _create_steps_from_result_numbered env code result first dst l :
  _create_steps_from_result env code result first dst = Return l ->
  numbered_from first l.
Proof.
  unfold _create_steps_from_result.
  destruct (trace result) as [| ts t].
  - intros [= <-]. apply fallback_steps_numbered.
  - destruct (trace_loop _ _ _ _ _ _ _) as [st |] eqn:E; [| discriminate].
    simpl. apply trace_loop_in_step with (first := first) in E as [Hn _];
      [| split; [apply numbered_nil | simpl; unfold len; simpl; lia]].
    pose proof (flush_numbers st) as Hf.
    destruct (flush st) as [| s r] eqn:Ef.
    + intros [= <-]. apply fallback_steps_numbered.
    + intros [= <-]. eapply numbered_same_numbers; eauto.
Qed.

Lemma mapM_add_input_history_numbers history l : forall l',
  mapM (add_input_history history) l = Return l' ->
  map stepNumber l' = map stepNumber l.
Proof.
  induction l as [| s l IH]; intros l'; simpl.
  - by intros [= <-].
  - destruct (add_input_history history s) as [s' |] eqn:Es; [| discriminate].
    simpl. destruct (mapM _ l) as [l1 |]; [| discriminate].
    simpl. intros [= <-]. simpl. f_equal; [| by apply IH].
    unfold add_input_history in Es.
    destruct (Dict.get _ _) as [[ | | | | | | d] |]; by inversion Es.
Qed.

Lemma _create_steps_from_interactive_result_numbered env code result first dst l :
  _create_steps_from_interactive_result env code result first dst = Return l ->
  numbered_from first l.
Proof.
  unfold _create_steps_from_interactive_result.
  destruct (_create_steps_from_result _ _ _ _ _) as [l0 |] eqn:E; [| discriminate].
  apply _create_steps_from_result_numbered in E. simpl.
  destruct (input_history result).
  - by intros [= <-].
  - intros H. apply mapM_add_input_history_numbers in H.
    eapply numbered_same_numbers; eauto.
Qed.

Lemma execute_body_numbered env code result dst l :
  execute_body env code result dst = Return l -> numbered_from 1 l.
Proof.
  unfold execute_body.
  destruct (waiting_signal_of env result) as [w result'].
  match goal with |- bind ?x _ = _ -> _ => destruct x as [l0 |] eqn:E end;
    [| discriminate].
  assert (H0 : numbered_from 1 l0).
  { destruct (is_interactive result').
    - destruct (_create_steps_from_interactive_result _ _ _ _ _) as [l1 |] eqn:E1;
        [| discriminate].
      apply _create_steps_from_interactive_result_numbered in E1. simpl in E.
      destruct (negb _); injection E as <-; [| exact E1].
      apply numbered_app; [exact E1 | by apply numbered_singleton].
    - destruct (exit_code result' =? 0).
      + by apply _create_steps_from_result_numbered in E.
      + injection E as <-. by apply numbered_singleton. }
  simpl. destruct w as [w |]; [| by intros [= <-]].
  destruct (truthy w); [| by intros [= <-]].
  destruct (waiting_step env code w l0) as [s |] eqn:Ew; [| discriminate].
  simpl. intros [= <-].
  apply numbered_app; [exact H0 | apply numbered_singleton].
  unfold waiting_step in Ew. destruct w; try discriminate.
  repeat match type of Ew with
         | bind ?x _ = _ => destruct x; [simpl in Ew | discriminate]
         end.
  injection Ew as <-. simpl. lia.
Qed.

Lemma execute_numbered env code result dst :
  numbered_from 1 (execute env code result dst).
Proof.
  unfold execute.
  destruct (execute_body env code result dst) eqn:E.
  - by apply execute_body_numbered in E.
  - by apply numbered_singleton.
Qed.

End ExecutorFacts.

(** ** Controller and executor together *)

Module PipelineFacts.
Import Trace Executor Controller ControllerFacts ExecutorFacts.

(** What a response of [run_code_guest] holds: its step count is the length
    of its step list, and the list is empty or the one the simulator
    returned. *)
Lemma run_code_guest_steps env self request evs resp :
  run_code_guest env self request = (evs, Return resp) ->
  totalSteps resp = len (Schemas.steps resp)
  /\ (Schemas.steps resp = []
      \/ exists dt code inputs,
           execute_with_timeout env dt code inputs = Return (Schemas.steps resp)).
Proof.
  unfold run_code_guest.
  repeat (match goal with
          | |- context [match ?x with _ => _ end] => destruct x eqn:?
          end; try discriminate);
    intros [= <- <-]; simpl; (split; [reflexivity |]);
    solve [ by left | right; eauto ].
Qed.



Lemma print_steps_no_error result outs actual lines : forall line_num first count,
  Forall (fun s => step_error s = None)
         (print_steps result outs actual lines line_num first count).
Proof.
  induction lines as [| l lines IH]; intros; simpl; [constructor |].
  destruct (Py.startswith _ _); [apply IH |].
  destruct (Py.contains _ _); [| apply IH].
  constructor; [reflexivity | apply IH].
Qed.

(** The steps built for a child that was killed on its time budget. *)
Lemma execute_timed_out eenv code dst :
  json_loads eenv "Code execution timed out" = None ->
  exists l,
    Forall (fun s => step_error s = None) l
    /\ execute eenv code Wrapper.timed_out_result dst
       = l ++ _create_error_step code Wrapper.timed_out_result (1 + len l).
Proof.
  intros Hj.
  exists (fallback_steps eenv code Wrapper.timed_out_result 1). split.
  - unfold fallback_steps, parsed_outputs, stderr_error. simpl.
    change (Py.strip "Code execution timed out") with "Code execution timed out".
    rewrite Hj.
    match goal with |- context [print_steps ?r ?o ?a ?l ?n ?f ?c] =>
      pose proof (print_steps_no_error r o a l n f c) as H;
      destruct (print_steps r o a l n f c) end;
      [repeat constructor | exact H].
  - reflexivity.
Qed.

(** C1. A run that exceeds its time budget is answered with the status
    ["error"], the status of guest exceptions, and never with ["timeout"]:
    both when the controller's own budget expires ([asyncio.wait_for] raises
    [TimeoutError]) and when the executor kills the child process. *)
Theorem timeout_reported_with_status_error
    (eenv : Executor.Env) (env : Controller.Env)
    (exec_id : string) (now : Z) (ac : string -> option ComplexityAnalysis)
    (code dt msg : string) (inputs : list string) :
  dt ∈ _simulators ->
  execute_with_timeout env dt (Py.strip code) inputs = Raise (Exn TimeoutError msg) ->
  json_loads eenv "Code execution timed out" = None ->
  (exists evs resp,
      run_code_guest env __init__ (Pipeline.plain_request code dt inputs)
      = (evs, Return resp)
      /\ status resp = error
      /\ errorMessage resp = Some "Execution timeout - code took too long to execute")
  /\ (exists evs resp,
        run_code_guest
          (Pipeline.controller_env exec_id now eenv
             (fun _ _ => Wrapper.timed_out_result) ac)
          __init__ (Pipeline.plain_request code dt inputs)
        = (evs, Return resp)
        /\ status resp = error
        /\ errorMessage resp = Some "Code execution timed out").
Proof.
  intros Hdt Hex Hj. split.
  - rewrite (run_code_guest_plain _ _ _ _ Hdt), Hex. simpl.
    eexists _, _. split; [reflexivity |]. split; reflexivity.
  - rewrite (run_code_guest_plain _ _ _ _ Hdt). simpl.
    unfold Pipeline.execute_code.
    destruct (execute_timed_out eenv (Py.strip code) (Some dt) Hj) as (l & Hl & ->).
    rewrite find_error_app by (by apply find_error_all_none).
    simpl. eexists _, _. split; [reflexivity |]. split; reflexivity.
Qed.

Lemma timeout_reported_with_status_error_witness :
  (exists evs resp,
      run_code_guest Samples.always_timeout __init__
        (Pipeline.plain_request "while True: pass" "stack" [])
      = (evs, Return resp)
      /\ status resp = error
      /\ errorMessage resp = Some "Execution timeout - code took too long to execute")
  /\ (exists evs resp,
        run_code_guest
          (Pipeline.controller_env "exec_0123456789ab" 0 Samples.exec_env
             (fun _ _ => Wrapper.timed_out_result) (fun _ => None))
          __init__ (Pipeline.plain_request "while True: pass" "stack" [])
        = (evs, Return resp)
        /\ status resp = error
        /\ errorMessage resp = Some "Code execution timed out").
Proof.
  apply (timeout_reported_with_status_error Samples.exec_env Samples.always_timeout
           "exec_0123456789ab" 0 (fun _ => None) "while True: pass" "stack"
           "Code execution exceeded 30 seconds" []).
  - unfold _simulators. apply elem_of_cons. left. reflexivity.
  - reflexivity.
  - reflexivity.
Defined.

End PipelineFacts.

(** ** The executor: failed runs *)

Module FailedRunFacts.
Import Trace Executor Controller ControllerFacts ExecutorFacts.

Lemma trace_step_body_length env code dst cm lines st ts st' :
  trace_step_body env code dst cm lines st ts = Return st' ->
  len (steps st') = len (steps st) + (if visible lines ts then 1 else 0).
Proof.
  unfold trace_step_body, visible.
  case_bool_decide.
  - intros [= <-]. simpl. rewrite len_app. reflexivity.
  - destruct (t_line ts) as [line_no |]; [| discriminate].
    simpl. destruct (_ || _); [intros [= <-]; simpl; lia |].
    destruct (accumulate _ _ _) as [acc buffer].
    destruct (annotate _ _ _ _ _ _ _) as [an | e]; [| discriminate].
    simpl. intros [= <-]. simpl. rewrite len_app. reflexivity.
Qed.

Lemma len_filter_cons {A} (P : A -> bool) x (l : list A) :
  len (filter (fun y => P y = true) (x :: l))
  = (if P x then 1 else 0) + len (filter (fun y => P y = true) l).
Proof.
  rewrite filter_cons. destruct (P x); case_decide; try congruence.
  - unfold len. simpl. lia.
  - lia.
Qed.

Lemma trace_loop_length env code dst cm lines t : forall st st',
  trace_loop env code dst cm lines t st = Return st' ->
  len (steps st')
  = len (steps st) + len (filter (fun ts => visible lines ts = true) t).
Proof.
  induction t as [| ts t IH]; intros st st'; simpl.
  - intros [= <-]. unfold len at 3. simpl. lia.
  - destruct (trace_step_body _ _ _ _ _ st ts) as [st1 |] eqn:E; [| discriminate].
    simpl. intros H. apply IH in H. apply trace_step_body_length in E.
    rewrite len_filter_cons. lia.
Qed.

Lemma flush_length st : len (flush st) = len (steps st).
Proof.
  unfold len. rewrite <- (length_map stepNumber (flush st)), flush_numbers, length_map.
  reflexivity.
Qed.

Lemma fallback_steps_nonempty env code result first :
  fallback_steps env code result first <> [].
Proof.
  unfold fallback_steps.
  destruct (parsed_outputs _ _ _ _); [| discriminate].
  destruct (stderr_error _ _ _); [discriminate |].
  destruct (print_steps _ _ _ _ _ _ _); discriminate.
Qed.

Lemma _create_steps_from_result_shape env code result first dst l :
  _create_steps_from_result env code result first dst = Return l ->
  l <> []
  /\ (0 < visible_count code (trace result) -> len l = visible_count code (trace result)).
Proof.
  unfold _create_steps_from_result, visible_count.
  destruct (trace result) as [| ts t] eqn:Et.
  - intros [= <-]. split; [apply fallback_steps_nonempty |].
    unfold len. simpl. lia.
  - destruct (trace_loop _ _ _ _ _ _ _) as [st |] eqn:E; [| discriminate].
    simpl. apply trace_loop_length in E. simpl in E.
    pose proof (flush_length st) as Hf.
    destruct (flush st) as [| s r] eqn:Ef; intros [= <-].
    + split; [apply fallback_steps_nonempty |].
      unfold len in Hf, E at 1 2. simpl in Hf, E. lia.
    + split; [discriminate |]. intros _. unfold len in E at 2. simpl in E. lia.
Qed.

Lemma mapM_length {A B} (f : A -> outcome B) l : forall l',
  mapM f l = Return l' -> length l' = length l.
Proof.
  induction l as [| x l IH]; intros l'; simpl.
  - by intros [= <-].
  - destruct (f x); [| discriminate]. simpl.
    destruct (mapM f l); [| discriminate]. simpl.
    intros [= <-]. simpl. f_equal. by apply IH.
Qed.

Lemma _create_steps_from_interactive_result_shape env code result first dst l :
  _create_steps_from_interactive_result env code result first dst = Return l ->
  l <> []
  /\ (0 < visible_count code (trace result) -> len l = visible_count code (trace result)).
Proof.
  unfold _create_steps_from_interactive_result.
  destruct (_create_steps_from_result _ _ _ _ _) as [l0 |] eqn:E; [| discriminate].
  apply _create_steps_from_result_shape in E as [Hne Hlen]. simpl.
  destruct (input_history result).
  - by intros [= <-].
  - intros H. apply mapM_length in H.
    unfold len in *. rewrite H. split; [| exact Hlen].
    destruct l0; [done |]. destruct l; [discriminate | done].
Qed.

(** C8, as the code has it. For every interactive execution that ends with
    a non-zero exit code, when building the steps raises no exception and the
    captured output holds no waiting-for-input marker, [execute] returns the
    steps synthesized from the trace, one per traced line with source text
    and one per exception entry (or the fallback steps when the trace gives
    none), followed by one terminal error step numbered after them; the
    synthesized part is never empty. *)
Theorem failed_run_keeps_synthesized_steps
    (env : Executor.Env) (code : string) (result : ExecutionResult)
    (dst : option string) (synthesized : list ExecutionStepSchema) :
  is_interactive result = true ->
  exit_code result <> 0 ->
  Py.contains waiting_marker (stdout result) = false ->
  _create_steps_from_interactive_result env code result 1 dst = Return synthesized ->
  execute env code result dst
  = synthesized ++ _create_error_step code result (1 + len synthesized)
  /\ synthesized <> []
  /\ (0 < visible_count code (trace result) ->
      len synthesized = visible_count code (trace result)).
Proof.
  intros Hi Hx Hm Hs. split.
  - unfold execute, execute_body, waiting_signal_of.
    rewrite Hm, Hi, Hs. simpl.
    destruct (exit_code result =? 0) eqn:E; [apply Z.eqb_eq in E; contradiction |].
    reflexivity.
  - by apply _create_steps_from_interactive_result_shape in Hs.
Qed.

Lemma failed_run_keeps_synthesized_steps_witness :
  execute Samples.exec_env Samples.exit_code_1_code
    (Samples.child Samples.exit_code_1 "" []) (Some "stack")
  = Samples.exit_1_synthesized
    ++ _create_error_step Samples.exit_code_1_code
         (Samples.child Samples.exit_code_1 "" []) (1 + len Samples.exit_1_synthesized)
  /\ Samples.exit_1_synthesized <> []
  /\ (0 < visible_count Samples.exit_code_1_code
            (trace (Samples.child Samples.exit_code_1 "" [])) ->
      len Samples.exit_1_synthesized
      = visible_count Samples.exit_code_1_code
          (trace (Samples.child Samples.exit_code_1 "" []))).
Proof.
  apply failed_run_keeps_synthesized_steps.
  - reflexivity.
  - vm_compute. discriminate.
  - reflexivity.
  - vm_compute. reflexivity.
Defined.

(** C8, as stated, fails: a program that prints the waiting-for-input
    marker followed by a JSON list and then exits with code 1 has two traced
    lines, yet [execute] returns the single "Unexpected error" step. *)
Lemma partial_progress_dropped :
  let result := Samples.child Samples.marker "" [] in
  is_interactive result = true
  /\ exit_code result <> 0
  /\ visible_count Samples.marker_code (trace result) = 2
  /\ execute Samples.exec_env Samples.marker_code result (Some "stack")
     = [unexpected_error_step Samples.exec_env Samples.marker_code
          (Exn AttributeError "object has no attribute 'get'")].
Proof.
  vm_compute. repeat split; discriminate.
Qed.

End FailedRunFacts.

(** ** The input shim *)

Module WrapperFacts.
Import Trace Wrapper.

Lemma write_input_values text g : input_values (write text g) = input_values g.
Proof. reflexivity. Qed.

(** The shim raises exactly when every pre-supplied value has been
    consumed; it touches nothing but the captured output. *)
Lemma custom_input_exhausted prompt g :
  (length (input_values g) <= input_index g)%nat ->
  custom_input prompt g
  = (write prompt g, Raise (Exn (OtherException "Exception") no_more_input)).
Proof.
  intros H. unfold custom_input. simpl.
  rewrite (lookup_ge_None_2 _ _ H). reflexivity.
Qed.

Lemma custom_input_available prompt g :
  (input_index g < length (input_values g))%nat ->
  exists value g',
    input_values g !! input_index g = Some value
    /\ custom_input prompt g = (g', Return value)
    /\ input_index g' = S (input_index g)
    /\ input_values g' = input_values g.
Proof.
  intros H. apply lookup_lt_is_Some_2 in H as [value Hv].
  exists value. unfold custom_input. simpl. rewrite Hv.
  eexists. repeat split; reflexivity || exact Hv.
Qed.

Lemma update_last_line_entries f t :
  (forall e, t_event (f e) = t_event e) ->
  line_entries t -> line_entries (update_last f t).
Proof.
  intros Hf Ht. unfold update_last.
  destruct (rev t) as [| e r] eqn:E; [constructor |].
  assert (Hr : line_entries (rev (e :: r))).
  { rewrite <- E, rev_involutive. exact Ht. }
  simpl in *. unfold line_entries in *.
  apply Forall_app in Hr as [Hr He]. apply Forall_app. split; [exact Hr |].
  inversion He; subst. constructor; [by rewrite Hf | constructor].
Qed.

Lemma claim_output_line_entries g :
  line_entries (trace_data g) -> line_entries (claim_output g).
Proof.
  intros H. unfold claim_output. destruct (Py.is_empty _); [exact H |].
  by apply update_last_line_entries.
Qed.

Lemma trace_lines_line_entries ev g :
  line_entries (trace_data g) -> line_entries (trace_data (trace_lines ev g)).
Proof.
  intros H. unfold trace_lines. simpl. apply Forall_app. split.
  - apply update_last_line_entries; [done |]. by apply claim_output_line_entries.
  - by repeat constructor.
Qed.

(** A run that reaches a request with no value left, in a program that
    never handles the shim's exception, ends in the wrapper's
    [except Exception] with the message of the shim; the trace is the line
    entries so far followed by the exception entry. *)
Lemma run_exhausted format_exc p : forall g,
  exhausts p g = true ->
  never_handles p g = true ->
  line_entries (trace_data g) ->
  exists g' entries,
    run format_exc p g = (g', Caught no_more_input)
    /\ trace_data g' = entries ++ [exception_entry format_exc no_more_input]
    /\ line_entries entries.
Proof.
  induction p as [ | | | ev k IH | text k IH | prompt k IH handler]; intros g He Hn Hl;
    simpl in *; try discriminate.
  - apply IH; [done | done |]. by apply trace_lines_line_entries.
  - apply IH; done.
  - destruct handler; [discriminate |].
    destruct (custom_input prompt g) as [g1 [value | e]] eqn:Ec.
    + apply IH; [done | done |].
      unfold custom_input in Ec. destruct (_ !! _); inversion Ec; subst. exact Hl.
    + unfold custom_input in Ec. destruct (_ !! _); inversion Ec; subst.
      eexists _, _. split; [reflexivity |]. split; [reflexivity | exact Hl].
Qed.

End WrapperFacts.

(** ** Exhausted input, from the shim to the response *)

Module InputFacts.
Import Trace Wrapper Executor Controller ControllerFacts ExecutorFacts WrapperFacts.

Lemma bind_Return {A B} (a : A) (f : A -> outcome B) : bind (Return a) f = f a.
Proof. reflexivity. Qed.

Lemma get_set_ne {A} (k k' : string) (v : A) d :
  k <> k' -> Dict.get k' (Dict.set k v d) = Dict.get k' d.
Proof.
  intros Hne. induction d as [| [k0 v0] d IH]; simpl.
  - destruct (String.eqb_spec k' k); congruence.
  - destruct (String.eqb_spec k k0) as [-> | Hk]; simpl.
    + destruct (String.eqb_spec k' k0); congruence.
    + destruct (String.eqb_spec k' k0); [reflexivity | exact IH].
Qed.

Lemma step_error_get s :
  step_error s
  = match Dict.get "error" (state s) with
    | Some (JStr e) => if negb (Py.is_empty (Py.strip e)) then Some e else None
    | _ => None
    end.
Proof. unfold step_error. destruct (state s); reflexivity. Qed.

Lemma step_error_set s k v :
  k <> "error" ->
  step_error (with_state s (Dict.set k v (state s))) = step_error s.
Proof.
  intros Hk. rewrite !step_error_get. simpl. by rewrite get_set_ne.
Qed.

Lemma find_error_same_errors l l' :
  map step_error l = map step_error l' -> find_error l = find_error l'.
Proof.
  revert l'. induction l as [| s l IH]; intros [| s' l']; simpl; try discriminate.
  - reflexivity.
  - intros [= -> H]. rewrite (IH _ H). reflexivity.
Qed.

Lemma find_error_app_some l l' e :
  find_error l = Some e -> find_error (l ++ l') = Some e.
Proof.
  induction l as [| s l IH]; simpl; [discriminate |].
  destruct (step_error s); [done | exact IH].
Qed.

Lemma flush_errors st : map step_error (flush st) = map step_error (steps st).
Proof.
  unfold flush. destruct (Py.is_empty _); [reflexivity |].
  rewrite <- (rev_involutive (steps st)) at 2.
  destruct (rev (steps st)) as [| s r]; [reflexivity |].
  simpl. rewrite !map_app. simpl. by rewrite step_error_set.
Qed.

Lemma add_input_history_error history s s' :
  add_input_history history s = Return s' -> step_error s' = step_error s.
Proof.
  unfold add_input_history.
  destruct (Dict.get _ _) as [[ | | | | | | d] |]; intros [= <-]; try reflexivity.
  by apply step_error_set.
Qed.

Lemma mapM_add_input_history_errors history l : forall l',
  mapM (add_input_history history) l = Return l' ->
  map step_error l' = map step_error l.
Proof.
  induction l as [| s l IH]; intros l'; simpl.
  - by intros [= <-].
  - destruct (add_input_history history s) as [s' |] eqn:Es; [| discriminate].
    simpl. destruct (mapM _ l) as [l1 |]; [| discriminate].
    simpl. intros [= <-]. simpl. f_equal; [| by apply IH].
    by apply add_input_history_error in Es.
Qed.

(** The step of a traced line reports no error. *)
Lemma trace_step_body_no_error env code dst cm lines st ts st' :
  t_event ts = Some "line" ->
  Forall (fun s => step_error s = None) (steps st) ->
  trace_step_body env code dst cm lines st ts = Return st' ->
  Forall (fun s => step_error s = None) (steps st').
Proof.
  intros Hev Hst. unfold trace_step_body.
  case_bool_decide; [congruence |].
  destruct (t_line ts) as [line_no |]; [| discriminate].
  destruct (_ || _); [by intros [= <-] |].
  destruct (accumulate _ _ _) as [acc buffer].
  destruct (annotate _ _ _ _ _ _ _) as [an | e]; [| discriminate].
  simpl. intros [= <-]. simpl. apply Forall_app. split; [exact Hst |].
  constructor; [| constructor]. destruct cm; reflexivity.
Qed.

Lemma trace_loop_no_error env code dst cm lines t : forall st st',
  line_entries t ->
  Forall (fun s => step_error s = None) (steps st) ->
  trace_loop env code dst cm lines t st = Return st' ->
  Forall (fun s => step_error s = None) (steps st').
Proof.
  induction t as [| ts t IH]; intros st st' Ht Hst; simpl.
  - by intros [= <-].
  - inversion Ht; subst.
    destruct (trace_step_body _ _ _ _ _ st ts) as [st1 |] eqn:E; [| discriminate].
    simpl. apply IH; [done |]. eapply trace_step_body_no_error; eauto.
Qed.

Lemma trace_loop_app env code dst cm lines t1 t2 st :
  trace_loop env code dst cm lines (t1 ++ t2) st
  = bind (trace_loop env code dst cm lines t1 st)
         (trace_loop env code dst cm lines t2).
Proof.
  revert st. induction t1 as [| ts t1 IH]; intros st; simpl; [reflexivity |].
  destruct (trace_step_body _ _ _ _ _ st ts); simpl; [apply IH | reflexivity].
Qed.

Lemma _create_steps_from_result_trace env code result first dst :
  trace result <> [] ->
  _create_steps_from_result env code result first dst
  = bind (trace_loop env code dst (extract_class_metadata env code)
            (Py.split_lines code) (trace result)
            {| steps := []; step_number := first;
               accumulated_stdout := []; current_line_buffer := "" |})
      (fun st => match flush st with
                 | [] => Return (fallback_steps env code result first)
                 | l => Return l
                 end).
Proof.
  intros H. unfold _create_steps_from_result.
  destruct (trace result); [contradiction | reflexivity].
Qed.

(** The steps synthesized from a trace that ends in the exception entry of
    the shim report its message as their first error. *)
Lemma steps_report_no_more_input env code result first dst entries x l :
  trace result = entries ++ [x] ->
  line_entries entries ->
  t_event x = Some "exception" ->
  t_error x = Some no_more_input ->
  _create_steps_from_interactive_result env code result first dst = Return l ->
  find_error l = Some no_more_input.
Proof.
  intros Ht Hl Hev Herr.
  unfold _create_steps_from_interactive_result.
  rewrite _create_steps_from_result_trace
    by (rewrite Ht; destruct entries; discriminate).
  rewrite Ht, trace_loop_app.
  destruct (trace_loop _ _ _ _ _ entries _) as [st1 |] eqn:E1; [| discriminate].
  apply trace_loop_no_error in E1; [| exact Hl | constructor].
  simpl. unfold trace_step_body. rewrite bool_decide_eq_true_2 by exact Hev.
  simpl.
  match goal with |- context [flush ?st] =>
    pose proof (flush_errors st) as Hf; destruct (flush st) as [| s r] eqn:Ef end.
  { simpl in Hf. rewrite map_app in Hf. destruct (map step_error (steps st1)); discriminate. }
  simpl in Hf.
  assert (Hfind : find_error (s :: r) = Some no_more_input).
  { erewrite find_error_same_errors by exact Hf.
    rewrite find_error_app by (by apply find_error_all_none).
    unfold exception_step. rewrite Herr. reflexivity. }
  rewrite bind_Return.
  destruct (input_history result).
  - by intros [= <-].
  - intros H. apply mapM_add_input_history_errors in H.
    erewrite find_error_same_errors by exact H. exact Hfind.
Qed.

Lemma memory_deltas_app t1 : forall prev t2,
  exists prev', memory_deltas prev (t1 ++ t2)
                = memory_deltas prev t1 ++ memory_deltas prev' t2.
Proof.
  induction t1 as [| e t1 IH]; intros prev t2; simpl.
  - by exists prev.
  - destruct (IH (t_memory_usage e) t2) as [prev' ->]. by exists prev'.
Qed.

Lemma memory_deltas_line_entries t : forall prev,
  line_entries t -> line_entries (memory_deltas prev t).
Proof.
  induction t as [| e t IH]; intros prev H; simpl; [constructor |].
  inversion H; subst. constructor; [done | by apply IH].
Qed.

Lemma strip_nonblank c s : Py.is_space c = false -> Py.is_empty (Py.strip (String c s)) = false.
Proof.
  intros Hc. unfold Py.strip. simpl. rewrite Hc. simpl. rewrite Hc.
  by rewrite andb_false_r.
Qed.

Lemma step_error_unexpected env code e :
  step_error (unexpected_error_step env code e)
  = Some ("Unexpected error: " +:+ exn_msg e).
Proof.
  rewrite step_error_get. unfold unexpected_error_step. cbn [state].
  change (Dict.get "error" (("error", ?v) :: ?d)) with (Some v).
  cbv iota beta.
  change ("Unexpected error: " +:+ exn_msg e)
    with (String "U" ("nexpected error: " +:+ exn_msg e)).
  rewrite strip_nonblank by reflexivity. reflexivity.
Qed.

(** What [waiting_signal_of] leaves untouched. *)
Lemma waiting_signal_of_result env result w result' :
  waiting_signal_of env result = (w, result') ->
  interactive result' = interactive result /\ exit_code result' = exit_code result.
Proof.
  unfold waiting_signal_of. destruct (Py.contains _ _); intros [= <- <-]; by split.
Qed.

(** The steps [execute] returns for such a trace when the child ended with
    exit status 0. *)
Lemma execute_reports_error env code result dst entries x :
  interactive result = Some (entries ++ [x], input_history result) ->
  exit_code result = 0 ->
  line_entries entries ->
  t_event x = Some "exception" ->
  t_error x = Some no_more_input ->
  (exists e, find_error (execute env code result dst) = Some e)
  /\ (forall l, execute_body env code result dst = Return l ->
                find_error (execute env code result dst) = Some no_more_input).
Proof.
  intros Hi Hx Hl Hev Herr.
  assert (Hbody : forall l, execute_body env code result dst = Return l ->
                            find_error l = Some no_more_input).
  { intros l. unfold execute_body.
    destruct (waiting_signal_of env result) as [w result'] eqn:Ew.
    apply waiting_signal_of_result in Ew as [Hi' Hx'].
    assert (Hint : is_interactive result' = true)
      by (unfold is_interactive; rewrite Hi', Hi; reflexivity).
    assert (Htr : trace result' = entries ++ [x])
      by (unfold trace; rewrite Hi', Hi; reflexivity).
    rewrite Hint, Hx', Hx. simpl.
    destruct (_create_steps_from_interactive_result _ _ _ _ _) as [l0 |] eqn:E;
      [| discriminate].
    eapply steps_report_no_more_input in E; eauto.
    simpl. destruct w as [w |]; [| by intros [= <-]].
    destruct (truthy w); [| by intros [= <-]].
    destruct (waiting_step _ _ _ _); [| discriminate].
    simpl. intros [= <-]. by apply find_error_app_some. }
  unfold execute. destruct (execute_body env code result dst) as [l | e] eqn:E.
  - split; [exists no_more_input; by apply Hbody |]. intros l' [= <-]. by apply Hbody.
  - split; [| discriminate].
    eexists. cbn [find_error]. rewrite step_error_unexpected. reflexivity.
Qed.




End InputFacts.

(** ** The safe state serializer *)

Module SerializerFacts.
Import Serializer.

Section WithHeap.

Variable getsizeof : pyval -> Z.
Variable h : heap.

Abbreviation serialize := (serialize getsizeof h).
Abbreviation safe_serialize := (safe_serialize getsizeof h).

Lemma serialize_items_grows f items : forall seen vs seen',
  grows f -> serialize_items f items seen = (vs, seen') -> seen ⊆ seen'.
Proof.
  induction items as [| x items IH]; intros seen vs seen' Hf; simpl.
  - by intros [= _ <-].
  - destruct (f x seen) as [v s1] eqn:E1.
    destruct (serialize_items f items s1) as [vs1 s2] eqn:E2.
    intros [= _ <-]. etrans; [eapply Hf | eapply IH]; eauto.
Qed.

Lemma sum_sizes_grows f items : forall acc seen n seen',
  grows f -> sum_sizes f items acc seen = (n, seen') -> seen ⊆ seen'.
Proof.
  induction items as [| x items IH]; intros acc seen n seen' Hf; simpl.
  - by intros [= _ <-].
  - destruct (f x seen) as [v s1] eqn:E1.
    intros H. etrans; [eapply Hf | eapply IH]; eauto.
Qed.

Lemma serialize_entries_grows f items : forall seen d seen',
  grows f -> serialize_entries f items seen = (d, seen') -> seen ⊆ seen'.
Proof.
  induction items as [| [k x] items IH]; intros seen d seen' Hf; simpl.
  - by intros [= _ <-].
  - destruct k as [| p |]; try (by apply IH).
    destruct (f x seen) as [v s1] eqn:E1.
    destruct (serialize_entries f items s1) as [d1 s2] eqn:E2.
    intros [= _ <-]. etrans; [eapply Hf | eapply IH]; eauto.
Qed.

Lemma serialize_large_grows f items : forall serialized count seen d seen',
  grows f -> serialize_large f items serialized count seen = (d, seen') -> seen ⊆ seen'.
Proof.
  induction items as [| [k x] items IH]; intros serialized count seen d seen' Hf;
    cbn -[Nat.leb].
  - by intros [= _ <-].
  - destruct k as [| p |]; try (by apply IH).
    destruct (f x seen) as [v s1] eqn:E1.
    destruct (_ <=? _)%nat.
    + intros [= _ <-]. eapply Hf; eauto.
    + intros H. etrans; [eapply Hf | eapply IH]; eauto.
Qed.

Lemma sum_entry_sizes_grows f items : forall acc seen n seen',
  grows f -> sum_entry_sizes f items acc seen = (n, seen') -> seen ⊆ seen'.
Proof.
  induction items as [| [k x] items IH]; intros acc seen n seen' Hf; simpl.
  - by intros [= _ <-].
  - destruct (f k seen) as [v1 s1] eqn:E1.
    destruct (f x s1) as [v2 s2] eqn:E2.
    intros H. etrans; [eapply Hf; eauto |]. etrans; [eapply Hf | eapply IH]; eauto.
Qed.

Lemma serialize_attrs_grows f obj_dict : forall result seen d seen',
  grows f -> serialize_attrs f obj_dict result seen = (d, seen') -> seen ⊆ seen'.
Proof.
  induction obj_dict as [| [k x] obj_dict IH]; intros result seen d seen' Hf; simpl.
  - by intros [= _ <-].
  - destruct (Py.startswith "_" k); [by apply IH |].
    destruct (f x seen) as [v s1] eqn:E1.
    intros H. etrans; [eapply Hf | eapply IH]; eauto.
Qed.

Lemma serialize_sequence_grows f items seen v seen' :
  grows f -> serialize_sequence f items seen = (v, seen') -> seen ⊆ seen'.
Proof.
  intros Hf. unfold serialize_sequence.
  destruct (50 <? length items)%nat.
  - destruct (serialize_items f (take 50 items) seen) as [vs s1] eqn:E.
    intros [= _ <-]. eapply serialize_items_grows; eauto.
  - destruct (serialize_items f items seen) as [vs s1] eqn:E.
    intros [= _ <-]. eapply serialize_items_grows; eauto.
Qed.

Lemma serialize_object_grows f i o return_size seen v seen' :
  (forall b, grows (f b)) ->
  serialize_object getsizeof f i o return_size seen = (v, seen') -> seen ⊆ seen'.
Proof.
  intros Hf. unfold serialize_object.
  destruct o as [items | items | items | items | t [[dict_id obj_dict] |] str];
    destruct return_size;
    repeat match goal with
      | |- (let '(_, _) := ?x in _) = _ -> _ => destruct x eqn:?
      | |- (if ?c then _ else _) = _ -> _ => destruct c
      end;
    intros Hres; try (injection Hres as _ <-);
    eauto using sum_sizes_grows, serialize_sequence_grows, sum_entry_sizes_grows,
      serialize_large_grows, serialize_entries_grows, serialize_attrs_grows;
    try reflexivity.
  eapply Hf; eauto.
Qed.

(** [_seen_ids] only grows during a call. *)
Lemma serialize_grows levels : forall return_size, grows (serialize levels return_size).
Proof.
  induction levels as [| levels IH]; intros return_size obj seen v seen'; simpl.
  - by intros [= _ <-].
  - destruct obj as [| p | i]; try (by intros [= _ <-]).
    case_bool_decide as Hseen; [by intros [= _ <-] |].
    intros Hobj. apply serialize_object_grows in Hobj; [| exact IH].
    set_solver.
Qed.

Lemma serialize_object_records f i o return_size seen v seen' :
  (forall b, grows (f b)) ->
  serialize_object getsizeof f i o return_size seen = (v, seen') ->
  forall j, j ∈ seen -> j ∈ seen'.
Proof.
  intros Hf H j Hj. apply serialize_object_grows in H; [| exact Hf]. set_solver.
Qed.

(** An object met again while it is in [_seen_ids] is not expanded: the
    call returns its marker and leaves [_seen_ids] as it was. *)
Lemma seen_object_marker (i : N) (depth max_depth : nat) (seen : gset N) :
  (depth <= max_depth)%nat ->
  i ∈ seen ->
  safe_serialize (VRef i) depth max_depth false seen = (SStr (seen_marker (h i)), seen).
Proof.
  intros Hd Hi. unfold Serializer.safe_serialize.
  destruct (S max_depth - depth)%nat as [| levels] eqn:E; [lia |].
  simpl. rewrite bool_decide_eq_true_2 by exact Hi. reflexivity.
Qed.

(** Past the depth cap every value, seen or not, is the depth marker. *)
Lemma beyond_max_depth (obj : pyval) (depth max_depth : nat) (seen : gset N) :
  (max_depth < depth)%nat ->
  safe_serialize obj depth max_depth false seen = (SStr "<max depth exceeded>", seen).
Proof.
  intros Hd. unfold Serializer.safe_serialize.
  replace (S max_depth - depth)%nat with 0%nat by lia. reflexivity.
Qed.

(** The marker of a seen object: the type name, followed in parentheses by
    the first scalar among its attributes data, val, value, id, name, key. *)
Lemma seen_marker_instance t dict_id obj_dict str :
  seen_marker (OInstance t (Some (dict_id, obj_dict)) str)
  = match first_scalar key_attributes obj_dict with
    | Some p => t +:+ "(" +:+ format_prim p +:+ ")"
    | None => t
    end.
Proof. reflexivity. Qed.

Lemma first_scalar_some keys obj_dict p :
  first_scalar keys obj_dict = Some p ->
  exists key, key ∈ keys /\ Dict.get key obj_dict = Some (VPrim p).
Proof.
  induction keys as [| key keys IH]; simpl; [discriminate |].
  destruct (Dict.get key obj_dict) as [[| q |] |] eqn:E;
    try (intros H; apply IH in H as (k & Hk & Hg); exists k; split; [by right | done]).
  intros [= ->]. exists key. split; [by left | done].
Qed.

Lemma first_scalar_none keys obj_dict :
  first_scalar keys obj_dict = None ->
  forall key p, key ∈ keys -> Dict.get key obj_dict <> Some (VPrim p).
Proof.
  induction keys as [| k keys IH]; simpl; intros H key p Hin.
  - by apply elem_of_nil in Hin.
  - apply elem_of_cons in Hin as [-> | Hin].
    + destruct (Dict.get k obj_dict) as [[| q |] |]; congruence.
    + destruct (Dict.get k obj_dict) as [[| q |] |]; try discriminate; by apply IH.
Qed.

(** A first call on an object records its identity; [_seen_ids] is not
    cleared when the call returns. *)
Lemma first_call_records (i : N) (depth max_depth : nat) (return_size : bool)
    (seen : gset N) v seen' :
  (depth <= max_depth)%nat ->
  Serializer.safe_serialize getsizeof h (VRef i) depth max_depth return_size seen
  = (v, seen') ->
  i ∈ seen'.
Proof.
  intros Hd. unfold Serializer.safe_serialize.
  destruct (S max_depth - depth)%nat as [| levels] eqn:E; [lia |].
  simpl. case_bool_decide as Hi; [by intros [= _ <-] |].
  intros Hobj. eapply serialize_object_records in Hobj; eauto using serialize_grows.
  set_solver.
Qed.

End WithHeap.







End SerializerFacts.

(** ** The behavior classifier *)

Module BehaviorFacts.
Import Ast BehaviorAnalyzer.

Lemma node_ind_nested (P : node -> Prop) :
  (forall c a kids, Forall (fun p => P p.2) kids -> P (Node c a kids)) ->
  forall n, P n.
Proof.
  intros H. fix IH 1. intros [c a kids]. apply H.
  induction kids as [| [t k] kids IHk]; constructor; [apply IH | exact IHk].
Qed.

Lemma same_method_refl b : same_method b b.
Proof. by repeat split. Qed.

Lemma same_method_trans b1 b2 b3 :
  same_method b1 b2 -> same_method b2 b3 -> same_method b1 b3.
Proof. intros (?&?&?) (?&?&?). repeat split; congruence. Qed.

Lemma same_method_set f b : same_method b (set f b).
Proof. by repeat split. Qed.

Lemma same_method_set_if c f b : same_method b (set_if c f b).
Proof. destruct c; [apply same_method_set | apply same_method_refl]. Qed.

Create HintDb behavior.
#[local] Hint Resolve same_method_refl same_method_set same_method_set_if : behavior.

Ltac same_step :=
  repeat first
    [ apply same_method_refl
    | eapply same_method_trans; [| apply same_method_set]
    | eapply same_method_trans; [| apply same_method_set_if] ].

Lemma _analyze_assignment_same stmt b : same_method b (_analyze_assignment stmt b).
Proof.
  unfold _analyze_assignment.
  generalize (child_list stmt "targets"). intros targets. revert b.
  induction targets as [| target targets IH]; intros b; simpl;
    [apply same_method_refl |].
  eapply same_method_trans; [| apply IH].
  repeat match goal with
         | |- context [match ?x with _ => _ end] => destruct x
         end; auto with behavior.
Qed.

Lemma analyze_call_same call b : same_method b (analyze_call call b).
Proof.
  unfold analyze_call.
  repeat match goal with
         | |- context [match ?x with _ => _ end] => destruct x
         end; same_step.
Qed.

Lemma analyze_return_same stmt b b' :
  analyze_return stmt b = Return b' -> same_method b b'.
Proof.
  unfold analyze_return.
  repeat match goal with
         | |- context [match ?x with _ => _ end] => destruct x
         end; try discriminate; intros [= <-]; same_step.
Qed.

Lemma walk_field_same f tag l :
  Forall (fun p => forall b b', f p.2 b = Return b' -> same_method b b') l ->
  forall b b', walk_field f tag l b = Return b' -> same_method b b'.
Proof.
  induction 1 as [| [t s] l Hs _ IH]; intros b b'; simpl.
  - intros [= <-]. apply same_method_refl.
  - destruct (String.eqb t tag); [| apply IH].
    destruct (f s b) as [b1 |] eqn:E; [| discriminate].
    simpl. intros H. eapply same_method_trans; [eapply Hs | eapply IH]; eauto.
Qed.

(** The analysis of a statement sets flags and nothing else. *)
Lemma analyze_statement_same : forall stmt b b',
  analyze_statement stmt b = Return b' -> same_method b b'.
Proof.
  induction stmt as [c a kids IH] using node_ind_nested. intros b b'.
  cbn [analyze_statement].
  destruct (String.eqb c "While" || String.eqb c "For").
  { destruct (String.eqb c "While").
    - destruct (_is_tail_finding_loop _) as [t |]; [| discriminate].
      simpl. intros H. apply (walk_field_same _ _ _ IH) in H.
      eapply same_method_trans; [| exact H]. same_step.
    - simpl. intros H. apply (walk_field_same _ _ _ IH) in H.
      eapply same_method_trans; [| exact H]. same_step. }
  destruct (String.eqb c "If").
  { destruct (walk_field _ "body" kids _) as [b1 |] eqn:E; [| discriminate].
    simpl. intros H.
    apply (walk_field_same _ _ _ IH) in E. apply (walk_field_same _ _ _ IH) in H.
    eapply same_method_trans; [| exact H].
    eapply same_method_trans; [| exact E]. same_step. }
  destruct (String.eqb c "Assign"); [intros [= <-]; apply _analyze_assignment_same |].
  destruct (_ && _).
  { destruct (child _ _); intros [= <-];
      [apply analyze_call_same | apply same_method_refl]. }
  destruct (String.eqb c "Return"); [apply analyze_return_same |].
  intros [= <-]. apply same_method_refl.
Qed.

Lemma _analyze_statements_same statements : forall b b',
  _analyze_statements statements b = Return b' -> same_method b b'.
Proof.
  induction statements as [| stmt rest IH]; intros b b'; simpl.
  - intros [= <-]. apply same_method_refl.
  - destruct (analyze_statement stmt b) as [b1 |] eqn:E; [| discriminate].
    simpl. intros H. eapply same_method_trans;
      [eapply analyze_statement_same | eapply IH]; eauto.
Qed.

Lemma method_name_of name params body :
  str_field (FunctionDef name params body) "name" = Some name.
Proof. reflexivity. Qed.

(** The classifier on a dictionary carrying the initializer's hints. *)
Lemma classify_init b :
  is_init (method_name_hints b) = true -> _classify_behavior_by_logic b = "constructor".
Proof. intros H. unfold _classify_behavior_by_logic. by rewrite H. Qed.

(** The classifier on a dictionary where [uses_append] is set. *)
Lemma classify_append b :
  is_init (method_name_hints b) = false -> get b uses_append = true ->
  _classify_behavior_by_logic b = "push".
Proof. intros H1 H2. unfold _classify_behavior_by_logic. by rewrite H1, H2. Qed.

Lemma is_init_name method_name :
  is_init (_get_method_name_hints method_name) = String.eqb method_name "__init__".
Proof. reflexivity. Qed.

Lemma child_list_tagged tag (l : list node) :
  map snd (filter (fun p => String.eqb p.1 tag = true) (map (pair tag) l)) = l.
Proof.
  induction l as [| x l IH]; [reflexivity |].
  cbn [map]. rewrite filter_cons_True by (cbn; apply String.eqb_refl).
  cbn [map snd]. by rewrite IH.
Qed.

Lemma child_list_body name params body :
  child_list (FunctionDef name params body) "body" = body.
Proof.
  unfold child_list, FunctionDef, children.
  rewrite filter_cons_False by (cbn; discriminate).
  apply child_list_tagged.
Qed.

(** C7. The classifier returns ["constructor"] for every method named
    [__init__], whatever evidence its body gives; and for every other method
    whose body is one call of [append] on an attribute it returns ["push"],
    whatever the method is called, so renaming the method leaves the tag
    unchanged. *)
Theorem constructor_and_append_classification :
  (forall b, is_init (method_name_hints b) = true ->
             _classify_behavior_by_logic b = "constructor")
  /\ (forall params body b,
        _analyze_method_behavior_from_ast (FunctionDef "__init__" params body) = Return b ->
        behavior_type b = "constructor")
  /\ (forall method_name params receiver args,
        method_name <> "__init__" ->
        exists b,
          _analyze_method_behavior_from_ast
            (FunctionDef method_name params
               [Expr (Call (Attribute receiver "append") args)]) = Return b
          /\ behavior_type b = "push")
  /\ (forall name1 name2 params receiver args,
        name1 <> "__init__" -> name2 <> "__init__" ->
        behavior_type <$> Pipeline.returned
          (_analyze_method_behavior_from_ast
             (FunctionDef name1 params [Expr (Call (Attribute receiver "append") args)]))
        = behavior_type <$> Pipeline.returned
            (_analyze_method_behavior_from_ast
               (FunctionDef name2 params [Expr (Call (Attribute receiver "append") args)]))).
Proof.
  assert (Happend : forall method_name params receiver args,
             method_name <> "__init__" ->
             exists b,
               _analyze_method_behavior_from_ast
                 (FunctionDef method_name params
                    [Expr (Call (Attribute receiver "append") args)]) = Return b
               /\ behavior_type b = "push").
  { intros method_name params receiver args Hne.
    unfold _analyze_method_behavior_from_ast.
    rewrite method_name_of, child_list_body. cbn [default from_option id].
    eexists. split; [reflexivity |]. cbn [behavior_type with_behavior_type].
    apply classify_append; [| reflexivity].
    cbn. by apply String.eqb_neq. }
  split; [exact classify_init |]. split; [| split; [exact Happend |]].
  - intros params body b. unfold _analyze_method_behavior_from_ast.
    rewrite method_name_of. cbn [default from_option id].
    destruct (_analyze_statements _ _) as [b1 |] eqn:E; [| discriminate].
    simpl. intros [= <-]. simpl.
    apply _analyze_statements_same in E as (_ & _ & Hh).
    apply classify_init. rewrite Hh. reflexivity.
  - intros name1 name2 params receiver args H1 H2.
    destruct (Happend name1 params receiver args H1) as (b1 & E1 & T1).
    destruct (Happend name2 params receiver args H2) as (b2 & E2 & T2).
    rewrite E1, E2. simpl. by rewrite T1, T2.
Qed.

Lemma constructor_and_append_classification_witness :
  behavior_type <$> Pipeline.returned
    (_analyze_method_behavior_from_ast
       (FunctionDef "push" ["self"; "data"] [Samples.append_call]))
  = behavior_type <$> Pipeline.returned
      (_analyze_method_behavior_from_ast
         (FunctionDef "zzz" ["self"; "data"] [Samples.append_call])).
Proof.
  destruct constructor_and_append_classification as (_ & _ & _ & H).
  apply H; discriminate.
Defined.

(** C2. A method named [insert_last] whose body creates a node, walks the
    chain in a loop, assigns a [next] pointer and leaves [head] alone is
    tagged ["insert"], by the name hint of lines 402-403, and not
    ["insert_last"]; the same body under the name [zzz] is tagged
    ["insert_last"]. The name is consulted before the linked-list evidence,
    not as a fallback. *)
Theorem insert_at_end_classified_by_name :
  (exists b,
      _analyze_method_behavior_from_ast
        (FunctionDef "insert_last" ["self"; "data"] Samples.insert_at_end_body) = Return b
      /\ get b creates_new_node = true
      /\ get b has_loop = true
      /\ get b modifies_next_pointers = true
      /\ get b modifies_head = false
      /\ behavior_type b = "insert")
  /\ (exists b,
        _analyze_method_behavior_from_ast
          (FunctionDef "zzz" ["self"; "data"] Samples.insert_at_end_body) = Return b
        /\ behavior_type b = "insert_last").
Proof.
  split; eexists; (split; [vm_compute; reflexivity |]); repeat split.
Qed.

(** Whenever no stack or queue rule applies, a name holding insert, add,
    push or append decides the tag, whatever the linked-list evidence. *)
Lemma insert_hint_precedes_structure b :
  is_init (method_name_hints b) = false ->
  is_getter (method_name_hints b) = false ->
  is_insert (method_name_hints b) = true ->
  Forall (fun f => get b f = false)
         [uses_append; uses_pop; uses_peek; has_print; uses_pop_0; uses_popleft;
          uses_peek_front; uses_peek_back] ->
  _classify_behavior_by_logic b = "insert".
Proof.
  intros Hi Hg Hins Hf.
  repeat (apply Forall_cons in Hf as [? Hf]).
  unfold _classify_behavior_by_logic.
  repeat match goal with H : _ = _ |- _ => rewrite H end. reflexivity.
Qed.

End BehaviorFacts.

(** ** The complexity analyzer *)

Module ComplexityFacts.
Import Ast ComplexityAnalyzer.

(** The ranks follow the order O(1) < O(log n) < O(n) < O(n log n) < O(n²)
    < O(n³) < O(2^n) < O(n!). *)
Lemma rank_order :
  rank_of "O(1)" < rank_of "O(log n)" /\ rank_of "O(log n)" < rank_of "O(n)"
  /\ rank_of "O(n)" < rank_of "O(n log n)" /\ rank_of "O(n log n)" < rank_of "O(n²)"
  /\ rank_of "O(n²)" < rank_of "O(n³)" /\ rank_of "O(n³)" < rank_of "O(2^n)"
  /\ rank_of "O(2^n)" < rank_of "O(n!)".
Proof. vm_compute. repeat split. Qed.

(** C5. The per-function estimate counts a loop whose bound is a literal:
    the function whose only loop is [for i in range(5)] has nesting depth 1
    and is estimated O(n), rank 3, although [_is_constant_loop] holds of the
    loop; a constant loop nested in a linear one makes the function O(n²),
    while the whole-program pass, which consults [_is_constant_loop], gives
    depth 1 and O(n) for the same code. *)
Theorem per_function_estimate_counts_constant_loops :
  _is_constant_loop Samples.range_5_loop = true
  /\ fc_max_nesting (_analyze_function Samples.constant_loop_function) = 1
  /\ time_complexity (_analyze_function Samples.constant_loop_function) = "O(n)"
  /\ time_complexity_rank (_analyze_function Samples.constant_loop_function) = 3
  /\ time_complexity (_analyze_function Samples.with_constant_inner) = "O(n²)"
  /\ r_time_complexity (analyze (Some (Module_ [Samples.with_constant_inner]))) = "O(n)"
  /\ a_max_nesting <$> r_analysis (analyze (Some (Module_ [Samples.with_constant_inner])))
     = Some 1.
Proof. vm_compute. repeat split. Qed.

End ComplexityFacts.


(** ** Thai message templates *)

Module MessagesFacts.
Import MessagesTh.

(** Every template of [MESSAGES] has plain replacement fields only, the
    fragment [format] covers. *)
Lemma templates_plain : forallb plain_template (map snd MESSAGES) = true.
Proof. vm_compute. reflexivity. Qed.

(** X1. [get_stack_message] raises [KeyError] for each of its five named
    operations, whatever [data] is: the templates [stack_push], [stack_pop],
    [stack_peek], [stack_is_empty] and [stack_size] hold a field ([size],
    [data] or [result]) that the call does not pass. *)
Theorem get_stack_message_named_operations_raise (operation_type : string)
    (data : option string) :
  operation_type ∈ ["push"; "pop"; "peek"; "is_empty"; "size"] ->
  exists key, key ∈ ["size"; "data"; "result"]
    /\ get_stack_message operation_type data = Raise (Exn KeyError key).
Proof.
  intros Hop.
  repeat (apply elem_of_cons in Hop as [-> | Hop]);
    [ exists "size" | exists "data" | exists "data" | exists "result" | exists "size" | ];
    try (split; [set_solver | vm_compute; reflexivity]).
  apply elem_of_nil in Hop as [].
Qed.

Lemma get_stack_message_named_operations_raise_witness :
  exists key, key ∈ ["size"; "data"; "result"]
    /\ get_stack_message "push" (Some "5") = Raise (Exn KeyError key).
Proof.
  apply (get_stack_message_named_operations_raise "push" (Some "5")).
  apply list_elem_of_here.
Defined.

End MessagesFacts.

(** ** The array stack and the array queue *)

Module ArrayFacts.
Import ArrayInstance.

Section WithPython.

Variable py_str : jval -> string.
Variable int_ge_float : Z -> string -> bool.

Lemma is_full_room (i : instance) (n : Z) :
  has_room i n -> 0 < n -> is_full int_ge_float i = Return false.
Proof.
  unfold is_full. intros [-> | (m & -> & Hm)] Hn; [reflexivity |].
  cbn. f_equal. apply Z.leb_gt. lia.
Qed.

Lemma is_full_reached (i : instance) (m : Z) :
  max_size i = JInt m -> m <= len (data i) -> is_full int_ge_float i = Return true.
Proof.
  unfold is_full. intros -> Hm. cbn. f_equal. apply Z.leb_le. lia.
Qed.

Lemma pop_last_app {A} (l : list A) (x : A) : pop_last (l ++ [x]) = Some (l, x).
Proof. unfold pop_last. rewrite rev_app_distr. cbn. rewrite rev_involutive. reflexivity. Qed.

Lemma pop_last_nil {A} : pop_last (@nil A) = None.
Proof. reflexivity. Qed.

Lemma traverse_empty_message :
  MessagesTh.get_message "traverse_empty" [] = Return "linked list ว่างเปล่า".
Proof. vm_compute. reflexivity. Qed.

Lemma len_snoc {A} (l : list A) (x : A) : len (l ++ [x]) = len l + 1.
Proof. unfold len. rewrite length_app. cbn. lia. Qed.

End WithPython.

End ArrayFacts.

Module StackFacts.
Import ArrayInstance StackNodeManager ArrayFacts.

Section WithPython.

Variable py_str : jval -> string.
Variable int_ge_float : Z -> string -> bool.

Abbreviation stack_push := (StackNodeManager.stack_push py_str int_ge_float).
Abbreviation stack_pop := (StackNodeManager.stack_pop py_str).
Abbreviation stack_top := (StackNodeManager.stack_top py_str).
Abbreviation push_all := (StackNodeManager.push_all py_str int_ge_float).
Abbreviation pop_n := (StackNodeManager.pop_n py_str).

Lemma stack_push_room (i : instance) (v : jval) (name : string) :
  has_room i 1 ->
  exists d,
    stack_push i v name
    = (with_data (data i ++ [v]) (history_entry "push" v (data i) (data i ++ [v])) i,
       Return d)
    /\ returned_value (Return d) = Some v.
Proof.
  intros Hroom. unfold StackNodeManager.stack_push.
  rewrite (is_full_room _ i 1 Hroom) by lia.
  eexists. split; reflexivity.
Qed.

Lemma push_all_appends (values : list jval) : forall (i : instance) (name : string),
  has_room i (len values) ->
  exists i', push_all i values name = Some i'
    /\ data i' = data i ++ values
    /\ attributes i' = attributes i
    /\ len (history i') = len (history i) + len values.
Proof.
  induction values as [| v rest IH]; intros i name Hroom.
  - exists i. cbn. rewrite app_nil_r. unfold len. cbn. repeat split; lia.
  - assert (Hlen : len (v :: rest) = 1 + len rest) by (unfold len; cbn; lia).
    assert (H1 : has_room i 1).
    { destruct Hroom as [H | (m & H & Hm)]; [left; exact H | right; exists m].
      split; [exact H |]. unfold len in *. lia. }
    destruct (stack_push_room i v name H1) as (d & Hpush & Hret).
    cbn [StackNodeManager.push_all]. rewrite Hpush, Hret.
    set (i1 := with_data _ _ i).
    assert (Hroom1 : has_room i1 (len rest)).
    { destruct Hroom as [H | (m & H & Hm)]; [left; exact H | right; exists m].
      split; [exact H |]. subst i1. cbn. rewrite len_snoc. lia. }
    destruct (IH i1 name Hroom1) as (i' & Hall & Hdata & Hattr & Hhist).
    exists i'. split; [exact Hall |]. subst i1. cbn in *.
    rewrite Hdata, <- app_assoc. cbn. repeat split; [exact Hattr |].
    rewrite Hhist, len_snoc. lia.
Qed.

Lemma stack_pop_last (i : instance) (d : list jval) (v : jval) (name : string) :
  data i = d ++ [v] ->
  exists r,
    stack_pop i name
    = (with_data d (history_entry "pop" v (data i) d) i, Return r)
    /\ returned_value (Return r) = Some v.
Proof.
  intros Hd. unfold StackNodeManager.stack_pop. rewrite Hd, pop_last_app.
  eexists. split; reflexivity.
Qed.

Lemma pop_n_reverses (values : list jval) : forall (i : instance) (d : list jval) (name : string),
  data i = d ++ values ->
  exists i', pop_n i (length values) name = Some (i', rev values)
    /\ data i' = d
    /\ attributes i' = attributes i
    /\ len (history i') = len (history i) + len values.
Proof.
  induction values as [| v rest IH] using rev_ind; intros i d name Hd.
  - exists i. cbn. rewrite app_nil_r in Hd. unfold len. cbn. repeat split; [exact Hd | lia].
  - rewrite length_app, Nat.add_comm. cbn [length Nat.add].
    rewrite app_assoc in Hd.
    destruct (stack_pop_last i (d ++ rest) v name Hd) as (r & Hpop & Hret).
    cbn [StackNodeManager.pop_n]. rewrite Hpop, Hret.
    set (i1 := with_data _ _ i).
    destruct (IH i1 d name eq_refl) as (i' & Hn & Hdata & Hattr & Hhist).
    rewrite Hn. exists i'. rewrite rev_app_distr. cbn.
    repeat split; [exact Hdata | exact Hattr |].
    rewrite Hhist. subst i1. cbn. rewrite !len_snoc. lia.
Qed.

(** X2. Last in, first out. On a stack with room for them, pushing the
    values of a list one after the other and then popping as many times
    returns the values in reverse order and leaves the data as it was before
    the first push; each of the calls has added one entry to the history. *)
Theorem stack_is_last_in_first_out (i : instance) (values : list jval) (name : string) :
  has_room i (len values) ->
  exists i' i'',
    push_all i values name = Some i'
    /\ data i' = data i ++ values
    /\ pop_n i' (length values) name = Some (i'', rev values)
    /\ data i'' = data i
    /\ len (history i'') = len (history i) + 2 * len values.
Proof.
  intros Hroom.
  destruct (push_all_appends values i name Hroom) as (i' & Hpush & Hdata & _ & Hh).
  destruct (pop_n_reverses values i' (data i) name Hdata) as (i'' & Hpop & Hd & _ & Hh').
  exists i', i''. repeat split; try assumption. lia.
Qed.

(** X3. Overflow. When [max_size] is an [int] that the length of the data has
    reached, [stack_push] raises [KeyError('size')] out of
    [get_stack_message] instead of returning its overflow report; the
    instance is left as it was. *)
Theorem stack_push_on_full_stack_raises (i : instance) (value : jval) (name : string)
    (m : Z) :
  max_size i = JInt m -> m <= len (data i) ->
  stack_push i value name = (i, Raise (Exn MessagesTh.KeyError "size")).
Proof.
  intros Hmax Hm. unfold StackNodeManager.stack_push.
  rewrite (is_full_reached _ i m Hmax Hm). reflexivity.
Qed.

(** X4. An empty stack. [stack_pop] reports ["underflow"] and [stack_top]
    reports ["empty_stack"], both with the value [None]; the instance,
    history included, is left as it was. *)
Theorem empty_stack_reports_errors (i : instance) (name : string) :
  data i = [] ->
  (exists d, stack_pop i name = (i, Return d)
     /\ Dict.get "error" d = Some (JStr "underflow")
     /\ Dict.get "value" d = Some JNone)
  /\ (exists d, stack_top i name = Return d
       /\ Dict.get "error" d = Some (JStr "empty_stack")
       /\ Dict.get "value" d = Some JNone).
Proof.
  intros Hd. unfold StackNodeManager.stack_pop, StackNodeManager.stack_top.
  rewrite Hd, pop_last_nil, traverse_empty_message. cbn [last bind].
  split; eexists; (split; [reflexivity | split; reflexivity]).
Qed.

End WithPython.

Lemma stack_is_last_in_first_out_witness :
  let i := sample_instance "ArrayStack" [JInt 1] (Some 3) in
  let values := [JInt 2; JStr "three"] in
  has_room i (len values)
  /\ exists i' i'',
      StackNodeManager.push_all sample_str sample_int_ge_float i values "s" = Some i'
      /\ data i' = data i ++ values
      /\ StackNodeManager.pop_n sample_str i' (length values) "s" = Some (i'', rev values)
      /\ data i'' = data i
      /\ len (history i'') = len (history i) + 2 * len values.
Proof.
  assert (H : has_room (sample_instance "ArrayStack" [JInt 1] (Some 3))
                (len [JInt 2; JStr "three"])).
  { right. exists 3. split; [reflexivity | vm_compute; discriminate]. }
  split; [exact H |].
  exact (stack_is_last_in_first_out sample_str sample_int_ge_float _ _ "s" H).
Defined.

Lemma stack_push_on_full_stack_raises_witness :
  let i := sample_instance "ArrayStack" [JInt 1; JInt 2] (Some 2) in
  (max_size i = JInt 2 /\ 2 <= len (data i))
  /\ StackNodeManager.stack_push sample_str sample_int_ge_float i (JInt 3) "s"
     = (i, Raise (Exn MessagesTh.KeyError "size")).
Proof.
  assert (H1 : max_size (sample_instance "ArrayStack" [JInt 1; JInt 2] (Some 2)) = JInt 2)
    by reflexivity.
  assert (H2 : 2 <= len (data (sample_instance "ArrayStack" [JInt 1; JInt 2] (Some 2))))
    by (vm_compute; discriminate).
  split; [split; assumption |].
  exact (stack_push_on_full_stack_raises sample_str sample_int_ge_float _ (JInt 3) "s" 2 H1 H2).
Defined.

Lemma empty_stack_reports_errors_witness :
  let i := sample_instance "ArrayStack" [] None in
  data i = []
  /\ (exists d, StackNodeManager.stack_pop sample_str i "s" = (i, Return d)
        /\ Dict.get "error" d = Some (JStr "underflow")
        /\ Dict.get "value" d = Some JNone)
  /\ (exists d, StackNodeManager.stack_top sample_str i "s" = Return d
        /\ Dict.get "error" d = Some (JStr "empty_stack")
        /\ Dict.get "value" d = Some JNone).
Proof.
  split; [reflexivity |].
  exact (empty_stack_reports_errors sample_str (sample_instance "ArrayStack" [] None) "s"
           eq_refl).
Defined.

End StackFacts.

Module QueueFacts.
Import ArrayInstance QueueNodeManager ArrayFacts.

Section WithPython.

Variable py_str : jval -> string.
Variable int_ge_float : Z -> string -> bool.

Abbreviation queue_enqueue := (QueueNodeManager.queue_enqueue py_str int_ge_float).
Abbreviation queue_dequeue := (QueueNodeManager.queue_dequeue py_str).
Abbreviation perform := (QueueNodeManager.perform py_str int_ge_float).
Abbreviation perform_all := (QueueNodeManager.perform_all py_str int_ge_float).

(** One call on a queue without [max_size]: it returns, what it dequeued
    followed by what is left is what was there followed by what it
    enqueued. *)
Lemma perform_unbounded (i : instance) (c : call) (name : string) :
  max_size i = JNone ->
  exists i' d,
    perform i c name = (i', Return d)
    /\ max_size i' = JNone
    /\ match c with
       | Dequeue => (if Dict.has "error" d then []
                     else [default JNone (Dict.get "value" d)]) ++ data i' = data i
       | Enqueue v => data i' = data i ++ [v]
       end.
Proof.
  intros Hmax. destruct c as [v |]; cbn [QueueNodeManager.perform].
  - unfold QueueNodeManager.queue_enqueue, is_full. rewrite Hmax.
    eexists _, _. split; [reflexivity |]. split; [exact Hmax | reflexivity].
  - unfold QueueNodeManager.queue_dequeue. destruct (data i) as [| x rest] eqn:Hd.
    + rewrite traverse_empty_message. cbn [bind].
      eexists _, _. split; [reflexivity |]. split; [exact Hmax |]. rewrite Hd. reflexivity.
    + eexists _, _. split; [reflexivity |]. split; [exact Hmax | reflexivity].
Qed.

(** X5. First in, first out. On a queue without [max_size], any sequence of
    [queue_enqueue] and [queue_dequeue] calls returns, and the values
    dequeued, in the order of the calls, followed by the data left in the
    queue are the data the queue started with followed by the values
    enqueued, in order. *)
Theorem queue_is_first_in_first_out (calls : list call) : forall (i : instance) (name : string),
  max_size i = JNone ->
  exists i' dequeued,
    perform_all i calls name = Some (i', dequeued)
    /\ dequeued ++ data i' = data i ++ enqueued calls.
Proof.
  induction calls as [| c rest IH]; intros i name Hmax.
  - exists i, []. cbn. rewrite app_nil_r. split; reflexivity.
  - destruct (perform_unbounded i c name Hmax) as (i1 & d & Hc & Hmax1 & Hdata).
    destruct (IH i1 name Hmax1) as (i' & vs & Hrest & Heq).
    cbn [QueueNodeManager.perform_all]. rewrite Hc, Hrest.
    eexists _, _. split; [reflexivity |].
    destruct c as [v |]; cbn [enqueued omap].
    + rewrite Heq, Hdata, <- app_assoc. reflexivity.
    + rewrite <- Hdata. destruct (Dict.has "error" d); cbn [app].
      * exact Heq.
      * rewrite Heq. reflexivity.
Qed.

(** One call on a bounded queue. *)
Lemma perform_bounded (i : instance) (c : call) (name : string) (m : Z) :
  max_size i = JInt m -> len (data i) <= m ->
  exists i' d,
    perform i c name = (i', Return d)
    /\ max_size i' = JInt m /\ len (data i') <= m
    /\ (c <> Dequeue -> m <= len (data i) ->
        i' = i /\ Dict.get "error" d = Some (JStr "overflow")).
Proof.
  intros Hmax Hlen. destruct c as [v |]; cbn [QueueNodeManager.perform].
  - unfold QueueNodeManager.queue_enqueue, is_full. rewrite Hmax. cbn [int_ge bind].
    destruct (m <=? len (data i)) eqn:Hfull.
    + eexists _, _. split; [reflexivity |]. repeat split; try assumption.
    + apply Z.leb_gt in Hfull.
      eexists _, _. split; [reflexivity |]. cbn. rewrite len_snoc.
      repeat split; try assumption; lia.
  - unfold QueueNodeManager.queue_dequeue. destruct (data i) as [| x rest] eqn:Hd.
    + rewrite traverse_empty_message. cbn [bind].
      eexists _, _. split; [reflexivity |]. rewrite Hd.
      repeat split; try assumption; congruence.
    + eexists _, _. split; [reflexivity |]. cbn.
      assert (len rest <= len (x :: rest)) by (unfold len; cbn; lia).
      repeat split; try assumption; try lia; congruence.
Qed.

(** X6. A bounded queue. When [max_size] is an [int] that the length of the
    data does not exceed, no sequence of calls raises or makes the data
    longer than [max_size]; on a full queue [queue_enqueue] reports
    ["overflow"] and leaves the instance as it was. *)
Theorem bounded_queue_stays_within_max_size (i : instance) (m : Z) (name : string) :
  max_size i = JInt m -> len (data i) <= m ->
  (forall calls, exists i' dequeued,
      perform_all i calls name = Some (i', dequeued) /\ len (data i') <= m)
  /\ (forall v, m <= len (data i) ->
      exists d, queue_enqueue i v name = (i, Return d)
        /\ Dict.get "error" d = Some (JStr "overflow")).
Proof.
  intros Hmax Hlen. split.
  - intros calls. revert i Hmax Hlen.
    induction calls as [| c rest IH]; intros i Hmax Hlen.
    + exists i, []. split; [reflexivity | exact Hlen].
    + destruct (perform_bounded i c name m Hmax Hlen) as (i1 & d & Hc & Hmax1 & Hlen1 & _).
      destruct (IH i1 Hmax1 Hlen1) as (i' & vs & Hrest & Hle).
      cbn [QueueNodeManager.perform_all]. rewrite Hc, Hrest.
      eexists _, _. split; [reflexivity | exact Hle].
  - intros v Hfull.
    destruct (perform_bounded i (Enqueue v) name m Hmax Hlen) as (i1 & d & Hc & _ & _ & H).
    destruct H as [-> Herr]; [discriminate | exact Hfull |].
    exists d. split; [exact Hc | exact Herr].
Qed.

End WithPython.

Lemma queue_is_first_in_first_out_witness :
  let i := sample_instance "ArrayQueue" [JInt 1] None in
  let calls := [Enqueue (JInt 2); Dequeue; Enqueue (JInt 3); Dequeue] in
  max_size i = JNone
  /\ exists i' dequeued,
      QueueNodeManager.perform_all sample_str sample_int_ge_float i calls "q"
      = Some (i', dequeued)
      /\ dequeued ++ data i' = data i ++ enqueued calls.
Proof.
  split; [reflexivity |].
  exact (queue_is_first_in_first_out sample_str sample_int_ge_float
           [Enqueue (JInt 2); Dequeue; Enqueue (JInt 3); Dequeue]
           (sample_instance "ArrayQueue" [JInt 1] None) "q" eq_refl).
Defined.

Lemma bounded_queue_stays_within_max_size_witness :
  let i := sample_instance "ArrayQueue" [JInt 1; JInt 2] (Some 2) in
  (max_size i = JInt 2 /\ len (data i) <= 2)
  /\ (forall calls, exists i' dequeued,
        QueueNodeManager.perform_all sample_str sample_int_ge_float i calls "q"
        = Some (i', dequeued) /\ len (data i') <= 2)
  /\ (forall v, 2 <= len (data i) ->
        exists d, QueueNodeManager.queue_enqueue sample_str sample_int_ge_float i v "q"
                  = (i, Return d)
          /\ Dict.get "error" d = Some (JStr "overflow")).
Proof.
  assert (H1 : max_size (sample_instance "ArrayQueue" [JInt 1; JInt 2] (Some 2)) = JInt 2)
    by reflexivity.
  assert (H2 : len (data (sample_instance "ArrayQueue" [JInt 1; JInt 2] (Some 2))) <= 2)
    by (vm_compute; discriminate).
  split; [split; assumption |].
  exact (bounded_queue_stays_within_max_size sample_str sample_int_ge_float _ 2 "q" H1 H2).
Defined.

End QueueFacts.

(** ** The binary search tree *)

Module BSTFacts.
Import BSTNodeManager.

Lemma _deep_copy_tree_id (t : tree) : _deep_copy_tree t = t.
Proof. induction t as [| d l IHl r IHr c]; cbn; [| rewrite IHl, IHr]; reflexivity. Qed.

Lemma _inorder_traversal_app (t : tree) : forall acc,
  _inorder_traversal t acc = acc ++ keys t.
Proof.
  unfold keys. induction t as [| d l IHl r IHr c]; intros acc; cbn.
  - rewrite app_nil_r. reflexivity.
  - rewrite IHr, IHl, (IHr (_ ++ [d])), (IHl []). cbn. rewrite <- !app_assoc. reflexivity.
Qed.

Lemma keys_node (d : Z) (l r : tree) (c : string) :
  keys (TNode d l r c) = keys l ++ d :: keys r.
Proof.
  unfold keys at 1. cbn. rewrite !_inorder_traversal_app. cbn.
  rewrite <- app_assoc. reflexivity.
Qed.

Lemma _preorder_traversal_app (t : tree) : forall acc,
  _preorder_traversal t acc = acc ++ _preorder_traversal t [].
Proof.
  induction t as [| d l IHl r IHr c]; intros acc; cbn.
  - rewrite app_nil_r. reflexivity.
  - rewrite IHr, IHl, (IHr (_preorder_traversal l [d])), (IHl [d]).
    rewrite <- !app_assoc. reflexivity.
Qed.

Lemma _postorder_traversal_app (t : tree) : forall acc,
  _postorder_traversal t acc = acc ++ _postorder_traversal t [].
Proof.
  induction t as [| d l IHl r IHr c]; intros acc; cbn.
  - rewrite app_nil_r. reflexivity.
  - rewrite IHr, IHl, (IHr (_postorder_traversal l [])).
    rewrite <- !app_assoc. reflexivity.
Qed.

Lemma preorder_keys (t : tree) : _preorder_traversal t [] ≡ₚ keys t.
Proof.
  induction t as [| d l IHl r IHr c]; [reflexivity |].
  rewrite keys_node. cbn [_preorder_traversal app].
  rewrite _preorder_traversal_app, (_preorder_traversal_app l [d]).
  rewrite IHl, IHr. cbn [app]. rewrite Permutation_middle. reflexivity.
Qed.

Lemma postorder_keys (t : tree) : _postorder_traversal t [] ≡ₚ keys t.
Proof.
  induction t as [| d l IHl r IHr c]; [reflexivity |].
  rewrite keys_node. cbn [_postorder_traversal].
  rewrite _postorder_traversal_app, IHl, IHr.
  rewrite <- app_assoc. apply Permutation_app_head.
  rewrite <- Permutation_cons_append. reflexivity.
Qed.

Lemma ordered_sorted (t : tree) : ordered t -> StronglySorted Z.le (keys t).
Proof.
  induction t as [| d l IHl r IHr c]; [constructor |].
  intros (Hl & Hr & Ol & Or). rewrite keys_node.
  apply StronglySorted_app_2.
  - intros x1 x2 H1 H2. rewrite Forall_forall in Hl, Hr.
    apply elem_of_cons in H2 as [-> | H2].
    + specialize (Hl x1 H1). cbn in Hl. lia.
    + specialize (Hl x1 H1). specialize (Hr x2 H2). cbn in *. lia.
  - apply IHl, Ol.
  - constructor; [apply IHr, Or | exact Hr].
Qed.

(** *** Insertion *)

Lemma keys_inserted (t : tree) (v : Z) : keys (inserted t v) ≡ₚ v :: keys t.
Proof.
  induction t as [| d l IHl r IHr c]; [reflexivity |].
  cbn [inserted]. destruct (v <? d); rewrite !keys_node.
  - rewrite IHl. reflexivity.
  - rewrite IHr, <- !Permutation_middle. apply perm_swap.
Qed.

Lemma ordered_inserted (t : tree) (v : Z) : ordered t -> ordered (inserted t v).
Proof.
  induction t as [| d l IHl r IHr c]; intros Ho.
  - cbn. unfold keys. cbn. repeat split; constructor.
  - destruct Ho as (Hl & Hr & Ol & Or). cbn.
    destruct (v <? d) eqn:Hv; cbn.
    + apply Z.ltb_lt in Hv. repeat split; try assumption; [| apply IHl, Ol].
      rewrite keys_inserted. constructor; assumption.
    + apply Z.ltb_ge in Hv. repeat split; try assumption; [| apply IHr, Or].
      rewrite keys_inserted. constructor; assumption.
Qed.

Lemma assign_child_cons (d : Z) (l r : tree) (c direction : string)
    (rest : list string) (final_direction : string) (new_node : tree) :
  assign_child (TNode d l r c) (direction :: rest) final_direction new_node
  = if String.eqb direction "left"
    then bind (assign_child l rest final_direction new_node)
              (fun l' => Return (TNode d l' r c))
    else bind (assign_child r rest final_direction new_node)
              (fun r' => Return (TNode d l r' c)).
Proof. reflexivity. Qed.

(** The path that [_find_insertion_path] returns leads [bst_insert] to the
    free place where the recursive insertion puts the node. *)
Lemma find_insertion_loop_assigns (t : tree) (v : Z) : forall path,
  t <> TNone ->
  exists directions final_direction,
    find_insertion_loop t v path = Return (path ++ directions ++ [final_direction])
    /\ assign_child t directions final_direction (leaf v) = Return (inserted t v).
Proof.
  induction t as [| d l IHl r IHr c]; intros path Hne; [congruence |].
  cbn [find_insertion_loop inserted]. destruct (v <? d).
  - destruct l as [| ld ll lr lc].
    + exists [], "left". split; reflexivity.
    + destruct (IHl (path ++ ["left"])) as (ds & f & Hfind & Hassign); [discriminate |].
      exists ("left" :: ds), f. split.
      * rewrite Hfind, <- app_assoc. reflexivity.
      * rewrite assign_child_cons. change (String.eqb "left" "left") with true.
        cbn iota. rewrite Hassign. reflexivity.
  - destruct r as [| rd rl rr rc].
    + exists [], "right". split; reflexivity.
    + destruct (IHr (path ++ ["right"])) as (ds & f & Hfind & Hassign); [discriminate |].
      exists ("right" :: ds), f. split.
      * rewrite Hfind, <- app_assoc. reflexivity.
      * rewrite assign_child_cons. change (String.eqb "right" "left") with false.
        cbn iota. rewrite Hassign. reflexivity.
Qed.

Lemma py_index_last (l : list string) (x : string) :
  Executor.py_index (l ++ [x]) (-1) = Return x.
Proof.
  unfold Executor.py_index. cbn [Z.ltb Z.compare].
  assert (Hlen : len (l ++ [x]) = len l + 1) by (unfold len; rewrite length_app; cbn; lia).
  rewrite Hlen.
  assert (H0 : 0 <= len l) by (unfold len; lia).
  replace (len l + 1 + -1) with (len l) by lia.
  replace (0 <=? len l) with true by (symmetry; apply Z.leb_le; lia).
  replace (len l <? len l + 1) with true by (symmetry; apply Z.ltb_lt; lia).
  cbn [andb]. unfold len. rewrite Nat2Z.id.
  rewrite lookup_app_r by lia. rewrite Nat.sub_diag. reflexivity.
Qed.

Lemma bst_insert_message (s : string) :
  MessagesTh.get_bst_message "insert" (Some s)
  = Return ("เพิ่มข้อมูล '" +:+ s +:+ "' เข้าไปใน binary search tree").
Proof. vm_compute. reflexivity. Qed.

Lemma bst_insert_root (i : bst_instance) (v : Z) (name : string) :
  exists entry d,
    bst_insert i v name = (with_root (inserted (root i) v) [entry] i, Return d)
    /\ Dict.get "value" d = Some (JInt v)
    /\ Dict.get "error" d = None.
Proof.
  unfold bst_insert. rewrite bst_insert_message. cbn [bind].
  destruct (root i) as [| d l r c] eqn:Hroot.
  - eexists _, _. split; [reflexivity | split; reflexivity].
  - destruct (find_insertion_loop_assigns (TNode d l r c) v ["root"])
      as (ds & f & Hfind & Hassign); [discriminate |].
    unfold _find_insertion_path. rewrite Hfind. cbn [bind].
    change (["root"] ++ ds ++ [f]) with (("root" :: ds) ++ [f]).
    rewrite py_index_last. cbn [bind].
    change (("root" :: ds) ++ [f]) with ("root" :: (ds ++ [f])). cbn [tail].
    fold (leaf v). rewrite removelast_last, Hassign. cbn [bind].
    eexists _, _. split; [reflexivity | split; reflexivity].
Qed.

(** X7. Insertion. [bst_insert] never raises; afterwards the tree holds the
    keys it held and the new value once more, a tree in search order is
    still in search order, and the history has one more entry. *)
Theorem bst_insert_adds_the_value (i : bst_instance) (value : Z) (name : string) :
  exists i' d,
    bst_insert i value name = (i', Return d)
    /\ Dict.get "value" d = Some (JInt value)
    /\ keys (root i') ≡ₚ value :: keys (root i)
    /\ (ordered (root i) -> ordered (root i'))
    /\ len (history i') = len (history i) + 1.
Proof.
  destruct (bst_insert_root i value name) as (entry & d & Hins & Hval & _).
  eexists _, d. split; [exact Hins |]. split; [exact Hval |]. cbn.
  split; [apply keys_inserted |]. split; [apply ordered_inserted |].
  unfold len. rewrite length_app. cbn. lia.
Qed.

(** *** The least and the greatest key *)

Lemma leftmost_least (t : tree) : forall path,
  t <> TNone -> ordered t ->
  exists m n,
    leftmost t path = Return (m, path ++ repeat "left" n)
    /\ (exists l r c, _find_min_node t = Return (TNode m l r c))
    /\ m ∈ keys t /\ Forall (fun x => m <= x) (keys t).
Proof.
  induction t as [| d l IHl r IHr c]; intros path Hne Ho; [congruence |].
  destruct Ho as (Hl & Hr & Ol & Or). cbn [leftmost _find_min_node].
  rewrite keys_node. destruct l as [| ld ll lr lc].
  - exists d, O. cbn [repeat]. rewrite app_nil_r. split; [reflexivity |].
    split; [eauto |]. cbn. split; [apply list_elem_of_here |].
    constructor; [lia | exact Hr].
  - destruct (IHl (path ++ ["left"])) as (m & n & Hleft & Hmin & Hin & Hall);
      [discriminate | exact Ol |].
    exists m, (S n). split; [rewrite Hleft, <- app_assoc; reflexivity |].
    split; [exact Hmin |].
    assert (Hmd : m < d) by (rewrite Forall_forall in Hl; apply (Hl m Hin)).
    split; [apply elem_of_app; left; exact Hin |].
    apply Forall_app. split; [exact Hall |].
    constructor; [lia |]. eapply Forall_impl; [exact Hr |]. cbn. intros; lia.
Qed.

Lemma rightmost_greatest (t : tree) : forall path,
  t <> TNone -> ordered t ->
  exists m n,
    rightmost t path = Return (m, path ++ repeat "right" n)
    /\ m ∈ keys t /\ Forall (fun x => x <= m) (keys t).
Proof.
  induction t as [| d l IHl r IHr c]; intros path Hne Ho; [congruence |].
  destruct Ho as (Hl & Hr & Ol & Or). cbn [rightmost].
  rewrite keys_node. destruct r as [| rd rl rr rc].
  - exists d, O. cbn [repeat]. rewrite app_nil_r. split; [reflexivity |].
    split; [apply elem_of_app; right; apply list_elem_of_here |].
    apply Forall_app. split.
    + eapply Forall_impl; [exact Hl |]. cbn. intros; lia.
    + repeat constructor. lia.
  - destruct (IHr (path ++ ["right"])) as (m & n & Hright & Hin & Hall);
      [discriminate | exact Or |].
    exists m, (S n). split; [rewrite Hright, <- app_assoc; reflexivity |].
    assert (Hmd : d <= m) by (rewrite Forall_forall in Hr; apply (Hr m Hin)).
    split; [apply elem_of_app; right; apply list_elem_of_further; exact Hin |].
    apply Forall_app. split.
    + eapply Forall_impl; [exact Hl |]. cbn. intros; lia.
    + constructor; [lia | exact Hall].
Qed.

Lemma bst_search_message (s : string) :
  MessagesTh.get_bst_message "search" (Some s)
  = Return ("ค้นหาข้อมูล '" +:+ s +:+ "' ใน binary search tree").
Proof. vm_compute. reflexivity. Qed.

(** X8. The least and the greatest key. On a tree in search order that is
    not empty, [bst_find_min] returns a key of the tree that no key is
    smaller than, reached by going left only, and [bst_find_max] a key that
    no key is greater than, reached by going right only. *)
Theorem bst_find_min_and_max (i : bst_instance) (name : string) :
  root i <> TNone -> ordered (root i) ->
  (exists d m n,
      bst_find_min i name = Return d
      /\ Dict.get "value" d = Some (JInt m)
      /\ Dict.get "path" d = Some (Executor.jstrs ("root" :: repeat "left" n))
      /\ m ∈ keys (root i) /\ Forall (fun x => m <= x) (keys (root i)))
  /\ (exists d m n,
        bst_find_max i name = Return d
        /\ Dict.get "value" d = Some (JInt m)
        /\ Dict.get "path" d = Some (Executor.jstrs ("root" :: repeat "right" n))
        /\ m ∈ keys (root i) /\ Forall (fun x => x <= m) (keys (root i))).
Proof.
  intros Hne Ho. unfold bst_find_min, bst_find_max.
  destruct (root i) as [| d l r c] eqn:Hroot; [congruence |]. split.
  - destruct (leftmost_least (TNode d l r c) ["root"] Hne Ho)
      as (m & n & Hleft & _ & Hin & Hall).
    rewrite Hleft. cbn [bind]. unfold found_report. rewrite bst_search_message.
    cbn [bind]. eexists _, m, n. split; [reflexivity |].
    repeat split; [exact Hin | exact Hall].
  - destruct (rightmost_greatest (TNode d l r c) ["root"] Hne Ho)
      as (m & n & Hright & Hin & Hall).
    rewrite Hright. cbn [bind]. unfold found_report. rewrite bst_search_message.
    cbn [bind]. eexists _, m, n. split; [reflexivity |].
    repeat split; [exact Hin | exact Hall].
Qed.

Lemma bst_find_min_and_max_witness :
  (root sample_bst <> TNone /\ ordered (root sample_bst))
  /\ (exists d m n,
        bst_find_min sample_bst "t" = Return d
        /\ Dict.get "value" d = Some (JInt m)
        /\ Dict.get "path" d = Some (Executor.jstrs ("root" :: repeat "left" n))
        /\ m ∈ keys (root sample_bst)
        /\ Forall (fun x => m <= x) (keys (root sample_bst)))
  /\ (exists d m n,
        bst_find_max sample_bst "t" = Return d
        /\ Dict.get "value" d = Some (JInt m)
        /\ Dict.get "path" d = Some (Executor.jstrs ("root" :: repeat "right" n))
        /\ m ∈ keys (root sample_bst)
        /\ Forall (fun x => x <= m) (keys (root sample_bst))).
Proof.
  assert (Hne : root sample_bst <> TNone) by discriminate.
  assert (Ho : ordered (root sample_bst)).
  { cbn. unfold keys. cbn. repeat split; repeat constructor; lia. }
  split; [split; assumption |].
  exact (bst_find_min_and_max sample_bst "t" Hne Ho).
Defined.

(** *** Deletion *)

Lemma ordered_node (d : Z) (l r : tree) (c : string) :
  Forall (fun x => x < d) (keys l) -> Forall (fun x => d <= x) (keys r) ->
  ordered l -> ordered r -> ordered (TNode d l r c).
Proof. intros. cbn [ordered]. auto. Qed.

Lemma _delete_recursive_missing (t : tree) (key : Z) :
  key ∉ keys t -> _delete_recursive t key = Return (None, t).
Proof.
  induction t as [| d l IHl r IHr c]; intros Hnot; [reflexivity |].
  rewrite keys_node in Hnot.
  apply not_elem_of_app in Hnot as [Hl Hr]. apply not_elem_of_cons in Hr as [Hd Hr].
  cbn [_delete_recursive]. destruct (key <? d) eqn:Hlt.
  - rewrite (IHl Hl). reflexivity.
  - destruct (d <? key) eqn:Hgt.
    + rewrite (IHr Hr). reflexivity.
    + apply Z.ltb_ge in Hlt, Hgt. lia.
Qed.

Lemma _delete_recursive_present (t : tree) : forall key,
  ordered t -> key ∈ keys t ->
  exists t', _delete_recursive t key = Return (Some key, t')
    /\ keys t ≡ₚ key :: keys t' /\ ordered t'.
Proof.
  induction t as [| d l IHl r IHr c]; intros key Ho Hin.
  - unfold keys in Hin. cbn in Hin. apply elem_of_nil in Hin as [].
  - destruct Ho as (Hl & Hr & Ol & Or).
    rewrite keys_node in Hin. cbn [_delete_recursive].
    destruct (key <? d) eqn:Hlt; [| destruct (d <? key) eqn:Hgt].
    + apply Z.ltb_lt in Hlt.
      assert (Hinl : key ∈ keys l).
      { apply elem_of_app in Hin as [H | H]; [exact H |].
        apply elem_of_cons in H as [-> | H]; [lia |].
        rewrite Forall_forall in Hr. specialize (Hr key H). cbn in Hr. lia. }
      destruct (IHl key Ol Hinl) as (l' & Hdel & Hperm & Ol').
      rewrite Hdel. cbn [bind]. eexists. split; [reflexivity |].
      rewrite !keys_node. split; [rewrite Hperm; reflexivity |].
      cbn [ordered]. repeat split; try assumption.
      rewrite Hperm in Hl. apply Forall_cons in Hl as [_ Hl]. exact Hl.
    + apply Z.ltb_lt in Hgt.
      assert (Hinr : key ∈ keys r).
      { apply elem_of_app in Hin as [H | H].
        - rewrite Forall_forall in Hl. specialize (Hl key H). cbn in Hl. lia.
        - apply elem_of_cons in H as [-> | H]; [lia | exact H]. }
      destruct (IHr key Or Hinr) as (r' & Hdel & Hperm & Or').
      rewrite Hdel. cbn [bind]. eexists. split; [reflexivity |].
      rewrite !keys_node. split.
      * rewrite Hperm, <- !Permutation_middle. apply perm_swap.
      * cbn [ordered]. repeat split; try assumption.
        rewrite Hperm in Hr. apply Forall_cons in Hr as [_ Hr]. exact Hr.
    + apply Z.ltb_ge in Hlt, Hgt. assert (key = d) as -> by lia.
      destruct l as [| ld ll lr lc].
      { eexists. split; [reflexivity |]. rewrite keys_node. split; [reflexivity | exact Or]. }
      destruct r as [| rd rl rr rc].
      { eexists. split; [reflexivity |]. rewrite (keys_node d).
        split; [| exact Ol].
        unfold keys at 3. cbn [_inorder_traversal]. rewrite <- Permutation_middle, app_nil_r.
        reflexivity. }
      destruct (leftmost_least (TNode rd rl rr rc) [] ltac:(discriminate) Or)
        as (m & _ & _ & (ml & mr & mc & Hmin) & Hmin_in & Hmin_all).
      destruct (IHr m Or Hmin_in) as (r' & Hdel & Hperm & Or').
      rewrite Hmin. cbn [bind data_of]. rewrite Hdel. cbn [bind].
      eexists. split; [reflexivity |].
      rewrite (keys_node d), (keys_node m). split.
      * rewrite Hperm, <- !Permutation_middle. reflexivity.
      * assert (Hdm : d <= m) by (rewrite Forall_forall in Hr; apply (Hr m Hmin_in)).
        apply ordered_node; [| | exact Ol | exact Or'].
        -- eapply Forall_impl; [exact Hl |]. cbn. intros; lia.
        -- rewrite Hperm in Hmin_all. apply Forall_cons in Hmin_all as [_ H]. exact H.
Qed.

Lemma bst_delete_message (s : string) :
  MessagesTh.get_bst_message "delete" (Some s)
  = Return ("ลบข้อมูล '" +:+ s +:+ "' ออกจาก binary search tree").
Proof. vm_compute. reflexivity. Qed.

Lemma target_not_found_message (s : string) :
  MessagesTh.get_message "target_not_found" [("target_name", MessagesTh.AStr s)]
  = Return ("ไม่พบข้อมูล '" +:+ s +:+ "' ใน linked list").
Proof. vm_compute. reflexivity. Qed.

Lemma bst_delete_found (i : bst_instance) (value x : Z) (t' : tree) (name : string) :
  root i <> TNone ->
  _delete_recursive (root i) value = Return (Some x, t') ->
  exists entry d,
    bst_delete i value name = (with_root t' [entry] i, Return d)
    /\ Dict.get "value" d = Some (JInt x)
    /\ Dict.get "error" d = None.
Proof.
  intros Hne Hdel. unfold bst_delete. rewrite Hdel, bst_delete_message. cbn [bind].
  destruct (root i); [congruence |].
  eexists _, _. split; [reflexivity |]. split; reflexivity.
Qed.

Lemma inserted_not_none (t : tree) (v : Z) : inserted t v <> TNone.
Proof. destruct t; cbn; [discriminate | destruct (v <? data); discriminate]. Qed.

Lemma with_root_same (i : bst_instance) : with_root (root i) [] i = i.
Proof. destruct i. unfold with_root. cbn. rewrite app_nil_r. reflexivity. Qed.

(** X9. Deleting a key of the tree. On a tree in search order, [bst_delete]
    of a key the tree holds returns that key, removes one occurrence of it
    and no other key, and leaves the tree in search order. *)
Theorem bst_delete_removes_one_occurrence (i : bst_instance) (value : Z) (name : string) :
  ordered (root i) -> value ∈ keys (root i) ->
  exists i' d,
    bst_delete i value name = (i', Return d)
    /\ Dict.get "value" d = Some (JInt value)
    /\ Dict.get "error" d = None
    /\ keys (root i) ≡ₚ value :: keys (root i')
    /\ ordered (root i').
Proof.
  intros Ho Hin.
  destruct (_delete_recursive_present (root i) value Ho Hin) as (t' & Hdel & Hperm & Ho').
  assert (Hne : root i <> TNone).
  { intros E. rewrite E in Hin. apply elem_of_nil in Hin as []. }
  destruct (bst_delete_found i value value t' name Hne Hdel) as (entry & d & Hd & Hv & He).
  eexists _, d. split; [exact Hd |]. repeat split; assumption.
Qed.

Lemma bst_delete_removes_one_occurrence_witness :
  (ordered (root sample_bst) /\ 5 ∈ keys (root sample_bst))
  /\ exists i' d,
      bst_delete sample_bst 5 "t" = (i', Return d)
      /\ Dict.get "value" d = Some (JInt 5)
      /\ Dict.get "error" d = None
      /\ keys (root sample_bst) ≡ₚ 5 :: keys (root i')
      /\ ordered (root i').
Proof.
  assert (Ho : ordered (root sample_bst)).
  { cbn. unfold keys. cbn. repeat split; repeat constructor; lia. }
  assert (Hin : 5 ∈ keys (root sample_bst)).
  { apply (bool_decide_unpack _). vm_compute. exact I. }
  split; [split; assumption |].
  exact (bst_delete_removes_one_occurrence sample_bst 5 "t" Ho Hin).
Defined.

(** X10. Deleting a key the tree does not hold. [bst_delete] then reports
    ["empty_tree"] on an empty tree and ["value_not_found"] otherwise, with
    the value [None], and leaves the instance as it was. *)
Theorem bst_delete_of_missing_key (i : bst_instance) (value : Z) (name : string) :
  value ∉ keys (root i) ->
  exists d,
    bst_delete i value name = (i, Return d)
    /\ Dict.get "value" d = Some JNone
    /\ Dict.get "error" d
       = Some (JStr (match root i with TNone => "empty_tree" | _ => "value_not_found" end)).
Proof.
  intros Hnot. unfold bst_delete.
  rewrite (_delete_recursive_missing (root i) value Hnot).
  rewrite bst_delete_message, target_not_found_message, ArrayFacts.traverse_empty_message.
  cbn [bind]. rewrite with_root_same.
  destruct (root i); eexists; (split; [reflexivity | split; reflexivity]).
Qed.

Lemma bst_delete_of_missing_key_witness :
(7 ∉ keys (root sample_bst))
  /\ exists d,
      bst_delete sample_bst 7 "t" = (sample_bst, Return d)
      /\ Dict.get "value" d = Some JNone
      /\ Dict.get "error" d
         = Some (JStr (match root sample_bst with
                       | TNone => "empty_tree" | _ => "value_not_found" end)).
Proof.
  assert (Hnot : 7 ∉ keys (root sample_bst)).
  { apply (bool_decide_unpack _). vm_compute. exact I. }
  split; [exact Hnot |].
  exact (bst_delete_of_missing_key sample_bst 7 "t" Hnot).
Defined.

Lemma _delete_recursive_inserted (t : tree) (value : Z) :
  value ∉ keys t -> _delete_recursive (inserted t value) value = Return (Some value, t).
Proof.
  induction t as [| d l IHl r IHr c]; intros Hnot.
  - cbn. rewrite Z.ltb_irrefl. reflexivity.
  - rewrite keys_node in Hnot.
    apply not_elem_of_app in Hnot as [Hl Hr]. apply not_elem_of_cons in Hr as [Hd Hr].
    cbn [inserted]. destruct (value <? d) eqn:Hlt; cbn [_delete_recursive]; rewrite Hlt.
    + rewrite (IHl Hl). reflexivity.
    + apply Z.ltb_ge in Hlt.
      replace (d <? value) with true by (symmetry; apply Z.ltb_lt; lia).
      rewrite (IHr Hr). reflexivity.
Qed.

(** X11. Round trip. Inserting a key the tree does not hold and deleting it
    again gives back the tree as it was, whatever its shape. *)
Theorem bst_insert_then_delete_restores_tree (i : bst_instance) (value : Z) (name : string) :
  value ∉ keys (root i) ->
  exists i1 d1 i2 d2,
    bst_insert i value name = (i1, Return d1)
    /\ bst_delete i1 value name = (i2, Return d2)
    /\ Dict.get "value" d2 = Some (JInt value)
    /\ root i2 = root i.
Proof.
  intros Hnot.
  destruct (bst_insert_root i value name) as (entry & d1 & Hins & _ & _).
  pose proof (_delete_recursive_inserted (root i) value Hnot) as Hdel.
  set (i1 := with_root (inserted (root i) value) [entry] i) in *.
  destruct (bst_delete_found i1 value value (root i) name) as (entry2 & d2 & Hd & Hv & _).
  { apply inserted_not_none. }
  { exact Hdel. }
  exists i1, d1, (with_root (root i) [entry2] i1), d2.
  repeat split; assumption.
Qed.

Lemma bst_insert_then_delete_restores_tree_witness :
(7 ∉ keys (root sample_bst))
  /\ exists i1 d1 i2 d2,
      bst_insert sample_bst 7 "t" = (i1, Return d1)
      /\ bst_delete i1 7 "t" = (i2, Return d2)
      /\ Dict.get "value" d2 = Some (JInt 7)
      /\ root i2 = root sample_bst.
Proof.
  assert (Hnot : 7 ∉ keys (root sample_bst)).
  { apply (bool_decide_unpack _). vm_compute. exact I. }
  split; [exact Hnot |].
  exact (bst_insert_then_delete_restores_tree sample_bst 7 "t" Hnot).
Defined.

(** *** Traversals *)

Lemma bst_traverse_inorder_message :
  MessagesTh.get_bst_message "traverse_inorder" None
  = Return "เดินทางผ่าน binary search tree แบบ inorder".
Proof. vm_compute. reflexivity. Qed.

(** X12. Traversals. [bst_traverse] never raises; the three lists it returns
    hold the same keys, each as often as the tree does, and on a tree in
    search order the inorder list is in ascending order. *)
Theorem bst_traverse_lists_the_same_keys (stdout : list string) (i : bst_instance)
    (name : string) :
  exists stdout' d preorder inorder postorder,
    bst_traverse stdout i name = (stdout', Return d)
    /\ Dict.get "value" d = Some (traversals preorder inorder postorder)
    /\ inorder = keys (root i)
    /\ preorder ≡ₚ inorder /\ postorder ≡ₚ inorder
    /\ (ordered (root i) -> StronglySorted Z.le inorder).
Proof.
  unfold bst_traverse. rewrite bst_traverse_inorder_message, ArrayFacts.traverse_empty_message.
  cbn [bind]. destruct (root i) as [| d l r c] eqn:Hroot.
  - eexists _, _, [], [], []. split; [reflexivity |].
    repeat split; try reflexivity. intros _. constructor.
  - eexists _, _, _, _, _. split; [reflexivity |]. split; [reflexivity |].
    split; [reflexivity |]. split; [apply preorder_keys |]. split; [apply postorder_keys |].
    apply ordered_sorted.
Qed.

End BSTFacts.

(** ** Detection of the data-structure type *)

Module DetectorFacts.
Import Ast DataStructureDetector.

(** *** Substrings *)

Lemma prefix_app (p s : string) :
  String.prefix p s = true <-> exists t, s = p +:+ t.
Proof.
  revert s. induction p as [| c p IH]; intros s.
  - split; [intros _; exists s; reflexivity | destruct s; reflexivity].
  - destruct s as [| c' s]; cbn.
    + split; [discriminate | intros (t & Ht); discriminate].
    + destruct (ascii_dec c c') as [-> | Hne].
      * rewrite IH. split; intros (t & Ht); exists t; [rewrite Ht; reflexivity |].
        injection Ht as ->. reflexivity.
      * split; [discriminate | intros (t & Ht)]. injection Ht as Hc _. congruence.
Qed.

Lemma contains_app (sub s : string) :
  Py.contains sub s = true <-> exists pre post, s = pre +:+ sub +:+ post.
Proof.
  induction s as [| c s IH]; cbn [Py.contains].
  - destruct (String.prefix sub "") eqn:Hp.
    + split; [intros _ | reflexivity]. apply prefix_app in Hp as (t & Ht).
      exists "", t. exact Ht.
    + split; [discriminate |]. intros (pre & post & H).
      destruct pre; cbn in H; [| discriminate].
      assert (String.prefix sub "" = true) by (apply prefix_app; eauto). congruence.
  - destruct (String.prefix sub (String c s)) eqn:Hp.
    + split; [intros _ | reflexivity]. apply prefix_app in Hp as (t & Ht).
      exists "", t. exact Ht.
    + rewrite IH. split.
      * intros (pre & post & ->). exists (String c pre), post. reflexivity.
      * intros (pre & post & H). destruct pre as [| c' pre]; cbn in H.
        -- assert (String.prefix sub (String c s) = true) by (apply prefix_app; eauto).
           congruence.
        -- injection H as -> ->. eauto.
Qed.

Lemma string_app_assoc (a b c : string) : (a +:+ b) +:+ c = a +:+ (b +:+ c).
Proof.
  induction a as [| x a IH]; [reflexivity |].
  change (String x ((a +:+ b) +:+ c) = String x (a +:+ (b +:+ c))). rewrite IH. reflexivity.
Qed.

(** A substring of a substring is a substring. *)
Lemma contains_trans (a b s : string) :
  Py.contains a b = true -> Py.contains b s = true -> Py.contains a s = true.
Proof.
  rewrite !contains_app. intros (p1 & q1 & ->) (p2 & q2 & ->).
  exists (p2 +:+ p1), (q1 +:+ q2). rewrite !string_app_assoc. reflexivity.
Qed.

(** *** Class names *)

Lemma matches_class_shadowed (general specific class_name : string) (patterns : list string) :
  Py.contains (Py.lower general) (Py.lower specific) = true ->
  general ∈ patterns ->
  matches_class [specific] class_name = true ->
  matches_class patterns class_name = true.
Proof.
  intros Hsub Hin. unfold matches_class. cbn [existsb]. rewrite orb_false_r. intros Hm.
  apply existsb_exists. exists general. split; [apply list_elem_of_In, Hin |].
  exact (contains_trans _ _ _ Hsub Hm).
Qed.

Lemma existsb_shadowed (general specific : string) (patterns names : list string) :
  Py.contains (Py.lower general) (Py.lower specific) = true ->
  general ∈ patterns ->
  existsb (matches_class [specific]) names = true ->
  existsb (matches_class patterns) names = true.
Proof.
  intros Hsub Hin Hex. apply existsb_exists in Hex as (n & Hn & Hm).
  apply existsb_exists. exists n. split; [exact Hn |].
  exact (matches_class_shadowed general specific n patterns Hsub Hin Hm).
Qed.

(** X13. Detection by class name never answers ["doublylinkedlist"] nor
    ["directedgraph"]. A class name that holds [DoublyLinkedList] also holds
    [LinkedList], a pattern of ["singlylinkedlist"], which comes earlier in
    [CLASS_NAME_PATTERNS]; one that holds [DirectedGraph] also holds [Graph],
    a pattern of ["undirectedgraph"]. *)
Theorem class_names_never_detect_doubly_or_directed (tree : node) :
  _detect_from_class_names tree <> Some "doublylinkedlist"
  /\ _detect_from_class_names tree <> Some "directedgraph".
Proof.
  unfold _detect_from_class_names. generalize (class_names tree) as names. intros names.
  unfold CLASS_NAME_PATTERNS. cbn [first_match].
  destruct (existsb (matches_class ["BST"; "BinarySearchTree"; "BinaryTree"]) names);
    [split; discriminate |].
  destruct (existsb (matches_class ["SinglyLinkedList"; "LinkedList"]) names) eqn:Hsingly;
    [split; discriminate |].
  destruct (existsb (matches_class ["DoublyLinkedList"]) names) eqn:Hdoubly.
  { rewrite (existsb_shadowed "LinkedList" "DoublyLinkedList" _ names) in Hsingly;
      [discriminate | reflexivity | | exact Hdoubly].
    apply list_elem_of_further, list_elem_of_here. }
  destruct (existsb (matches_class ["Stack"; "ArrayStack"]) names); [split; discriminate |].
  destruct (existsb (matches_class ["Queue"]) names); [split; discriminate |].
  destruct (existsb (matches_class ["Graph"; "UndirectedGraph"]) names) eqn:Hgraph;
    [split; discriminate |].
  destruct (existsb (matches_class ["DirectedGraph"]) names) eqn:Hdirected.
  { rewrite (existsb_shadowed "Graph" "DirectedGraph" _ names) in Hgraph;
      [discriminate | reflexivity | | exact Hdirected].
    apply list_elem_of_here. }
  split; discriminate.
Qed.

(** *** Method signatures *)

Lemma best_spec (methods : list string) :
  forall table processed best_match best_score,
    Forall (fun e => e.2.2 = 2) table ->
    match best_match with
    | Some t => exists pm mn, (t, (pm, mn)) ∈ processed
                  /\ best_score = matches pm methods /\ 2 <= best_score
    | None => best_score = 0
    end ->
    Forall (fun e => matches e.2.1 methods < 2 \/ matches e.2.1 methods <= best_score)
           processed ->
    match best table methods best_match best_score with
    | Some t =>
        exists pm mn, (t, (pm, mn)) ∈ processed ++ table
          /\ 2 <= matches pm methods
          /\ Forall (fun e => matches e.2.1 methods <= matches pm methods) (processed ++ table)
    | None => Forall (fun e => matches e.2.1 methods < 2) (processed ++ table)
    end.
Proof.
  induction table as [| [ds [pm mn]] rest IH]; intros processed bm bs Hmin Hstate Hseen.
  - cbn [best]. rewrite app_nil_r. destruct bm as [t |].
    + destruct Hstate as (pm & mn & Hin & -> & Hge).
      exists pm, mn. split; [exact Hin |]. split; [exact Hge |].
      eapply Forall_impl; [exact Hseen |]. cbn. intros e [H | H]; lia.
    + subst bs. eapply Forall_impl; [exact Hseen |]. cbn. intros e [H | H]; lia.
  - apply Forall_cons in Hmin as [Hmn Hmin]. cbn in Hmn. subst mn.
    cbn [best]. replace (processed ++ (ds, (pm, 2)) :: rest)
      with ((processed ++ [(ds, (pm, 2))]) ++ rest) by (rewrite <- app_assoc; reflexivity).
    destruct ((2 <=? matches pm methods) && (bs <? matches pm methods)) eqn:Hcond.
    + apply andb_true_iff in Hcond as [H2 Hbs].
      apply Z.leb_le in H2. apply Z.ltb_lt in Hbs.
      apply IH; [exact Hmin | |].
      * exists pm, 2. split; [apply elem_of_app; right; apply list_elem_of_here |].
        split; [reflexivity | exact H2].
      * apply Forall_app. split.
        -- eapply Forall_impl; [exact Hseen |]. cbn. intros e [H | H]; [left | right]; lia.
        -- constructor; [| constructor]. cbn. right. lia.
    + apply andb_false_iff in Hcond.
      apply IH; [exact Hmin | |].
      * destruct bm as [t |]; [| exact Hstate].
        destruct Hstate as (pm' & mn' & Hin & Hbs & Hge).
        exists pm', mn'. split; [apply elem_of_app; left; exact Hin |]. split; assumption.
      * apply Forall_app. split; [exact Hseen |].
        constructor; [| constructor]. cbn.
        destruct Hcond as [H | H]; [left; apply Z.leb_gt in H | right; apply Z.ltb_ge in H];
          lia.
Qed.

(** X14. Detection by method names. [_detect_from_methods] answers a type
    of [METHOD_PATTERNS] at least two of whose methods are called or defined
    in the program, letter case apart, and no type has more of its methods
    there; when every type has fewer than two, it answers [None]. *)
Theorem methods_detect_the_best_match (tree : node) :
  match _detect_from_methods tree with
  | Some t =>
      exists pm mn, (t, (pm, mn)) ∈ METHOD_PATTERNS
        /\ 2 <= matches pm (all_methods tree)
        /\ Forall (fun e => matches e.2.1 (all_methods tree) <= matches pm (all_methods tree))
                  METHOD_PATTERNS
  | None => Forall (fun e => matches e.2.1 (all_methods tree) < 2) METHOD_PATTERNS
  end.
Proof.
  unfold _detect_from_methods.
  apply (best_spec (all_methods tree) METHOD_PATTERNS [] None 0).
  - repeat constructor.
  - reflexivity.
  - constructor.
Qed.

End DetectorFacts.

(** ** Loop counters of the complexity analyzer *)

Module ComplexityCounters.
Import Ast ComplexityAnalyzer ComplexityBounds.

Ltac in_list := repeat first [apply list_elem_of_here | apply list_elem_of_further].

Lemma node_ind_children (P : node -> Prop) :
  (forall c a kids, Forall (fun p => P p.2) kids -> P (Node c a kids)) ->
  forall n, P n.
Proof.
  intros H. fix IH 1. intros [c a kids]. apply H.
  induction kids as [| [t k] kids IHk]; constructor; [apply IH | exact IHk].
Qed.

(** [count_loops] on a node: the update for the node itself, then its
    children from left to right. *)
Lemma count_loops_children (func_name : string) (n : node) (depth : Z) (st : counters) :
  count_loops func_name n depth st
  = if is_loop n then
      fold_left (fun st p => count_loops func_name p.2 (depth + 1) st) (children n)
        {| loop_count := loop_count st + 1;
           max_nesting := Z.max (max_nesting st) (depth + 1);
           current_nesting := depth + 1;
           has_recursion := has_recursion st;
           has_growing := has_growing st |}
    else
      fold_left (fun st p => count_loops func_name p.2 depth st) (children n)
        (if isinstance n "Call" then
           {| loop_count := loop_count st; max_nesting := max_nesting st;
              current_nesting := current_nesting st;
              has_recursion := has_recursion st || calls_name n func_name;
              has_growing := has_growing st
                             || calls_method_in n ["append"; "extend"; "insert"; "add"] |}
         else st).
Proof.
  destruct n as [c a kids]. cbn [count_loops children].
  destruct (is_loop (Node c a kids)).
  - generalize {| loop_count := loop_count st + 1;
                  max_nesting := Z.max (max_nesting st) (depth + 1);
                  current_nesting := depth + 1;
                  has_recursion := has_recursion st;
                  has_growing := has_growing st |}.
    induction kids as [| [t k] kids IH]; intros s; [reflexivity | apply IH].
  - generalize (if isinstance (Node c a kids) "Call" then
           {| loop_count := loop_count st; max_nesting := max_nesting st;
              current_nesting := current_nesting st;
              has_recursion := has_recursion st || calls_name (Node c a kids) func_name;
              has_growing := has_growing st
                             || calls_method_in (Node c a kids) ["append"; "extend"; "insert"; "add"] |}
         else st).
    induction kids as [| [t k] kids IH]; intros s; [reflexivity | apply IH].
Qed.

Lemma within_refl (depth : Z) (st : counters) : within depth st st.
Proof. unfold within. repeat split; try lia. auto. Qed.

Lemma within_trans (depth : Z) (st1 st2 st3 : counters) :
  within depth st1 st2 -> within depth st2 st3 -> within depth st1 st3.
Proof. unfold within. intros (? & ? & ? & ?) (? & ? & ? & ?). repeat split; try lia. auto. Qed.

Lemma fold_within (func_name : string) (depth : Z) (kids : list (string * node)) :
  Forall (fun p => forall depth st, within depth st (count_loops func_name p.2 depth st)) kids ->
  forall st,
    within depth st
      (fold_left (fun st p => count_loops func_name p.2 depth st) kids st).
Proof.
  induction 1 as [| p kids Hp _ IH]; intros st; cbn [fold_left].
  - apply within_refl.
  - eapply within_trans; [apply Hp | apply IH].
Qed.

Lemma count_loops_within (func_name : string) (n : node) :
  forall depth st, within depth st (count_loops func_name n depth st).
Proof.
  induction n as [c a kids IH] using node_ind_children. intros depth st.
  rewrite count_loops_children. cbn [children].
  destruct (is_loop (Node c a kids)).
  - pose proof (fold_within func_name (depth + 1) kids IH
                  {| loop_count := loop_count st + 1;
                     max_nesting := Z.max (max_nesting st) (depth + 1);
                     current_nesting := depth + 1;
                     has_recursion := has_recursion st;
                     has_growing := has_growing st |}) as H.
    unfold within in *. cbn in H. destruct H as (? & ? & ? & ?).
    repeat split; try lia. auto.
  - destruct (isinstance (Node c a kids) "Call").
    + pose proof (fold_within func_name depth kids IH
                    {| loop_count := loop_count st; max_nesting := max_nesting st;
                       current_nesting := current_nesting st;
                       has_recursion := has_recursion st || calls_name (Node c a kids) func_name;
                       has_growing := has_growing st
                                      || calls_method_in (Node c a kids)
                                           ["append"; "extend"; "insert"; "add"] |}) as H.
      unfold within in *. cbn in H. destruct H as (? & ? & ? & Hrec).
      repeat split; try lia. intros Hr. apply Hrec. rewrite Hr. reflexivity.
    + apply fold_within, IH.
Qed.

(** X15. The counters of a function. For every function definition,
    [_analyze_function] reports a nesting depth between 0 and the number of
    loops it counted; it rates the function O(1) exactly when it counted no
    loop and found no recursive call, and in every case with one of the five
    labels O(1), O(n), O(n²), O(n³), O(2^n), ranked as [COMPLEXITY_RANK]
    ranks them. *)
Theorem per_function_counters_and_label (fn : node) :
  let fc := _analyze_function fn in
  0 <= fc_max_nesting fc <= fc_loop_count fc
  /\ (time_complexity fc = "O(1)"
      <-> fc_loop_count fc = 0 /\ fc_has_recursion fc = false)
  /\ (time_complexity fc, time_complexity_rank fc)
     ∈ [("O(1)", 1); ("O(n)", 3); ("O(n²)", 5); ("O(n³)", 6); ("O(2^n)", 7)].
Proof.
  cbn zeta. unfold _analyze_function. cbn [fc_max_nesting fc_loop_count fc_has_recursion
    time_complexity time_complexity_rank].
  pose proof (count_loops_within (node_name fn) fn 0 counters0) as (Hl & Hm & Hb & _).
  set (st := count_loops (node_name fn) fn 0 counters0) in *. cbn in Hl, Hm, Hb.
  split; [lia |]. unfold function_time_complexity.
  destruct (has_recursion st).
  - split.
    + split; [| intros [_ H]; discriminate].
      destruct (2 <=? max_nesting st); [discriminate |].
      destruct (max_nesting st =? 1); discriminate.
    + destruct (2 <=? max_nesting st); [in_list |].
      destruct (max_nesting st =? 1); in_list.
  - destruct (3 <=? max_nesting st) eqn:H3.
    { apply Z.leb_le in H3. split; [split; [discriminate | intros [H _]; lia] | in_list]. }
    destruct (max_nesting st =? 2) eqn:H2.
    { apply Z.eqb_eq in H2. split; [split; [discriminate | intros [H _]; lia] | in_list]. }
    destruct (max_nesting st =? 1) eqn:H1.
    { apply Z.eqb_eq in H1. split; [split; [discriminate | intros [H _]; lia] | in_list]. }
    cbn [orb]. destruct (0 <? loop_count st) eqn:H0.
    { apply Z.ltb_lt in H0. split; [split; [discriminate | intros [H _]; lia] | in_list]. }
    apply Z.ltb_ge in H0. split; [split; [intros _; split; [lia | reflexivity] | reflexivity] |].
    in_list.
Qed.

(** [_analyze_node] on a node: the update for the node itself, then its
    children from left to right. *)
Lemma _analyze_node_children (n : node) (nesting : Z) (self : analyzer) :
  _analyze_node n nesting self
  = if is_function_def n && String.eqb (node_name n) "__init__" then self
    else if is_loop n then
      fold_left (fun self p =>
                   _analyze_node p.2 (if _is_constant_loop n then nesting else nesting + 1) self)
                (children n) (on_loop self n nesting)
    else
      fold_left (fun self p => _analyze_node p.2 nesting self) (children n)
        (let self := if isinstance n "Call" then on_call self n else self in
         let self := if isinstance n "ListComp" then on_list_comp self else self in
         if isinstance n "List" || isinstance n "Dict" || isinstance n "Set"
         then on_literal self n else self).
Proof.
  destruct n as [c a kids]. cbn [_analyze_node children].
  destruct (is_function_def (Node c a kids) && String.eqb (node_name (Node c a kids)) "__init__");
    [reflexivity |].
  destruct (is_loop (Node c a kids)).
  - generalize (on_loop self (Node c a kids) nesting).
    generalize (if _is_constant_loop (Node c a kids) then nesting else nesting + 1).
    induction kids as [| [t k] kids IH]; intros d s; [reflexivity | apply IH].
  - cbn zeta.
    generalize (if isinstance (Node c a kids) "List" || isinstance (Node c a kids) "Dict"
                   || isinstance (Node c a kids) "Set"
                then on_literal
                       (if isinstance (Node c a kids) "ListComp"
                        then on_list_comp
                               (if isinstance (Node c a kids) "Call"
                                then on_call self (Node c a kids) else self)
                        else if isinstance (Node c a kids) "Call"
                             then on_call self (Node c a kids) else self)
                       (Node c a kids)
                else if isinstance (Node c a kids) "ListComp"
                     then on_list_comp
                            (if isinstance (Node c a kids) "Call"
                             then on_call self (Node c a kids) else self)
                     else if isinstance (Node c a kids) "Call"
                          then on_call self (Node c a kids) else self).
    induction kids as [| [t k] kids IH]; intros s; [reflexivity | apply IH].
Qed.

Lemma within_overall_refl (nesting : Z) (a : analyzer) : within_overall nesting a a.
Proof. unfold within_overall. repeat split; try lia. auto. Qed.

Lemma within_overall_trans (nesting : Z) (a1 a2 a3 : analyzer) :
  within_overall nesting a1 a2 -> within_overall nesting a2 a3 ->
  within_overall nesting a1 a3.
Proof.
  unfold within_overall. intros (? & ? & ? & ?) (? & ? & ? & ?).
  repeat split; try lia. auto.
Qed.

Lemma fold_within_overall (nesting : Z) (kids : list (string * node)) :
  Forall (fun p => forall nesting self, 0 <= nesting ->
                     within_overall nesting self (_analyze_node p.2 nesting self)) kids ->
  0 <= nesting ->
  forall self,
    within_overall nesting self
      (fold_left (fun self p => _analyze_node p.2 nesting self) kids self).
Proof.
  intros H Hn. induction H as [| p kids Hp _ IH]; intros self; cbn [fold_left].
  - apply within_overall_refl.
  - eapply within_overall_trans; [apply Hp, Hn | apply IH].
Qed.

Lemma on_call_within (nesting : Z) (self : analyzer) (n : node) :
  within_overall nesting self (on_call self n).
Proof.
  unfold within_overall, on_call. destruct (child n "func"); cbn.
  - repeat split; try lia. intros ->. reflexivity.
  - repeat split; try lia. auto.
Qed.

Lemma on_list_comp_within (nesting : Z) (self : analyzer) :
  0 <= nesting -> within_overall nesting self (on_list_comp self).
Proof. unfold within_overall, on_list_comp. cbn. intros. repeat split; try lia. auto. Qed.

Lemma on_literal_within (nesting : Z) (self : analyzer) (n : node) :
  within_overall nesting self (on_literal self n).
Proof. unfold within_overall, on_literal. cbn. repeat split; try lia. auto. Qed.

Lemma _analyze_node_within (n : node) :
  forall nesting self, 0 <= nesting ->
    within_overall nesting self (_analyze_node n nesting self).
Proof.
  induction n as [c a kids IH] using node_ind_children. intros nesting self Hn.
  rewrite _analyze_node_children. cbn [children].
  destruct (is_function_def (Node c a kids) && String.eqb (node_name (Node c a kids)) "__init__");
    [apply within_overall_refl |].
  destruct (is_loop (Node c a kids)).
  - destruct (_is_constant_loop (Node c a kids)) eqn:Hc.
    + pose proof (fold_within_overall nesting kids IH Hn
                    (on_loop self (Node c a kids) nesting)) as H.
      unfold within_overall, on_loop in H |- *. rewrite Hc in H |- *. cbn in H |- *.
      destruct H as (? & ? & ? & ?). repeat split; try lia. auto.
    + pose proof (fold_within_overall (nesting + 1) kids IH ltac:(lia)
                    (on_loop self (Node c a kids) nesting)) as H.
      unfold within_overall, on_loop in H |- *. rewrite Hc in H |- *. cbn in H |- *.
      destruct H as (? & ? & ? & ?). repeat split; try lia. auto.
  - cbn zeta. eapply within_overall_trans; [| apply fold_within_overall; [exact IH | exact Hn]].
    assert (H1 : within_overall nesting self
                   (if isinstance (Node c a kids) "Call"
                    then on_call self (Node c a kids) else self)).
    { destruct (isinstance (Node c a kids) "Call");
        [apply on_call_within | apply within_overall_refl]. }
    assert (H2 : within_overall nesting self
                   (if isinstance (Node c a kids) "ListComp"
                    then on_list_comp (if isinstance (Node c a kids) "Call"
                                       then on_call self (Node c a kids) else self)
                    else if isinstance (Node c a kids) "Call"
                         then on_call self (Node c a kids) else self)).
    { destruct (isinstance (Node c a kids) "ListComp"); [| exact H1].
      eapply within_overall_trans; [exact H1 | apply on_list_comp_within, Hn]. }
    destruct (isinstance (Node c a kids) "List" || isinstance (Node c a kids) "Dict"
              || isinstance (Node c a kids) "Set"); [| exact H2].
    eapply within_overall_trans; [exact H2 | apply on_literal_within].
Qed.

(** X16. The counters of a program. For every program that parses, [analyze]
    ends with a nesting depth between 0 and the number of loops and list
    comprehensions it counted; it rates the program O(1) exactly when it
    counted none and found no call of a function the program defines, and
    otherwise O(n), O(n²) or O(n³). *)
Theorem overall_counters_and_label (tree : node) :
  exists self,
    r_analysis (analyze (Some tree)) = Some self
    /\ 0 <= a_max_nesting self <= a_loop_count self
    /\ (r_time_complexity (analyze (Some tree)) = "O(1)"
        <-> a_loop_count self = 0 /\ a_has_recursion self = false)
    /\ r_time_complexity (analyze (Some tree)) ∈ ["O(1)"; "O(n)"; "O(n²)"; "O(n³)"].
Proof.
  unfold analyze. cbn [r_analysis r_time_complexity]. eexists. split; [reflexivity |].
  match goal with |- context [_analyze_node tree 0 ?s] =>
    pose proof (_analyze_node_within tree 0 s ltac:(lia)) as (Hl & Hm & Hb & _);
    set (self := _analyze_node tree 0 s) in *
  end.
  cbn in Hl, Hm, Hb. split; [lia |]. unfold _determine_time_complexity.
  destruct (3 <=? a_max_nesting self) eqn:H3.
  { apply Z.leb_le in H3. split; [split; [discriminate | intros [H _]; lia] | in_list]. }
  destruct (a_max_nesting self =? 2) eqn:H2.
  { apply Z.eqb_eq in H2. split; [split; [discriminate | intros [H _]; lia] | in_list]. }
  destruct (a_max_nesting self =? 1) eqn:H1.
  { apply Z.eqb_eq in H1. split; [split; [discriminate | intros [H _]; lia] | in_list]. }
  cbn [orb]. destruct (0 <? a_loop_count self) eqn:H0.
  { apply Z.ltb_lt in H0. split; [split; [discriminate | intros [H _]; lia] | in_list]. }
  apply Z.ltb_ge in H0. cbn [orb]. destruct (a_has_recursion self).
  - split; [split; [discriminate | intros [_ H]; discriminate] | in_list].
  - split; [split; [intros _; split; [lia | reflexivity] | reflexivity] | in_list].
Qed.

End ComplexityCounters.

(** ** The route [POST /run] *)

Module RouteFacts.
Import Routes.

(** What [run_code_guest] of a controller built by [__init__] does: it
    raises [AttributeError] when auto-detection is asked for,
    [NotImplementedError] when the type is not one of the factory's, and
    returns a response otherwise. *)
Lemma controller_outcomes (env : Controller.Env) (request : ExecutionCreateRequest) :
  match snd (Controller.run_code_guest env Controller.__init__ request) with
  | Return _ => ~ Controller.wants_auto_detection request
  | Raise e =>
      (exn_cls e = AttributeError /\ (Controller.wants_auto_detection request
                                      \/ req_dataType request = Some ""))
      \/ (exn_cls e = NotImplementedError /\ ~ Controller.wants_auto_detection request)
  end.
Proof.
  unfold Controller.run_code_guest, Controller.wants_auto_detection.
  destruct (req_dataType request) as [dt |] eqn:Hdt.
  2: { cbn. left. split; [reflexivity | left; left; reflexivity]. }
  destruct (Py.is_empty dt) eqn:Hempty.
  { destruct dt; [| discriminate]. cbn. left. split; [reflexivity | right; reflexivity]. }
  destruct (String.eqb dt "auto") eqn:Hauto.
  { apply String.eqb_eq in Hauto as ->. cbn.
    left. split; [reflexivity | left; right; left; reflexivity]. }
  cbn [orb]. destruct (req_autoDetect request) as [[|] |] eqn:Hflag.
  - cbn. left. split; [reflexivity | left; right; right; reflexivity].
  - cbn [Controller.getattr]. unfold Controller.factory_is_supported.
    cbn [Controller.getattr Controller.__init__ Controller.instance_dict Dict.get
         String.eqb Ascii.eqb Bool.eqb Controller.is_supported].
    assert (Hno : ~ (Some dt = None \/ Some dt = Some "auto" \/ Some false = Some true)).
    { intros [H | [H | H]]; try discriminate. injection H as ->. discriminate. }
    destruct (bool_decide _).
    + destruct (Controller.execute_with_timeout env _ _ _) as [steps | e].
      * destruct (Controller.find_error steps); cbn; exact Hno.
      * destruct (is_timeout_error e); cbn; exact Hno.
    + cbn. right. split; [reflexivity | exact Hno].
  - cbn [Controller.getattr]. unfold Controller.factory_is_supported.
    cbn [Controller.getattr Controller.__init__ Controller.instance_dict Dict.get
         String.eqb Ascii.eqb Bool.eqb Controller.is_supported].
    assert (Hno : ~ (Some dt = None \/ Some dt = Some "auto" \/ None = Some true)).
    { intros [H | [H | H]]; try discriminate. injection H as ->. discriminate. }
    destruct (bool_decide _).
    + destruct (Controller.execute_with_timeout env _ _ _) as [steps | e].
      * destruct (Controller.find_error steps); cbn; exact Hno.
      * destruct (is_timeout_error e); cbn; exact Hno.
    + cbn. right. split; [reflexivity | exact Hno].
Qed.




End RouteFacts.

(** ** The executor always reports a step *)

Module ExecutorReports.
Import Trace Executor.

Lemma app_not_nil {A} (l : list A) (x : A) : l ++ [x] <> [].
Proof. destruct l; discriminate. Qed.

(** X19. [execute] never returns an empty list, whatever the child process
    produced: a run that yields no traced line still gets the fallback
    steps, a failed run an error step, and an exception raised while the
    steps are built the single "Unexpected error" step. *)
Theorem execute_returns_at_least_one_step (env : Env) (code : string)
    (result : ExecutionResult) (data_structure_type : option string) :
  execute env code result data_structure_type <> [].
Proof.
  unfold execute.
  destruct (execute_body env code result data_structure_type) as [steps | e] eqn:Hbody;
    [| discriminate].
  unfold execute_body in Hbody.
  destruct (waiting_signal_of env result) as [waiting_signal result'].
  match type of Hbody with bind ?x _ = _ => destruct x as [steps0 | e0] eqn:Hsteps end;
    [| discriminate].
  assert (Hne : steps0 <> []).
  { destruct (is_interactive result').
    - destruct (_create_steps_from_interactive_result _ _ _ _ _) as [l |] eqn:Hl;
        [| discriminate].
      apply FailedRunFacts._create_steps_from_interactive_result_shape in Hl as [Hl _].
      cbn [bind] in Hsteps. destruct (negb _); injection Hsteps as <-; [| exact Hl].
      destruct l; [congruence | discriminate].
    - destruct (exit_code result' =? 0).
      + apply FailedRunFacts._create_steps_from_result_shape in Hsteps as [Hl _]. exact Hl.
      + injection Hsteps as <-. discriminate. }
  cbn [bind] in Hbody. destruct waiting_signal as [w |]; [| congruence].
  destruct (truthy w); [| congruence].
  destruct (waiting_step env code w steps0); [| discriminate].
  cbn [bind] in Hbody. injection Hbody as <-. apply app_not_nil.
Qed.

End ExecutorReports.

(** ** Input values are handed out in order *)

Module InputOrder.
Import Trace Wrapper WrapperRuns.

Lemma guest_ind_handler (P : guest -> Prop) :
  (forall vars, P (GEnd vars)) -> (forall msg, P (GRaise msg)) ->
  (forall code, P (GExit code)) ->
  (forall ev k, P k -> P (GLine ev k)) ->
  (forall text k, P k -> P (GPrint text k)) ->
  (forall prompt k handler,
      (forall value, P (k value)) ->
      match handler with Some p' => P p' | None => True end ->
      P (GInput prompt k handler)) ->
  forall p, P p.
Proof.
  intros HEnd HRaise HExit HLine HPrint HInput. fix IH 1.
  intros [vars | msg | code | ev k | text k | prompt k handler].
  - apply HEnd.
  - apply HRaise.
  - apply HExit.
  - apply HLine, IH.
  - apply HPrint, IH.
  - apply HInput; [intros value; apply IH |].
    destruct handler as [p' |]; [apply IH | exact I].
Qed.

Lemma run_consumes_in_order (format_exc : string -> string) (p : guest) :
  forall g g' f,
    run format_exc p g = (g', f) ->
    (input_index g <= length (input_values g))%nat ->
    input_values g' = input_values g
    /\ (input_index g' <= length (input_values g))%nat
    /\ take (input_index g') (input_values g)
       = take (input_index g) (input_values g) ++ answers p g.
Proof.
  induction p as [vars | msg | code | ev k IH | text k IH | prompt k handler IHk IHh]
    using guest_ind_handler; intros g g' f Hrun Hle; cbn [run answers] in *.
  - injection Hrun as <- _. cbn. rewrite app_nil_r. auto.
  - injection Hrun as <- _. cbn. rewrite app_nil_r. auto.
  - injection Hrun as <- _. rewrite app_nil_r. auto.
  - apply (IH _ _ _ Hrun). exact Hle.
  - apply (IH _ _ _ Hrun). exact Hle.
  - unfold custom_input in *. cbn [write input_values input_index] in *.
    destruct (input_values g !! input_index g) as [value |] eqn:Hv.
    + apply IHk in Hrun; cbn [input_values input_index] in *.
      * destruct Hrun as (Hvals & Hidx & Htake). split; [exact Hvals |].
        split; [exact Hidx |]. rewrite Htake.
        rewrite (take_S_r _ _ value Hv), <- app_assoc. reflexivity.
      * apply lookup_lt_Some in Hv. lia.
    + destruct handler as [p' |].
      * apply IHh in Hrun; cbn [input_values input_index] in *; [exact Hrun | exact Hle].
      * injection Hrun as <- _. cbn. rewrite app_nil_r. auto.
Qed.


End InputOrder.

(** ** The size and the keys of a serialized value *)

Module SerializerBounds.
Import Serializer SerializedShape.

Section WithHeap.

Variable getsizeof : pyval -> Z.
Variable h : heap.

Abbreviation serialize := (Serializer.serialize getsizeof h).

Lemma serialize_items_length (f : each pyval) (items : list pyval) : forall seen vs seen',
  serialize_items f items seen = (vs, seen') -> length vs = length items.
Proof.
  induction items as [| x rest IH]; intros seen vs seen'; cbn [serialize_items].
  - intros [= <- _]. reflexivity.
  - destruct (f x seen) as [v s1]. destruct (serialize_items f rest s1) as [vs1 s2] eqn:E.
    intros [= <- _]. cbn. f_equal. exact (IH _ _ _ E).
Qed.

Lemma serialize_sequence_length (f : each pyval) (items : list pyval) (seen : gset N) :
  exists l,
    (serialize_sequence f items seen).1 = SList l
    /\ length l = (if (50 <? length items)%nat then 51 else length items)%nat
    /\ ((50 < length items)%nat -> last l = Some (SStr "<truncated>")).
Proof.
  unfold serialize_sequence. destruct (50 <? length items)%nat eqn:Hlong.
  - apply Nat.ltb_lt in Hlong.
    destruct (serialize_items f (take 50 items) seen) as [vs s] eqn:E.
    apply serialize_items_length in E. rewrite length_take in E.
    exists (vs ++ [SStr "<truncated>"]). cbn. split; [reflexivity |].
    rewrite length_app, last_snoc. cbn. split; [lia | reflexivity].
  - apply Nat.ltb_ge in Hlong.
    destruct (serialize_items f items seen) as [vs s] eqn:E.
    apply serialize_items_length in E.
    exists vs. cbn. split; [reflexivity |]. split; [exact E | lia].
Qed.

Lemma sdict_set_length (k : string) (v : sval) (d : list (prim * sval)) :
  (length (sdict_set k v d) <= S (length d))%nat.
Proof.
  induction d as [| [[b | n | r | k'] v'] d IH]; cbn; try lia.
  destruct (String.eqb k k'); cbn; lia.
Qed.

Lemma serialize_entries_length (f : each pyval) (items : list (pyval * pyval)) :
  forall seen, (length (serialize_entries f items seen).1 <= length items)%nat.
Proof.
  induction items as [| [[| k | i] v] rest IH]; intros seen; cbn [serialize_entries].
  - cbn. lia.
  - specialize (IH seen). cbn. lia.
  - destruct (f v seen) as [sv s1]. specialize (IH s1).
    destruct (serialize_entries f rest s1) as [d s2]. cbn in *. lia.
  - specialize (IH seen). cbn. lia.
Qed.

Lemma serialize_large_length (f : each pyval) (items : list (pyval * pyval)) :
  forall serialized count seen,
    (length serialized <= count)%nat -> (count < 50)%nat ->
    (length (serialize_large f items serialized count seen).1 <= 51)%nat.
Proof.
  induction items as [| [[| k | i] v] rest IH]; intros serialized count seen Hlen Hcount;
    cbn [serialize_large].
  - cbn. lia.
  - apply IH; assumption.
  - destruct (f v seen) as [sv s1].
    destruct (50 <=? S count)%nat eqn:Hfull.
    + cbn [fst]. pose proof (sdict_set_length "<truncated>" (SStr "...")
                               (serialized ++ [(k, sv)])) as H.
      rewrite length_app in H. cbn in H. lia.
    + apply Nat.leb_gt in Hfull. apply IH; [| lia].
      rewrite length_app. cbn. lia.
  - apply IH; assumption.
Qed.


Lemma names_cons_str (k : string) (v : sval) (d : list (prim * sval)) :
  names ((PStr k, v) :: d) = k :: names d.
Proof. reflexivity. Qed.

Lemma names_sdict_set (k : string) (v : sval) (d : list (prim * sval)) (name : string) :
  name ∈ names (sdict_set k v d) <-> name = k \/ name ∈ names d.
Proof.
  induction d as [| [[b | n | r | k'] v'] d IH]; cbn [sdict_set].
  - rewrite names_cons_str. cbn. rewrite elem_of_cons. reflexivity.
  - change (names ((PBool b, v') :: ?x)) with (names x). exact IH.
  - change (names ((PInt n, v') :: ?x)) with (names x). exact IH.
  - change (names ((PFloat r, v') :: ?x)) with (names x). exact IH.
  - destruct (String.eqb_spec k k') as [-> | Hne]; rewrite !names_cons_str, !elem_of_cons.
    + tauto.
    + rewrite IH. tauto.
Qed.

Lemma serialize_attrs_names (f : each pyval) (obj_dict : list (string * pyval)) :
  forall result seen name,
    name ∈ names (serialize_attrs f obj_dict result seen).1
    <-> name ∈ names result \/ name ∈ public obj_dict.
Proof.
  unfold public.
  induction obj_dict as [| [k v] rest IH]; intros result seen name;
    cbn [serialize_attrs map fst].
  - cbn. rewrite elem_of_nil. tauto.
  - destruct (Py.startswith "_" k) eqn:Hk.
    + rewrite IH, filter_cons_False; [reflexivity | rewrite Hk; discriminate].
    + destruct (f v seen) as [sv s1].
      rewrite IH, names_sdict_set, filter_cons_True by exact Hk.
      rewrite elem_of_cons. tauto.
Qed.

(** X22. The keys of a serialized instance. An instance with one of the
    data-structure attributes, met for the first time and not too deep, is
    serialized to a dictionary whose keys are ["type"] and the names of its
    attributes that do not start with an underscore: no private attribute
    is shown and no public one is left out. *)
Theorem instance_shows_its_public_attributes (levels : nat) (i : N) (seen : gset N)
    (t : string) (dict_id : N) (obj_dict : list (string * pyval)) (str : string) :
  h i = OInstance t (Some (dict_id, obj_dict)) str ->
  i ∉ seen ->
  is_relevant_obj obj_dict = true ->
  exists d,
    (serialize (S levels) false (VRef i) seen).1 = SDict d
    /\ forall name, name ∈ names d <-> name = "type" \/ name ∈ public obj_dict.
Proof.
  intros Hobj Hseen Hrel. cbn [Serializer.serialize].
  rewrite bool_decide_eq_false_2 by exact Hseen.
  rewrite Hobj. unfold serialize_object. rewrite Hrel.
  pose proof (serialize_attrs_names (serialize levels false) obj_dict
                [(PStr "type", SStr t)] ({[i]} ∪ seen)) as H.
  destruct (serialize_attrs _ _ _ _) as [d s]. exists d. split; [reflexivity |].
  intros name. rewrite H. cbn. rewrite list_elem_of_singleton. reflexivity.
Qed.

End WithHeap.

Lemma instance_shows_its_public_attributes_witness :
  (ring 3 0%N = OInstance "Node" (Some (1000%N, ring_entries 3 0)) "<Node object>"
   /\ (0%N ∉ (∅ : gset N))
   /\ is_relevant_obj (ring_entries 3 0) = true)
  /\ exists d,
      (Serializer.serialize sizeof_sample (ring 3) 5 false (VRef 0) ∅).1 = SDict d
      /\ forall name, name ∈ names d <-> name = "type" \/ name ∈ public (ring_entries 3 0).
Proof.
  assert (H1 : ring 3 0%N
               = OInstance "Node" (Some (1000%N, ring_entries 3 0)) "<Node object>")
    by reflexivity.
  assert (H2 : 0%N ∉ (∅ : gset N)) by apply not_elem_of_empty.
  assert (H3 : is_relevant_obj (ring_entries 3 0) = true) by reflexivity.
  split; [repeat split; assumption |].
  exact (instance_shows_its_public_attributes sizeof_sample (ring 3) 4 0%N ∅
           "Node" 1000%N (ring_entries 3 0) "<Node object>" H1 H2 H3).
Defined.

End SerializerBounds.

(** ** Linked lists *)

Module LinkedListFacts.
Import MessagesTh NodeManager MethodExecution.

Lemma store_get_set_same {A} (k : string) (v : A) (d : list (string * A)) :
  Dict.get k (Dict.set k v d) = Some v.
Proof.
  induction d as [| [k' v'] d IH]; cbn.
  - rewrite String.eqb_refl. reflexivity.
  - destruct (String.eqb k k') eqn:E; cbn.
    + rewrite String.eqb_refl. reflexivity.
    + rewrite E. exact IH.
Qed.

Lemma store_get_set_other {A} (k k' : string) (v : A) (d : list (string * A)) :
  k <> k' -> Dict.get k' (Dict.set k v d) = Dict.get k' d.
Proof.
  intros Hne. induction d as [| [k0 v0] d IH]; cbn.
  - destruct (String.eqb k' k) eqn:E; [| reflexivity].
    apply String.eqb_eq in E. congruence.
  - destruct (String.eqb k k0) eqn:E; cbn.
    + apply String.eqb_eq in E. subst k0.
      destruct (String.eqb k' k) eqn:E'; [| reflexivity].
      apply String.eqb_eq in E'. congruence.
    + rewrite IH. reflexivity.
Qed.

Lemma store_set_new {A} (k : string) (v : A) (d : list (string * A)) :
  Dict.get k d = None -> Dict.set k v d = d ++ [(k, v)].
Proof.
  induction d as [| [k' v'] d IH]; cbn; [reflexivity |].
  destruct (String.eqb k k'); [discriminate |].
  intros H. rewrite IH by exact H. reflexivity.
Qed.

Lemma store_set_keys {A} (k : string) (v : A) (d : list (string * A)) :
  Dict.get k d <> None -> map fst (Dict.set k v d) = map fst d.
Proof.
  induction d as [| [k' v'] d IH]; cbn; [congruence |].
  destruct (String.eqb k k') eqn:E; cbn.
  - apply String.eqb_eq in E. subst. reflexivity.
  - intros H. rewrite IH by exact H. reflexivity.
Qed.

Lemma store_get_key {A} (k : string) (d : list (string * A)) (v : A) :
  Dict.get k d = Some v -> k ∈ map fst d.
Proof.
  induction d as [| [k' v'] d IH]; cbn; [discriminate |].
  destruct (String.eqb k k') eqn:E.
  - apply String.eqb_eq in E. subst. intros _. apply list_elem_of_here.
  - intros H. apply list_elem_of_further, IH, H.
Qed.

Lemma node_id_inj (a b : Z) : "node_" +:+ Py.str_int a = "node_" +:+ Py.str_int b -> a = b.
Proof.
  unfold Py.str_int. intros H.
  change (String "n" (String "o" (String "d" (String "e" (String "_" (pretty a)))))
          = String "n" (String "o" (String "d" (String "e" (String "_" (pretty b)))))) in H.
  injection H as H. apply (inj pretty) in H. exact H.
Qed.

Lemma well_numbered_key (nodes : node_store) (id : string) :
  well_numbered nodes -> id ∈ map fst nodes ->
  exists k, (k < length nodes)%nat /\ id = "node_" +:+ Py.str_int (Z.of_nat k).
Proof.
  unfold well_numbered. intros -> Hin.
  apply list_elem_of_fmap in Hin as (k & -> & Hk).
  exists k. split; [| reflexivity].
  apply elem_of_seq in Hk. lia.
Qed.

Lemma well_numbered_fresh (nodes : node_store) :
  well_numbered nodes -> Dict.get (new_node_id nodes) nodes = None.
Proof.
  intros Hn. destruct (Dict.get (new_node_id nodes) nodes) as [n |] eqn:E; [| reflexivity].
  apply store_get_key in E. apply (well_numbered_key _ _ Hn) in E as (k & Hk & E).
  unfold new_node_id, len in E. apply node_id_inj in E. lia.
Qed.

Lemma well_numbered_given (nodes : node_store) (id : string) (n : node_data) :
  well_numbered nodes -> Dict.get id nodes = Some n -> given (Some id) = true.
Proof.
  intros Hn E. apply store_get_key in E.
  apply (well_numbered_key _ _ Hn) in E as (k & _ & ->). reflexivity.
Qed.


Lemma well_numbered_set_new (nodes : node_store) (v : node_data) :
  well_numbered nodes -> well_numbered (Dict.set (new_node_id nodes) v nodes).
Proof.
  intros Hn. rewrite store_set_new by (apply well_numbered_fresh, Hn).
  unfold well_numbered in *. rewrite map_app, length_app, Hn. cbn [map fst length].
  rewrite Nat.add_1_r, seq_S, map_app. reflexivity.
Qed.

Lemma well_numbered_same_keys (nodes nodes' : node_store) :
  map fst nodes' = map fst nodes -> well_numbered nodes -> well_numbered nodes'.
Proof.
  unfold well_numbered. intros Hk Hn.
  assert (length nodes' = length nodes) as Hl.
  { rewrite <- (length_map fst nodes'), Hk. apply length_map. }
  rewrite Hk, Hl. exact Hn.
Qed.

Lemma set_next_keys (id : string) (nx : option string) (nodes : node_store) :
  map fst (set_next id nx nodes) = map fst nodes.
Proof.
  unfold set_next. destruct (Dict.get id nodes) eqn:E; [| reflexivity].
  apply store_set_keys. congruence.
Qed.

Lemma well_numbered_set_next (nodes : node_store) (id : string) (nx : option string) :
  well_numbered nodes -> well_numbered (set_next id nx nodes).
Proof. apply well_numbered_same_keys, set_next_keys. Qed.

Lemma set_next_same (id : string) (nx : option string) (nodes : node_store) (n : node_data) :
  Dict.get id nodes = Some n ->
  Dict.get id (set_next id nx nodes) = Some (with_next nx n).
Proof. intros E. unfold set_next. rewrite E. apply store_get_set_same. Qed.

Lemma set_next_other (id id' : string) (nx : option string) (nodes : node_store) :
  id <> id' -> Dict.get id' (set_next id nx nodes) = Dict.get id' nodes.
Proof.
  intros Hne. unfold set_next. destruct (Dict.get id nodes); [| reflexivity].
  apply store_get_set_other, Hne.
Qed.

(** Segments. *)

Lemma segment_frame (nodes nodes' : node_store) (cells : list (string * string)) :
  forall current stop,
  (forall id, id ∈ map fst cells -> Dict.get id nodes' = Dict.get id nodes) ->
  segment nodes current cells stop -> segment nodes' current cells stop.
Proof.
  induction cells as [| [id nm] cells IH]; intros current stop Hsame; cbn; [tauto |].
  intros (-> & n & Hget & Hname & Hseg). split; [reflexivity |].
  exists n. split; [| split; [exact Hname |]].
  - rewrite Hsame; [exact Hget | apply list_elem_of_here].
  - apply IH; [| exact Hseg].
    intros id' Hin. apply Hsame. cbn. apply list_elem_of_further, Hin.
Qed.

Lemma segment_known (nodes : node_store) (cells : list (string * string)) :
  forall current stop id,
  segment nodes current cells stop -> id ∈ map fst cells ->
  exists n, Dict.get id nodes = Some n.
Proof.
  induction cells as [| [id0 nm] cells IH]; intros current stop id; cbn.
  - intros _ Hin. inversion Hin.
  - intros (-> & n & Hget & _ & Hseg) Hin.
    apply elem_of_cons in Hin as [-> | Hin]; [eauto | eapply IH; eauto].
Qed.

Lemma segment_fresh (nodes : node_store) (cells : list (string * string))
    (current stop : option string) :
  well_numbered nodes -> segment nodes current cells stop ->
  new_node_id nodes ∉ map fst cells.
Proof.
  intros Hn Hseg Hin.
  destruct (segment_known _ _ _ _ _ Hseg Hin) as (n & Hget).
  rewrite well_numbered_fresh in Hget by exact Hn. discriminate.
Qed.

Lemma segment_length (nodes : node_store) (cells : list (string * string))
    (current stop : option string) :
  segment nodes current cells stop -> NoDup (map fst cells) ->
  (length cells <= length nodes)%nat.
Proof.
  intros Hseg Hnd.
  rewrite <- (length_map fst cells), <- (length_map fst nodes).
  apply submseteq_length, NoDup_submseteq; [exact Hnd |].
  intros id Hin. destruct (segment_known _ _ _ _ _ Hseg Hin) as (n & Hget).
  eapply store_get_key, Hget.
Qed.

(** The traversal. *)

Lemma traverse_loop_segment (nodes : node_store) (cells : list (string * string)) :
  forall fuel current visited,
  segment nodes current cells None -> NoDup (map fst cells) ->
  (forall id, id ∈ map fst cells -> id ∉ visited) ->
  (length cells <= fuel)%nat ->
  traverse_loop fuel nodes current visited = Some (map snd cells).
Proof.
  induction cells as [| [id nm] cells IH]; intros fuel current visited Hseg Hnd Hvis Hfuel;
    cbn in Hseg.
  - subst current. destruct fuel; reflexivity.
  - destruct Hseg as (-> & n & Hget & Hname & Hseg).
    destruct fuel as [| fuel]; [cbn in Hfuel; lia |].
    cbn [traverse_loop].
    rewrite bool_decide_eq_false_2 by (apply Hvis, list_elem_of_here).
    rewrite Hget.
    cbn [map fst] in Hnd. apply NoDup_cons in Hnd as [Hnotin Hnd].
    rewrite (IH fuel (next n) ({[id]} ∪ visited) Hseg Hnd).
    + cbn [map snd]. rewrite Hname. reflexivity.
    + intros id' Hin. rewrite elem_of_union, elem_of_singleton.
      intros [-> | Hv]; [exact (Hnotin Hin) |].
      eapply Hvis; [| exact Hv]. cbn [map fst]. apply list_elem_of_further, Hin.
    + cbn in Hfuel. lia.
Qed.

Lemma holds_traverse (nodes : node_store) (i : list_instance) (items : list string) :
  holds nodes i items -> _traverse_linked_list nodes i = Some items.
Proof.
  intros (Hn & Hcount & cells & <- & Hnd & Hseg).
  unfold _traverse_linked_list.
  apply traverse_loop_segment; [exact Hseg | exact Hnd | |].
  - intros id _. apply not_elem_of_empty.
  - eapply segment_length; eauto.
Qed.

Lemma size_keys_le (keys : list string) :
  (size (list_to_set keys : gset string) <= length keys)%nat.
Proof.
  induction keys as [| k keys IH]; cbn [list_to_set length].
  - rewrite size_empty. lia.
  - rewrite size_union_alt, size_singleton.
    assert (size ((list_to_set keys : gset string) ∖ {[k]}) <= size (list_to_set keys : gset string))%nat
      by (apply subseteq_size; intros x Hx; apply elem_of_difference in Hx; tauto).
    lia.
Qed.

Lemma traverse_loop_total (nodes : node_store) :
  forall fuel current visited,
  (size ((list_to_set (map fst nodes) : gset string) ∖ visited) <= fuel)%nat ->
  exists result,
    traverse_loop fuel nodes current visited = Some result
    /\ (length result <= size ((list_to_set (map fst nodes) : gset string) ∖ visited))%nat.
Proof.
  induction fuel as [| fuel IH]; intros current visited Hsize.
  - destruct current as [id |]; cbn [traverse_loop]; [| exists []; split; [reflexivity | cbn; lia]].
    case_bool_decide as Hvis; [exists []; split; [reflexivity | cbn; lia] |].
    destruct (Dict.get id nodes) as [n |] eqn:Hget; [| exists []; split; [reflexivity | cbn; lia]].
    exfalso. apply store_get_key in Hget.
    assert (id ∈ (list_to_set (map fst nodes) : gset string) ∖ visited) as Hin.
    { apply elem_of_difference. split; [apply elem_of_list_to_set, Hget | exact Hvis]. }
    assert (size ((list_to_set (map fst nodes) : gset string) ∖ visited) = 0%nat) as Hz by lia.
    apply size_empty_inv in Hz. apply Hz in Hin. revert Hin. apply not_elem_of_empty.
  - destruct current as [id |]; cbn [traverse_loop]; [| exists []; split; [reflexivity | cbn; lia]].
    case_bool_decide as Hvis; [exists []; split; [reflexivity | cbn; lia] |].
    destruct (Dict.get id nodes) as [n |] eqn:Hget; [| exists []; split; [reflexivity | cbn; lia]].
    apply store_get_key in Hget.
    assert ((list_to_set (map fst nodes) : gset string) ∖ ({[id]} ∪ visited)
            ⊂ (list_to_set (map fst nodes) : gset string) ∖ visited) as Hsub.
    { split; [intros x; rewrite !elem_of_difference, elem_of_union; tauto |].
      intros Hsup. assert (id ∈ (list_to_set (map fst nodes) : gset string) ∖ visited) as Hin.
      { apply elem_of_difference. split; [apply elem_of_list_to_set, Hget | exact Hvis]. }
      apply Hsup, elem_of_difference in Hin as [_ Hin].
      apply Hin, elem_of_union. left. apply elem_of_singleton. reflexivity. }
    apply subset_size in Hsub.
    destruct (IH (next n) ({[id]} ∪ visited)) as (result & -> & Hlen); [lia |].
    exists (name n :: result). split; [reflexivity | cbn [length]; lia].
Qed.

(** Messages. *)

Lemma insert_message (operation_type data : string) (count : option Z)
    (target_name : option string) :
  operation_type ∈ ["first"; "front"; "last"; "before"] ->
  exists m, get_insert_message operation_type data count target_name None = Return m.
Proof.
  intros H.
  repeat (apply elem_of_cons in H as [-> | H]); [| | | | inversion H];
    match goal with
    | |- exists m, ?call = _ =>
        destruct call eqn:E; [eauto | vm_compute in E; discriminate]
    end.
Qed.

Lemma delete_message (target_name : string) (count : Z) (from_head : bool) :
  exists m, get_delete_message target_name count from_head None = Return m.
Proof.
  destruct from_head;
    match goal with
    | |- exists m, ?call = _ =>
        destruct call eqn:E; [eauto | vm_compute in E; discriminate]
    end.
Qed.

Lemma target_message (key target_name : string) :
  key ∈ ["target_not_found"; "delete_empty_list"; "delete_target_not_found"] ->
  exists m, get_message key [("target_name", AStr target_name)] = Return m.
Proof.
  intros H.
  repeat (apply elem_of_cons in H as [-> | H]); [| | | inversion H];
    match goal with
    | |- exists m, ?call = _ =>
        destruct call eqn:E; [eauto | vm_compute in E; discriminate]
    end.
Qed.

(** Insertion at the front and at the end. *)

Lemma segment_app (nodes : node_store) (a b : list (string * string)) :
  forall current stop,
  segment nodes current (a ++ b) stop
  <-> exists mid, segment nodes current a mid /\ segment nodes mid b stop.
Proof.
  induction a as [| [id nm] a IH]; intros current stop; cbn.
  - split; [intros H; exists current; auto | intros (mid & -> & H); exact H].
  - split.
    + intros (-> & n & Hget & Hname & Hseg). apply IH in Hseg as (mid & Ha & Hb).
      exists mid. split; [| exact Hb]. split; [reflexivity |]. eauto.
    + intros (mid & (-> & n & Hget & Hname & Ha) & Hb). split; [reflexivity |].
      exists n. split; [exact Hget |]. split; [exact Hname |]. apply IH. eauto.
Qed.

Lemma segment_empty (nodes : node_store) (cells : list (string * string))
    (stop : option string) :
  segment nodes None cells stop -> cells = [].
Proof. destruct cells as [| [id nm] cells]; [reflexivity |]. cbn. intros [? _]. discriminate. Qed.

Lemma len_cons {A} (x : A) (l : list A) : len (x :: l) = len l + 1.
Proof. unfold len. cbn [length]. lia. Qed.

Lemma len_map {A B} (f : A -> B) (l : list A) : len (map f l) = len l.
Proof. unfold len. rewrite length_map. reflexivity. Qed.

Lemma holds_first (nodes : node_store) (i : list_instance) (d : string) :
  well_numbered nodes ->
  holds (Dict.set (new_node_id nodes) (create_node_data "DataNode" d) nodes)
        (with_head (Some (new_node_id nodes)) 1 i) [d].
Proof.
  intros Hn. split; [apply well_numbered_set_new, Hn |]. split; [reflexivity |].
  exists [(new_node_id nodes, d)]. split; [reflexivity |].
  split; [apply NoDup_singleton |].
  cbn. split; [reflexivity |]. eexists. split; [apply store_get_set_same |].
  split; reflexivity.
Qed.

Lemma insert_front_holds (nodes : node_store) (i : list_instance) (items : list string)
    (d : string) :
  holds nodes i items ->
  exists nodes' i' m,
    insert_front nodes i d = (nodes', i', Return m) /\ holds nodes' i' (d :: items).
Proof.
  intros (Hn & Hcount & cells & Hitems & Hnd & Hseg).
  unfold insert_front. destruct (head i) as [old |] eqn:Hhead.
  - destruct (insert_message "front" d (Some (count i + 1)) None) as [m Hm].
    { apply list_elem_of_further, list_elem_of_here. }
    eexists _, _, m. split; [rewrite <- Hm; reflexivity |].
    split; [apply well_numbered_set_next, well_numbered_set_new, Hn |].
    split; [cbn [count with_head]; rewrite len_cons; lia |].
    exists ((new_node_id nodes, d) :: cells).
    split; [cbn [map snd]; rewrite Hitems; reflexivity |].
    split.
    { cbn [map fst]. apply NoDup_cons. split; [| exact Hnd].
      eapply segment_fresh; eauto. }
    cbn [segment head with_head]. split; [reflexivity |].
    eexists. split; [apply set_next_same, store_get_set_same |].
    split; [reflexivity |]. cbn [next with_next].
    eapply segment_frame; [| exact Hseg].
    intros id Hin.
    assert (new_node_id nodes <> id) as Hne.
    { intros <-. eapply segment_fresh; eauto. }
    rewrite set_next_other, store_get_set_other by exact Hne. reflexivity.
  - apply segment_empty in Hseg. subst cells. cbn in Hitems. subst items.
    destruct (insert_message "first" d None None) as [m Hm]; [apply list_elem_of_here |].
    eexists _, _, m. split; [rewrite <- Hm; reflexivity |].
    apply holds_first, Hn.
Qed.

Lemma find_last_segment (nodes : node_store) (pre : list (string * string)) :
  forall fuel current lid lnm,
  well_numbered nodes ->
  segment nodes current (pre ++ [(lid, lnm)]) None ->
  (length pre <= fuel)%nat ->
  find_last fuel nodes current = Some (Some lid).
Proof.
  induction pre as [| [id nm] pre IH]; intros fuel current lid lnm Hn Hseg Hfuel.
  - cbn in Hseg. destruct Hseg as (-> & n & Hget & _ & Hnext).
    destruct fuel; cbn [find_last]; rewrite (well_numbered_given _ _ _ Hn Hget), Hget, Hnext;
      reflexivity.
  - cbn [app segment] in Hseg. destruct Hseg as (-> & n & Hget & _ & Hseg).
    assert (exists id2, next n = Some id2 /\ given (next n) = true) as (id2 & Hnext & Hgiven).
    { destruct pre as [| [id2' nm2] pre]; cbn in Hseg;
        destruct Hseg as (Hnext & n2 & Hget2 & _);
        (eexists; split; [exact Hnext | rewrite Hnext; eapply well_numbered_given; eauto]). }
    destruct fuel as [| fuel]; [cbn in Hfuel; lia |].
    cbn [find_last]. rewrite (well_numbered_given _ _ _ Hn Hget), Hget, Hgiven.
    eapply IH; [exact Hn | exact Hseg | cbn in Hfuel; lia].
Qed.

Lemma len_snoc_item {A} (l : list A) (x : A) : len (l ++ [x]) = len l + 1.
Proof. unfold len. rewrite length_app. cbn [length]. lia. Qed.

Lemma segment_added (nodes : node_store) (cells : list (string * string))
    (current stop : option string) (v : node_data) :
  well_numbered nodes -> segment nodes current cells stop ->
  segment (Dict.set (new_node_id nodes) v nodes) current cells stop.
Proof.
  intros Hn Hseg. eapply segment_frame; [| exact Hseg].
  intros id Hin. apply store_get_set_other. intros <-.
  eapply segment_fresh; eauto.
Qed.

Lemma insert_last_holds (fuel : nat) (nodes : node_store) (i : list_instance)
    (items : list string) (d : string) :
  holds nodes i items -> (length items <= fuel)%nat ->
  exists nodes' i' m,
    insert_last fuel nodes i d = Some (nodes', i', Return m)
    /\ holds nodes' i' (items ++ [d]).
Proof.
  intros (Hn & Hcount & cells & Hitems & Hnd & Hseg) Hfuel.
  unfold insert_last. destruct (head i) as [h |] eqn:Hhead.
  - induction cells as [| [lid lnm] pre _] using rev_ind; [discriminate Hseg |].
    pose proof (well_numbered_set_new nodes (create_node_data "DataNode" d) Hn) as Hn1.
    pose proof (segment_added _ _ _ _ (create_node_data "DataNode" d) Hn Hseg) as Hseg1.
    assert (length pre < length items)%nat as Hlen.
    { rewrite <- Hitems, length_map, length_app. cbn. lia. }
    rewrite (find_last_segment _ pre fuel (Some h) lid lnm Hn1 Hseg1) by lia.
    apply segment_app in Hseg1 as (mid & Hpre & Hlast).
    cbn in Hlast. destruct Hlast as (-> & n & Hget & Hname & Hnext).
    rewrite (well_numbered_given _ _ _ Hn1 Hget).
    destruct (insert_message "last" d (Some (count i + 1)) None) as [m Hm].
    { do 2 apply list_elem_of_further. apply list_elem_of_here. }
    eexists _, _, m. split; [rewrite <- Hm; reflexivity |].
    split; [apply well_numbered_set_next, Hn1 |].
    split; [cbn [count with_head]; rewrite len_snoc_item; lia |].
    exists ((pre ++ [(lid, lnm)]) ++ [(new_node_id nodes, d)]).
    split; [rewrite map_app, Hitems; reflexivity |].
    assert (new_node_id nodes ∉ map fst (pre ++ [(lid, lnm)])) as Hfresh
      by (eapply segment_fresh; eauto).
    split.
    { rewrite map_app. apply NoDup_app. split; [exact Hnd |]. split; [| apply NoDup_singleton].
      intros id Hin Hnew. cbn in Hnew. apply list_elem_of_singleton in Hnew. subst id.
      exact (Hfresh Hin). }
    cbn [head with_head]. rewrite <- app_assoc. apply segment_app.
    exists (Some lid). split.
    + eapply segment_frame; [| exact Hpre].
      intros id Hin. apply set_next_other. intros <-.
      rewrite map_app in Hnd. apply NoDup_app in Hnd as (_ & Hdis & _).
      apply (Hdis lid Hin). cbn. apply list_elem_of_here.
    + cbn. split; [reflexivity |].
      eexists. split; [apply set_next_same, Hget |]. split; [exact Hname |].
      cbn [next with_next]. split; [reflexivity |].
      eexists. split.
      * rewrite set_next_other; [apply store_get_set_same |].
        intros ->. apply Hfresh. rewrite map_app. apply elem_of_app. right.
        cbn. apply list_elem_of_here.
      * split; reflexivity.
  - apply segment_empty in Hseg. subst cells. cbn in Hitems. subst items.
    destruct (insert_message "first" d None None) as [m Hm]; [apply list_elem_of_here |].
    eexists _, _, m. split; [rewrite <- Hm; reflexivity |].
    apply holds_first, Hn.
Qed.

(** The search for a target. *)

Lemma is_named_cell (nodes : node_store) (id : string) (n : node_data) (target : string) :
  well_numbered nodes -> Dict.get id nodes = Some n ->
  is_named nodes (Some id) target = String.eqb (name n) target.
Proof.
  intros Hn Hget. unfold is_named.
  rewrite (well_numbered_given _ _ _ Hn Hget), Hget. reflexivity.
Qed.

Lemma find_before_absent (nodes : node_store) (target : string)
    (cells : list (string * string)) :
  forall fuel current,
  well_numbered nodes -> segment nodes current cells None ->
  target ∉ map snd (List.tl cells) -> (length cells <= fuel)%nat ->
  find_before fuel nodes current target = Some None.
Proof.
  induction cells as [| [id nm] cells IH]; intros fuel current Hn Hseg Hnot Hfuel.
  - cbn in Hseg. subst current. destruct fuel; reflexivity.
  - cbn [segment] in Hseg. destruct Hseg as (-> & n & Hget & _ & Hseg).
    destruct fuel as [| fuel]; [cbn in Hfuel; lia |].
    cbn [find_before]. rewrite (well_numbered_given _ _ _ Hn Hget), Hget.
    destruct cells as [| [id2 nm2] cells].
    + cbn in Hseg. rewrite Hseg. reflexivity.
    + pose proof Hseg as Hseg'. cbn [segment] in Hseg'.
      destruct Hseg' as (Hnext & n2 & Hget2 & Hname2 & _). rewrite Hnext.
      rewrite (is_named_cell _ _ _ _ Hn Hget2), Hname2.
      cbn [List.tl map snd] in Hnot.
      destruct (String.eqb nm2 target) eqn:E.
      { apply String.eqb_eq in E. exfalso. apply Hnot. rewrite <- E. apply list_elem_of_here. }
      rewrite <- Hnext. apply IH; [exact Hn | exact Hseg | | cbn in Hfuel |- *; lia].
      cbn [List.tl]. intros Hin. apply Hnot, list_elem_of_further, Hin.
Qed.

Lemma find_before_found (nodes : node_store) (target : string)
    (front : list (string * string)) :
  forall fuel current pid pnm tid post,
  well_numbered nodes ->
  segment nodes current (front ++ (pid, pnm) :: (tid, target) :: post) None ->
  target ∉ map snd (List.tl (front ++ [(pid, pnm)])) ->
  (length front <= fuel)%nat ->
  find_before fuel nodes current target = Some (Some (pid, tid)).
Proof.
  induction front as [| [id nm] front IH]; intros fuel current pid pnm tid post Hn Hseg Hnot Hfuel.
  - cbn [app segment] in Hseg.
    destruct Hseg as (-> & n & Hget & _ & Hnext & nt & Hgett & Hnamet & _).
    destruct fuel; cbn [find_before];
      rewrite (well_numbered_given _ _ _ Hn Hget), Hget, Hnext,
        (is_named_cell _ _ _ _ Hn Hgett), Hnamet, String.eqb_refl; reflexivity.
  - cbn [app segment] in Hseg. destruct Hseg as (-> & n & Hget & _ & Hseg).
    destruct fuel as [| fuel]; [cbn in Hfuel; lia |].
    cbn [find_before]. rewrite (well_numbered_given _ _ _ Hn Hget), Hget.
    assert (exists id2 nm2 rest, front ++ (pid, pnm) :: (tid, target) :: post
                                 = (id2, nm2) :: rest
                                 /\ nm2 ∈ map snd (front ++ [(pid, pnm)]))
      as (id2 & nm2 & rest & Hshape & Hin2).
    { destruct front as [| [id2 nm2] front]; cbn; eexists _, _, _;
        (split; [reflexivity | apply list_elem_of_here]). }
    pose proof Hseg as Hseg'. rewrite Hshape in Hseg'. cbn [segment] in Hseg'.
    destruct Hseg' as (Hnext & n2 & Hget2 & Hname2 & _). rewrite Hnext.
    rewrite (is_named_cell _ _ _ _ Hn Hget2), Hname2.
    cbn [app List.tl] in Hnot.
    destruct (String.eqb nm2 target) eqn:E.
    { apply String.eqb_eq in E. exfalso. rewrite E in Hin2. exact (Hnot Hin2). }
    rewrite <- Hnext. eapply IH; [exact Hn | exact Hseg | | cbn in Hfuel; lia].
    intros Hin. apply Hnot.
    destruct front as [| c front]; cbn [app List.tl] in Hin |- *.
    + inversion Hin.
    + cbn [map]. apply list_elem_of_further, Hin.
Qed.

Lemma first_named (cells : list (string * string)) (target : string) :
  target ∈ map snd cells ->
  exists front tid post,
    cells = front ++ (tid, target) :: post /\ target ∉ map snd front.
Proof.
  induction cells as [| [id nm] cells IH]; cbn [map snd]; intros Hin; [inversion Hin |].
  destruct (decide (nm = target)) as [-> | Hne].
  - exists [], id, cells. split; [reflexivity | cbn; apply not_elem_of_nil].
  - apply elem_of_cons in Hin as [Heq | Hin]; [congruence |].
    destruct (IH Hin) as (front & tid & post & -> & Hnot).
    exists ((id, nm) :: front), tid, post. split; [reflexivity |].
    cbn [map snd]. intros H. apply elem_of_cons in H as [Heq | H]; [congruence | exact (Hnot H)].
Qed.

Lemma without_first_absent (target : string) (items : list string) :
  target ∉ items -> without_first target items = items.
Proof.
  induction items as [| item items IH]; cbn [without_first]; [reflexivity |].
  intros Hnot. destruct (String.eqb item target) eqn:E.
  - apply String.eqb_eq in E. subst. exfalso. apply Hnot, list_elem_of_here.
  - rewrite IH; [reflexivity |]. intros Hin. apply Hnot, list_elem_of_further, Hin.
Qed.

Lemma without_first_found (target : string) (front post : list string) :
  target ∉ front -> without_first target (front ++ target :: post) = front ++ post.
Proof.
  induction front as [| item front IH]; cbn [app without_first]; intros Hnot.
  - rewrite String.eqb_refl. reflexivity.
  - destruct (String.eqb item target) eqn:E.
    + apply String.eqb_eq in E. subst. exfalso. apply Hnot, list_elem_of_here.
    + rewrite IH; [reflexivity |]. intros Hin. apply Hnot, list_elem_of_further, Hin.
Qed.

Lemma with_before_first_absent (target new : string) (items : list string) :
  target ∉ items -> with_before_first target new items = items.
Proof.
  induction items as [| item items IH]; cbn [with_before_first]; [reflexivity |].
  intros Hnot. destruct (String.eqb item target) eqn:E.
  - apply String.eqb_eq in E. subst. exfalso. apply Hnot, list_elem_of_here.
  - rewrite IH; [reflexivity |]. intros Hin. apply Hnot, list_elem_of_further, Hin.
Qed.

Lemma with_before_first_found (target new : string) (front post : list string) :
  target ∉ front ->
  with_before_first target new (front ++ target :: post) = front ++ new :: target :: post.
Proof.
  induction front as [| item front IH]; cbn [app with_before_first]; intros Hnot.
  - rewrite String.eqb_refl. reflexivity.
  - destruct (String.eqb item target) eqn:E.
    + apply String.eqb_eq in E. subst. exfalso. apply Hnot, list_elem_of_here.
    + rewrite IH; [reflexivity |]. intros Hin. apply Hnot, list_elem_of_further, Hin.
Qed.

Lemma snoc_split {A} (x : A) (l : list A) : exists l' y, x :: l = l' ++ [y].
Proof.
  revert x. induction l as [| z l IH]; intros x.
  - exists [], x. reflexivity.
  - destruct (IH z) as (l' & y & ->). exists (x :: l'), y. reflexivity.
Qed.

Lemma NoDup_without {A} (a post : list A) (x : A) :
  NoDup (a ++ x :: post) -> NoDup (a ++ post) /\ x ∉ a ++ post.
Proof.
  intros H. rewrite <- Permutation_middle in H. apply NoDup_cons in H. tauto.
Qed.

Lemma NoDup_with {A} (a post : list A) (x : A) :
  NoDup (a ++ post) -> x ∉ a ++ post -> NoDup (a ++ x :: post).
Proof.
  intros H Hx. rewrite <- Permutation_middle. apply NoDup_cons. tauto.
Qed.

(** Deletion. *)

Lemma delete_node_holds (fuel : nat) (nodes : node_store) (i : list_instance)
    (items : list string) (target : string) :
  holds nodes i items -> (length items <= fuel)%nat ->
  exists nodes' i' m,
    delete_node fuel nodes i target = Some (nodes', i', Return m)
    /\ holds nodes' i' (without_first target items)
    /\ (target ∉ items -> nodes' = nodes /\ i' = i).
Proof.
  intros (Hn & Hcount & cells & Hitems & Hnd & Hseg) Hfuel.
  unfold delete_node. subst items. rewrite length_map in Hfuel. rewrite len_map in Hcount.
  destruct cells as [| [h nm] rest].
  - cbn in Hseg. rewrite Hseg. cbn [given negb].
    destruct (target_message "delete_empty_list" target) as [m Hm].
    { apply list_elem_of_further, list_elem_of_here. }
    rewrite Hm. eexists _, _, _. split; [reflexivity |]. split; [| auto].
    split; [exact Hn |]. split; [exact Hcount |].
    exists []. split; [reflexivity |]. split; [apply NoDup_nil_2 | exact Hseg].
  - pose proof Hseg as Hcells. cbn [segment] in Hseg.
    destruct Hseg as (Hhead & n & Hget & Hname & Hrest).
    rewrite Hhead, (well_numbered_given _ _ _ Hn Hget). cbn [negb].
    rewrite (is_named_cell _ _ _ _ Hn Hget), Hname.
    cbn [map snd without_first].
    destruct (String.eqb nm target) eqn:E.
    + destruct (delete_message target (Z.max 0 (count i - 1)) true) as [m Hm].
      eexists _, _, m. split; [rewrite <- Hm, Hget; reflexivity |].
      split.
      * split; [exact Hn |].
        split; [cbn [count with_head]; rewrite Hcount, len_map, len_cons; unfold len; lia |].
        exists rest. split; [reflexivity |].
        cbn [map fst] in Hnd. apply NoDup_cons in Hnd as [_ Hnd].
        split; [exact Hnd | exact Hrest].
      * intros Hnot. exfalso. apply Hnot. apply String.eqb_eq in E. rewrite E.
        apply list_elem_of_here.
    + destruct (decide (target ∈ map snd rest)) as [Hin | Hnot].
      * destruct (first_named rest target Hin) as (front' & tid & post & -> & Hfront).
        rewrite map_app. cbn [map snd]. rewrite without_first_found by exact Hfront.
        destruct (snoc_split (h, nm) front') as (front & [pid pnm] & Hsplit).
        assert ((h, nm) :: front' ++ (tid, target) :: post
                = front ++ (pid, pnm) :: (tid, target) :: post) as Hshape.
        { change ((h, nm) :: front' ++ (tid, target) :: post)
            with (((h, nm) :: front') ++ (tid, target) :: post).
          rewrite Hsplit, <- app_assoc. reflexivity. }
        rewrite Hshape in Hcells, Hnd, Hfuel, Hcount.
        rewrite <- Hhead.
        rewrite (find_before_found nodes target front fuel (head i) pid pnm tid post Hn Hcells).
        2:{ rewrite <- Hsplit. cbn [List.tl]. exact Hfront. }
        2:{ rewrite length_app in Hfuel. lia. }
        apply segment_app in Hcells as (mid & Hfrontseg & Hmid).
        cbn [segment] in Hmid.
        destruct Hmid as (-> & np & Hgetp & Hnamep & Hnextp & nt & Hgett & Hnamet & Hpost).
        rewrite Hgett.
        destruct (delete_message target (Z.max 0 (count i - 1)) false) as [m Hm].
        eexists _, _, m. split; [rewrite <- Hm; reflexivity |].
        assert (NoDup (map fst (front ++ (pid, pnm) :: post))) as Hnd'.
        { change (front ++ (pid, pnm) :: (tid, target) :: post)
            with (front ++ [(pid, pnm)] ++ (tid, target) :: post) in Hnd.
          rewrite app_assoc, map_app in Hnd. cbn [map fst] in Hnd.
          apply NoDup_without in Hnd as [Hnd _].
          rewrite <- map_app, <- app_assoc in Hnd. exact Hnd. }
        split.
        2:{ intros Hnot. exfalso. apply Hnot, list_elem_of_further.
            rewrite map_app in Hin. exact Hin. }
        split; [apply well_numbered_set_next, Hn |].
        split.
        { cbn [count with_head]. rewrite Hcount.
          change (nm :: map snd front' ++ map snd post)
            with (map snd ((h, nm) :: front') ++ map snd post).
          rewrite Hsplit. unfold len. rewrite !length_app, !length_map, !length_app.
          cbn [length]. lia. }
        exists (front ++ (pid, pnm) :: post).
        split.
        { change (nm :: map snd front' ++ map snd post)
            with (map snd ((h, nm) :: front') ++ map snd post).
          rewrite Hsplit, <- map_app, <- app_assoc. reflexivity. }
        split; [exact Hnd' |].
        rewrite map_app in Hnd'. cbn [map fst] in Hnd'.
        apply NoDup_app in Hnd' as (_ & Hdis & Hnd').
        apply NoDup_cons in Hnd' as [Hpidpost _].
        cbn [head with_head]. apply segment_app. exists (Some pid). split.
        { eapply segment_frame; [| exact Hfrontseg].
          intros id Hid. apply set_next_other. intros <-.
          apply (Hdis pid Hid), list_elem_of_here. }
        cbn [segment]. split; [reflexivity |].
        eexists. split; [apply set_next_same, Hgetp |]. split; [exact Hnamep |].
        cbn [next with_next].
        eapply segment_frame; [| exact Hpost].
        intros id Hid. apply set_next_other. intros <-. exact (Hpidpost Hid).
      * rewrite <- Hhead.
        rewrite (find_before_absent nodes target ((h, nm) :: rest) fuel (head i) Hn);
          [| exact Hcells | exact Hnot | exact Hfuel].
        destruct (target_message "delete_target_not_found" target) as [m Hm].
        { do 2 apply list_elem_of_further. apply list_elem_of_here. }
        rewrite Hm. eexists _, _, _. split; [reflexivity |]. split; [| auto].
        rewrite without_first_absent by exact Hnot.
        split; [exact Hn |].
        split; [rewrite Hcount; symmetry; apply (len_map snd ((h, nm) :: rest)) |].
        exists ((h, nm) :: rest). split; [reflexivity |]. split; [exact Hnd |].
        exact Hcells.
Qed.

(** Insertion before a target. *)

Lemma set_next_length (id : string) (nx : option string) (nodes : node_store) :
  length (set_next id nx nodes) = length nodes.
Proof.
  rewrite <- (length_map fst (set_next id nx nodes)), set_next_keys. apply length_map.
Qed.

Lemma added_length (nodes : node_store) (v : node_data) :
  well_numbered nodes -> length (Dict.set (new_node_id nodes) v nodes) = S (length nodes).
Proof.
  intros Hn. rewrite store_set_new by (apply well_numbered_fresh, Hn).
  rewrite length_app. cbn [length]. lia.
Qed.

Lemma insert_before_holds (fuel : nat) (nodes : node_store) (i : list_instance)
    (items : list string) (target new : string) :
  holds nodes i items -> (length items <= fuel)%nat ->
  exists nodes' i' m,
    insert_before fuel nodes i target new = Some (nodes', i', Return m)
    /\ holds nodes' i' (with_before_first target new items)
    /\ length nodes' = S (length nodes)
    /\ (target ∉ items -> i' = i).
Proof.
  intros (Hn & Hcount & cells & Hitems & Hnd & Hseg) Hfuel.
  unfold insert_before. subst items. rewrite length_map in Hfuel. rewrite len_map in Hcount.
  pose proof (well_numbered_set_new nodes (create_node_data "DataNode" new) Hn) as Hn1.
  pose proof (segment_added _ _ _ _ (create_node_data "DataNode" new) Hn Hseg) as Hseg1.
  pose proof (segment_fresh _ _ _ _ Hn Hseg) as Hfresh.
  pose proof (added_length nodes (create_node_data "DataNode" new) Hn) as Hlen1.
  pose proof (store_get_set_same (new_node_id nodes) (create_node_data "DataNode" new) nodes)
    as Hgetnew.
  set (nodes1 := Dict.set (new_node_id nodes) (create_node_data "DataNode" new) nodes) in *.
  destruct cells as [| [h nm] rest].
  - cbn in Hseg1. rewrite Hseg1. cbn [is_named].
    assert (find_before fuel nodes1 None target = Some None) as -> by (destruct fuel; reflexivity).
    destruct (target_message "target_not_found" target) as [m Hm]; [apply list_elem_of_here |].
    rewrite Hm. eexists _, _, _. split; [reflexivity |].
    split; [| split; [exact Hlen1 | reflexivity]].
    split; [exact Hn1 |]. split; [exact Hcount |].
    exists []. split; [reflexivity |]. split; [apply NoDup_nil_2 | exact Hseg1].
  - pose proof Hseg1 as Hcells. cbn [segment] in Hseg1.
    destruct Hseg1 as (Hhead & n & Hget & Hname & Hrest).
    rewrite Hhead, (is_named_cell _ _ _ _ Hn1 Hget), Hname.
    cbn [map snd with_before_first].
    destruct (String.eqb nm target) eqn:E.
    + destruct (insert_message "before" new (Some (count i + 1)) (Some target)) as [m Hm].
      { do 3 apply list_elem_of_further. apply list_elem_of_here. }
      eexists _, _, m. split; [rewrite <- Hm; reflexivity |].
      split; [| split].
      * split; [apply well_numbered_set_next, Hn1 |].
        split; [cbn [count with_head]; rewrite Hcount, !len_cons, len_map; lia |].
        exists ((new_node_id nodes, new) :: (h, nm) :: rest).
        split; [reflexivity |].
        split; [cbn [map fst] in Hfresh |- *; apply NoDup_cons; split; [exact Hfresh | exact Hnd] |].
        cbn [head with_head]. split; [reflexivity |].
        eexists. split; [apply set_next_same, Hgetnew |]. split; [reflexivity |].
        cbn [next with_next]. rewrite <- Hhead.
        eapply segment_frame; [| exact Hcells].
        intros id Hid. apply set_next_other. intros <-. exact (Hfresh Hid).
      * rewrite set_next_length. exact Hlen1.
      * intros Hnot. exfalso. apply Hnot. apply String.eqb_eq in E. rewrite E.
        apply list_elem_of_here.
    + destruct (decide (target ∈ map snd rest)) as [Hin | Hnot].
      * destruct (first_named rest target Hin) as (front' & tid & post & -> & Hfront).
        rewrite map_app. cbn [map snd]. rewrite with_before_first_found by exact Hfront.
        destruct (snoc_split (h, nm) front') as (front & [pid pnm] & Hsplit).
        assert ((h, nm) :: front' ++ (tid, target) :: post
                = front ++ (pid, pnm) :: (tid, target) :: post) as Hshape.
        { change ((h, nm) :: front' ++ (tid, target) :: post)
            with (((h, nm) :: front') ++ (tid, target) :: post).
          rewrite Hsplit, <- app_assoc. reflexivity. }
        rewrite Hshape in Hcells, Hnd, Hfuel, Hcount, Hfresh.
        rewrite <- Hhead.
        rewrite (find_before_found nodes1 target front fuel (head i) pid pnm tid post Hn1 Hcells).
        2:{ rewrite <- Hsplit. cbn [List.tl]. exact Hfront. }
        2:{ rewrite length_app in Hfuel. lia. }
        apply segment_app in Hcells as (mid & Hfrontseg & Hmid).
        pose proof Hmid as Hmid'. cbn [segment] in Hmid'.
        destruct Hmid' as (-> & np & Hgetp & Hnamep & Hnextp & Htail).
        destruct (insert_message "before" new (Some (count i + 1)) (Some target)) as [m Hm].
        { do 3 apply list_elem_of_further. apply list_elem_of_here. }
        eexists _, _, m. split; [rewrite <- Hm; reflexivity |].
        rewrite map_app in Hfresh, Hnd. cbn [map fst] in Hfresh, Hnd.
        assert (new_node_id nodes <> pid) as Hnewpid.
        { intros Heq. apply Hfresh, elem_of_app. right. rewrite Heq. apply list_elem_of_here. }
        apply NoDup_app in Hnd as (Hndfront & Hdis & Hndrest).
        apply NoDup_cons in Hndrest as [Hpidrest Hndrest].
        split; [| split].
        2:{ rewrite !set_next_length. exact Hlen1. }
        2:{ intros Hnot. exfalso. apply Hnot, list_elem_of_further.
            rewrite map_app in Hin. exact Hin. }
        split; [apply well_numbered_set_next, well_numbered_set_next, Hn1 |].
        split.
        { cbn [count with_head]. rewrite Hcount.
          change (nm :: map snd front' ++ new :: target :: map snd post)
            with (map snd ((h, nm) :: front') ++ new :: target :: map snd post).
          rewrite Hsplit. unfold len. rewrite !length_app, !length_map, !length_app.
          cbn [length]. rewrite !length_map. lia. }
        exists (front ++ (pid, pnm) :: (new_node_id nodes, new) :: (tid, target) :: post).
        split.
        { change (nm :: map snd front' ++ new :: target :: map snd post)
            with (map snd ((h, nm) :: front') ++ new :: target :: map snd post).
          rewrite Hsplit, !map_app. cbn [map snd]. rewrite <- app_assoc. reflexivity. }
        split.
        { rewrite map_app. cbn [map fst]. apply NoDup_app. split; [exact Hndfront |].
          split.
          - intros id Hid Hin'. apply elem_of_cons in Hin' as [-> | Hin'].
            + apply (Hdis pid Hid), list_elem_of_here.
            + apply elem_of_cons in Hin' as [-> | Hin'].
              * apply Hfresh, elem_of_app. left. exact Hid.
              * apply (Hdis id Hid), list_elem_of_further, Hin'.
          - apply NoDup_cons. split.
            + intros Hin'. apply elem_of_cons in Hin' as [Heq | Hin']; [congruence |].
              exact (Hpidrest Hin').
            + apply NoDup_cons. split; [| exact Hndrest].
              intros Hin'. apply Hfresh, elem_of_app. right.
              apply list_elem_of_further, Hin'. }
        cbn [head with_head]. apply segment_app. exists (Some pid). split.
        { eapply segment_frame; [| exact Hfrontseg].
          intros id Hid.
          rewrite set_next_other, set_next_other; [reflexivity | |].
          - intros <-. apply Hfresh, elem_of_app. left. exact Hid.
          - intros <-. apply (Hdis pid Hid), list_elem_of_here. }
        cbn [segment]. split; [reflexivity |].
        eexists. split.
        { apply set_next_same. rewrite set_next_other by exact Hnewpid. exact Hgetp. }
        split; [exact Hnamep |]. cbn [next with_next]. split; [reflexivity |].
        eexists. split.
        { rewrite set_next_other by (intros Heq; apply Hnewpid; symmetry; exact Heq).
          apply set_next_same, Hgetnew. }
        split; [reflexivity |]. cbn [next with_next]. split; [reflexivity |].
        destruct Htail as (nt & Hgett & Hnamet & Hpost).
        assert (forall id, id ∈ tid :: map fst post ->
                  Dict.get id (set_next pid (Some (new_node_id nodes))
                                 (set_next (new_node_id nodes) (Some tid) nodes1))
                  = Dict.get id nodes1) as Hsame.
        { intros id Hid.
          rewrite set_next_other, set_next_other; [reflexivity | |].
          - intros <-. apply Hfresh, elem_of_app. right. apply list_elem_of_further, Hid.
          - intros <-. exact (Hpidrest Hid). }
        exists nt. split; [rewrite Hsame; [exact Hgett | apply list_elem_of_here] |].
        split; [exact Hnamet |].
        eapply segment_frame; [| exact Hpost].
        intros id Hid. apply Hsame, list_elem_of_further, Hid.
      * rewrite <- Hhead.
        rewrite (find_before_absent nodes1 target ((h, nm) :: rest) fuel (head i) Hn1);
          [| exact Hcells | exact Hnot | exact Hfuel].
        destruct (target_message "target_not_found" target) as [m Hm]; [apply list_elem_of_here |].
        rewrite Hm. eexists _, _, _. split; [reflexivity |].
        split; [| split; [exact Hlen1 | reflexivity]].
        rewrite with_before_first_absent by exact Hnot.
        split; [exact Hn1 |].
        split; [rewrite Hcount; symmetry; apply (len_map snd ((h, nm) :: rest)) |].
        exists ((h, nm) :: rest). split; [reflexivity |]. split; [exact Hnd |].
        exact Hcells.
Qed.

Lemma sample_list_holds : holds sample_list.1 sample_list.2 ["a"; "b"; "c"].
Proof.
  split; [reflexivity |]. split; [reflexivity |].
  exists [("node_1", "a"); ("node_0", "b"); ("node_2", "c")].
  split; [reflexivity |].
  split; [apply (bool_decide_unpack _); vm_compute; exact I |].
  cbn. repeat (split; [reflexivity |]; eexists; split; [reflexivity |]; split; [reflexivity |]).
  reflexivity.
Qed.

(** X23. Insertion at the front and at the end. On a list that holds
    [items], [insert_front] returns its message and the list then holds the
    new item followed by [items]; [insert_last], given as many rounds of its
    loop as the list has items, returns its message and the list then holds
    [items] followed by the new item. In both cases the list is displayed by
    [_traverse_linked_list] as these items, and [count] is their number. *)
Theorem insert_front_and_insert_last_extend_the_list (fuel : nat) (nodes : node_store)
    (i : list_instance) (items : list string) (data : string) :
  holds nodes i items -> (length items <= fuel)%nat ->
  (exists nodes' i' m,
      insert_front nodes i data = (nodes', i', Return m)
      /\ holds nodes' i' (data :: items)
      /\ _traverse_linked_list nodes' i' = Some (data :: items))
  /\ (exists nodes' i' m,
        insert_last fuel nodes i data = Some (nodes', i', Return m)
        /\ holds nodes' i' (items ++ [data])
        /\ _traverse_linked_list nodes' i' = Some (items ++ [data])).
Proof.
  intros Hholds Hfuel. split.
  - destruct (insert_front_holds nodes i items data Hholds) as (nodes' & i' & m & Hrun & H').
    exists nodes', i', m. split; [exact Hrun |]. split; [exact H' | apply holds_traverse, H'].
  - destruct (insert_last_holds fuel nodes i items data Hholds Hfuel)
      as (nodes' & i' & m & Hrun & H').
    exists nodes', i', m. split; [exact Hrun |]. split; [exact H' | apply holds_traverse, H'].
Qed.

Lemma insert_front_and_insert_last_extend_the_list_witness :
  (holds sample_list.1 sample_list.2 ["a"; "b"; "c"] /\ (length ["a"; "b"; "c"] <= 3)%nat)
  /\ (exists nodes' i' m,
        insert_front sample_list.1 sample_list.2 "d" = (nodes', i', Return m)
        /\ holds nodes' i' ["d"; "a"; "b"; "c"]
        /\ _traverse_linked_list nodes' i' = Some ["d"; "a"; "b"; "c"])
  /\ (exists nodes' i' m,
        insert_last 3 sample_list.1 sample_list.2 "d" = Some (nodes', i', Return m)
        /\ holds nodes' i' ["a"; "b"; "c"; "d"]
        /\ _traverse_linked_list nodes' i' = Some ["a"; "b"; "c"; "d"]).
Proof.
  assert (Hfuel : (length ["a"; "b"; "c"] <= 3)%nat) by (cbn; lia).
  split; [split; [exact sample_list_holds | exact Hfuel] |].
  exact (insert_front_and_insert_last_extend_the_list 3 _ _ _ "d" sample_list_holds Hfuel).
Defined.

(** X24. Deletion. On a list that holds [items], [delete_node], given as
    many rounds of its loop as the list has items, returns a message and the
    list then holds [items] without the first item equal to the target, as
    [_traverse_linked_list] displays it; when no item equals the target the
    node store and the instance are left as they were. *)
Theorem delete_node_removes_the_first_match (fuel : nat) (nodes : node_store)
    (i : list_instance) (items : list string) (target_name : string) :
  holds nodes i items -> (length items <= fuel)%nat ->
  exists nodes' i' m,
    delete_node fuel nodes i target_name = Some (nodes', i', Return m)
    /\ holds nodes' i' (without_first target_name items)
    /\ _traverse_linked_list nodes' i' = Some (without_first target_name items)
    /\ (target_name ∉ items -> nodes' = nodes /\ i' = i).
Proof.
  intros Hholds Hfuel.
  destruct (delete_node_holds fuel nodes i items target_name Hholds Hfuel)
    as (nodes' & i' & m & Hrun & H' & Hsame).
  exists nodes', i', m. split; [exact Hrun |]. split; [exact H' |].
  split; [apply holds_traverse, H' | exact Hsame].
Qed.

Lemma delete_node_removes_the_first_match_witness :
  (holds sample_list.1 sample_list.2 ["a"; "b"; "c"] /\ (length ["a"; "b"; "c"] <= 3)%nat)
  /\ exists nodes' i' m,
      delete_node 3 sample_list.1 sample_list.2 "b" = Some (nodes', i', Return m)
      /\ holds nodes' i' ["a"; "c"]
      /\ _traverse_linked_list nodes' i' = Some ["a"; "c"]
      /\ ("b" ∉ ["a"; "b"; "c"] -> nodes' = sample_list.1 /\ i' = sample_list.2).
Proof.
  assert (Hfuel : (length ["a"; "b"; "c"] <= 3)%nat) by (cbn; lia).
  split; [split; [exact sample_list_holds | exact Hfuel] |].
  exact (delete_node_removes_the_first_match 3 _ _ _ "b" sample_list_holds Hfuel).
Defined.

(** X25. Insertion before a target. On a list that holds [items],
    [insert_before], given as many rounds of its loop as the list has items,
    returns a message and the list then holds [items] with the new item
    before the first item equal to the target. When no item equals the
    target the instance is left as it was, but the node made for the new
    item stays in the node store, which has one node more in every case. *)
Theorem insert_before_adds_before_the_first_match (fuel : nat) (nodes : node_store)
    (i : list_instance) (items : list string) (target_name new_data : string) :
  holds nodes i items -> (length items <= fuel)%nat ->
  exists nodes' i' m,
    insert_before fuel nodes i target_name new_data = Some (nodes', i', Return m)
    /\ holds nodes' i' (with_before_first target_name new_data items)
    /\ _traverse_linked_list nodes' i' = Some (with_before_first target_name new_data items)
    /\ length nodes' = S (length nodes)
    /\ (target_name ∉ items -> i' = i).
Proof.
  intros Hholds Hfuel.
  destruct (insert_before_holds fuel nodes i items target_name new_data Hholds Hfuel)
    as (nodes' & i' & m & Hrun & H' & Hlen & Hsame).
  exists nodes', i', m. split; [exact Hrun |]. split; [exact H' |].
  split; [apply holds_traverse, H' |]. split; [exact Hlen | exact Hsame].
Qed.

Lemma insert_before_adds_before_the_first_match_witness :
  (holds sample_list.1 sample_list.2 ["a"; "b"; "c"] /\ (length ["a"; "b"; "c"] <= 3)%nat)
  /\ exists nodes' i' m,
      insert_before 3 sample_list.1 sample_list.2 "c" "x" = Some (nodes', i', Return m)
      /\ holds nodes' i' ["a"; "b"; "x"; "c"]
      /\ _traverse_linked_list nodes' i' = Some ["a"; "b"; "x"; "c"]
      /\ length nodes' = S (length sample_list.1)
      /\ ("c" ∉ ["a"; "b"; "c"] -> i' = sample_list.2).
Proof.
  assert (Hfuel : (length ["a"; "b"; "c"] <= 3)%nat) by (cbn; lia).
  split; [split; [exact sample_list_holds | exact Hfuel] |].
  exact (insert_before_adds_before_the_first_match 3 _ _ _ "c" "x" sample_list_holds Hfuel).
Defined.

(** X26. The display always ends. Whatever the node store and the instance,
    [_traverse_linked_list] returns within as many rounds as the store has
    nodes, a list no longer than the store: a node met again ends the
    walk. *)
Theorem traversal_always_ends (nodes : node_store) (i : list_instance) :
  exists result,
    _traverse_linked_list nodes i = Some result
    /\ (length result <= length nodes)%nat.
Proof.
  unfold _traverse_linked_list.
  assert (size ((list_to_set (map fst nodes) : gset string) ∖ ∅) <= length nodes)%nat as Hsize.
  { etransitivity; [apply subseteq_size | ].
    - intros x Hx. apply elem_of_difference in Hx as [Hx _]. exact Hx.
    - rewrite <- (length_map fst nodes). apply size_keys_le. }
  destruct (traverse_loop_total nodes (length nodes) (head i) ∅ Hsize) as (result & Hrun & Hlen).
  exists result. split; [exact Hrun | lia].
Qed.

(** A head that links to itself. *)

Lemma find_last_self (nodes : node_store) (id : string) (node : node_data) :
  Dict.get id nodes = Some node -> next node = Some id -> given (Some id) = true ->
  forall fuel, find_last fuel nodes (Some id) = None.
Proof.
  intros Hget Hnext Hgiven fuel.
  induction fuel as [| fuel IH]; cbn [find_last]; rewrite Hgiven, Hget, Hnext, Hgiven;
    [reflexivity | exact IH].
Qed.

Lemma find_before_self (nodes : node_store) (id : string) (node : node_data)
    (target : string) :
  Dict.get id nodes = Some node -> next node = Some id -> given (Some id) = true ->
  name node <> target ->
  forall fuel, find_before fuel nodes (Some id) target = None.
Proof.
  intros Hget Hnext Hgiven Hname fuel.
  assert (is_named nodes (Some id) target = false) as Hnamed.
  { unfold is_named. rewrite Hgiven, Hget. apply String.eqb_neq, Hname. }
  induction fuel as [| fuel IH]; cbn [find_before]; rewrite Hgiven, Hget, Hnext, Hnamed;
    [reflexivity | exact IH].
Qed.

(** X27. A list made to loop. When the variable [n] is bound to the head node
    of the list [l], [set_chained_attribute], the statement
    [l.head.next = n], makes the head node its own successor. From then on
    [_traverse_linked_list] still displays the one item, but [insert_last]
    never returns, whatever the number of rounds its loop is given, and
    neither do [delete_node] and [insert_before] for a target that is not
    that item. *)
Theorem chained_head_makes_the_loops_run_forever (c : context) (l n id : string)
    (i : list_instance) (node : node_data) :
  well_numbered (nodes c) ->
  Dict.get l (instances c) = Some i -> head i = Some id ->
  Dict.get n (variables c) = Some id ->
  Dict.get id (nodes c) = Some node ->
  let c' := (set_chained_attribute l n c).1 in
  Dict.get l (instances c') = Some i
  /\ Dict.get id (nodes c') = Some (with_next (Some id) node)
  /\ _traverse_linked_list (nodes c') i = Some [name node]
  /\ forall fuel data,
       insert_last fuel (nodes c') i data = None
       /\ forall target_name, target_name <> name node ->
            delete_node fuel (nodes c') i target_name = None
            /\ insert_before fuel (nodes c') i target_name data = None.
Proof.
  intros Hn Hi Hhead Hvar Hnode.
  pose proof (well_numbered_given _ _ _ Hn Hnode) as Hgiven.
  assert ((set_chained_attribute l n c).1 = with_nodes (set_next id (Some id) (nodes c)) c)
    as Hrun.
  { unfold set_chained_attribute, bound. rewrite Hi, Hvar, Hhead, Hgiven.
    unfold Dict.has. rewrite Hnode. reflexivity. }
  cbv zeta. rewrite Hrun. cbn [instances nodes with_nodes].
  pose proof (set_next_same id (Some id) (nodes c) node Hnode) as Hget.
  pose proof (well_numbered_set_next _ id (Some id) Hn) as Hn'.
  set (nodes' := set_next id (Some id) (nodes c)) in *.
  split; [exact Hi |]. split; [exact Hget |]. split.
  - unfold _traverse_linked_list. rewrite Hhead.
    destruct (length nodes') as [| fuel] eqn:Hlen.
    { apply length_zero_iff_nil in Hlen. rewrite Hlen in Hget. discriminate. }
    cbn [traverse_loop]. rewrite bool_decide_eq_false_2 by apply not_elem_of_empty.
    rewrite Hget. cbn [next with_next name].
    assert (traverse_loop fuel nodes' (Some id) ({[id]} ∪ ∅) = Some []) as ->.
    { destruct fuel; cbn [traverse_loop];
        rewrite bool_decide_eq_true_2; try reflexivity;
        apply elem_of_union; left; apply elem_of_singleton; reflexivity. }
    reflexivity.
  - intros fuel data.
    assert (forall v, Dict.get id (Dict.set (new_node_id nodes') v nodes')
                      = Some (with_next (Some id) node)) as Hget1.
    { intros v. rewrite store_get_set_other; [exact Hget |].
      intros Heq. rewrite <- Heq, well_numbered_fresh in Hget by exact Hn'. discriminate. }
    split.
    + unfold insert_last. rewrite Hhead.
      rewrite (find_last_self _ id _ (Hget1 _)); [reflexivity | reflexivity | exact Hgiven].
    + intros target Hne. split.
      * unfold delete_node. rewrite Hhead, Hgiven. cbn [negb].
        unfold is_named at 1. rewrite Hgiven, Hget. cbn [name with_next].
        assert (String.eqb (name node) target = false) as ->
          by (apply String.eqb_neq; congruence).
        rewrite (find_before_self _ id _ target Hget); [reflexivity | reflexivity | exact Hgiven |].
        cbn [name with_next]. congruence.
      * unfold insert_before. rewrite Hhead.
        unfold is_named at 1. rewrite Hgiven, Hget1. cbn [name with_next].
        assert (String.eqb (name node) target = false) as ->
          by (apply String.eqb_neq; congruence).
        rewrite (find_before_self _ id _ target (Hget1 _));
          [reflexivity | reflexivity | exact Hgiven |].
        cbn [name with_next]. congruence.
Qed.

Lemma chained_head_makes_the_loops_run_forever_witness :
  let node := create_node_data "DataNode" "A" in
  let i := with_head (Some "node_0") 0 (create_instance_data "SinglyLinkedList") in
  (well_numbered (nodes headed_context)
   /\ Dict.get "l" (instances headed_context) = Some i /\ head i = Some "node_0"
   /\ Dict.get "n" (variables headed_context) = Some "node_0"
   /\ Dict.get "node_0" (nodes headed_context) = Some node)
  /\ Dict.get "l" (instances looping_context) = Some i
  /\ Dict.get "node_0" (nodes looping_context) = Some (with_next (Some "node_0") node)
  /\ _traverse_linked_list (nodes looping_context) i = Some ["A"]
  /\ forall fuel data,
       insert_last fuel (nodes looping_context) i data = None
       /\ forall target_name, target_name <> "A" ->
            delete_node fuel (nodes looping_context) i target_name = None
            /\ insert_before fuel (nodes looping_context) i target_name data = None.
Proof.
  cbv zeta.
  assert (H1 : well_numbered (nodes headed_context)) by reflexivity.
  split; [repeat split; try reflexivity |].
  exact (chained_head_makes_the_loops_run_forever headed_context "l" "n" "node_0" _ _
           H1 eq_refl eq_refl eq_refl eq_refl).
Defined.

(** Execution by behaviour. *)

Ltac message_returns :=
  match goal with
  | |- exists m, ?call = Return m =>
      destruct call eqn:E; [eauto | vm_compute in E; discriminate]
  end.

Lemma using_method_returns (m method_name : string) :
  exists m', using_method (Return m) method_name = Return m'.
Proof. unfold using_method. cbn [bind]. message_returns. Qed.

Lemma store_no_exception (c : context) (instance_name method_name : string)
    (nodes' : node_store) (i' : list_instance) (m : string) :
  no_exception (Some (store c instance_name (nodes', i', Return m) method_name)).
Proof.
  unfold store. destruct (using_method_returns m method_name) as [m' ->]. exact I.
Qed.

Lemma insert_front_returns (nodes : node_store) (i : list_instance) (d : string) :
  exists nodes' i' m, insert_front nodes i d = (nodes', i', Return m).
Proof.
  unfold insert_front. destruct (head i).
  - destruct (insert_message "front" d (Some (count i + 1)) None) as [m Hm].
    { apply list_elem_of_further, list_elem_of_here. }
    eexists _, _, m. rewrite <- Hm. reflexivity.
  - destruct (insert_message "first" d None None) as [m Hm]; [apply list_elem_of_here |].
    eexists _, _, m. rewrite <- Hm. reflexivity.
Qed.

Lemma insert_last_returns (fuel : nat) (nodes : node_store) (i : list_instance) (d : string) :
  insert_last fuel nodes i d = None
  \/ exists nodes' i' m, insert_last fuel nodes i d = Some (nodes', i', Return m).
Proof.
  unfold insert_last. destruct (head i).
  - destruct (find_last _ _ _); [| left; reflexivity]. right.
    destruct (insert_message "last" d (Some (count i + 1)) None) as [m Hm].
    { do 2 apply list_elem_of_further. apply list_elem_of_here. }
    eexists _, _, m. rewrite <- Hm. reflexivity.
  - right. destruct (insert_message "first" d None None) as [m Hm]; [apply list_elem_of_here |].
    eexists _, _, m. rewrite <- Hm. reflexivity.
Qed.

Lemma insert_before_returns (fuel : nat) (nodes : node_store) (i : list_instance)
    (target d : string) :
  insert_before fuel nodes i target d = None
  \/ exists nodes' i' m, insert_before fuel nodes i target d = Some (nodes', i', Return m).
Proof.
  unfold insert_before.
  destruct (insert_message "before" d (Some (count i + 1)) (Some target)) as [m Hm].
  { do 3 apply list_elem_of_further. apply list_elem_of_here. }
  destruct (target_message "target_not_found" target) as [m' Hm']; [apply list_elem_of_here |].
  destruct (is_named _ _ _).
  - right. eexists _, _, m. rewrite <- Hm. reflexivity.
  - destruct (find_before _ _ _ _) as [[[current next_node_id] |] |]; [right | right | left; reflexivity].
    + eexists _, _, m. rewrite <- Hm. reflexivity.
    + eexists _, _, m'. rewrite <- Hm'. reflexivity.
Qed.

Lemma delete_node_returns (fuel : nat) (nodes : node_store) (i : list_instance)
    (target : string) :
  delete_node fuel nodes i target = None
  \/ exists nodes' i' m, delete_node fuel nodes i target = Some (nodes', i', Return m).
Proof.
  unfold delete_node.
  destruct (target_message "delete_empty_list" target) as [m1 Hm1].
  { apply list_elem_of_further, list_elem_of_here. }
  destruct (target_message "delete_target_not_found" target) as [m2 Hm2].
  { do 2 apply list_elem_of_further. apply list_elem_of_here. }
  destruct (negb (given (head i))).
  { right. eexists _, _, m1. rewrite <- Hm1. reflexivity. }
  destruct (is_named _ _ _).
  { right. destruct (delete_message target (Z.max 0 (count i - 1)) true) as [m Hm].
    eexists _, _, m. rewrite <- Hm. reflexivity. }
  destruct (find_before _ _ _ _) as [[[current next_node_id] |] |]; [right | right | left; reflexivity].
  - destruct (delete_message target (Z.max 0 (count i - 1)) false) as [m Hm].
    eexists _, _, m. rewrite <- Hm. reflexivity.
  - eexists _, _, m2. rewrite <- Hm2. reflexivity.
Qed.

Lemma _execute_insert_front_behavior_no_exception (c : context) (i : list_instance)
    (instance_name method_name d : string) :
  no_exception (Some (_execute_insert_front_behavior c i instance_name method_name d)).
Proof.
  unfold _execute_insert_front_behavior.
  destruct (insert_front_returns (nodes c) i d) as (nodes' & i' & m & ->).
  apply store_no_exception.
Qed.

Lemma _execute_insert_last_behavior_no_exception (fuel : nat) (c : context)
    (i : list_instance) (instance_name method_name d : string) :
  no_exception (_execute_insert_last_behavior fuel c i instance_name method_name d).
Proof.
  unfold _execute_insert_last_behavior.
  destruct (insert_last_returns fuel (nodes c) i d) as [-> | (nodes' & i' & m & ->)];
    [exact I | apply store_no_exception].
Qed.

Lemma _execute_insert_before_behavior_no_exception (fuel : nat) (c : context)
    (i : list_instance) (instance_name method_name target d : string) :
  no_exception (_execute_insert_before_behavior fuel c i instance_name method_name target d).
Proof.
  unfold _execute_insert_before_behavior.
  destruct (insert_before_returns fuel (nodes c) i target d) as [-> | (nodes' & i' & m & ->)];
    [exact I | apply store_no_exception].
Qed.

Lemma _execute_delete_behavior_no_exception (fuel : nat) (c : context)
    (i : list_instance) (instance_name method_name target : string) :
  no_exception (_execute_delete_behavior fuel c i instance_name method_name target).
Proof.
  unfold _execute_delete_behavior.
  destruct (delete_node_returns fuel (nodes c) i target) as [-> | (nodes' & i' & m & ->)];
    [exact I | apply store_no_exception].
Qed.

Lemma _execute_traverse_behavior_no_exception (c : context) (i : list_instance)
    (instance_name method_name : string) :
  no_exception (_execute_traverse_behavior c i instance_name method_name).
Proof.
  unfold _execute_traverse_behavior.
  destruct (_get_instance_display (nodes c) i) as [[| item display_data] |]; [| | exact I].
  - assert (exists m, get_message "traverse_empty" [] = Return m) as [m ->] by message_returns.
    assert (exists m, get_traverse_message instance_name method_name None = Return m)
      as [m' ->] by message_returns.
    exact I.
  - assert (exists m, get_traverse_message instance_name method_name
                        (Some ("-> " +:+ Py.join " -> " (item :: display_data))) = Return m)
      as [m' ->] by message_returns.
    exact I.
Qed.

Lemma message_no_exception (c : context) (key : string) (kwargs : list (string * argument)) :
  (exists m, get_message key kwargs = Return m) ->
  no_exception (Some (c, get_message key kwargs)).
Proof. intros [m ->]. exact I. Qed.

(** X28. [execute_method_by_behavior] never raises. Whatever the context, the
    behaviours on record, the instance name, the method name and the
    parameter string, the call returns a message (or a loop of the node
    manager does not end): every template it formats gets the fields it
    names. *)
Theorem execute_method_by_behavior_never_raises (fuel : nat)
    (method_definitions : list (string * BehaviorAnalyzer.behavior)) (c : context)
    (instance_name method_name params : string) :
  no_exception
    (execute_method_by_behavior fuel method_definitions c instance_name method_name params).
Proof.
  unfold execute_method_by_behavior.
  destruct (Dict.get instance_name (instances c)) as [i |]; [| exact I].
  destruct (Dict.get _ method_definitions) as [method_info |]; [| exact I].
  repeat match goal with
         | |- no_exception (if ?b then _ else _) => destruct b
         | |- no_exception (match ?l with [] => _ | _ :: _ => _ end) => destruct l
         end;
    first [ apply _execute_traverse_behavior_no_exception
          | apply _execute_insert_front_behavior_no_exception
          | apply _execute_insert_last_behavior_no_exception
          | apply _execute_insert_before_behavior_no_exception
          | apply _execute_delete_behavior_no_exception
          | unfold get_error_message; apply message_no_exception; message_returns ].
Qed.

End LinkedListFacts.

(** ** The memory figures of a trace *)

Module TraceMemory.
Import Trace Wrapper.

Lemma memory_deltas_total (t : list TraceEntry) : forall previous,
  foldr Z.add 0 (map t_memory_delta (memory_deltas previous t))
  = default previous (last (map t_memory_usage t)) - previous.
Proof.
  induction t as [| e t IH]; intros previous; cbn [memory_deltas map foldr t_memory_delta].
  - cbn. lia.
  - rewrite IH, last_cons. destruct (last (map t_memory_usage t)); cbn; lia.
Qed.

Lemma memory_deltas_length (t : list TraceEntry) : forall previous,
  length (memory_deltas previous t) = length t.
Proof. induction t as [| e t IH]; intros previous; cbn; [| rewrite IH]; reflexivity. Qed.

Lemma memory_deltas_usage (t : list TraceEntry) : forall previous,
  map t_memory_usage (memory_deltas previous t) = map (fun e => Z.max 0 (t_memory_usage e)) t.
Proof.
  induction t as [| e t IH]; intros previous; cbn [memory_deltas map t_memory_usage];
    [reflexivity |].
  rewrite IH. f_equal. destruct (Z.ltb_spec (t_memory_usage e) 0); lia.
Qed.

(** X29. The memory figures [_parse_interactive_output] writes into a trace.
    Every entry is kept; its [memory_delta] is its memory usage less that of
    the entry before it (less 0 for the first), so the deltas of a trace add
    up to the usage its last entry reported; and a negative usage is
    replaced by 0, after the delta was taken from it. *)
Theorem memory_deltas_add_up_to_the_last_usage (t : list TraceEntry) :
  length (memory_deltas 0 t) = length t
  /\ foldr Z.add 0 (map t_memory_delta (memory_deltas 0 t))
     = default 0 (last (map t_memory_usage t))
  /\ map t_memory_usage (memory_deltas 0 t) = map (fun e => Z.max 0 (t_memory_usage e)) t.
Proof.
  split; [apply memory_deltas_length |]. split; [| apply memory_deltas_usage].
  rewrite memory_deltas_total. lia.
Qed.

End TraceMemory.

(** ** Graphs *)

Module GraphFacts.
Import GraphNodeManager.

Lemma mem_spec (x : string) (l : list string) : mem x l = true <-> x ∈ l.
Proof.
  unfold mem. induction l as [| y l IH]; cbn [existsb].
  - split; [discriminate | intros H; inversion H].
  - rewrite orb_true_iff, IH, elem_of_cons, String.eqb_eq. reflexivity.
Qed.

Lemma mem_false (x : string) (l : list string) : mem x l = false <-> x ∉ l.
Proof.
  rewrite <- mem_spec. destruct (mem x l); split; congruence.
Qed.

Lemma remove_subset (x y : string) (l : list string) : x ∈ remove y l -> x ∈ l.
Proof.
  induction l as [| z l IH]; cbn [remove]; [tauto |].
  destruct (String.eqb z y).
  - apply list_elem_of_further.
  - rewrite !elem_of_cons. tauto.
Qed.

Lemma remove_NoDup (y : string) (l : list string) : NoDup l -> NoDup (remove y l).
Proof.
  induction l as [| z l IH]; cbn [remove]; [tauto |].
  intros H. apply NoDup_cons in H as [Hz Hl].
  destruct (String.eqb z y); [exact Hl |].
  apply NoDup_cons. split; [| apply IH, Hl].
  intros Hin. apply Hz. eapply remove_subset, Hin.
Qed.

Lemma remove_gone (y : string) (l : list string) : NoDup l -> y ∉ remove y l.
Proof.
  induction l as [| z l IH]; cbn [remove]; [intros _; apply not_elem_of_nil |].
  intros H. apply NoDup_cons in H as [Hz Hl].
  destruct (String.eqb z y) eqn:E.
  - apply String.eqb_eq in E. subst. exact Hz.
  - apply String.eqb_neq in E. rewrite elem_of_cons. intros [Heq | Hin]; [congruence |].
    exact (IH Hl Hin).
Qed.

Lemma remove_other (x y : string) (l : list string) : x ∈ l -> x <> y -> x ∈ remove y l.
Proof.
  induction l as [| z l IH]; cbn [remove]; [tauto |].
  intros Hin Hne. destruct (String.eqb z y) eqn:E.
  - apply String.eqb_eq in E. subst. apply elem_of_cons in Hin as [Heq | Hin]; [congruence | exact Hin].
  - apply elem_of_cons in Hin as [-> | Hin]; [apply list_elem_of_here |].
    apply list_elem_of_further, IH; assumption.
Qed.

Lemma remove_present_subset (x y : string) (l : list string) :
  x ∈ remove_present y l -> x ∈ l.
Proof. unfold remove_present. destruct (mem y l); [apply remove_subset | tauto]. Qed.

Lemma remove_present_NoDup (y : string) (l : list string) :
  NoDup l -> NoDup (remove_present y l).
Proof. unfold remove_present. destruct (mem y l); [apply remove_NoDup | tauto]. Qed.

Lemma remove_present_gone (y : string) (l : list string) :
  NoDup l -> y ∉ remove_present y l.
Proof.
  unfold remove_present. destruct (mem y l) eqn:E; [apply remove_gone |].
  intros _. apply mem_false, E.
Qed.

Lemma remove_present_other (x y : string) (l : list string) :
  x ∈ l -> x <> y -> x ∈ remove_present y l.
Proof. unfold remove_present. destruct (mem y l); [apply remove_other | tauto]. Qed.

Lemma append_new_elem (x y : string) (l : list string) :
  x ∈ append_new y l <-> x ∈ l \/ x = y.
Proof.
  unfold append_new. destruct (mem y l) eqn:E.
  - apply mem_spec in E. split; [tauto | intros [H | ->]; assumption].
  - rewrite elem_of_app, list_elem_of_singleton. reflexivity.
Qed.

Lemma append_new_NoDup (y : string) (l : list string) : NoDup l -> NoDup (append_new y l).
Proof.
  unfold append_new. destruct (mem y l) eqn:E; [tauto |].
  intros H. apply NoDup_app. split; [exact H |]. split; [| apply NoDup_singleton].
  intros x Hx Hy. apply list_elem_of_singleton in Hy. subst. apply mem_false in E. exact (E Hx).
Qed.

(** The adjacency list as a dictionary. *)

Lemma adj_get_set_same {A} (k : string) (v : A) (d : list (string * A)) :
  Dict.get k (Dict.set k v d) = Some v.
Proof.
  induction d as [| [k' v'] d IH]; cbn.
  - rewrite String.eqb_refl. reflexivity.
  - destruct (String.eqb k k') eqn:E; cbn.
    + rewrite String.eqb_refl. reflexivity.
    + rewrite E. exact IH.
Qed.

Lemma adj_get_set_other {A} (k k' : string) (v : A) (d : list (string * A)) :
  k <> k' -> Dict.get k' (Dict.set k v d) = Dict.get k' d.
Proof.
  intros Hne. induction d as [| [k0 v0] d IH]; cbn.
  - destruct (String.eqb k' k) eqn:E; [| reflexivity].
    apply String.eqb_eq in E. congruence.
  - destruct (String.eqb k k0) eqn:E; cbn.
    + apply String.eqb_eq in E. subst k0.
      destruct (String.eqb k' k) eqn:E'; [| reflexivity].
      apply String.eqb_eq in E'. congruence.
    + rewrite IH. reflexivity.
Qed.

Lemma adj_set_new {A} (k : string) (v : A) (d : list (string * A)) :
  Dict.get k d = None -> Dict.set k v d = d ++ [(k, v)].
Proof.
  induction d as [| [k' v'] d IH]; cbn; [reflexivity |].
  destruct (String.eqb k k'); [discriminate |].
  intros H. rewrite IH by exact H. reflexivity.
Qed.

Lemma adj_get_elem {A} (k : string) (d : list (string * A)) (v : A) :
  Dict.get k d = Some v -> (k, v) ∈ d.
Proof.
  induction d as [| [k' v'] d IH]; cbn; [discriminate |].
  destruct (String.eqb k k') eqn:E.
  - apply String.eqb_eq in E. subst. intros [= ->]. apply list_elem_of_here.
  - intros H. apply list_elem_of_further, IH, H.
Qed.

Lemma adj_get_none {A} (k : string) (d : list (string * A)) :
  Dict.get k d = None -> k ∉ map fst d.
Proof.
  induction d as [| [k' v'] d IH]; cbn; [intros _; apply not_elem_of_nil |].
  destruct (String.eqb k k') eqn:E; [discriminate |].
  apply String.eqb_neq in E. intros H. rewrite elem_of_cons. intros [Heq | Hin]; [congruence |].
  exact (IH H Hin).
Qed.

Lemma adj_has_get {A} (k : string) (d : list (string * A)) :
  Dict.has k d = true -> exists v, Dict.get k d = Some v.
Proof. unfold Dict.has. destruct (Dict.get k d); [eauto | discriminate]. Qed.

Lemma refs_inj (d : list (string * nat)) (u v : string) (r : nat) :
  NoDup (map snd d) -> (u, r) ∈ d -> (v, r) ∈ d -> u = v.
Proof.
  induction d as [| [k r'] d IH]; cbn [map snd]; intros Hnd Hu Hv; [inversion Hu |].
  apply NoDup_cons in Hnd as [Hr Hnd].
  assert (forall w, (w, r) ∈ d -> r' <> r) as Hne.
  { intros w Hw ->. apply Hr. apply list_elem_of_fmap. exists (w, r). split; [reflexivity | exact Hw]. }
  apply elem_of_cons in Hu as [Hu | Hu]; apply elem_of_cons in Hv as [Hv | Hv].
  - congruence.
  - injection Hu as -> ->. exfalso. exact (Hne _ Hv eq_refl).
  - injection Hv as -> ->. exfalso. exact (Hne _ Hu eq_refl).
  - exact (IH Hnd Hu Hv).
Qed.

Lemma del_get (v u : string) (d : list (string * nat)) :
  Dict.get u (del v d) = if String.eqb u v then None else Dict.get u d.
Proof.
  unfold del. induction d as [| [k r] d IH]; cbn [filter Dict.get].
  - destruct (String.eqb u v); reflexivity.
  - rewrite filter_cons. cbn [fst]. destruct (decide (String.eqb k v = false)) as [E | E].
    + cbn [Dict.get]. destruct (String.eqb u k) eqn:Euk.
      * apply String.eqb_eq in Euk. subst. rewrite E. reflexivity.
      * exact IH.
    + apply not_false_is_true, String.eqb_eq in E. subst k. rewrite IH.
      destruct (String.eqb u v); reflexivity.
Qed.

Lemma del_sublist (v : string) (d : list (string * nat)) : del v d `sublist_of` d.
Proof. apply sublist_filter. Qed.

Lemma del_elem (v : string) (d : list (string * nat)) (e : string * nat) :
  e ∈ del v d -> e ∈ d.
Proof. unfold del. rewrite list_elem_of_filter. tauto. Qed.

(** Changes made in place to a list. *)

Lemma update_list_length (heap : store) (d : list (string * nat)) (v : string)
    (f : list string -> list string) :
  length (update_list heap d v f) = length heap.
Proof.
  unfold update_list. destruct (Dict.get v d) as [r |]; [| reflexivity].
  destruct (heap !! r); [apply length_insert | reflexivity].
Qed.

Lemma lookup_neighbors_update (heap : store) (d : list (string * nat)) (v u : string)
    (f : list string -> list string) :
  NoDup (map snd d) ->
  lookup_neighbors (update_list heap d v f) d u
  = if String.eqb u v then f <$> lookup_neighbors heap d u else lookup_neighbors heap d u.
Proof.
  intros Hnd. unfold lookup_neighbors, update_list.
  destruct (String.eqb u v) eqn:E.
  - apply String.eqb_eq in E. subst u.
    destruct (Dict.get v d) as [r |]; [| reflexivity].
    destruct (heap !! r) as [l |] eqn:Hl; [| rewrite Hl; reflexivity].
    rewrite list_lookup_insert_eq by (eapply lookup_lt_Some, Hl). reflexivity.
  - apply String.eqb_neq in E.
    destruct (Dict.get u d) as [ru |] eqn:Hu; [| reflexivity].
    destruct (Dict.get v d) as [r |] eqn:Hv; [| reflexivity].
    destruct (heap !! r) as [l |] eqn:Hl; [| reflexivity].
    apply list_lookup_insert_ne. intros ->. apply E.
    eapply refs_inj; eauto using adj_get_elem.
Qed.

Lemma fold_update_length (d : list (string * nat)) (f : list string -> list string)
    (keys : list string) : forall heap,
  length (fold_left (fun heap v => update_list heap d v f) keys heap) = length heap.
Proof.
  induction keys as [| k keys IH]; intros heap; cbn [fold_left]; [reflexivity |].
  rewrite IH. apply update_list_length.
Qed.

Lemma lookup_neighbors_fold (d : list (string * nat)) (f : list string -> list string)
    (u : string) (keys : list string) : forall heap,
  NoDup (map snd d) -> NoDup keys ->
  lookup_neighbors (fold_left (fun heap v => update_list heap d v f) keys heap) d u
  = if bool_decide (u ∈ keys) then f <$> lookup_neighbors heap d u
    else lookup_neighbors heap d u.
Proof.
  induction keys as [| k keys IH]; intros heap Hrefs Hnd; cbn [fold_left].
  - rewrite bool_decide_eq_false_2 by apply not_elem_of_nil. reflexivity.
  - apply NoDup_cons in Hnd as [Hk Hnd].
    rewrite IH by assumption. rewrite lookup_neighbors_update by exact Hrefs.
    destruct (String.eqb u k) eqn:E.
    + apply String.eqb_eq in E. subst u.
      rewrite (bool_decide_eq_false_2 _ Hk).
      rewrite bool_decide_eq_true_2 by apply list_elem_of_here. reflexivity.
    + apply String.eqb_neq in E. case_bool_decide as Hin.
      * rewrite bool_decide_eq_true_2 by (apply list_elem_of_further, Hin). reflexivity.
      * rewrite bool_decide_eq_false_2; [reflexivity |].
        rewrite elem_of_cons. intros [Heq | H']; [congruence | exact (Hin H')].
Qed.

Lemma lookup_neighbors_fold_all (heap : store) (d : list (string * nat))
    (f : list string -> list string) (u : string) :
  NoDup (map fst d) -> NoDup (map snd d) ->
  lookup_neighbors (fold_left (fun heap v => update_list heap d v f) (map fst d) heap) d u
  = f <$> lookup_neighbors heap d u.
Proof.
  intros Hkeys Hrefs. rewrite lookup_neighbors_fold by assumption.
  case_bool_decide as Hin; [reflexivity |].
  unfold lookup_neighbors. destruct (Dict.get u d) as [r |] eqn:Hu; [| reflexivity].
  exfalso. apply Hin. apply adj_get_elem in Hu.
  apply list_elem_of_fmap. exists (u, r). split; [reflexivity | exact Hu].
Qed.

Lemma sound_vertex (heap : store) (d : list (string * nat)) (symmetric : bool) (v : string) :
  sound heap d symmetric -> Dict.has v d = true ->
  is_Some (lookup_neighbors heap d v).
Proof.
  intros (_ & _ & Hvalid & _) Hhas. apply adj_has_get in Hhas as [r Hr].
  unfold lookup_neighbors. rewrite Hr. apply lookup_lt_is_Some.
  apply (Hvalid (v, r)), adj_get_elem, Hr.
Qed.

Lemma lookup_neighbors_vertex (heap : store) (d : list (string * nat)) (v : string)
    (ns : list string) :
  lookup_neighbors heap d v = Some ns -> Dict.has v d = true.
Proof.
  unfold lookup_neighbors, Dict.has. destruct (Dict.get v d); [reflexivity | discriminate].
Qed.

(** Soundness is kept. *)

Lemma sound_plain (heap : store) (d : list (string * nat)) (symmetric : bool) :
  sound heap d symmetric -> sound heap d false.
Proof.
  intros (H1 & H2 & H3 & H4 & _).
  split; [exact H1 |]. split; [exact H2 |]. split; [exact H3 |].
  split; [exact H4 | discriminate].
Qed.

Lemma sound_symmetric (heap : store) (d : list (string * nat)) :
  sound heap d false ->
  (forall v ns u, lookup_neighbors heap d v = Some ns -> u ∈ ns ->
     exists ms, lookup_neighbors heap d u = Some ms /\ v ∈ ms) ->
  sound heap d true.
Proof.
  intros (H1 & H2 & H3 & H4 & _) HS.
  split; [exact H1 |]. split; [exact H2 |]. split; [exact H3 |].
  split; [exact H4 | intros _; exact HS].
Qed.

Lemma sound_create (symmetric : bool) : sound [] [] symmetric.
Proof.
  split; [apply NoDup_nil_2 |]. split; [apply NoDup_nil_2 |].
  split; [intros e He; inversion He |].
  split; [intros v ns; discriminate | intros _ v ns u; discriminate].
Qed.

Lemma lookup_neighbors_added (heap : store) (d : list (string * nat)) (symmetric : bool)
    (v u : string) :
  sound heap d symmetric -> Dict.get v d = None ->
  lookup_neighbors (heap ++ [[]]) (Dict.set v (length heap) d) u
  = if String.eqb u v then Some [] else lookup_neighbors heap d u.
Proof.
  intros (_ & _ & Hvalid & _) Hnew. unfold lookup_neighbors.
  destruct (String.eqb u v) eqn:E.
  - apply String.eqb_eq in E. subst u. rewrite adj_get_set_same.
    rewrite lookup_app_r by lia. rewrite Nat.sub_diag. reflexivity.
  - apply String.eqb_neq in E. rewrite adj_get_set_other by congruence.
    destruct (Dict.get u d) as [r |] eqn:Hu; [| reflexivity].
    apply lookup_app_l. apply (Hvalid (u, r)), adj_get_elem, Hu.
Qed.

Lemma sound_add_vertex (heap : store) (d : list (string * nat)) (symmetric : bool)
    (v : string) :
  sound heap d symmetric -> Dict.get v d = None ->
  sound (heap ++ [[]]) (Dict.set v (length heap) d) symmetric.
Proof.
  intros Hs Hnew.
  pose proof (lookup_neighbors_added heap d symmetric v) as Hlook.
  destruct Hs as (Hkeys & Hrefs & Hvalid & HN & HS).
  assert (sound heap d symmetric) as Hs
    by (split; [| split; [| split; [| split]]]; assumption).
  rewrite (adj_set_new v (length heap) d Hnew) in Hlook |- *.
  split; [| split; [| split; [| split]]].
  - rewrite map_app. apply NoDup_app. split; [exact Hkeys |]. split; [| apply NoDup_singleton].
    intros x Hx Hv. cbn in Hv. apply list_elem_of_singleton in Hv. subst x.
    exact (adj_get_none _ _ Hnew Hx).
  - rewrite map_app. apply NoDup_app. split; [exact Hrefs |]. split; [| apply NoDup_singleton].
    intros r Hr Hv. cbn in Hv. apply list_elem_of_singleton in Hv. subst r.
    apply list_elem_of_fmap in Hr as (e & He & Hin). apply Hvalid in Hin. lia.
  - intros e He. rewrite length_app. cbn [length].
    apply elem_of_app in He as [He | He]; [apply Hvalid in He; lia |].
    apply list_elem_of_singleton in He. subst e. cbn. lia.
  - intros x ns. rewrite (Hlook x Hs Hnew). destruct (String.eqb x v) eqn:E.
    + intros [= <-]. split; [apply NoDup_nil_2 | intros u Hu; inversion Hu].
    + intros Hx. destruct (HN x ns Hx) as [Hnd Hmem]. split; [exact Hnd |].
      intros u Hu. rewrite (Hlook u Hs Hnew). destruct (String.eqb u v); [eauto | eauto].
  - intros Hsym x ns u. rewrite (Hlook x Hs Hnew). destruct (String.eqb x v) eqn:E.
    + intros [= <-] Hu. inversion Hu.
    + intros Hx Hu. destruct (HS Hsym x ns u Hx Hu) as (ms & Hms & Hin).
      exists ms. split; [| exact Hin]. rewrite (Hlook u Hs Hnew).
      destruct (String.eqb u v) eqn:E'; [| exact Hms].
      apply String.eqb_eq in E'. subst u. unfold lookup_neighbors in Hms.
      rewrite Hnew in Hms. discriminate.
Qed.

Lemma sound_update (heap : store) (d : list (string * nat)) (v : string)
    (f : list string -> list string) :
  sound heap d false ->
  (forall l, NoDup l -> NoDup (f l)) ->
  (forall l x, x ∈ f l -> x ∈ l \/ Dict.has x d = true) ->
  sound (update_list heap d v f) d false.
Proof.
  intros Hs Hf1 Hf2. pose proof Hs as (Hkeys & Hrefs & Hvalid & HN & _).
  assert (forall u, is_Some (lookup_neighbors heap d u) ->
                    is_Some (lookup_neighbors (update_list heap d v f) d u)) as Hsome.
  { intros u Hu. rewrite lookup_neighbors_update by exact Hrefs.
    destruct (String.eqb u v); [apply fmap_is_Some, Hu | exact Hu]. }
  split; [exact Hkeys |]. split; [exact Hrefs |].
  split; [intros e He; rewrite update_list_length; apply Hvalid, He |].
  split; [| discriminate].
  intros x ns. rewrite lookup_neighbors_update by exact Hrefs.
  destruct (String.eqb x v).
  - destruct (lookup_neighbors heap d x) as [l |] eqn:Hl; [| discriminate].
    intros [= <-]. destruct (HN x l Hl) as [Hnd Hmem]. split; [apply Hf1, Hnd |].
    intros u Hu. apply Hsome. apply Hf2 in Hu as [Hu | Hu]; [apply Hmem, Hu |].
    eapply sound_vertex; eauto.
  - intros Hx. destruct (HN x ns Hx) as [Hnd Hmem]. split; [exact Hnd |].
    intros u Hu. apply Hsome, Hmem, Hu.
Qed.

Lemma lookup_two_updates (heap : store) (d : list (string * nat)) (v1 v2 u : string)
    (f1 f2 : list string -> list string) :
  NoDup (map snd d) ->
  lookup_neighbors (update_list (update_list heap d v1 f1) d v2 f2) d u
  = (if String.eqb u v2 then f2 else id)
      <$> ((if String.eqb u v1 then f1 else id) <$> lookup_neighbors heap d u).
Proof.
  intros Hrefs. rewrite !lookup_neighbors_update by exact Hrefs.
  destruct (String.eqb u v2), (String.eqb u v1), (lookup_neighbors heap d u); reflexivity.
Qed.

Lemma sound_add_edge (heap : store) (d : list (string * nat)) (symmetric : bool)
    (v1 v2 : string) :
  sound heap d symmetric -> Dict.has v1 d = true -> Dict.has v2 d = true ->
  sound (if symmetric
         then update_list (update_list heap d v1 (append_new v2)) d v2 (append_new v1)
         else update_list heap d v1 (append_new v2)) d symmetric.
Proof.
  intros Hs H1 H2.
  assert (forall v, Dict.has v d = true ->
            forall l x, x ∈ append_new v l -> x ∈ l \/ Dict.has x d = true) as Hmem.
  { intros v Hv l x Hx. apply append_new_elem in Hx as [Hx | ->]; [left | right]; assumption. }
  assert (sound (update_list heap d v1 (append_new v2)) d false) as Hs1.
  { apply sound_update; [eapply sound_plain, Hs | apply append_new_NoDup | apply Hmem, H2]. }
  destruct symmetric; [| exact Hs1].
  apply sound_symmetric.
  { apply sound_update; [exact Hs1 | apply append_new_NoDup | apply Hmem, H1]. }
  destruct Hs as (Hkeys & Hrefs & Hvalid & HN & HS).
  assert (sound heap d true) as Hs
    by (split; [| split; [| split; [| split]]]; assumption).
  specialize (HS eq_refl).
  intros x ns2 u. rewrite !lookup_two_updates by exact Hrefs.
  destruct (lookup_neighbors heap d x) as [ns |] eqn:Hx; [| discriminate].
  cbn [fmap option_fmap option_map]. intros [= <-] Hu.
  assert (u ∈ ns \/ (x = v1 /\ u = v2) \/ (x = v2 /\ u = v1)) as Hcases.
  { destruct (String.eqb x v2) eqn:E2; destruct (String.eqb x v1) eqn:E1;
      try apply String.eqb_eq in E1; try apply String.eqb_eq in E2;
      unfold id in Hu; rewrite ?append_new_elem in Hu; tauto. }
  assert (forall ms, x ∈ ms ->
            x ∈ (if String.eqb u v2 then append_new v1 else id)
                  ((if String.eqb u v1 then append_new v2 else id) ms)) as Hmono.
  { intros ms Hin. destruct (String.eqb u v2), (String.eqb u v1); unfold id;
      rewrite ?append_new_elem; tauto. }
  destruct Hcases as [Hin | [[-> ->] | [-> ->]]].
  - destruct (HS x ns u Hx Hin) as (ms & -> & Hxms). eexists. split; [reflexivity |].
    apply Hmono, Hxms.
  - destruct (sound_vertex _ _ _ v2 Hs H2) as [ms ->]. eexists. split; [reflexivity |].
    cbn [fmap option_fmap option_map]. rewrite String.eqb_refl.
    apply append_new_elem. right. reflexivity.
  - destruct (sound_vertex _ _ _ v1 Hs H1) as [ms ->]. eexists. split; [reflexivity |].
    cbn [fmap option_fmap option_map]. rewrite String.eqb_refl.
    destruct (String.eqb v1 v2); unfold id; rewrite ?append_new_elem; tauto.
Qed.

Lemma sound_remove_edge (heap : store) (d : list (string * nat)) (symmetric : bool)
    (v1 v2 : string) :
  sound heap d symmetric ->
  sound (if symmetric
         then update_list (update_list heap d v1 (remove_present v2)) d v2
                (remove_present v1)
         else update_list heap d v1 (remove_present v2)) d symmetric.
Proof.
  intros Hs.
  assert (forall v l x, x ∈ remove_present v l -> x ∈ l \/ Dict.has x d = true) as Hmem.
  { intros v l x Hx. left. eapply remove_present_subset, Hx. }
  assert (sound (update_list heap d v1 (remove_present v2)) d false) as Hs1.
  { apply sound_update; [eapply sound_plain, Hs | apply remove_present_NoDup | apply Hmem]. }
  destruct symmetric; [| exact Hs1].
  apply sound_symmetric.
  { apply sound_update; [exact Hs1 | apply remove_present_NoDup | apply Hmem]. }
  destruct Hs as (Hkeys & Hrefs & Hvalid & HN & HS). specialize (HS eq_refl).
  intros x ns2 u. rewrite !lookup_two_updates by exact Hrefs.
  destruct (lookup_neighbors heap d x) as [ns |] eqn:Hx; [| discriminate].
  cbn [fmap option_fmap option_map]. intros [= <-] Hu.
  destruct (HN x ns Hx) as [Hnd _].
  assert (u ∈ ns /\ (x = v1 -> u <> v2) /\ (x = v2 -> u <> v1)) as (Hin & Hne1 & Hne2).
  { revert Hu.
    destruct (String.eqb_spec x v2) as [E2 | E2]; destruct (String.eqb_spec x v1) as [E1 | E1];
      unfold id; intros Hu.
    - split; [eapply remove_present_subset, remove_present_subset, Hu |].
      split; intros _ ->.
      + apply remove_present_subset in Hu. subst. revert Hu. apply remove_present_gone, Hnd.
      + revert Hu. apply remove_present_gone, remove_present_NoDup, Hnd.
    - split; [eapply remove_present_subset, Hu |]. split; [congruence |].
      intros _ ->. revert Hu. apply remove_present_gone, Hnd.
    - split; [eapply remove_present_subset, Hu |]. split; [| congruence].
      intros _ ->. revert Hu. apply remove_present_gone, Hnd.
    - split; [exact Hu |]. split; congruence. }
  destruct (HS x ns u Hx Hin) as (ms & -> & Hxms). eexists. split; [reflexivity |].
  destruct (String.eqb_spec u v2) as [E2 | E2]; destruct (String.eqb_spec u v1) as [E1 | E1];
    unfold id; repeat apply remove_present_other; try exact Hxms;
    intros Hxv; subst;
    first [ exact (Hne1 eq_refl eq_refl) | exact (Hne2 eq_refl eq_refl) ].
Qed.

Lemma lookup_neighbors_removed (heap : store) (d : list (string * nat)) (vr u : string) :
  NoDup (map fst d) -> NoDup (map snd d) ->
  lookup_neighbors
    (fold_left (fun heap v => update_list heap d v (remove_present vr)) (map fst d) heap)
    (del vr d) u
  = if String.eqb u vr then None else remove_present vr <$> lookup_neighbors heap d u.
Proof.
  intros Hkeys Hrefs.
  pose proof (lookup_neighbors_fold_all heap d (remove_present vr) u Hkeys Hrefs) as Hall.
  unfold lookup_neighbors in *. rewrite del_get.
  destruct (String.eqb u vr); [reflexivity | exact Hall].
Qed.

Lemma sound_remove_vertex (heap : store) (d : list (string * nat)) (symmetric : bool)
    (vr : string) :
  sound heap d symmetric ->
  sound (fold_left (fun heap v => update_list heap d v (remove_present vr)) (map fst d) heap)
        (del vr d) symmetric.
Proof.
  intros (Hkeys & Hrefs & Hvalid & HN & HS).
  pose proof (fun u => lookup_neighbors_removed heap d vr u Hkeys Hrefs) as Hlook.
  split; [| split; [| split; [| split]]].
  - eapply sublist_NoDup; [exact Hkeys |]. apply fmap_sublist, del_sublist.
  - eapply sublist_NoDup; [exact Hrefs |]. apply fmap_sublist, del_sublist.
  - intros e He. rewrite fold_update_length. apply Hvalid. eapply del_elem, He.
  - intros x ns'. rewrite Hlook. destruct (String.eqb x vr) eqn:E; [discriminate |].
    destruct (lookup_neighbors heap d x) as [ns |] eqn:Hx; [| discriminate].
    intros [= <-]. destruct (HN x ns Hx) as [Hnd Hmem].
    split; [apply remove_present_NoDup, Hnd |].
    intros u Hu. rewrite Hlook.
    destruct (String.eqb u vr) eqn:E'.
    + apply String.eqb_eq in E'. subst u. exfalso. revert Hu. apply remove_present_gone, Hnd.
    + apply fmap_is_Some, Hmem. eapply remove_present_subset, Hu.
  - intros Hsym x ns' u. rewrite !Hlook. destruct (String.eqb x vr) eqn:E; [discriminate |].
    apply String.eqb_neq in E.
    destruct (lookup_neighbors heap d x) as [ns |] eqn:Hx; [| discriminate].
    intros [= <-] Hu. destruct (HN x ns Hx) as [Hnd _].
    destruct (String.eqb u vr) eqn:E'.
    + apply String.eqb_eq in E'. subst u. exfalso. revert Hu. apply remove_present_gone, Hnd.
    + apply remove_present_subset in Hu.
      destruct (HS Hsym x ns u Hx Hu) as (ms & -> & Hxms).
      eexists. split; [reflexivity |]. apply remove_present_other; assumption.
Qed.

Lemma perform_sound (repr_strs : list string -> string) (call : change)
    (heap : store) (i : graph_instance) (c : graph_context) (instance_name : string) :
  well_formed heap i ->
  well_formed (perform repr_strs call (heap, i, c) instance_name).1.1.1
              (perform repr_strs call (heap, i, c) instance_name).1.1.2.
Proof.
  unfold well_formed. intros Hs.
  destruct call as [v | v1 v2 | v1 v2 | v]; cbn [perform].
  - unfold add_vertex. destruct (Dict.has v (adjacency_list i)) eqn:Hv; cbn [negb].
    + exact Hs.
    + cbn [fst snd with_adjacency_list adjacency_list class_type].
      apply sound_add_vertex; [exact Hs |].
      unfold Dict.has in Hv. destruct (Dict.get v (adjacency_list i)); [discriminate | reflexivity].
  - unfold add_edge.
    destruct (Dict.has v1 (adjacency_list i)) eqn:H1;
      destruct (Dict.has v2 (adjacency_list i)) eqn:H2; cbn [andb]; try exact Hs.
    cbn [fst snd with_adjacency_list adjacency_list class_type].
    pose proof (sound_add_edge heap (adjacency_list i) _ v1 v2 Hs H1 H2) as Hs'.
    destruct (undirected (class_type i)); exact Hs'.
  - unfold remove_edge.
    destruct (Dict.has v1 (adjacency_list i) && Dict.has v2 (adjacency_list i));
      [| exact Hs].
    cbn [fst snd with_adjacency_list adjacency_list class_type].
    pose proof (sound_remove_edge heap (adjacency_list i) _ v1 v2 Hs) as Hs'.
    destruct (undirected (class_type i)); exact Hs'.
  - unfold remove_vertex.
    destruct (Dict.has v (adjacency_list i)); [| exact Hs].
    cbn [fst snd with_adjacency_list adjacency_list class_type].
    apply sound_remove_vertex, Hs.
Qed.

(** The graph of the vertices [a] and [b] and of the edge between them. *)
Lemma sample_graph_well_formed : well_formed sample_graph.1.1 sample_graph.1.2.
Proof.
  pose proof (sound_create (undirected "Graph")) as H0.
  pose proof (perform_sound sample_repr_strs (AddVertex "a") []
                (create_instance_data "Graph") new_context "g" H0) as H1.
  pose proof (perform_sound sample_repr_strs (AddVertex "b") _ _
                (perform sample_repr_strs (AddVertex "a")
                   ([], create_instance_data "Graph", new_context) "g").1.2 "g" H1) as H2.
  pose proof (perform_sound sample_repr_strs (AddEdge "a" "b") _ _
                (perform sample_repr_strs (AddVertex "b")
                   (perform sample_repr_strs (AddVertex "a")
                      ([], create_instance_data "Graph", new_context) "g").1 "g").1.2
                "g" H2) as H3.
  exact H3.
Qed.

(** X30. [add_vertex], [add_edge], [remove_edge] and [remove_vertex] keep a
    graph well formed, whether the call succeeds or reports a warning or
    an error: every vertex keeps a list of its own, no list names a vertex
    twice or a vertex the graph no longer has, and in a [Graph] or an
    [UndirectedGraph] two vertices name each other or neither does. *)
Theorem changes_keep_the_graph_well_formed (repr_strs : list string -> string)
    (call : change) (heap : store) (i : graph_instance) (c : graph_context)
    (instance_name : string) :
  well_formed heap i ->
  let '(heap', i', _, _) := perform repr_strs call (heap, i, c) instance_name in
  well_formed heap' i'.
Proof.
  intros Hs. pose proof (perform_sound repr_strs call heap i c instance_name Hs) as H.
  destruct (perform repr_strs call (heap, i, c) instance_name) as [[[heap' i'] c'] r].
  exact H.
Qed.

Lemma changes_keep_the_graph_well_formed_witness :
  well_formed sample_graph.1.1 sample_graph.1.2
  /\ neighbors sample_graph.1.1 sample_graph.1.2 "b" = Some ["a"]
  /\ let '(heap', i', _, _) :=
       perform sample_repr_strs (RemoveVertex "a")
         (sample_graph.1.1, sample_graph.1.2, sample_graph.2) "g" in
     well_formed heap' i' /\ neighbors heap' i' "b" = Some [] /\ neighbors heap' i' "a" = None.
Proof.
  split; [exact sample_graph_well_formed |]. split; [reflexivity |].
  pose proof (changes_keep_the_graph_well_formed sample_repr_strs (RemoveVertex "a")
                sample_graph.1.1 sample_graph.1.2 sample_graph.2 "g"
                sample_graph_well_formed) as H.
  split; [exact H | split; reflexivity].
Defined.

End GraphFacts.
